(** * A shallow embedding of the FAT32 volume engine of [filesys.cpp]

    The development follows the source file function by function: the
    mapped image is a list of bytes, every [uint32_t] computation is
    written with its wrap-around, loops that the source bounds only by
    the contents of the image take a fuel argument, and a C++ exception
    is the [Throw]/[Raise] outcome.  Output sent to [std::cout] is not
    part of the modelled state. *)

From Stdlib Require Import ZArith List Lia Bool String Ascii.
From stdpp Require Import base list.

Local Open Scope Z_scope.

(** ** Machine integers *)

(** An unsigned [bits]-wide value keeps the low [bits] bits. *)
Definition wrap (bits x : Z) : Z := x mod 2 ^ bits.

Abbreviation u8 := (wrap 8).
Abbreviation u16 := (wrap 16).
Abbreviation u32 := (wrap 32).
Abbreviation u64 := (wrap 64).

(** [#define FATMASK 0x0FFFFFFF], [FATEND 0x0FFFFFF8], [DEALLOC 0xe5]. *)
Definition FATMASK : Z := 0x0FFFFFFF.
Definition FATEND : Z := 0x0FFFFFF8.
Definition DEALLOC : Z := 0xe5.

(** [~FATMASK] on 32 bits. *)
Definition NOT_FATMASK : Z := 0xF0000000.

(** ** Outcomes

    A function that only reads the image returns a [res]; a function
    that may change the file system returns an [outcome], which keeps
    the state reached when an exception leaves the function. *)

Inductive res (A : Type) : Type :=
| Val (a : A)
| Throw
| Loop.

Arguments Val {A} a.
Arguments Throw {A}.
Arguments Loop {A}.

Definition res_bind {A B} (r : res A) (k : A -> res B) : res B :=
  match r with
  | Val a => k a
  | Throw => Throw
  | Loop => Loop
  end.

Definition of_option {A} (o : option A) : res A :=
  match o with
  | Some a => Val a
  | None => Throw
  end.

Declare Scope res_scope.
Delimit Scope res_scope with res.
Notation "x <- e ;; k" := (res_bind e (fun x => k))
  (at level 60, e at next level, right associativity) : res_scope.

(** ** The mapped image: [mFilesys_] and [filesys_size_] *)

Module Image.

Abbreviation image := (list Z).

(** [filesys_size_] is the length of the mapping. *)
Definition filesys_size (img : image) : Z := Z.of_nat (length img).

(** [mFilesys_[i]] for an index inside the mapping. *)
Definition byte_at (img : image) (i : Z) : Z :=
  default 0 (img !! Z.to_nat i).

(** Inner loop of [ReadValue]:
    [for (p = 0; p < width; ++p) data[i] |= mFilesys_[at + p] << (8 * p)],
    where [data[i]] has type [T] of [tbits] bits. *)
Fixpoint read_bytes (tbits : Z) (img : image) (at_ p : Z) (n : nat)
  (data : Z) : Z :=
  match n with
  | O => data
  | S n' =>
      read_bytes tbits img (at_ + 1) (p + 1) n'
        (wrap tbits (Z.lor data (Z.shiftl (byte_at img at_) (8 * p))))
  end.

(** Outer loop of [ReadValue]: element [i] starts from [data[i] = 0]. *)
Fixpoint read_elems (tbits : Z) (img : image) (at_ width : Z) (len : nat)
  : list Z :=
  match len with
  | O => []
  | S len' =>
      read_bytes tbits img at_ 0 (Z.to_nat width) 0
        :: read_elems tbits img (at_ + width) width len'
  end.

(** [template <typename T> void ReadValue(T* data, size_t len,
    size_t pos, size_t width)].  The [size_t] sum of the guard is
    taken in [Z]: every caller passes a 32-bit offset, so it cannot
    wrap. *)
Definition ReadValue (tbits : Z) (img : image) (len pos width : Z)
  : option (list Z) :=
  if width * len + pos >=? filesys_size img then None
  else Some (read_elems tbits img pos width (Z.to_nat len)).

(** Inner loop of [WriteValue]:
    [mFilesys_[at + p] = (uint8_t)(tData & mask); tData = tData >> 8]. *)
Fixpoint write_bytes (img : image) (at_ tData : Z) (n : nat) : image :=
  match n with
  | O => img
  | S n' =>
      write_bytes (<[Z.to_nat at_ := Z.land tData 0xFF]> img)
        (at_ + 1) (Z.shiftr tData 8) n'
  end.

(** Outer loop of [WriteValue] over [data[0 .. len)]. *)
Fixpoint write_elems (img : image) (at_ width : Z) (data : list Z)
  : image :=
  match data with
  | [] => img
  | d :: ds =>
      write_elems (write_bytes img at_ d (Z.to_nat width))
        (at_ + width) width ds
  end.

(** [template <typename T> void WriteValue(T* data, size_t len,
    size_t pos, size_t width)]. *)
Definition WriteValue (img : image) (data : list Z) (len pos width : Z)
  : option image :=
  if width * len + pos >=? filesys_size img then None
  else Some (write_elems img pos width (take (Z.to_nat len) data)).

(** The single-element calls used for every integer field. *)
Definition read_le (tbits : Z) (img : image) (pos width : Z) : option Z :=
  match ReadValue tbits img 1 pos width with
  | Some (v :: _) => Some v
  | _ => None
  end.

Definition write_le (img : image) (v pos width : Z) : option image :=
  WriteValue img [v] 1 pos width.

End Image.

Import Image.

(** ** Geometry: [struct Fat32Info] *)

Record Fat32Info : Type := mkFat32Info {
  Signature : list Z;      (* uint8_t[2] *)
  BytesPerSec : Z;         (* uint16_t *)
  RootEntCnt : Z;          (* uint16_t *)
  RootDirSector : Z;       (* uint32_t from here on *)
  FATSz16 : Z;
  FATSz32 : Z;
  FATSz : Z;
  RsvdSecCnt : Z;
  NumFats : Z;
  SecPerClus : Z;
  FirstDataSec : Z;
  RootClus : Z;
  FsInfo : Z;
  TotSec : Z;
  SecPerFat : Z
}.

(** [return ((n - 2) * SecPerClus) + FirstDataSec;] *)
Definition GetFirstSectorOfClus (fi : Fat32Info) (n : Z) : Z :=
  u32 (u32 (u32 (n - 2) * SecPerClus fi) + FirstDataSec fi).

(** [return RsvdSecCnt + ((n * 4) / BytesPerSec);] *)
Definition GetThisFatSecN (fi : Fat32Info) (n : Z) : Z :=
  u32 (RsvdSecCnt fi + u32 (n * 4) / BytesPerSec fi).

(** [return (n * 4) % BytesPerSec;] *)
Definition GetThisFatEntOff (fi : Fat32Info) (n : Z) : Z :=
  u32 (n * 4) mod BytesPerSec fi.

(** [return (TotSec - FirstDataSec) / SecPerClus + 1;] *)
Definition GetEndOfFat (fi : Fat32Info) : Z :=
  u32 (u32 (TotSec fi - FirstDataSec fi) / SecPerClus fi + 1).

(** ** Directory entries in memory: [class FileEntry] *)

Record FileEntry : Type := mkFileEntry {
  name : list Z;           (* std::string *)
  attr : Z;                (* uint8_t *)
  lo : Z;                  (* uint16_t *)
  hi : Z;                  (* uint16_t *)
  wrtTime : Z;             (* uint16_t *)
  wrtDate : Z;             (* uint16_t *)
  size : Z;                (* uint32_t *)
  clus : Z;                (* uint32_t *)
  entryLoc : Z;            (* uint32_t *)
  openInfo : Z             (* uint32_t *)
}.

(** [enum AttrMask] and [enum OpenMask]. *)
Definition RDONLY : Z := 1.
Definition HIDDEN : Z := 2.
Definition SYS : Z := 4.
Definition VOLID : Z := 8.
Definition DIRECT : Z := 16.
Definition ARCHIVE : Z := 32.
Definition LONG : Z := Z.lor (Z.lor (Z.lor RDONLY HIDDEN) SYS) VOLID.
Definition READ : Z := 1.
Definition WRITE : Z := 2.

(** The fields of [struct tm] that [SetCurrentTime] reads; the clock
    is an input of every operation that saves an entry. *)
Record tm : Type := mkTm {
  tm_sec : Z;
  tm_min : Z;
  tm_hour : Z;
  tm_mday : Z;
  tm_mon : Z;
  tm_year : Z
}.

(** ** The file system object: [class Filesys] *)

Record Filesys : Type := mkFilesys {
  mFilesys_ : image;
  error_ : bool;
  finfo_ : Fat32Info;
  cwd_ : Z;
  location_ : list Z;
  openTable_ : list FileEntry
}.

Definition set_image (s : Filesys) (img : image) : Filesys :=
  mkFilesys img (error_ s) (finfo_ s) (cwd_ s) (location_ s) (openTable_ s).

Definition set_finfo (s : Filesys) (fi : Fat32Info) : Filesys :=
  mkFilesys (mFilesys_ s) (error_ s) fi (cwd_ s) (location_ s)
    (openTable_ s).

Definition set_cwd (s : Filesys) (c : Z) : Filesys :=
  mkFilesys (mFilesys_ s) (error_ s) (finfo_ s) c (location_ s)
    (openTable_ s).

Definition set_location (s : Filesys) (l : list Z) : Filesys :=
  mkFilesys (mFilesys_ s) (error_ s) (finfo_ s) (cwd_ s) l (openTable_ s).

Definition set_openTable (s : Filesys) (t : list FileEntry) : Filesys :=
  mkFilesys (mFilesys_ s) (error_ s) (finfo_ s) (cwd_ s) (location_ s) t.

Inductive outcome (A : Type) : Type :=
| Ret (a : A) (s : Filesys)
| Raise (s : Filesys)
| Spin.

Arguments Ret {A} a s.
Arguments Raise {A} s.
Arguments Spin {A}.

Definition M (A : Type) : Type := Filesys -> outcome A.

Definition ret {A} (a : A) : M A := fun s => Ret a s.

Definition bind {A B} (m : M A) (k : A -> M B) : M B :=
  fun s =>
    match m s with
    | Ret a s' => k a s'
    | Raise s' => Raise s'
    | Spin => Spin
    end.

(** A read-only computation run inside a state-changing one. *)
Definition lift {A} (r : Filesys -> res A) : M A :=
  fun s =>
    match r s with
    | Val a => Ret a s
    | Throw => Raise s
    | Loop => Spin
    end.

Declare Scope fs_scope.
Delimit Scope fs_scope with fs.
Notation "x <- e ;; k" := (bind e (fun x => k))
  (at level 60, e at next level, right associativity) : fs_scope.
Notation "e ;;; k" := (bind e (fun _ => k))
  (at level 60, right associativity) : fs_scope.

(** [WriteValue] of one integer on the mapped image of the state. *)
Definition put_le (v pos width : Z) : M unit :=
  fun s =>
    match write_le (mFilesys_ s) v pos width with
    | Some img => Ret tt (set_image s img)
    | None => Raise s
    end.

(** [ReadValue] of one integer from the mapped image of the state. *)
Definition get_le (tbits pos width : Z) (s : Filesys) : res Z :=
  of_option (read_le tbits (mFilesys_ s) pos width).

(** ** FAT engine *)

(** Byte offset of the entry of cluster [n] in FAT copy [i]:
    [(GetThisFatSecN(n) + (i * FATSz)) * BytesPerSec + GetThisFatEntOff(n)]. *)
Definition fat_entry_pos (fi : Fat32Info) (i n : Z) : Z :=
  u32 (u32 (u32 (GetThisFatSecN fi n + u32 (i * FATSz fi)) * BytesPerSec fi)
       + GetThisFatEntOff fi n).

(** [uint32_t Filesys::GetNextClus(uint32_t cluster)] reads FAT copy 0:
    [GetThisFatSecN(cluster) * BytesPerSec + GetThisFatEntOff(cluster)]. *)
Definition GetNextClus (cluster : Z) (s : Filesys) : res Z :=
  (entry <- get_le 32
     (u32 (u32 (GetThisFatSecN (finfo_ s) cluster * BytesPerSec (finfo_ s))
           + GetThisFatEntOff (finfo_ s) cluster)) 4 s ;;
   Val (Z.land entry FATMASK))%res.

(** Body of the loop of [SetNextClus] for FAT copies [i, i+1, ...]:
    the word is read and combined into [entry], but the call to
    [WriteValue] is given [&value]. *)
Fixpoint SetNextClus_loop (fatLoc value i : Z) (n : nat) : M unit :=
  match n with
  | O => ret tt
  | S n' =>
      (entry <- lift (fun s =>
                  get_le 32 (fat_entry_pos (finfo_ s) i fatLoc) 4 s) ;;
       let entry := Z.land entry NOT_FATMASK in
       let value := Z.land value FATMASK in
       let entry := Z.lor entry value in
       (fun s => put_le value (fat_entry_pos (finfo_ s) i fatLoc) 4 s) ;;;
       SetNextClus_loop fatLoc value (i + 1) n')%fs
  end.

(** [void Filesys::SetNextClus(uint32_t fatLoc, uint32_t value)]:
    [for (uint8_t i = 0; i < finfo_.NumFats; ++i)].  The 8-bit counter
    never reaches a [NumFats] above 255; [Validate] reads [NumFats]
    from one byte, so this does not happen on a mounted volume. *)
Definition SetNextClus (fatLoc value : Z) : M unit :=
  fun s =>
    if NumFats (finfo_ s) >? 255 then Spin
    else SetNextClus_loop fatLoc value 0 (Z.to_nat (NumFats (finfo_ s))) s.

(** [GetFATNxtFree]: [BytesPerSec * FsInfo + 492]. *)
Definition nxtfree_pos (fi : Fat32Info) : Z :=
  u32 (u32 (BytesPerSec fi * FsInfo fi) + 492).

(** [GetNFreeClus]: [FsInfo * BytesPerSec + 488]. *)
Definition nfree_pos (fi : Fat32Info) : Z :=
  u32 (u32 (FsInfo fi * BytesPerSec fi) + 488).

Definition GetFATNxtFree (s : Filesys) : res Z :=
  get_le 32 (nxtfree_pos (finfo_ s)) 4 s.

Definition SetFATNxtFree (cluster : Z) : M unit :=
  fun s => put_le cluster (nxtfree_pos (finfo_ s)) 4 s.

Definition GetNFreeClus (s : Filesys) : res Z :=
  get_le 32 (nfree_pos (finfo_ s)) 4 s.

Definition SetNFreeClus (value : Z) : M unit :=
  fun s => put_le value (nfree_pos (finfo_ s)) 4 s.

(** [void Filesys::UpdateClusCount(std::function<uint32_t (uint32_t)> op)] *)
Definition UpdateClusCount (op : Z -> Z) : M unit :=
  (clusCount <- lift GetNFreeClus ;;
   SetNFreeClus (op clusCount))%fs.

(** The two lambdas passed to [UpdateClusCount]. *)
Definition dec32 (value : Z) : Z := u32 (value - 1).
Definition inc32 (value : Z) : Z := u32 (value + 1).

(** [for (uint32_t i = 0; i < len; ++i) WriteValue(&zero, 1, start + i, 1);] *)
Fixpoint ZeroOutCluster_loop (start i : Z) (n : nat) : M unit :=
  match n with
  | O => ret tt
  | S n' =>
      (put_le 0 (u32 (start + i)) 1 ;;;
       ZeroOutCluster_loop start (i + 1) n')%fs
  end.

(** [void Filesys::ZeroOutCluster(uint32_t cluster)] *)
Definition ZeroOutCluster (cluster : Z) : M unit :=
  fun s =>
    let fi := finfo_ s in
    let start := u32 (BytesPerSec fi * GetFirstSectorOfClus fi cluster) in
    let len := u32 (BytesPerSec fi * SecPerClus fi) in
    ZeroOutCluster_loop start 0 (Z.to_nat len) s.

(** Inner [do ... while (position < endOfFat)] of [AllocateCluster];
    the result is [(found, position)]. *)
Fixpoint scan_free (fuel : nat) (position endOfFat : Z) (s : Filesys)
  : res (bool * Z) :=
  match fuel with
  | O => Loop
  | S fuel' =>
      (entryValue <- GetNextClus position s ;;
       if entryValue =? 0 then Val (true, position)
       else
         let position := u32 (position + 1) in
         if position <? endOfFat then scan_free fuel' position endOfFat s
         else Val (false, position))%res
  end.

(** The inner loop leaves after at most [endOfFat - position] further
    rounds, which is the fuel it is run with. *)
Definition scan_fuel (position endOfFat : Z) : nat :=
  S (Z.to_nat (endOfFat - position)).

(** Outer [do ... while (!found && startFromTop < 2)]. *)
Definition find_free (position startFromTop endOfFat : Z) (s : Filesys)
  : res (bool * Z) :=
  (r1 <- scan_free (scan_fuel position endOfFat) position endOfFat s ;;
   let '(found, position) := r1 in
   let startFromTop := startFromTop + 1 in
   let position := if negb found then 2 else position in
   if negb found && (startFromTop <? 2) then
     (r2 <- scan_free (scan_fuel position endOfFat) position endOfFat s ;;
      let '(found, position) := r2 in
      let position := if negb found then 2 else position in
      Val (found, position))
   else Val (found, position))%res.

(** [while (1) { if ((templocat = GetNextClus(templocat)) >= FATEND) break;
    location = templocat; }] *)
Fixpoint chain_last (fuel : nat) (location templocat : Z) (s : Filesys)
  : res Z :=
  match fuel with
  | O => Loop
  | S fuel' =>
      (templocat <- GetNextClus templocat s ;;
       if templocat >=? FATEND then Val location
       else chain_last fuel' templocat templocat s)%res
  end.

(** [uint32_t Filesys::AllocateCluster(uint32_t location)]; the result 0
    is the out-of-space answer. *)
Definition AllocateCluster (fuel : nat) (location : Z) : M Z :=
  (position <- lift GetFATNxtFree ;;
   fun s =>
     let endOfFat := GetEndOfFat (finfo_ s) in
     let '(position, startFromTop) :=
       if position =? 0xFFFFFFFF then (2, 1) else (position, 0) in
     (r <- lift (find_free position startFromTop endOfFat) ;;
      let '(found, position) := r in
      if negb found then ret 0
      else
        ((if location =? 0 then ret tt
          else
            (location <- lift (chain_last fuel location location) ;;
             SetNextClus location position)) ;;;
         SetNextClus position 0xFFFFFFFF ;;;
         SetFATNxtFree position ;;;
         UpdateClusCount dec32 ;;;
         ZeroOutCluster position ;;;
         ret position)) s)%fs.

(** ** Strings

    A [std::string] is the list of its characters; a character is the
    value of its byte. *)

(** The characters of a literal. *)
Definition str (s : string) : list Z :=
  map (fun a => Z.of_N (N_of_ascii a)) (list_ascii_of_string s).

(** A [std::string] built from a C string: the characters before the
    first NUL. *)
Fixpoint cstr (buf : list Z) : list Z :=
  match buf with
  | [] => []
  | c :: rest => if c =? 0 then [] else c :: cstr rest
  end.

(** [s[i]]: the character at [i], the terminator at [i = s.size()];
    an index beyond that, which the source reaches only for a name
    shorter than its buffer, reads as 0 too. *)
Definition str_at (s : list Z) (i : nat) : Z := nth i s 0.

Definition npos : Z := 2 ^ 64 - 1.

Definition mem_char (c : Z) (chars : list Z) : bool :=
  existsb (Z.eqb c) chars.

(** Search of [find_first_of] in the characters from index [i] on. *)
Fixpoint find_from (s chars : list Z) (i : Z) : Z :=
  match s with
  | [] => npos
  | c :: rest => if mem_char c chars then i else find_from rest chars (i + 1)
  end.

(** [s.find_first_of(chars, pos)]. *)
Definition find_first_of (s chars : list Z) (pos : Z) : Z :=
  find_from (drop (Z.to_nat pos) s) chars pos.

(** [s.substr(pos, n)] for [pos <= s.size()]. *)
Definition substr (s : list Z) (pos n : Z) : list Z :=
  take (Z.to_nat n) (drop (Z.to_nat pos) s).

Definition str_length (s : list Z) : Z := Z.of_nat (length s).

(** [size()] of a [std::list] or [std::vector]. *)
Definition size_of {A} (l : list A) : Z := Z.of_nat (length l).

Definition tolower (c : Z) : Z :=
  if (65 <=? c) && (c <=? 90) then c + 32 else c.

Definition toupper (c : Z) : Z :=
  if (97 <=? c) && (c <=? 122) then c - 32 else c.

Definition str_eqb (a b : list Z) : bool :=
  bool_decide (a = b).

Definition SPACE : Z := 32.
Definition DOT : Z := 46.
Definition SLASH : Z := 47.

(** ** [FileEntry] members *)

(** [FileEntry(char* n, uint8_t a, uint16_t l, uint16_t h, uint32_t s,
    uint32_t el)]: [clus = lo; clus |= hi << 16;]. *)
Definition FileEntry_new (n : list Z) (a l h s el : Z) : FileEntry :=
  mkFileEntry (cstr n) a l h 0 0 s (u32 (Z.lor l (Z.shiftl h 16))) el 0.

(** [FileEntry(const FileEntry& a)]: the write time and date are not
    copied (they read as 0 here and are set again before any use) and
    the cluster is combined again from the two halves. *)
Definition FileEntry_copy (a : FileEntry) : FileEntry :=
  mkFileEntry (name a) (attr a) (lo a) (hi a) 0 0 (size a)
    (u32 (Z.lor (lo a) (Z.shiftl (hi a) 16))) (entryLoc a) (openInfo a).

(** [std::string Filesys::FileEntry::GetShortName()] *)
Definition GetShortName (e : FileEntry) : list Z :=
  let newName := filter (fun c => c <> SPACE) (take 8 (name e)) in
  let postfix := filter (fun c => c <> SPACE) (take 3 (drop 8 (name e))) in
  let newName :=
    if negb (str_length postfix =? 0) then newName ++ DOT :: postfix
    else newName in
  map tolower newName.

(** [bool Filesys::FileEntry::IsDir()] *)
Definition IsDir (e : FileEntry) : bool :=
  Z.land (attr e) DIRECT =? DIRECT.

(** [void Filesys::FileEntry::SetCurrentTime()] with the local time
    [now]. *)
Definition SetCurrentTime (now : tm) (e : FileEntry) : FileEntry :=
  let wrtDate := u16 (tm_mday now) in
  let wrtDate := u16 (Z.lor wrtDate (Z.shiftl (tm_mon now + 1) 5)) in
  let wrtDate := u16 (Z.lor wrtDate (Z.shiftl (tm_year now - 80) 9)) in
  let tValue := u8 (Z.quot (tm_sec now) 2) in
  let wrtTime := u16 (if tValue >? 29 then 29 else tValue) in
  let wrtTime := u16 (Z.lor wrtTime (Z.shiftl (tm_min now) 5)) in
  let wrtTime := u16 (Z.lor wrtTime (Z.shiftl (tm_hour now) 11)) in
  mkFileEntry (name e) (attr e) (lo e) (hi e) wrtTime wrtDate (size e)
    (clus e) (entryLoc e) (openInfo e).

(** [void Filesys::FileEntry::SetClus(uint32_t cluster)]:
    [hi = (cluster & 0xFFFF0000) >> 4;  lo = cluster & 0x0000FFFF;]. *)
Definition SetClus (cluster : Z) (e : FileEntry) : FileEntry :=
  mkFileEntry (name e) (attr e)
    (u16 (Z.land cluster 0x0000FFFF))
    (u16 (Z.shiftr (Z.land cluster 0xFFFF0000) 4))
    (wrtTime e) (wrtDate e) (size e) cluster (entryLoc e) (openInfo e).

(** [e.name[0] = 0xe5;] *)
Definition mark_deleted (e : FileEntry) : FileEntry :=
  mkFileEntry (<[0%nat := DEALLOC]> (name e)) (attr e) (lo e) (hi e)
    (wrtTime e) (wrtDate e) (size e) (clus e) (entryLoc e) (openInfo e).

(** [WriteValue(name, 11, loc, 1)] and the like on the state. *)
Definition put_array (data : list Z) (len pos width : Z) : M unit :=
  fun s =>
    match WriteValue (mFilesys_ s) data len pos width with
    | Some img => Ret tt (set_image s img)
    | None => Raise s
    end.

(** [void Filesys::SaveFileEntry(FileEntry& entry)]; the entry is
    passed by reference and comes back with its new time stamp. *)
Definition SaveFileEntry (now : tm) (entry : FileEntry) : M FileEntry :=
  let loc := entryLoc entry in
  let zero := 0 in
  let name_ := map (str_at (name entry)) (seq 0 11) in
  let entry := SetCurrentTime now entry in
  (put_array name_ 11 loc 1 ;;;
   put_le (attr entry) (u32 (loc + 11)) 1 ;;;
   put_le zero (u32 (loc + 13)) 1 ;;;
   put_le zero (u32 (loc + 14)) 2 ;;;
   put_le zero (u32 (loc + 16)) 2 ;;;
   put_le zero (u32 (loc + 18)) 2 ;;;
   put_le (hi entry) (u32 (loc + 20)) 2 ;;;
   put_le (wrtTime entry) (u32 (loc + 22)) 2 ;;;
   put_le (wrtDate entry) (u32 (loc + 24)) 2 ;;;
   put_le (lo entry) (u32 (loc + 26)) 2 ;;;
   put_le (size entry) (u32 (loc + 28)) 4 ;;;
   ret entry)%fs.

(** ** Directory listings: [GetFileList] *)

(** The slots [i, i+1, ...] of one cluster whose first byte is at
    [location]. *)
Fixpoint read_slots (getDealloc : bool) (location i : Z) (n : nat)
  (s : Filesys) : res (list FileEntry) :=
  match n with
  | O => Val []
  | S n' =>
      let img := mFilesys_ s in
      (name_ <- of_option (ReadValue 8 img 11 (u32 (location + 32 * i)) 1) ;;
       attr_ <- of_option (read_le 8 img (u32 (u32 (location + 32 * i) + 11)) 1) ;;
       hi_ <- of_option (read_le 16 img (u32 (u32 (location + 32 * i) + 20)) 2) ;;
       lo_ <- of_option (read_le 16 img (u32 (u32 (location + 32 * i) + 26)) 2) ;;
       size_ <- of_option (read_le 32 img (u32 (u32 (location + 32 * i) + 28)) 4) ;;
       rest <- read_slots getDealloc location (i + 1) n' s ;;
       if Z.land attr_ LONG =? LONG then Val rest
       else
         let n0 := str_at name_ 0 in
         if (negb (n0 =? 0) && negb (n0 =? DEALLOC) && negb getDealloc)
            || (((n0 =? 0) || (n0 =? DEALLOC)) && getDealloc)
         then
           Val (FileEntry_copy
                  (FileEntry_new name_ attr_ lo_ hi_ size_
                     (u32 (location + 32 * i))) :: rest)
         else Val rest)%res
  end.

(** [std::list<FileEntry>* Filesys::GetFileList(uint32_t cluster,
    bool getDealloc)]: the [do ... while (currentCluster < FATEND)]
    over the chain consumes one unit of fuel per cluster. *)
Fixpoint GetFileList (fuel : nat) (cluster : Z) (getDealloc : bool)
  (s : Filesys) : res (list FileEntry) :=
  match fuel with
  | O => Loop
  | S fuel' =>
      let fi := finfo_ s in
      let entries := u32 (u32 (BytesPerSec fi * SecPerClus fi) / 32) in
      let location :=
        u32 (BytesPerSec fi * GetFirstSectorOfClus fi cluster) in
      (here <- read_slots getDealloc location 0 (Z.to_nat entries) s ;;
       currentCluster <- GetNextClus cluster s ;;
       if currentCluster <? FATEND then
         (rest <- GetFileList fuel' currentCluster getDealloc s ;;
          Val (here ++ rest))
       else Val here)%res
  end.

(** ** Path resolver *)

(** The [while ((end = add.find_first_of("/", start)) != npos)] loop of
    [ParseAddress] and the push of the last segment; every round moves
    [start] past one more character, so [S (length add)] rounds of fuel
    are never used up. *)
Fixpoint ParseAddress_loop (fuel : nat) (add : list Z) (start : Z)
  (list_ : list (list Z)) : list (list Z) :=
  match fuel with
  | O => list_
  | S fuel' =>
      let end_ := find_first_of add [SLASH] start in
      if negb (end_ =? npos) then
        let list_ :=
          if negb (u64 (start - end_) =? 0)
          then list_ ++ [substr add start (end_ - start)]
          else list_ in
        ParseAddress_loop fuel' add (end_ + 1) list_
      else if start <? str_length add
      then list_ ++ [drop (Z.to_nat start) add]
      else list_
  end.

(** [std::list<std::string> Filesys::ParseAddress(std::string add)] *)
Definition ParseAddress (add : list Z) : list (list Z) :=
  if negb (str_length add =? 0) then
    let add := map tolower add in
    let '(list_, start) :=
      if str_at add 0 =? SLASH then ([[SLASH]], 1) else ([], 0) in
    ParseAddress_loop (S (length add)) add start list_
  else [].

(** The search inside [NavToDir]: the first entry with the wanted
    short name that is a directory decides the next cluster. *)
Fixpoint nav_find (fi : Fat32Info) (item : list Z) (entries : list FileEntry)
  : option Z :=
  match entries with
  | [] => None
  | e0 :: rest =>
      let e := FileEntry_copy e0 in
      if str_eqb (GetShortName e) item && IsDir e then
        if (clus e =? 0) && str_eqb item (str "..")
        then Some (RootClus fi)
        else Some (clus e)
      else nav_find fi item rest
  end.

(** The [for (std::string item : list)] loop of [NavToDir]. *)
Fixpoint NavToDir_loop (fuel : nat) (items : list (list Z)) (i end_ : Z)
  (currDirClus : Z) (s : Filesys) : res Z :=
  match items with
  | [] => Val currDirClus
  | item :: rest =>
      if i =? end_ then Val currDirClus
      else
        let fi := finfo_ s in
        if (i =? 0) && str_eqb item (str "/") then
          NavToDir_loop fuel rest (i + 1) end_ (RootClus fi) s
        else if negb (str_eqb item (str "."))
                || negb (currDirClus =? RootClus fi) then
          (entries <- GetFileList fuel currDirClus false s ;;
           match nav_find fi item entries with
           | Some c => NavToDir_loop fuel rest (i + 1) end_ c s
           | None => Throw
           end)%res
        else NavToDir_loop fuel rest (i + 1) end_ currDirClus s
  end.

(** [uint32_t Filesys::NavToDir(std::list<std::string>& list,
    size_t start, size_t end)] *)
Definition NavToDir (fuel : nat) (list_ : list (list Z)) (start end_ : Z)
  (s : Filesys) : res Z :=
  let currDirClus := cwd_ s in
  if u64 (start - end_) =? 0 then Val currDirClus
  else if size_of list_ =? 0 then Throw
  else NavToDir_loop fuel list_ start end_ currDirClus s.

(** The [for (FileEntry e : *list)] loop of [GenPathName]; the result
    is [(foundClus, prevClus, name)]. *)
Fixpoint GenPathName_scan (fi : Fat32Info) (curClus : Z)
  (entries : list FileEntry) (foundClus prevClus : Z) (name_ : list Z)
  : Z * Z * list Z :=
  match entries with
  | [] => (foundClus, prevClus, name_)
  | e0 :: rest =>
      let e := FileEntry_copy e0 in
      let foundClus :=
        if str_eqb (GetShortName e) (str "..") then
          if clus e =? 0 then RootClus fi else clus e
        else foundClus in
      let '(name_, prevClus) :=
        if (prevClus =? clus e) && negb (str_eqb (GetShortName e) (str "."))
        then
          (if str_length name_ =? 0 then GetShortName e
           else GetShortName e ++ str "/" ++ name_, curClus)
        else (name_, prevClus) in
      GenPathName_scan fi curClus rest foundClus prevClus name_
  end.

(** The [while (curClus != finfo_.RootClus)] loop of [GenPathName]. *)
Fixpoint GenPathName_loop (fuel : nat) (curClus foundClus prevClus : Z)
  (name_ : list Z) (s : Filesys) : res (list Z) :=
  match fuel with
  | O => Loop
  | S fuel' =>
      if negb (curClus =? RootClus (finfo_ s)) then
        let curClus := foundClus in
        (list_ <- GetFileList fuel curClus false s ;;
         let '(foundClus, prevClus, name_) :=
           GenPathName_scan (finfo_ s) curClus list_ foundClus prevClus name_ in
         GenPathName_loop fuel' curClus foundClus prevClus name_ s)%res
      else Val (str "/" ++ name_)
  end.

(** [std::string Filesys::GenPathName(uint32_t clus)] *)
Definition GenPathName (fuel : nat) (clus_ : Z) (s : Filesys)
  : res (list Z) :=
  GenPathName_loop fuel (cwd_ s) clus_ clus_ [] s.

(** ** Commands *)

(** [void Filesys::Cd(std::vector<std::string>& argv)]; the exception of
    [NavToDir] is caught and the command returns. *)
Definition Cd (fuel : nat) (argv : list (list Z)) : M unit :=
  fun s =>
    let currDirClus := cwd_ s in
    let target :=
      if size_of argv <? 1 then Some (str "/")
      else if size_of argv =? 1 then Some (nth 0 argv [])
      else None in
    match target with
    | None => Ret tt s
    | Some target =>
        let list_ := ParseAddress target in
        match NavToDir fuel list_ 0 (size_of list_) s with
        | Loop => Spin
        | Throw => Ret tt s
        | Val currDirClus =>
            let s := set_cwd s currDirClus in
            match GenPathName fuel (cwd_ s) s with
            | Val l => Ret tt (set_location s l)
            | Throw => Raise s
            | Loop => Spin
            end
        end
    end.

(** Erasure of the first open entry with the given short name. *)
Fixpoint erase_first (name_ : list Z) (table : list FileEntry)
  : list FileEntry :=
  match table with
  | [] => []
  | e :: rest =>
      if str_eqb (GetShortName e) name_ then rest
      else e :: erase_first name_ rest
  end.

(** [void Filesys::Close(std::vector<std::string>& argv)] *)
Definition Close (argv : list (list Z)) : M unit :=
  fun s =>
    if negb (size_of argv =? 1) then Ret tt s
    else Ret tt (set_openTable s (erase_first (nth 0 argv []) (openTable_ s))).

(** The loop shared by [Rm] and [Rmdir]:
    [do { lastCluster = currCluster; currCluster = GetNextClus(currCluster);
    SetNextClus(lastCluster, 0); UpdateClusCount(+1); }
    while (currCluster < FATEND);]. *)
Fixpoint free_loop (fuel : nat) (currCluster : Z) : M unit :=
  match fuel with
  | O => fun _ => Spin
  | S fuel' =>
      let lastCluster := currCluster in
      (currCluster <- lift (GetNextClus currCluster) ;;
       SetNextClus lastCluster 0 ;;;
       UpdateClusCount inc32 ;;;
       if currCluster <? FATEND then free_loop fuel' currCluster
       else ret tt)%fs
  end.

(** The [for (FileEntry e : *list)] loop of [Rm]; the result is
    [found].  The loop also steps the iterator of the open table and
    counts the freed clusters; neither is read afterwards. *)
Fixpoint Rm_scan (fuel : nat) (now : tm) (name_ : list Z)
  (list_ : list FileEntry) : M bool :=
  match list_ with
  | [] => ret false
  | e0 :: rest =>
      let e := FileEntry_copy e0 in
      if str_eqb (GetShortName e) name_ then
        if Z.land (attr e) DIRECT =? DIRECT then Rm_scan fuel now name_ rest
        else
          ((if negb (clus e =? 0) then free_loop fuel (clus e)
            else ret tt) ;;;
           SaveFileEntry now (mark_deleted e) ;;;
           ret true)%fs
      else Rm_scan fuel now name_ rest
  end.

(** One round of the [for] over [argv] in [Rm]; the result tells
    whether the file was found. *)
Definition Rm_one (fuel : nat) (now : tm) (name_ : list Z) : M bool :=
  fun s =>
    let location := cwd_ s in
    ((if existsb (fun e => str_eqb (GetShortName e) name_) (openTable_ s)
      then Close [name_] else ret tt) ;;;
     list_ <- lift (GetFileList fuel location false) ;;
     Rm_scan fuel now name_ list_)%fs s.

Fixpoint Rm_args (fuel : nat) (now : tm) (argv : list (list Z)) : M unit :=
  match argv with
  | [] => ret tt
  | name_ :: rest =>
      (found <- Rm_one fuel now name_ ;;
       if negb found then ret tt else Rm_args fuel now rest)%fs
  end.

(** [void Filesys::Rm(std::vector<std::string>& argv)] *)
Definition Rm (fuel : nat) (now : tm) (argv : list (list Z)) : M unit :=
  if size_of argv =? 0 then ret tt else Rm_args fuel now argv.

(** The search of [Rmdir]: the first entry with the short name ends
    the loop, and is taken only if it is a directory. *)
Fixpoint Rmdir_find (name_ : list Z) (list_ : list FileEntry)
  : option FileEntry :=
  match list_ with
  | [] => None
  | e0 :: rest =>
      let e := FileEntry_copy e0 in
      if str_eqb (GetShortName e) name_ then
        if Z.land (attr e) DIRECT =? DIRECT then Some (FileEntry_copy e)
        else None
      else Rmdir_find name_ rest
  end.

(** [void Filesys::Rmdir(std::vector<std::string>& argv)] *)
Definition Rmdir (fuel : nat) (now : tm) (argv : list (list Z)) : M unit :=
  if negb (size_of argv =? 1) then ret tt
  else
    let name_ := nth 0 argv [] in
    (list_ <- lift (fun s => GetFileList fuel (cwd_ s) false s) ;;
     let entry :=
       if negb (str_at name_ 0 =? DOT) then Rmdir_find name_ list_
       else None in
     match entry with
     | None => ret tt
     | Some entry =>
         (list_ <- lift (GetFileList fuel (clus entry) false) ;;
          if size_of list_ >? 2 then ret tt
          else
            (entry <- SaveFileEntry now (mark_deleted entry) ;;
             if negb (clus entry =? 0) then free_loop fuel (clus entry)
             else ret tt))
     end)%fs.

(** ** Short-name validation *)

(** The characters of the literal searched by [ValidateFileName]:
    slash, space, double quote, [*+`-;:<>=?]. *)
Definition invalid_chars : list Z :=
  str "/ " ++ [34] ++ str "*+`-;:<>=?".

(** [for (i = from; i < to; ++i) fixedName[i] = (i - from >= src.length())
    ? ' ' : src[i - from];] *)
Definition fill (src : list Z) (n : nat) : list Z :=
  map (fun i => if Z.of_nat i >=? str_length src then SPACE
                else str_at src i) (seq 0 n).

(** [std::string Filesys::ValidateFileName(std::string name)]; [None]
    is the exception thrown for a rejected name. *)
Definition ValidateFileName (name_ : list Z) : option (list Z) :=
  let invalidChars := find_first_of name_ invalid_chars 0 in
  if negb (invalidChars =? npos) then None
  else
    let dotPos := find_first_of name_ [DOT] 0 in
    if (dotPos =? 0) || (dotPos =? u64 (str_length name_ - 1)) then None
    else if negb (dotPos =? npos) then
      if u64 (str_length name_ - (dotPos + 1)) >? 3 then None
      else
        let postfix := substr name_ (dotPos + 1) (str_length name_) in
        let name_ := substr name_ 0 dotPos in
        Some (cstr (fill name_ 8 ++ fill postfix 3))
    else if str_length name_ >? 8 then None
    else Some (cstr (fill name_ 11)).

(** ** Mounting: [Validate] *)

Definition with_Signature (fi : Fat32Info) (v : list Z) : Fat32Info :=
  mkFat32Info v (BytesPerSec fi) (RootEntCnt fi) (RootDirSector fi)
    (FATSz16 fi) (FATSz32 fi) (FATSz fi) (RsvdSecCnt fi) (NumFats fi)
    (SecPerClus fi) (FirstDataSec fi) (RootClus fi) (FsInfo fi) (TotSec fi)
    (SecPerFat fi).

Definition with_BytesPerSec (fi : Fat32Info) (v : Z) : Fat32Info :=
  mkFat32Info (Signature fi) v (RootEntCnt fi) (RootDirSector fi)
    (FATSz16 fi) (FATSz32 fi) (FATSz fi) (RsvdSecCnt fi) (NumFats fi)
    (SecPerClus fi) (FirstDataSec fi) (RootClus fi) (FsInfo fi) (TotSec fi)
    (SecPerFat fi).

Definition with_RootEntCnt (fi : Fat32Info) (v : Z) : Fat32Info :=
  mkFat32Info (Signature fi) (BytesPerSec fi) v (RootDirSector fi)
    (FATSz16 fi) (FATSz32 fi) (FATSz fi) (RsvdSecCnt fi) (NumFats fi)
    (SecPerClus fi) (FirstDataSec fi) (RootClus fi) (FsInfo fi) (TotSec fi)
    (SecPerFat fi).

Definition with_RootDirSector (fi : Fat32Info) (v : Z) : Fat32Info :=
  mkFat32Info (Signature fi) (BytesPerSec fi) (RootEntCnt fi) v
    (FATSz16 fi) (FATSz32 fi) (FATSz fi) (RsvdSecCnt fi) (NumFats fi)
    (SecPerClus fi) (FirstDataSec fi) (RootClus fi) (FsInfo fi) (TotSec fi)
    (SecPerFat fi).

Definition with_FATSz16 (fi : Fat32Info) (v : Z) : Fat32Info :=
  mkFat32Info (Signature fi) (BytesPerSec fi) (RootEntCnt fi)
    (RootDirSector fi) v (FATSz32 fi) (FATSz fi) (RsvdSecCnt fi) (NumFats fi)
    (SecPerClus fi) (FirstDataSec fi) (RootClus fi) (FsInfo fi) (TotSec fi)
    (SecPerFat fi).

Definition with_FATSz32 (fi : Fat32Info) (v : Z) : Fat32Info :=
  mkFat32Info (Signature fi) (BytesPerSec fi) (RootEntCnt fi)
    (RootDirSector fi) (FATSz16 fi) v (FATSz fi) (RsvdSecCnt fi) (NumFats fi)
    (SecPerClus fi) (FirstDataSec fi) (RootClus fi) (FsInfo fi) (TotSec fi)
    (SecPerFat fi).

Definition with_FATSz (fi : Fat32Info) (v : Z) : Fat32Info :=
  mkFat32Info (Signature fi) (BytesPerSec fi) (RootEntCnt fi)
    (RootDirSector fi) (FATSz16 fi) (FATSz32 fi) v (RsvdSecCnt fi)
    (NumFats fi) (SecPerClus fi) (FirstDataSec fi) (RootClus fi) (FsInfo fi)
    (TotSec fi) (SecPerFat fi).

Definition with_RsvdSecCnt (fi : Fat32Info) (v : Z) : Fat32Info :=
  mkFat32Info (Signature fi) (BytesPerSec fi) (RootEntCnt fi)
    (RootDirSector fi) (FATSz16 fi) (FATSz32 fi) (FATSz fi) v (NumFats fi)
    (SecPerClus fi) (FirstDataSec fi) (RootClus fi) (FsInfo fi) (TotSec fi)
    (SecPerFat fi).

Definition with_NumFats (fi : Fat32Info) (v : Z) : Fat32Info :=
  mkFat32Info (Signature fi) (BytesPerSec fi) (RootEntCnt fi)
    (RootDirSector fi) (FATSz16 fi) (FATSz32 fi) (FATSz fi) (RsvdSecCnt fi) v
    (SecPerClus fi) (FirstDataSec fi) (RootClus fi) (FsInfo fi) (TotSec fi)
    (SecPerFat fi).

Definition with_SecPerClus (fi : Fat32Info) (v : Z) : Fat32Info :=
  mkFat32Info (Signature fi) (BytesPerSec fi) (RootEntCnt fi)
    (RootDirSector fi) (FATSz16 fi) (FATSz32 fi) (FATSz fi) (RsvdSecCnt fi)
    (NumFats fi) v (FirstDataSec fi) (RootClus fi) (FsInfo fi) (TotSec fi)
    (SecPerFat fi).

Definition with_FirstDataSec (fi : Fat32Info) (v : Z) : Fat32Info :=
  mkFat32Info (Signature fi) (BytesPerSec fi) (RootEntCnt fi)
    (RootDirSector fi) (FATSz16 fi) (FATSz32 fi) (FATSz fi) (RsvdSecCnt fi)
    (NumFats fi) (SecPerClus fi) v (RootClus fi) (FsInfo fi) (TotSec fi)
    (SecPerFat fi).

Definition with_RootClus (fi : Fat32Info) (v : Z) : Fat32Info :=
  mkFat32Info (Signature fi) (BytesPerSec fi) (RootEntCnt fi)
    (RootDirSector fi) (FATSz16 fi) (FATSz32 fi) (FATSz fi) (RsvdSecCnt fi)
    (NumFats fi) (SecPerClus fi) (FirstDataSec fi) v (FsInfo fi) (TotSec fi)
    (SecPerFat fi).

Definition with_FsInfo (fi : Fat32Info) (v : Z) : Fat32Info :=
  mkFat32Info (Signature fi) (BytesPerSec fi) (RootEntCnt fi)
    (RootDirSector fi) (FATSz16 fi) (FATSz32 fi) (FATSz fi) (RsvdSecCnt fi)
    (NumFats fi) (SecPerClus fi) (FirstDataSec fi) (RootClus fi) v (TotSec fi)
    (SecPerFat fi).

Definition with_TotSec (fi : Fat32Info) (v : Z) : Fat32Info :=
  mkFat32Info (Signature fi) (BytesPerSec fi) (RootEntCnt fi)
    (RootDirSector fi) (FATSz16 fi) (FATSz32 fi) (FATSz fi) (RsvdSecCnt fi)
    (NumFats fi) (SecPerClus fi) (FirstDataSec fi) (RootClus fi) (FsInfo fi) v
    (SecPerFat fi).

(** [ReadValue(&(finfo_.f), 1, pos, width)] into a field of [tbits]
    bits, stored with [upd]. *)
Definition read_field (tbits pos width : Z)
  (upd : Fat32Info -> Z -> Fat32Info) : M unit :=
  fun s =>
    match read_le tbits (mFilesys_ s) pos width with
    | Some v => Ret tt (set_finfo s (upd (finfo_ s) v))
    | None => Raise s
    end.

Definition throw {A} : M A := fun s => Raise s.

(** [throw] when the condition holds. *)
Definition throw_if (c : bool) : M unit :=
  if c then throw else ret tt.

Definition update_finfo (f : Fat32Info -> Fat32Info) : M unit :=
  fun s => Ret tt (set_finfo s (f (finfo_ s))).

Definition get_finfo : M Fat32Info := fun s => Ret (finfo_ s) s.

(** [void Filesys::Validate()] *)
Definition Validate : M unit :=
  (e <- (fun s => Ret (error_ s) s) ;;
   throw_if e ;;;
   (fun s =>
      match ReadValue 8 (mFilesys_ s) 2 510 1 with
      | Some sig => Ret tt (set_finfo s (with_Signature (finfo_ s) sig))
      | None => Raise s
      end) ;;;
   fi <- get_finfo ;;
   throw_if (negb (str_at (Signature fi) 0 =? 0x55)
             || negb (str_at (Signature fi) 1 =? 0xaa)) ;;;
   read_field 16 11 2 with_BytesPerSec ;;;
   read_field 16 17 2 with_RootEntCnt ;;;
   read_field 32 22 2 with_FATSz16 ;;;
   read_field 32 36 4 with_FATSz32 ;;;
   read_field 32 14 2 with_RsvdSecCnt ;;;
   read_field 32 16 1 with_NumFats ;;;
   read_field 32 13 1 with_SecPerClus ;;;
   read_field 32 44 4 with_RootClus ;;;
   read_field 32 48 2 with_FsInfo ;;;
   read_field 32 32 4 with_TotSec ;;;
   fi <- get_finfo ;;
   throw_if (negb (BytesPerSec fi =? 512) &&
             negb (BytesPerSec fi =? 1024) &&
             negb (BytesPerSec fi =? 2048) &&
             negb (BytesPerSec fi =? 4096)) ;;;
   throw_if (negb (RootEntCnt fi =? 0)) ;;;
   throw_if (negb (SecPerClus fi =? 1) &&
             negb (SecPerClus fi =? 2) &&
             negb (SecPerClus fi =? 4) &&
             negb (SecPerClus fi =? 16) &&
             negb (SecPerClus fi =? 32) &&
             negb (SecPerClus fi =? 64) &&
             negb (SecPerClus fi =? 128)) ;;;
   throw_if (TotSec fi =? 0) ;;;
   update_finfo (fun fi =>
     with_RootDirSector fi
       (u32 (Z.quot (RootEntCnt fi * 32 + (BytesPerSec fi - 1))
               (BytesPerSec fi)))) ;;;
   update_finfo (fun fi =>
     with_FATSz fi
       (if negb (FATSz16 fi =? 0) then FATSz16 fi else FATSz32 fi)) ;;;
   update_finfo (fun fi =>
     with_FirstDataSec fi
       (u32 (u32 (RsvdSecCnt fi + u32 (NumFats fi * FATSz fi))
             + RootDirSector fi))) ;;;
   fi <- get_finfo ;;
   throw_if (negb (FATSz16 fi =? 0)) ;;;
   (fun s => Ret tt (set_location (set_cwd s (RootClus (finfo_ s)))
                       (str "/"))))%fs.

(** ** Well-formed volumes and cluster chains

    The vocabulary of the statements below: what a volume looks like
    once it is mounted, which clusters form a chain, and which bytes an
    operation may change. *)

Definition is_byte (b : Z) : Prop := 0 <= b < 256.

(** Every element of the image is a byte. *)
Definition bytes_ok (img : image) : Prop := Forall is_byte img.

(** The layout of a FAT32 volume whose byte offsets fit the 32-bit
    arithmetic of the program: the FS information sector lies in the
    reserved area, the FAT copies follow it, the data area follows
    them, and one FAT copy has an entry for every cluster below
    [GetEndOfFat]. *)
Record wf_geometry (fi : Fat32Info) : Prop := mk_wf_geometry {
  wf_BytesPerSec :
    BytesPerSec fi = 512 \/ BytesPerSec fi = 1024 \/
    BytesPerSec fi = 2048 \/ BytesPerSec fi = 4096;
  wf_SecPerClus : 1 <= SecPerClus fi <= 128;
  wf_NumFats : 1 <= NumFats fi <= 255;
  wf_FATSz : 0 < FATSz fi;
  wf_FsInfo : 0 <= FsInfo fi < RsvdSecCnt fi;
  wf_FirstDataSec :
    FirstDataSec fi = RsvdSecCnt fi + NumFats fi * FATSz fi;
  wf_TotSec : FirstDataSec fi < TotSec fi;
  wf_fits32 : TotSec fi * BytesPerSec fi <= 4294967296;
  wf_fat_covers : 4 * GetEndOfFat fi <= FATSz fi * BytesPerSec fi
}.

(** A mounted volume: well-formed geometry, and a mapping made of
    bytes that covers all of its sectors. *)
Record wf_volume (s : Filesys) : Prop := mk_wf_volume {
  wf_geom : wf_geometry (finfo_ s);
  wf_mapped :
    TotSec (finfo_ s) * BytesPerSec (finfo_ s) <= filesys_size (mFilesys_ s);
  wf_bytes : bytes_ok (mFilesys_ s)
}.

(** The cluster numbers the program allocates from. *)
Definition in_volume (fi : Fat32Info) (n : Z) : Prop :=
  2 <= n < GetEndOfFat fi.

(** [chain s n l]: following [GetNextClus] from [n] visits exactly the
    clusters [l] and then meets an end-of-chain value. *)
Inductive chain (s : Filesys) : Z -> list Z -> Prop :=
| chain_end (n m : Z) :
    GetNextClus n s = Val m -> FATEND <= m -> chain s n [n]
| chain_next (n m : Z) (l : list Z) :
    GetNextClus n s = Val m -> m < FATEND -> chain s m l ->
    chain s n (n :: l).

(** A chain of the volume: all of its clusters are cluster numbers of
    the volume. *)
Definition valid_chain (s : Filesys) (head : Z) (l : list Z) : Prop :=
  chain s head l /\ Forall (in_volume (finfo_ s)) l.

(** [reaches s a b]: [b] is met when the chain is followed from [a]. *)
Inductive reaches (s : Filesys) : Z -> Z -> Prop :=
| reaches_here (a : Z) : reaches s a a
| reaches_step (a b c : Z) :
    GetNextClus a s = Val b -> b < FATEND -> reaches s b c ->
    reaches s a c.

(** First byte of the data of cluster [n]:
    [BytesPerSec * GetFirstSectorOfClus(n)]. *)
Definition cluster_pos (fi : Fat32Info) (n : Z) : Z :=
  u32 (BytesPerSec fi * GetFirstSectorOfClus fi n).

(** [BytesPerSec * SecPerClus], the size of a cluster in bytes. *)
Definition cluster_len (fi : Fat32Info) : Z :=
  u32 (BytesPerSec fi * SecPerClus fi).

(** The fields other than the image are the same in both states. *)
Definition same_fields (s s' : Filesys) : Prop :=
  error_ s' = error_ s /\ finfo_ s' = finfo_ s /\ cwd_ s' = cwd_ s /\
  location_ s' = location_ s /\ openTable_ s' = openTable_ s.

(** [frame P s s']: from [s] to [s'] only image bytes at offsets in [P]
    may have changed. *)
Record frame (P : Z -> Prop) (s s' : Filesys) : Prop := mk_frame {
  frame_fields : same_fields s s';
  frame_length : length (mFilesys_ s') = length (mFilesys_ s);
  frame_bytes : bytes_ok (mFilesys_ s) -> bytes_ok (mFilesys_ s');
  frame_same : forall j, 0 <= j -> ~ P j ->
    byte_at (mFilesys_ s') j = byte_at (mFilesys_ s) j
}.

(** The offsets [lo, hi). *)
Definition span (lo hi : Z) : Z -> Prop := fun j => lo <= j < hi.

(** The bytes of the entry of cluster [n] in each FAT copy. *)
Definition fat_slots (fi : Fat32Info) (n : Z) : Z -> Prop :=
  fun j => exists i, 0 <= i < NumFats fi /\
    fat_entry_pos fi i n <= j < fat_entry_pos fi i n + 4.

(** The 32-bit word stored at [pos]. *)
Definition word_at (img : image) (pos : Z) : Z :=
  byte_at img pos + 256 * byte_at img (pos + 1)
  + 65536 * byte_at img (pos + 2) + 16777216 * byte_at img (pos + 3).

(** The entry of cluster [n] lies inside one FAT copy. *)
Definition fits (fi : Fat32Info) (n : Z) : Prop :=
  0 <= n /\ 4 * n + 4 <= FATSz fi * BytesPerSec fi.

(** The reserved sectors, the FAT copies and the data sectors. *)
Definition reserved_area (fi : Fat32Info) : Z -> Prop :=
  fun j => j < RsvdSecCnt fi * BytesPerSec fi.

Definition fat_area (fi : Fat32Info) : Z -> Prop :=
  span (RsvdSecCnt fi * BytesPerSec fi) (FirstDataSec fi * BytesPerSec fi).

Definition data_area (fi : Fat32Info) : Z -> Prop :=
  fun j => FirstDataSec fi * BytesPerSec fi <= j.

(** The hint of the FS information sector is either the "unknown"
    value or a cluster number of the volume. *)
Definition hint_ok (s : Filesys) : Prop :=
  forall h, GetFATNxtFree s = Val h ->
    h = 0xFFFFFFFF \/ in_volume (finfo_ s) h.

(** What [AllocateCluster] has done when it returns the cluster [c]
    for the chain [l] that starts at [head]. *)
Record allocated (s s' : Filesys) (head : Z) (l : list Z) (c : Z)
  : Prop := mk_allocated {
  alloc_in_volume : in_volume (finfo_ s) c;
  alloc_was_free : GetNextClus c s = Val 0;
  alloc_fields : same_fields s s';
  alloc_chain : chain s' head (l ++ [c]);
  alloc_reaches : reaches s' head c;
  alloc_eoc : exists m, GetNextClus c s' = Val m /\ FATEND <= m;
  alloc_zero : forall k, 0 <= k < cluster_len (finfo_ s) ->
    byte_at (mFilesys_ s') (cluster_pos (finfo_ s) c + k) = 0;
  alloc_hint : GetFATNxtFree s' = Val c;
  alloc_count : exists f,
    GetNFreeClus s = Val f /\ GetNFreeClus s' = Val (u32 (f - 1))
}.

(** The image that [SaveFileEntry] leaves when none of its writes is
    out of range: the eleven name bytes, then the fields in the order
    of the source. *)
Definition save_image (now : tm) (e : FileEntry) (img : image) : image :=
  let loc := entryLoc e in
  let e' := SetCurrentTime now e in
  let img := write_elems img loc 1 (map (str_at (name e)) (seq 0 11)) in
  let img := write_bytes img (loc + 11) (attr e') 1 in
  let img := write_bytes img (loc + 13) 0 1 in
  let img := write_bytes img (loc + 14) 0 2 in
  let img := write_bytes img (loc + 16) 0 2 in
  let img := write_bytes img (loc + 18) 0 2 in
  let img := write_bytes img (loc + 20) (hi e') 2 in
  let img := write_bytes img (loc + 22) (wrtTime e') 2 in
  let img := write_bytes img (loc + 24) (wrtDate e') 2 in
  let img := write_bytes img (loc + 26) (lo e') 2 in
  write_bytes img (loc + 28) (size e') 4.

(** [entry_at img loc e]: [e] is the entry that [GetFileList] decodes
    from the 32 bytes at [loc]. *)
Record entry_at (img : image) (loc : Z) (e : FileEntry) : Prop :=
  mk_entry_at {
  ea_name : exists buf,
    ReadValue 8 img 11 loc 1 = Some buf /\ name e = cstr buf /\
    str_at buf 0 <> 0 /\ str_at buf 0 <> DEALLOC;
  ea_attr : read_le 8 img (u32 (loc + 11)) 1 = Some (attr e);
  ea_hi : read_le 16 img (u32 (loc + 20)) 2 = Some (hi e);
  ea_lo : read_le 16 img (u32 (loc + 26)) 2 = Some (lo e);
  ea_size : read_le 32 img (u32 (loc + 28)) 4 = Some (size e);
  ea_loc : entryLoc e = loc;
  ea_copy : FileEntry_copy e = e
}.

(** [listed s dl e]: [e] is decoded from a slot of one of the clusters
    [dl] of a directory. *)
Definition listed (s : Filesys) (dl : list Z) (e : FileEntry) : Prop :=
  exists x k, x ∈ dl /\ 0 <= k /\ 32 * k + 32 <= cluster_len (finfo_ s) /\
    entry_at (mFilesys_ s) (cluster_pos (finfo_ s) x + 32 * k) e.

(** The state after the first step of a round of [Rm]: the file is
    closed if it was open. *)
Definition after_close (name_ : list Z) (s : Filesys) : Filesys :=
  if existsb (fun e => str_eqb (GetShortName e) name_) (openTable_ s)
  then set_openTable s (erase_first name_ (openTable_ s))
  else s.

(** [rm_target name_ entries e]: [e] is the entry that [rm name_]
    removes, the first one with that short name that is not a
    directory. *)
Definition rm_target (name_ : list Z) (entries : list FileEntry)
  (e : FileEntry) : Prop :=
  exists pre post, entries = pre ++ e :: post /\
    Forall (fun x => GetShortName x <> name_ \/
                     Z.land (attr x) DIRECT = DIRECT) pre /\
    GetShortName e = name_ /\ Z.land (attr e) DIRECT <> DIRECT.

(** [rmdir_target name_ entries e]: [e] is the entry that
    [rmdir name_] removes, the first one with that short name, which
    is a directory. *)
Definition rmdir_target (name_ : list Z) (entries : list FileEntry)
  (e : FileEntry) : Prop :=
  exists pre post, entries = pre ++ e :: post /\
    Forall (fun x => GetShortName x <> name_) pre /\
    GetShortName e = name_ /\ Z.land (attr e) DIRECT = DIRECT.

(** The clusters of a file: none when its first cluster is 0, a chain
    of the volume otherwise. *)
Definition file_chain (s : Filesys) (e : FileEntry) (l : list Z) : Prop :=
  (clus e = 0 /\ l = []) \/ valid_chain s (clus e) l.

(** The FAT copies and the free-count word. *)
Definition fat_and_count (fi : Fat32Info) : Z -> Prop :=
  fun j => fat_area fi j \/ span (nfree_pos fi) (nfree_pos fi + 4) j.

(** The 32 bytes at [loc] in [img'] are the entry of [img] removed at
    time [now]: the deletion mark in byte 0; the rest of the name, the
    attribute, byte 12, the two cluster halves and the size as they
    were; zeros in the creation and access stamps (bytes 13 to 19);
    the write time and date of the removal in bytes 22 to 25. *)
Record tombstoned (now : tm) (e : FileEntry) (img img' : image) (loc : Z)
  : Prop := mk_tombstoned {
  tomb_mark : byte_at img' loc = DEALLOC;
  tomb_kept : forall k, 1 <= k <= 12 \/ 20 <= k <= 21 \/ 26 <= k <= 31 ->
    byte_at img' (loc + k) = byte_at img (loc + k);
  tomb_zero : forall k, 13 <= k <= 19 -> byte_at img' (loc + k) = 0;
  tomb_time :
    byte_at img' (loc + 22) + 256 * byte_at img' (loc + 23)
    = wrtTime (SetCurrentTime now e);
  tomb_date :
    byte_at img' (loc + 24) + 256 * byte_at img' (loc + 25)
    = wrtDate (SetCurrentTime now e)
}.

(** [s] right-padded with spaces to [n] characters. *)
Definition pad (n : nat) (s : list Z) : list Z :=
  s ++ replicate (n - length s) SPACE.

(** Whether an operation returns, and whether it throws. *)
Definition returns {A} (o : outcome A) : bool :=
  match o with
  | Ret _ _ => true
  | _ => false
  end.

Definition raises {A} (o : outcome A) : bool :=
  match o with
  | Raise _ => true
  | _ => false
  end.

(** A boot-sector field as [Validate] decodes it. *)
Definition boot_field (tbits : Z) (img : image) (pos width : Z) : Z :=
  default 0 (read_le tbits img pos width).

(** The checks of [Validate] on the decoded fields, in the order of
    the source; each conjunct is the negation of a [throw] condition. *)
Definition boot_checks (img : image) : bool :=
  let sig := default [] (ReadValue 8 img 2 510 1) in
  let bps := boot_field 16 img 11 2 in
  let spc := boot_field 32 img 13 1 in
  negb (negb (str_at sig 0 =? 0x55) || negb (str_at sig 1 =? 0xaa))
  && negb (negb (bps =? 512) && negb (bps =? 1024) &&
           negb (bps =? 2048) && negb (bps =? 4096))
  && negb (negb (boot_field 16 img 17 2 =? 0))
  && negb (negb (spc =? 1) && negb (spc =? 2) && negb (spc =? 4) &&
           negb (spc =? 16) && negb (spc =? 32) && negb (spc =? 64) &&
           negb (spc =? 128))
  && negb (boot_field 32 img 32 4 =? 0)
  && negb (negb (boot_field 32 img 22 2 =? 0)).

(** ** A small volume used to run the model

    512-byte sectors, one sector per cluster, two reserved sectors (the
    boot sector and the FS information sector), two FATs of one sector
    and twelve data sectors. *)

Module Sample.

(** [bytes] stored from offset [pos] on. *)
Fixpoint poke (img : image) (pos : nat) (bytes : list Z) : image :=
  match bytes with
  | [] => img
  | b :: rest => poke (<[pos := b]> img) (S pos) rest
  end.

Definition le16 (v : Z) : list Z := [v mod 256; v / 256 mod 256].

Definition le32 (v : Z) : list Z :=
  [v mod 256; v / 256 mod 256; v / 65536 mod 256; v / 16777216 mod 256].

(** A 32-byte directory entry. *)
Definition dirent (name11 : list Z) (attr_ ntres tenth : Z)
  (ctime cdate adate hi_ wtime wdate lo_ size_ : Z) : list Z :=
  name11 ++ [attr_; ntres; tenth] ++ le16 ctime ++ le16 cdate
    ++ le16 adate ++ le16 hi_ ++ le16 wtime ++ le16 wdate ++ le16 lo_
    ++ le32 size_.

Definition boot_sector (spc : Z) : list (nat * list Z) :=
  [ (11%nat, le16 512); (13%nat, [spc]); (14%nat, le16 2);
    (16%nat, [2]); (17%nat, le16 0); (22%nat, le16 0);
    (32%nat, le32 16); (36%nat, le32 1); (44%nat, le32 2);
    (48%nat, le16 1); (510%nat, [0x55; 0xaa]) ].

Definition fat_sector : list Z :=
  le32 0xFFFFFFF8 ++ le32 0xFFFFFFFF ++ le32 0x0FFFFFFF
    ++ le32 4 ++ le32 0xFFFFFFFF ++ le32 0xFFFFFFFF ++ le32 0xA0000000.

Definition root_dir : list Z :=
  dirent (str "HELLO   TXT") 0x20 0x18 0x64 0x7C21 0x5A21 0x5A22 0
    0x7C30 0x5A23 3 700
  ++ dirent (str "EMPTY      ") 0x20 0 0x11 0x1234 0x5678 0x5679 0
       0x4321 0x5A23 0 0
  ++ dirent (str "SUB        ") 0x10 0 0 0 0 0 0 0x4321 0x5A23 5 0.

Definition sub_dir : list Z :=
  dirent (str ".          ") 0x10 0 0 0 0 0 0 0x4321 0x5A23 5 0
  ++ dirent (str "..         ") 0x10 0 0 0 0 0 0 0x4321 0x5A23 0 0.

Definition pokes (l : list (nat * list Z)) (img : image) : image :=
  fold_left (fun im '(p, b) => poke im p b) l img.

Definition image_with (spc : Z) : image :=
  pokes (boot_sector spc
         ++ [ (1000%nat, le32 7); (1004%nat, le32 0xFFFFFFFF);
              (1024%nat, fat_sector); (1536%nat, fat_sector);
              (2048%nat, root_dir); (3584%nat, sub_dir) ])
    (replicate 8192 0).

Definition disk : image := Eval vm_compute in image_with 1.

Definition no_info : Fat32Info :=
  mkFat32Info [0; 0] 0 0 0 0 0 0 0 0 0 0 0 0 0 0.

(** The object as the constructor leaves it. *)
Definition fresh (img : image) : Filesys :=
  mkFilesys img false no_info 0 [] [].

(** The mounted volume. *)
Definition mounted : Filesys := Eval vm_compute in
    match Validate (fresh disk) with
    | Ret _ s => s
    | _ => fresh disk
    end.

Definition noon : tm := mkTm 30 15 12 30 9 126.

(** The three entries of the root directory and the listing of the
    directory [sub]. *)
Definition hello : FileEntry := Eval vm_compute in
    mkFileEntry (str "HELLO   TXT") 0x20 3 0 0 0 700 3 2048 0.

Definition empty : FileEntry := Eval vm_compute in
    mkFileEntry (str "EMPTY      ") 0x20 0 0 0 0 0 0 2080 0.

Definition sub : FileEntry := Eval vm_compute in
    mkFileEntry (str "SUB        ") 0x10 5 0 0 0 0 5 2112 0.

Definition sub_entries : list FileEntry := Eval vm_compute in
    [ mkFileEntry (str ".          ") 0x10 5 0 0 0 0 5 3584 0;
      mkFileEntry (str "..         ") 0x10 0 0 0 0 0 0 3616 0 ].

(** The state an operation returns with, [s] if it does not. *)
Definition state_after {A} (o : outcome A) (s : Filesys) : Filesys :=
  match o with
  | Ret _ s' => s'
  | _ => s
  end.

Definition after_alloc : Filesys := Eval vm_compute in
    state_after (AllocateCluster 5 3 mounted) mounted.

Definition after_rm : Filesys := Eval vm_compute in
    state_after (Rm 5 noon [str "hello.txt"] mounted) mounted.

Definition after_rm_empty : Filesys := Eval vm_compute in
    state_after (Rm 5 noon [str "empty"] mounted) mounted.

Definition after_rmdir : Filesys := Eval vm_compute in
    state_after (Rmdir 5 noon [str "sub"] mounted) mounted.

Definition after_set : Filesys := Eval vm_compute in
    state_after (SetNextClus 6 5 mounted) mounted.

End Sample.

(** * The rest of the program *)

(** ** Vocabulary for directory slots *)

(** The first name byte of a slot that [GetFileList] returns: a used
    slot when [getDealloc] is false, a free or deleted one when it is
    true. *)
Definition wanted (getDealloc : bool) (b : Z) : Prop :=
  if getDealloc then b = 0 \/ b = DEALLOC else b <> 0 /\ b <> DEALLOC.

(** ** [open]

    [e.openInfo = openPermission;] *)
Definition set_openInfo (e : FileEntry) (v : Z) : FileEntry :=
  mkFileEntry (name e) (attr e) (lo e) (hi e) (wrtTime e) (wrtDate e)
    (size e) (clus e) (entryLoc e) v.

(** The [for (FileEntry e : *list)] loop of [Open]; the result is the
    new open table.  [openTable_.push_back(e)] stores a copy of the
    loop variable, itself a copy of the list element. *)
Fixpoint Open_scan (name_ : list Z) (openPermission : Z)
  (list_ table : list FileEntry) : list FileEntry :=
  match list_ with
  | [] => table
  | e0 :: rest =>
      let e := FileEntry_copy e0 in
      if str_eqb (GetShortName e) name_ then
        if Z.land (attr e) DIRECT =? DIRECT then table
        else table ++ [FileEntry_copy (set_openInfo e openPermission)]
      else Open_scan name_ openPermission rest table
  end.

(** [void Filesys::Open(std::vector<std::string>& argv)] *)
Definition Open (fuel : nat) (argv : list (list Z)) : M unit :=
  fun s =>
    if negb (size_of argv =? 2) then Ret tt s
    else
      let name_ := nth 0 argv [] in
      let location := cwd_ s in
      let openPermission :=
        if str_eqb (nth 1 argv []) (str "rw") then Some (Z.lor READ WRITE)
        else if str_eqb (nth 1 argv []) (str "r") then Some READ
        else if str_eqb (nth 1 argv []) (str "w") then Some WRITE
        else None in
      match openPermission with
      | None => Ret tt s
      | Some openPermission =>
          (list_ <- lift (GetFileList fuel location false) ;;
           fun s =>
             if existsb
                  (fun e => str_eqb (GetShortName (FileEntry_copy e)) name_)
                  (openTable_ s)
             then Ret tt s
             else
               Ret tt (set_openTable s
                         (Open_scan name_ openPermission list_
                            (openTable_ s))))%fs s
      end.

(** ** New entries: [AddEntry], [Create], [Mkdir] *)

(** [entry.name = value; entry.attr = attr; entry.SetClus(0);
    entry.size = 0;] on the slot taken for a new entry. *)
Definition new_entry (slot : FileEntry) (value : list Z) (attr_ : Z)
  : FileEntry :=
  let e := FileEntry_copy slot in
  let e := mkFileEntry (cstr value) attr_ (lo e) (hi e) (wrtTime e)
             (wrtDate e) (size e) (clus e) (entryLoc e) (openInfo e) in
  let e := SetClus 0 e in
  mkFileEntry (name e) (attr e) (lo e) (hi e) (wrtTime e) (wrtDate e) 0
    (clus e) (entryLoc e) (openInfo e).

(** [entry->name = fixedName;] *)
Definition set_name (e : FileEntry) (n : list Z) : FileEntry :=
  mkFileEntry n (attr e) (lo e) (hi e) (wrtTime e) (wrtDate e) (size e)
    (clus e) (entryLoc e) (openInfo e).

(** [topLevel->entryLoc += 32;] *)
Definition next_slot (e : FileEntry) : FileEntry :=
  mkFileEntry (name e) (attr e) (lo e) (hi e) (wrtTime e) (wrtDate e)
    (size e) (clus e) (u32 (entryLoc e + 32)) (openInfo e).

(** [FileEntry* Filesys::AddEntry(uint32_t location, std::string name,
    uint8_t attr)]; [None] is the [NULL] returned for a name that is
    taken or a volume that is full.  [list->front()] on a listing that
    is still empty after the directory has grown is undefined in the
    source and raises here. *)
Definition AddEntry (fuel : nat) (location : Z) (name_ : list Z) (attr_ : Z)
  : M (option FileEntry) :=
  (list_ <- lift (GetFileList fuel location false) ;;
   if existsb (fun e => str_eqb (GetShortName (FileEntry_copy e)) name_) list_
   then ret None
   else
     (list_ <- lift (GetFileList fuel location true) ;;
      r <- (if size_of list_ =? 0 then
              (c <- AllocateCluster fuel location ;;
               if c =? 0 then ret None
               else
                 (list_ <- lift (GetFileList fuel location true) ;;
                  ret (Some list_)))
            else ret (Some list_)) ;;
      match r with
      | None => ret None
      | Some [] => throw
      | Some (slot :: _) =>
          let value := fill (map toupper name_) 11 in
          ret (Some (FileEntry_copy (new_entry slot value attr_)))
      end))%fs.

(** [address.back()]; the source calls it on an empty list, which is
    undefined, when the argument is the empty string: it reads as the
    empty name here. *)
Definition back (address : list (list Z)) : list Z :=
  nth (length address - 1) address [].

(** [void Filesys::Create(std::vector<std::string>& argv)]: the
    exception of [NavToDir] is caught and reported, and the command
    goes on with [location = cwd_]. *)
Definition Create (fuel : nat) (now : tm) (argv : list (list Z)) : M unit :=
  fun s =>
    if negb (size_of argv =? 1) then Ret tt s
    else
      let address := ParseAddress (nth 0 argv []) in
      let location := cwd_ s in
      match NavToDir fuel address 0 (u64 (size_of address - 1)) s with
      | Loop => Spin
      | r =>
          let location :=
            match r with Val c => c | _ => location end in
          let name_ := back address in
          match ValidateFileName name_ with
          | None => Ret tt s
          | Some fixedName =>
              (entry <- AddEntry fuel location name_ 0 ;;
               match entry with
               | None => ret tt
               | Some entry =>
                   let entry := SetClus 0 entry in
                   let entry := set_name entry fixedName in
                   (SaveFileEntry now entry ;;; ret tt)
               end)%fs s
          end
      end.

(** [void Filesys::Mkdir(std::vector<std::string>& argv)]: here the
    exception of [NavToDir] ends the command.  The three entries are
    saved at the local times [now1], [now2] and [now3]. *)
Definition Mkdir (fuel : nat) (now1 now2 now3 : tm) (argv : list (list Z))
  : M unit :=
  fun s =>
    if negb (size_of argv =? 1) then Ret tt s
    else
      let address := ParseAddress (nth 0 argv []) in
      match NavToDir fuel address 0 (u64 (size_of address - 1)) s with
      | Loop => Spin
      | Throw => Ret tt s
      | Val location =>
          let name_ := back address in
          match ValidateFileName name_ with
          | None => Ret tt s
          | Some fixedName =>
              (entry <- AddEntry fuel location name_ DIRECT ;;
               match entry with
               | None => ret tt
               | Some entry =>
                   (newCluster <- AllocateCluster fuel 0 ;;
                    if negb (newCluster =? 0) then
                      let entry := SetClus newCluster entry in
                      let entry := set_name entry fixedName in
                      (level <- AddEntry fuel (clus entry)
                                  (str ".          ") DIRECT ;;
                       topLevel <- AddEntry fuel (clus entry)
                                     (str "..         ") DIRECT ;;
                       match level with
                       | Some level =>
                           SaveFileEntry now1 (SetClus newCluster level) ;;;
                           ret tt
                       | None => ret tt
                       end ;;;
                       match topLevel with
                       | Some topLevel =>
                           (fi <- get_finfo ;;
                            let topLevel :=
                              SetClus (if location =? RootClus fi then 0
                                       else location) topLevel in
                            SaveFileEntry now2 (next_slot topLevel) ;;;
                            ret tt)
                       | None => ret tt
                       end ;;;
                       SaveFileEntry now3 entry ;;;
                       ret tt)
                    else ret tt)
               end)%fs s
          end
      end.

(** ** Moving file data: [FileOperate]

    The function passed to [FileOperate] moves [len] bytes between the
    image at [pos] and the stream at the given offset; [None] is its
    exception. *)
Definition transfer : Type :=
  list Z -> Z -> Z -> Z -> Filesys -> option (list Z * Filesys).

(** A buffer with [d] stored at offset [off]. *)
Definition store (stream : list Z) (off : nat) (d : list Z) : list Z :=
  take off stream ++ d ++ drop (off + length d) stream.

(** [&Filesys::ReadValue<char>]: the bytes read land at
    [stream + amountTran]. *)
Definition read_chars : transfer :=
  fun stream off len pos s =>
    match ReadValue 8 (mFilesys_ s) len pos 1 with
    | Some d => Some (store stream (Z.to_nat off) d, s)
    | None => None
    end.

(** [&Filesys::WriteValue<char>]: the bytes written are those at
    [stream + amountTran]. *)
Definition write_chars : transfer :=
  fun stream off len pos s =>
    match WriteValue (mFilesys_ s) (drop (Z.to_nat off) stream) len pos 1 with
    | Some img => Some (stream, set_image s img)
    | None => None
    end.

(** The [for (uint32_t i = 0; i < clusNum; ++i)] loop of
    [FileOperate]; [None] is the return of 0 for a start beyond the
    chain. *)
Fixpoint FileOperate_seek (n : nat) (curClus : Z) (s : Filesys)
  : res (option Z) :=
  match n with
  | O => Val (Some curClus)
  | S n' =>
      (curClus <- GetNextClus curClus s ;;
       if curClus >=? FATEND then Val None
       else FileOperate_seek n' curClus s)%res
  end.

(** The [while (amountTran < length && curClus < FATEND)] loop of
    [FileOperate]; the result is [amountTran] and the stream. *)
Fixpoint FileOperate_loop (fuel : nat) (funct : transfer) (stream : list Z)
  (length_ amountTran curClus clusOffset : Z) : M (Z * list Z) :=
  fun s =>
    if (amountTran <? length_) && (curClus <? FATEND) then
      match fuel with
      | O => Spin
      | S fuel' =>
          let fi := finfo_ s in
          let remaining :=
            u32 (u32 (BytesPerSec fi * SecPerClus fi) - clusOffset) in
          let tran := u32 (length_ - amountTran) in
          let loc := u32 (BytesPerSec fi * GetFirstSectorOfClus fi curClus) in
          let tran := if tran >? remaining then remaining else tran in
          match funct stream amountTran tran (u32 (loc + clusOffset)) s with
          | None => Raise s
          | Some (stream, s) =>
              let amountTran := u32 (amountTran + tran) in
              match GetNextClus curClus s with
              | Val curClus =>
                  FileOperate_loop fuel' funct stream length_ amountTran
                    curClus 0 s
              | Throw => Raise s
              | Loop => Spin
              end
          end
      end
    else Ret (amountTran, stream) s.

(** [uint32_t Filesys::FileOperate(char* stream, uint32_t start,
    uint32_t length, FileEntry& file, funct)].  On a volume whose
    clusters are not empty every round of the second loop moves at
    least one byte, so [length] rounds of fuel are never used up.  The
    division by a cluster size of 0, undefined in the source, reads as
    0 here. *)
Definition FileOperate (funct : transfer) (stream : list Z)
  (start length_ : Z) (file : FileEntry) : M (Z * list Z) :=
  fun s =>
    let fi := finfo_ s in
    let clusSize := u32 (BytesPerSec fi * SecPerClus fi) in
    let clusNum := start / clusSize in
    let clusOffset := start mod clusSize in
    match FileOperate_seek (Z.to_nat clusNum) (clus file) s with
    | Throw => Raise s
    | Loop => Spin
    | Val None => Ret (0, stream) s
    | Val (Some curClus) =>
        FileOperate_loop (Z.to_nat length_) funct stream length_ 0 curClus
          clusOffset s
    end.

(** ** The command line of [main]

    The state of the loop over the characters of a line. *)
Record words : Type := mkWords {
  w_name : list Z;
  w_argv : list (list Z);
  w_c : Z;                     (* int *)
  w_newWord : bool;
  w_lookForEndQuote : bool
}.

Definition TAB : Z := 9.
Definition QUOTE : Z := 34.

(** [argv.back().push_back(ch)] *)
Fixpoint push_last (argv : list (list Z)) (ch : Z) : list (list Z) :=
  match argv with
  | [] => []
  | [a] => [a ++ [ch]]
  | a :: rest => a :: push_last rest ch
  end.

(** One round of [for (size_t i = 0; i < input.length(); ++i)]. *)
Definition split_step (w : words) (ch : Z) : words :=
  let look := w_lookForEndQuote w in
  let newWord := w_newWord w in
  if (((ch =? SPACE) || (ch =? TAB)) && negb look)
     || (look && (ch =? QUOTE))
     || (newWord && (ch =? QUOTE) && negb look)
  then
    let '(newWord, c) :=
      if negb newWord then (true, w_c w + 1) else (newWord, w_c w) in
    let look :=
      if look && (ch =? QUOTE) then false
      else if ch =? QUOTE then true
      else look in
    mkWords (w_name w) (w_argv w) c newWord look
  else if w_c w =? -1 then
    mkWords (w_name w ++ [ch]) (w_argv w) (w_c w) newWord look
  else
    let '(newWord, argv) :=
      if newWord then (false, w_argv w ++ [[]]) else (newWord, w_argv w) in
    mkWords (w_name w) (push_last argv ch) (w_c w) newWord look.

(** What [main] does with a line once it is split. *)
Inductive line : Type :=
| Exit                                   (* [break]: the line is "exit" *)
| Skip                                   (* [continue]: no name *)
| Unclosed                               (* "Error: Unclosed Quote" *)
| Call (name_ : list Z) (argv : list (list Z)).

(** The body of the [while (1)] loop of [main] up to the call of
    [CallFunct]. *)
Definition split_line (input : list Z) : line :=
  if str_eqb input (str "exit") then Exit
  else
    let w := fold_left split_step input (mkWords [] [] (-1) false false) in
    if negb (w_lookForEndQuote w) then
      if str_eqb (w_name w) [] then Skip else Call (w_name w) (w_argv w)
    else Unclosed.

(** ** Vocabulary for command lines *)

(** A separator character. *)
Definition blank (c : Z) : Prop := c = SPACE \/ c = TAB.

(** An argument as it is typed: a plain word, or a text between
    double quotes. *)
Inductive token : Type :=
| Plain (w : list Z)
| Quoted (t : list Z).

(** A plain word holds no separator and does not start with a quote;
    a quoted text is not empty and holds no quote. *)
Definition token_ok (a : token) : Prop :=
  match a with
  | Plain w => w <> [] /\ Forall (fun c => ~ blank c) w /\ nth 0 w 0 <> QUOTE
  | Quoted t => t <> [] /\ Forall (fun c => c <> QUOTE) t
  end.

(** The characters typed for an argument, and the argument meant. *)
Definition token_chars (a : token) : list Z :=
  match a with
  | Plain w => w
  | Quoted t => QUOTE :: t ++ [QUOTE]
  end.

Definition token_text (a : token) : list Z :=
  match a with
  | Plain w => w
  | Quoted t => t
  end.

(** ** Vocabulary for the content of a file *)

(** The [n] bytes of the image from [pos] on. *)
Definition bytes_from (img : image) (pos : Z) (n : nat) : list Z :=
  map (fun k => byte_at img (pos + Z.of_nat k)) (seq 0 n).

(** The bytes of a cluster, and of the clusters of a chain in order. *)
Definition cluster_bytes (s : Filesys) (c : Z) : list Z :=
  bytes_from (mFilesys_ s) (cluster_pos (finfo_ s) c)
    (Z.to_nat (cluster_len (finfo_ s))).

Definition chain_bytes (s : Filesys) (l : list Z) : list Z :=
  concat (map (cluster_bytes s) l).

(** The offsets of the bytes of the clusters [l]. *)
Definition chain_area (fi : Fat32Info) (l : list Z) : Z -> Prop :=
  fun j => exists c, c ∈ l /\
    span (cluster_pos fi c) (cluster_pos fi c + cluster_len fi) j.

(** ** Vocabulary for directory slots *)

(** The 32 bytes at [loc] hold the name, the attribute, the two cluster
    halves and the size of [e]. *)
Definition slot_holds (img : image) (loc : Z) (e : FileEntry) : Prop :=
  (forall k, (k < 11)%nat ->
     byte_at img (loc + Z.of_nat k) = str_at (name e) k) /\
  byte_at img (loc + 11) = attr e /\
  byte_at img (loc + 20) + 256 * byte_at img (loc + 21) = hi e /\
  byte_at img (loc + 26) + 256 * byte_at img (loc + 27) = lo e /\
  word_at img (loc + 28) = size e.

(** [decoded img loc e]: the fields of [e] are those that
    [GetFileList] reads from the 32 bytes at [loc], whatever the first
    name byte is. *)
Record decoded (img : image) (loc : Z) (e : FileEntry) : Prop :=
  mk_decoded {
  dec_name : exists buf,
    ReadValue 8 img 11 loc 1 = Some buf /\ name e = cstr buf;
  dec_attr : read_le 8 img (u32 (loc + 11)) 1 = Some (attr e);
  dec_hi : read_le 16 img (u32 (loc + 20)) 2 = Some (hi e);
  dec_lo : read_le 16 img (u32 (loc + 26)) 2 = Some (lo e);
  dec_size : read_le 32 img (u32 (loc + 28)) 4 = Some (size e);
  dec_loc : entryLoc e = loc;
  dec_copy : FileEntry_copy e = e
}.

(** ** More sample data *)

Module Sample2.

Import Sample.

(** The mounted volume with every cluster in use. *)
Definition full : Filesys :=
  set_image mounted
    (pokes [ (1048%nat, concat (replicate 7 (le32 0x0FFFFFFF)));
             (1560%nat, concat (replicate 7 (le32 0x0FFFFFFF))) ] disk).

(** The mounted volume after [open hello.txt r]. *)
Definition opened : Filesys :=
  state_after (Open 5 [str "hello.txt"; str "r"] mounted) mounted.

(** The mounted volume with a next-free hint that is no cluster
    number of the volume, 0x40000006, and the state that
    [AllocateCluster 3] leaves there. *)
Definition stray : Filesys :=
  set_image mounted (pokes [ (1004%nat, le32 0x40000006) ] disk).

Definition after_stray : Filesys := Eval vm_compute in
    state_after (AllocateCluster 5 3 stray) stray.

End Sample2.

(** * Properties *)

(** Division and remainder by a constant are left to [lia]. *)
Ltac Zify.zify_post_hook ::= Z.to_euclidean_division_equations.

(** ** Machine integers *)

Lemma wrap_range (bits x : Z) : 0 <= bits -> 0 <= wrap bits x < 2 ^ bits.
Proof.
  intros Hb. unfold wrap. apply Z.mod_pos_bound. apply Z.pow_pos_nonneg; lia.
Qed.

Lemma wrap_small (bits x : Z) : 0 <= x < 2 ^ bits -> wrap bits x = x.
Proof. intros H. unfold wrap. apply Z.mod_small. exact H. Qed.

Lemma wrap_idem (bits x : Z) : wrap bits (wrap bits x) = wrap bits x.
Proof.
  unfold wrap. destruct (Z.eq_dec (2 ^ bits) 0) as [E|E].
  - rewrite E. rewrite !Z.mod_0_r. reflexivity.
  - apply Z.mod_mod. exact E.
Qed.

Lemma u32_range (x : Z) : 0 <= u32 x < 4294967296.
Proof. apply (wrap_range 32 x). lia. Qed.

Lemma u32_small (x : Z) : 0 <= x < 4294967296 -> u32 x = x.
Proof. intros H. apply wrap_small. exact H. Qed.

Lemma testbit_wrap (bits x n : Z) :
  0 <= bits -> 0 <= n ->
  Z.testbit (wrap bits x) n = (n <? bits) && Z.testbit x n.
Proof.
  intros Hb Hn. unfold wrap. destruct (Z.ltb_spec n bits) as [H|H].
  - rewrite Z.mod_pow2_bits_low by lia. reflexivity.
  - rewrite Z.mod_pow2_bits_high by lia. reflexivity.
Qed.

Lemma testbit_land_255 (x n : Z) :
  0 <= n -> Z.testbit (Z.land x 0xFF) n = (n <? 8) && Z.testbit x n.
Proof.
  intros Hn. change 0xFF with (Z.ones 8). rewrite Z.land_ones by lia.
  apply (testbit_wrap 8 x n); lia.
Qed.

(** ** The image primitives *)

Lemma length_write_bytes (n : nat) (img : image) (at_ v : Z) :
  length (write_bytes img at_ v n) = length img.
Proof.
  revert img at_ v. induction n as [|n IH]; intros img at_ v; simpl.
  - reflexivity.
  - rewrite IH. apply length_insert.
Qed.

Lemma length_write_elems (data : list Z) (img : image) (at_ width : Z) :
  length (write_elems img at_ width data) = length img.
Proof.
  revert img at_. induction data as [|d ds IH]; intros img at_; simpl.
  - reflexivity.
  - rewrite IH. apply length_write_bytes.
Qed.

Lemma byte_at_insert_ne (img : image) (i j v : Z) :
  0 <= i -> 0 <= j -> i <> j ->
  byte_at (<[Z.to_nat i := v]> img) j = byte_at img j.
Proof.
  intros Hi Hj Hne. unfold byte_at.
  rewrite list_lookup_insert_ne by lia. reflexivity.
Qed.

Lemma byte_at_insert_eq (img : image) (i v : Z) :
  0 <= i < filesys_size img ->
  byte_at (<[Z.to_nat i := v]> img) i = v.
Proof.
  intros Hi. unfold byte_at, filesys_size in *.
  rewrite list_lookup_insert_eq by lia. reflexivity.
Qed.

(** A write of [n] bytes at [at_] leaves every other byte alone. *)
Lemma byte_at_write_bytes_other (n : nat) (img : image) (at_ v j : Z) :
  0 <= at_ -> 0 <= j -> (j < at_ \/ at_ + Z.of_nat n <= j) ->
  byte_at (write_bytes img at_ v n) j = byte_at img j.
Proof.
  revert img at_ v. induction n as [|n IH]; intros img at_ v Hat Hj Hout.
  - reflexivity.
  - cbn [write_bytes]. rewrite IH by lia.
    apply byte_at_insert_ne; lia.
Qed.

(** The byte at distance [k] holds bits [8k .. 8k+7] of the value. *)
Lemma byte_at_write_bytes_in (n : nat) (img : image) (at_ v k : Z) :
  0 <= at_ -> 0 <= k < Z.of_nat n -> at_ + Z.of_nat n <= filesys_size img ->
  byte_at (write_bytes img at_ v n) (at_ + k) =
    Z.land (Z.shiftr v (8 * k)) 0xFF.
Proof.
  revert img at_ v k. induction n as [|n IH]; intros img at_ v k Hat Hk Hsz.
  - lia.
  - cbn [write_bytes]. destruct (Z.eq_dec k 0) as [->|Hk0].
    + rewrite Z.add_0_r. rewrite byte_at_write_bytes_other by lia.
      rewrite byte_at_insert_eq by lia. reflexivity.
    + replace (at_ + k) with ((at_ + 1) + (k - 1)) by lia.
      rewrite IH.
      * rewrite Z.shiftr_shiftr by lia. do 2 f_equal. lia.
      * lia.
      * lia.
      * unfold filesys_size in *. rewrite length_insert. lia.
Qed.

(** What [read_bytes] returns depends only on the bytes it visits. *)
Lemma read_bytes_ext (n : nat) (tbits : Z) (img img' : image)
  (at_ p data : Z) :
  (forall j, at_ <= j < at_ + Z.of_nat n -> byte_at img' j = byte_at img j) ->
  read_bytes tbits img' at_ p n data = read_bytes tbits img at_ p n data.
Proof.
  revert at_ p data. induction n as [|n IH]; intros at_ p data H.
  - reflexivity.
  - cbn [read_bytes]. rewrite H by lia. apply IH. intros j Hj. apply H. lia.
Qed.

Lemma read_elems_ext (len : nat) (tbits : Z) (img img' : image)
  (at_ width : Z) :
  0 <= width ->
  (forall j, at_ <= j < at_ + width * Z.of_nat len ->
             byte_at img' j = byte_at img j) ->
  read_elems tbits img' at_ width len = read_elems tbits img at_ width len.
Proof.
  intros Hw. revert at_. induction len as [|len IH]; intros at_ H.
  - reflexivity.
  - cbn [read_elems]. f_equal.
    + apply read_bytes_ext. intros j Hj. apply H. nia.
    + apply IH. intros j Hj. apply H. nia.
Qed.

Lemma ReadValue_ext (tbits : Z) (img img' : image) (len pos width : Z) :
  0 <= width -> 0 <= len ->
  length img' = length img ->
  (forall j, pos <= j < pos + width * len -> byte_at img' j = byte_at img j) ->
  ReadValue tbits img' len pos width = ReadValue tbits img len pos width.
Proof.
  intros Hw Hl Hlen H. unfold ReadValue, filesys_size. rewrite Hlen.
  destruct (_ >=? _); [reflexivity|]. f_equal.
  apply read_elems_ext; [exact Hw|]. intros j Hj. apply H. lia.
Qed.

Lemma read_le_ext (tbits : Z) (img img' : image) (pos width : Z) :
  0 <= width ->
  length img' = length img ->
  (forall j, pos <= j < pos + width -> byte_at img' j = byte_at img j) ->
  read_le tbits img' pos width = read_le tbits img pos width.
Proof.
  intros Hw Hlen H. unfold read_le.
  rewrite (ReadValue_ext tbits img img'); [reflexivity|lia|lia|exact Hlen|].
  intros j Hj. apply H. lia.
Qed.

(** [ReadValue] and [WriteValue] go through exactly when the guard
    [width * len + pos >= filesys_size_] is false. *)
Lemma ReadValue_Some_iff (tbits : Z) (img : image) (len pos width : Z) :
  (exists l, ReadValue tbits img len pos width = Some l)
  <-> width * len + pos < filesys_size img.
Proof.
  unfold ReadValue. destruct (Z.geb_spec (width * len + pos) (filesys_size img)).
  - split; [intros [l Hl]; discriminate | lia].
  - split; [lia | eauto].
Qed.

Lemma WriteValue_Some_iff (img : image) (data : list Z) (len pos width : Z) :
  (exists img', WriteValue img data len pos width = Some img')
  <-> width * len + pos < filesys_size img.
Proof.
  unfold WriteValue.
  destruct (Z.geb_spec (width * len + pos) (filesys_size img)).
  - split; [intros [l Hl]; discriminate | lia].
  - split; [lia | eauto].
Qed.

Lemma read_le_Some_iff (tbits : Z) (img : image) (pos width : Z) :
  (exists v, read_le tbits img pos width = Some v)
  <-> width + pos < filesys_size img.
Proof.
  unfold read_le, ReadValue. rewrite Z.mul_1_r.
  destruct (Z.geb_spec (width + pos) (filesys_size img)).
  - split; [intros [l Hl]; discriminate | lia].
  - cbn. split; [lia | eauto].
Qed.

Lemma write_le_Some_iff (img : image) (v pos width : Z) :
  (exists img', write_le img v pos width = Some img')
  <-> width + pos < filesys_size img.
Proof.
  unfold write_le. rewrite WriteValue_Some_iff. lia.
Qed.

Lemma write_le_eq (img img' : image) (v pos width : Z) :
  write_le img v pos width = Some img' ->
  width + pos < filesys_size img /\
  img' = write_bytes img pos v (Z.to_nat width).
Proof.
  unfold write_le, WriteValue. rewrite Z.mul_1_r.
  destruct (Z.geb_spec (width + pos) (filesys_size img)); [discriminate|].
  cbn. intros [= <-]. split; [lia | reflexivity].
Qed.

Lemma read_le_eq (tbits : Z) (img : image) (pos width v : Z) :
  read_le tbits img pos width = Some v ->
  width + pos < filesys_size img /\
  v = read_bytes tbits img pos 0 (Z.to_nat width) 0.
Proof.
  unfold read_le, ReadValue. rewrite Z.mul_1_r.
  destruct (Z.geb_spec (width + pos) (filesys_size img)); [discriminate|].
  cbn. intros [= <-]. split; [lia | reflexivity].
Qed.

(** ** Little-endian decoding as arithmetic *)

Lemma lor_shiftl_add (a b k : Z) :
  0 <= k -> 0 <= a < 2 ^ k -> Z.lor a (Z.shiftl b k) = a + b * 2 ^ k.
Proof.
  intros Hk Ha. rewrite Z.shiftl_mul_pow2 by lia.
  rewrite <- Z.lxor_lor, <- Z.add_nocarry_lxor; [reflexivity| |].
  all: apply Z.bits_inj'; intros n Hn; rewrite Z.land_spec, Z.bits_0.
  all: destruct (Z.ltb_spec n k) as [Hlt|Hge].
  all: try (rewrite Z.mul_pow2_bits_low by lia; apply andb_false_r).
  all: replace a with (a mod 2 ^ k) by (apply Z.mod_small; lia).
  all: rewrite Z.mod_pow2_bits_high by lia; reflexivity.
Qed.

Lemma byte_at_is_byte (img : image) (j : Z) :
  bytes_ok img -> is_byte (byte_at img j).
Proof.
  intros H. unfold byte_at. destruct (img !! Z.to_nat j) as [b|] eqn:E; cbn.
  - eapply Forall_lookup_1; eauto.
  - unfold is_byte. lia.
Qed.

Lemma land_255_mod (x : Z) : Z.land x 0xFF = x mod 256.
Proof. change 0xFF with (Z.ones 8). rewrite Z.land_ones by lia. reflexivity. Qed.

Lemma bytes_ok_insert (img : image) (i : nat) (v : Z) :
  bytes_ok img -> is_byte v -> bytes_ok (<[i := v]> img).
Proof. intros H Hv. apply Forall_insert; assumption. Qed.

Lemma bytes_ok_write_bytes (n : nat) (img : image) (at_ v : Z) :
  bytes_ok img -> bytes_ok (write_bytes img at_ v n).
Proof.
  revert img at_ v. induction n as [|n IH]; intros img at_ v H; cbn.
  - exact H.
  - apply IH. apply bytes_ok_insert; [exact H|].
    rewrite land_255_mod. unfold is_byte. lia.
Qed.

Lemma bytes_ok_write_elems (data : list Z) (img : image) (at_ width : Z) :
  bytes_ok img -> bytes_ok (write_elems img at_ width data).
Proof.
  revert img at_. induction data as [|d ds IH]; intros img at_ H; cbn.
  - exact H.
  - apply IH. apply bytes_ok_write_bytes. exact H.
Qed.

Lemma read_bytes_1 (tbits : Z) (img : image) (at_ : Z) :
  read_bytes tbits img at_ 0 1 0 = wrap tbits (byte_at img at_).
Proof. cbn. rewrite Z.lor_0_l, Z.shiftl_0_r. reflexivity. Qed.

Lemma read_bytes_2 (img : image) (at_ : Z) :
  is_byte (byte_at img at_) -> is_byte (byte_at img (at_ + 1)) ->
  forall tbits, 16 <= tbits ->
  read_bytes tbits img at_ 0 2 0 =
    byte_at img at_ + 256 * byte_at img (at_ + 1).
Proof.
  unfold is_byte. intros H0 H1 tbits Ht. cbn.
  assert (Hp : 2 ^ 16 <= 2 ^ tbits) by (apply Z.pow_le_mono_r; lia).
  change (2 ^ 16) with 65536 in Hp.
  change (8 * 0) with 0. change (8 * (0 + 1)) with 8.
  rewrite Z.lor_0_l, Z.shiftl_0_r.
  rewrite (wrap_small tbits (byte_at img at_)) by lia.
  rewrite lor_shiftl_add by (change (2 ^ 8) with 256; lia).
  change (2 ^ 8) with 256.
  rewrite wrap_small by lia. lia.
Qed.

Lemma read_bytes_4 (img : image) (at_ : Z) :
  is_byte (byte_at img at_) -> is_byte (byte_at img (at_ + 1)) ->
  is_byte (byte_at img (at_ + 2)) -> is_byte (byte_at img (at_ + 3)) ->
  read_bytes 32 img at_ 0 4 0 =
    byte_at img at_ + 256 * byte_at img (at_ + 1)
    + 65536 * byte_at img (at_ + 2) + 16777216 * byte_at img (at_ + 3).
Proof.
  unfold is_byte. intros H0 H1 H2 H3. cbn.
  replace (at_ + 1 + 1) with (at_ + 2) by lia.
  replace (at_ + 2 + 1) with (at_ + 3) by lia.
  change (8 * 0) with 0. change (8 * (0 + 1)) with 8.
  change (8 * (0 + 1 + 1)) with 16. change (8 * (0 + 1 + 1 + 1)) with 24.
  rewrite Z.lor_0_l, Z.shiftl_0_r.
  rewrite (wrap_small 32 (byte_at img at_)) by (change (2 ^ 32) with 4294967296; lia).
  rewrite (lor_shiftl_add _ _ 8) by (change (2 ^ 8) with 256; lia).
  change (2 ^ 8) with 256.
  rewrite (wrap_small 32 (_ + _ * 256)) by (change (2 ^ 32) with 4294967296; lia).
  rewrite (lor_shiftl_add _ _ 16) by (change (2 ^ 16) with 65536; lia).
  change (2 ^ 16) with 65536.
  rewrite (wrap_small 32 (_ + _ * 65536)) by (change (2 ^ 32) with 4294967296; lia).
  rewrite (lor_shiftl_add _ _ 24) by (change (2 ^ 24) with 16777216; lia).
  change (2 ^ 24) with 16777216.
  rewrite wrap_small by (change (2 ^ 32) with 4294967296; lia). lia.
Qed.

Lemma shiftr_land_255 (v k : Z) :
  0 <= k -> Z.land (Z.shiftr v (8 * k)) 0xFF = (v / 2 ^ (8 * k)) mod 256.
Proof. intros Hk. rewrite land_255_mod, Z.shiftr_div_pow2 by lia. reflexivity. Qed.

(** Reading back the 32-bit word just written. *)
Lemma read_write_4 (img : image) (pos v : Z) :
  0 <= pos -> pos + 4 <= filesys_size img ->
  read_bytes 32 (write_bytes img pos v 4) pos 0 4 0 = u32 v.
Proof.
  intros Hp Hs.
  assert (B : forall k, 0 <= k < 4 ->
            byte_at (write_bytes img pos v 4) (pos + k)
            = (v / 2 ^ (8 * k)) mod 256).
  { intros k Hk. rewrite byte_at_write_bytes_in by (cbn; lia).
    apply shiftr_land_255. lia. }
  pose proof (B 0 ltac:(lia)) as B0. rewrite Z.add_0_r in B0.
  pose proof (B 1 ltac:(lia)) as B1.
  pose proof (B 2 ltac:(lia)) as B2.
  pose proof (B 3 ltac:(lia)) as B3.
  change (2 ^ (8 * 0)) with 1 in B0. change (2 ^ (8 * 1)) with 256 in B1.
  change (2 ^ (8 * 2)) with 65536 in B2.
  change (2 ^ (8 * 3)) with 16777216 in B3.
  rewrite read_bytes_4; unfold is_byte; rewrite ?B0, ?B1, ?B2, ?B3;
    try lia.
  unfold wrap. change (2 ^ 32) with 4294967296. rewrite Z.div_1_r. lia.
Qed.

(** ** The state monad *)

Lemma bind_Ret {A B} (m : M A) (k : A -> M B) (s s2 : Filesys) (b : B) :
  bind m k s = Ret b s2 ->
  exists a s1, m s = Ret a s1 /\ k a s1 = Ret b s2.
Proof.
  unfold bind. destruct (m s) as [a s1| |]; try discriminate. eauto.
Qed.

Lemma bind_step {A B} (m : M A) (k : A -> M B) (s s1 : Filesys) (a : A) :
  m s = Ret a s1 -> bind m k s = k a s1.
Proof. intros H. unfold bind. rewrite H. reflexivity. Qed.

Lemma lift_Val {A} (r : Filesys -> res A) (s : Filesys) (a : A) :
  r s = Val a -> lift r s = Ret a s.
Proof. intros H. unfold lift. rewrite H. reflexivity. Qed.

Lemma lift_Ret {A} (r : Filesys -> res A) (s s' : Filesys) (a : A) :
  lift r s = Ret a s' -> r s = Val a /\ s' = s.
Proof.
  unfold lift. destruct (r s); try discriminate. intros [= -> ->]. auto.
Qed.

(** ** Frames *)

Lemma same_fields_refl (s : Filesys) : same_fields s s.
Proof. repeat split. Qed.

Lemma same_fields_trans (s1 s2 s3 : Filesys) :
  same_fields s1 s2 -> same_fields s2 s3 -> same_fields s1 s3.
Proof.
  unfold same_fields. intros (a1 & a2 & a3 & a4 & a5) (b1 & b2 & b3 & b4 & b5).
  repeat split; congruence.
Qed.

Lemma frame_refl (P : Z -> Prop) (s : Filesys) : frame P s s.
Proof. split; auto using same_fields_refl. Qed.

Lemma frame_trans (P Q R : Z -> Prop) (s1 s2 s3 : Filesys) :
  frame P s1 s2 -> frame Q s2 s3 ->
  (forall j, P j -> R j) -> (forall j, Q j -> R j) ->
  frame R s1 s3.
Proof.
  intros [F1 L1 B1 S1] [F2 L2 B2 S2] HP HQ. split.
  - eapply same_fields_trans; eauto.
  - congruence.
  - auto.
  - intros j Hj Hn. rewrite S2, S1; auto.
Qed.

Lemma frame_weaken (P R : Z -> Prop) (s1 s2 : Filesys) :
  frame P s1 s2 -> (forall j, P j -> R j) -> frame R s1 s2.
Proof.
  intros H HP. eapply frame_trans; [exact H | apply (frame_refl P) | auto | auto].
Qed.

Lemma frame_finfo (P : Z -> Prop) (s s' : Filesys) :
  frame P s s' -> finfo_ s' = finfo_ s.
Proof. intros [F _ _ _]. apply F. Qed.

Lemma frame_size (P : Z -> Prop) (s s' : Filesys) :
  frame P s s' -> filesys_size (mFilesys_ s') = filesys_size (mFilesys_ s).
Proof. intros [_ L _ _]. unfold filesys_size. congruence. Qed.

Lemma frame_wf (P : Z -> Prop) (s s' : Filesys) :
  frame P s s' -> wf_volume s -> wf_volume s'.
Proof.
  intros F [G Mp By]. split.
  - rewrite (frame_finfo _ _ _ F). exact G.
  - rewrite (frame_finfo _ _ _ F), (frame_size _ _ _ F). exact Mp.
  - apply (frame_bytes _ _ _ F). exact By.
Qed.

Lemma frame_get_le (P : Z -> Prop) (s s' : Filesys) (tbits pos width : Z) :
  frame P s s' -> 0 <= pos -> 0 <= width ->
  (forall j, pos <= j < pos + width -> ~ P j) ->
  get_le tbits pos width s' = get_le tbits pos width s.
Proof.
  intros F Hp Hw Hout. unfold get_le. f_equal.
  apply read_le_ext; [exact Hw | apply (frame_length _ _ _ F) |].
  intros j Hj. apply (frame_same _ _ _ F); [lia | auto].
Qed.

Lemma frame_byte_at (P : Z -> Prop) (s s' : Filesys) (j : Z) :
  frame P s s' -> 0 <= j -> ~ P j ->
  byte_at (mFilesys_ s') j = byte_at (mFilesys_ s) j.
Proof. intros F. apply (frame_same _ _ _ F). Qed.

(** ** Reading and writing one integer *)

Lemma put_le_ok (v pos width : Z) (s : Filesys) :
  0 <= pos -> 0 <= width -> width + pos < filesys_size (mFilesys_ s) ->
  exists s', put_le v pos width s = Ret tt s' /\
    frame (span pos (pos + width)) s s' /\
    mFilesys_ s' = write_bytes (mFilesys_ s) pos v (Z.to_nat width).
Proof.
  intros Hp Hw Hs. unfold put_le.
  destruct (proj2 (write_le_Some_iff (mFilesys_ s) v pos width) Hs)
    as [img' E].
  rewrite E. apply write_le_eq in E as [_ ->].
  eexists. split; [reflexivity|]. split; [|reflexivity]. split; cbn.
  - repeat split.
  - apply length_write_bytes.
  - apply bytes_ok_write_bytes.
  - intros j Hj Hn. apply byte_at_write_bytes_other; [lia|lia|].
    unfold span in Hn. lia.
Qed.

Lemma put_le_Ret (v pos width : Z) (s s' : Filesys) (u : unit) :
  put_le v pos width s = Ret u s' ->
  width + pos < filesys_size (mFilesys_ s).
Proof.
  unfold put_le. destruct (write_le _ _ _ _) eqn:E; [|discriminate].
  intros _. apply (proj1 (write_le_Some_iff (mFilesys_ s) v pos width)). eauto.
Qed.

(** A 32-bit read returns the word stored at the offset. *)
Lemma get_le_word (s : Filesys) (pos : Z) :
  bytes_ok (mFilesys_ s) -> 4 + pos < filesys_size (mFilesys_ s) ->
  get_le 32 pos 4 s = Val (word_at (mFilesys_ s) pos).
Proof.
  intros By Hs. unfold get_le.
  destruct (proj2 (read_le_Some_iff 32 (mFilesys_ s) pos 4) Hs) as [v E].
  rewrite E. cbn. f_equal. apply read_le_eq in E as [_ ->].
  change (Z.to_nat 4) with 4%nat.
  rewrite read_bytes_4 by (apply byte_at_is_byte; exact By). reflexivity.
Qed.

Lemma get_le_Val (s : Filesys) (tbits pos width v : Z) :
  get_le tbits pos width s = Val v ->
  width + pos < filesys_size (mFilesys_ s).
Proof.
  unfold get_le. destruct (read_le _ _ _ _) eqn:E; [|discriminate].
  intros _. apply (proj1 (read_le_Some_iff tbits (mFilesys_ s) pos width)). eauto.
Qed.

Lemma word_at_range (img : image) (pos : Z) :
  bytes_ok img -> 0 <= word_at img pos < 4294967296.
Proof.
  intros By. unfold word_at.
  pose proof (byte_at_is_byte img pos By).
  pose proof (byte_at_is_byte img (pos + 1) By).
  pose proof (byte_at_is_byte img (pos + 2) By).
  pose proof (byte_at_is_byte img (pos + 3) By).
  unfold is_byte in *. lia.
Qed.

Lemma is_byte_written (n : nat) (img : image) (pos v k : Z) :
  0 <= pos -> 0 <= k < Z.of_nat n -> pos + Z.of_nat n <= filesys_size img ->
  is_byte (byte_at (write_bytes img pos v n) (pos + k)).
Proof.
  intros Hp Hk Hs. rewrite byte_at_write_bytes_in by lia.
  rewrite land_255_mod. unfold is_byte. lia.
Qed.

(** The word at [pos] after a 4-byte write of [v] there. *)
Lemma word_at_write (img : image) (pos v : Z) :
  0 <= pos -> pos + 4 <= filesys_size img ->
  word_at (write_bytes img pos v 4) pos = u32 v.
Proof.
  intros Hp Hs. rewrite <- (read_write_4 img pos v Hp Hs).
  symmetry. apply read_bytes_4.
  - rewrite <- (Z.add_0_r pos) at 2. apply is_byte_written; cbn; lia.
  - apply is_byte_written; cbn; lia.
  - apply is_byte_written; cbn; lia.
  - apply is_byte_written; cbn; lia.
Qed.

Lemma word_at_frame (P : Z -> Prop) (s s' : Filesys) (pos : Z) :
  frame P s s' -> 0 <= pos ->
  (forall j, pos <= j < pos + 4 -> ~ P j) ->
  word_at (mFilesys_ s') pos = word_at (mFilesys_ s) pos.
Proof.
  intros F Hp Hout. unfold word_at.
  rewrite !(frame_byte_at P s s') by (try apply Hout; auto; lia).
  reflexivity.
Qed.

(** ** Layout of a well-formed volume

    Under [wf_geometry] no 32-bit computation of an offset wraps, and
    the three areas (reserved sectors, FAT copies, data) are apart. *)

Section Layout.

Variable fi : Fat32Info.
Hypothesis WF : wf_geometry fi.

Lemma GetEndOfFat_wf :
  GetEndOfFat fi = (TotSec fi - FirstDataSec fi) / SecPerClus fi + 1.
Proof.
  destruct WF as [HB HS HN HF HI HD HT H32 HC]. unfold GetEndOfFat.
  assert (0 <= (TotSec fi - FirstDataSec fi) / SecPerClus fi
          <= TotSec fi - FirstDataSec fi).
  { split; [apply Z.div_pos; lia|].
    apply Z.div_le_upper_bound; nia. }
  rewrite (u32_small (TotSec fi - FirstDataSec fi)) by lia.
  apply u32_small. lia.
Qed.

Lemma in_volume_sectors (n : Z) :
  in_volume fi n ->
  (n - 2) * SecPerClus fi + 2 * SecPerClus fi
    <= TotSec fi - FirstDataSec fi.
Proof.
  unfold in_volume. rewrite GetEndOfFat_wf.
  destruct WF as [HB HS HN HF HI HD HT H32 HC]. intros [H2 Hn].
  pose proof (Z.mul_div_le (TotSec fi - FirstDataSec fi) (SecPerClus fi)
                ltac:(lia)) as Hd.
  nia.
Qed.

(** The entry of an in-volume cluster lies inside one FAT copy. *)
Lemma in_volume_fits (n : Z) :
  in_volume fi n -> 0 <= n /\ 4 * n + 4 <= FATSz fi * BytesPerSec fi.
Proof.
  unfold in_volume. destruct WF as [HB HS HN HF HI HD HT H32 HC]. lia.
Qed.

Lemma fat_entry_pos_wf (i n : Z) :
  0 <= i < NumFats fi -> 0 <= n ->
  4 * n + 4 <= FATSz fi * BytesPerSec fi ->
  fat_entry_pos fi i n =
    (RsvdSecCnt fi + i * FATSz fi) * BytesPerSec fi + 4 * n.
Proof.
  destruct WF as [HB HS HN HF HI HD HT H32 HC]. intros Hi Hn Hfit.
  unfold fat_entry_pos, GetThisFatSecN, GetThisFatEntOff.
  assert (HiF : 0 <= i * FATSz fi /\
                i * FATSz fi + FATSz fi <= NumFats fi * FATSz fi) by nia.
  remember (i * FATSz fi) as iF. remember (NumFats fi * FATSz fi) as NF.
  replace (n * 4) with (4 * n) by lia.
  destruct HB as [HB|[HB|[HB|HB]]]; rewrite HB in *.
  all: rewrite (u32_small (4 * n)) by lia.
  all: rewrite (u32_small iF) by lia.
  all: rewrite (u32_small (RsvdSecCnt fi + _ / _)) by lia.
  all: rewrite (u32_small (RsvdSecCnt fi + _ / _ + iF)) by lia.
  all: rewrite (u32_small (_ * _)) by lia.
  all: rewrite u32_small by lia.
  all: lia.
Qed.

Lemma fat_entry_pos_bounds (i n : Z) :
  0 <= i < NumFats fi -> 0 <= n ->
  4 * n + 4 <= FATSz fi * BytesPerSec fi ->
  RsvdSecCnt fi * BytesPerSec fi <= fat_entry_pos fi i n /\
  fat_entry_pos fi i n + 4 <= FirstDataSec fi * BytesPerSec fi.
Proof.
  intros Hi Hn Hfit. rewrite fat_entry_pos_wf by assumption.
  destruct WF as [HB HS HN HF HI HD HT H32 HC].
  assert (HiF : 0 <= i * FATSz fi /\
                i * FATSz fi + FATSz fi <= NumFats fi * FATSz fi) by nia.
  rewrite HD.
  remember (i * FATSz fi) as iF. remember (NumFats fi * FATSz fi) as NF.
  destruct HB as [HB|[HB|[HB|HB]]]; rewrite HB in *; lia.
Qed.

(** Two entries overlap only if they are the same entry of the same
    copy. *)
Lemma fat_entry_pos_apart (i n i' n' : Z) :
  0 <= i < NumFats fi -> 0 <= n ->
  4 * n + 4 <= FATSz fi * BytesPerSec fi ->
  0 <= i' < NumFats fi -> 0 <= n' ->
  4 * n' + 4 <= FATSz fi * BytesPerSec fi ->
  (i, n) <> (i', n') ->
  fat_entry_pos fi i n + 4 <= fat_entry_pos fi i' n' \/
  fat_entry_pos fi i' n' + 4 <= fat_entry_pos fi i n.
Proof.
  intros Hi Hn Hfit Hi' Hn' Hfit' Hne.
  rewrite !fat_entry_pos_wf by assumption.
  destruct WF as [HB HS HN HF HI HD HT H32 HC].
  destruct (Z.eq_dec i i') as [->|Hii].
  - assert (n <> n') by congruence. lia.
  - remember (FATSz fi * BytesPerSec fi) as FB.
    replace ((RsvdSecCnt fi + i * FATSz fi) * BytesPerSec fi)
      with (RsvdSecCnt fi * BytesPerSec fi + i * FB) by (subst FB; ring).
    replace ((RsvdSecCnt fi + i' * FATSz fi) * BytesPerSec fi)
      with (RsvdSecCnt fi * BytesPerSec fi + i' * FB) by (subst FB; ring).
    destruct (Z.lt_ge_cases i i'); [left|right]; nia.
Qed.

Lemma GetNextClus_pos (n : Z) :
  u32 (u32 (GetThisFatSecN fi n * BytesPerSec fi) + GetThisFatEntOff fi n)
  = fat_entry_pos fi 0 n.
Proof.
  unfold fat_entry_pos. rewrite Z.mul_0_l.
  change (u32 0) with 0. rewrite Z.add_0_r.
  unfold GetThisFatSecN at 2. rewrite wrap_idem. reflexivity.
Qed.

Lemma nfree_pos_wf :
  nfree_pos fi = FsInfo fi * BytesPerSec fi + 488 /\
  nfree_pos fi + 8 <= RsvdSecCnt fi * BytesPerSec fi.
Proof.
  destruct WF as [HB HS HN HF HI HD HT H32 HC]. unfold nfree_pos.
  assert (0 <= NumFats fi * FATSz fi) by nia.
  destruct HB as [HB|[HB|[HB|HB]]]; rewrite HB in *.
  all: rewrite (u32_small (_ * _)) by lia.
  all: rewrite u32_small by lia; lia.
Qed.

Lemma nxtfree_pos_wf : nxtfree_pos fi = nfree_pos fi + 4.
Proof.
  destruct nfree_pos_wf as [E _]. rewrite E.
  destruct WF as [HB HS HN HF HI HD HT H32 HC]. unfold nxtfree_pos.
  assert (0 <= NumFats fi * FATSz fi) by nia.
  destruct HB as [HB|[HB|[HB|HB]]]; rewrite HB in *.
  all: rewrite (u32_small (_ * _)) by lia.
  all: rewrite u32_small by lia; lia.
Qed.

Lemma cluster_len_wf :
  cluster_len fi = BytesPerSec fi * SecPerClus fi /\
  32 <= cluster_len fi.
Proof.
  destruct WF as [HB HS HN HF HI HD HT H32 HC]. unfold cluster_len.
  destruct HB as [HB|[HB|[HB|HB]]]; rewrite HB in *.
  all: rewrite u32_small by lia; lia.
Qed.

(** The data of an in-volume cluster lies in the data area, and ends
    at least one sector before the end of the volume. *)
Lemma cluster_pos_wf (n : Z) :
  in_volume fi n ->
  cluster_pos fi n =
    (FirstDataSec fi + (n - 2) * SecPerClus fi) * BytesPerSec fi /\
  FirstDataSec fi * BytesPerSec fi <= cluster_pos fi n /\
  cluster_pos fi n + cluster_len fi
    <= TotSec fi * BytesPerSec fi - BytesPerSec fi.
Proof.
  intros Hn. pose proof (in_volume_sectors n Hn) as Hsec.
  destruct cluster_len_wf as [-> _].
  destruct WF as [HB HS HN HF HI HD HT H32 HC].
  unfold cluster_pos, GetFirstSectorOfClus.
  assert (H2 : 2 <= n) by (destruct Hn; lia).
  assert (HnS : 0 <= (n - 2) * SecPerClus fi) by nia.
  assert (0 <= NumFats fi * FATSz fi) by nia.
  remember ((n - 2) * SecPerClus fi) as nS.
  assert (E : u32 (u32 (u32 (n - 2) * SecPerClus fi) + FirstDataSec fi)
              = FirstDataSec fi + nS).
  { destruct HB as [HB|[HB|[HB|HB]]]; rewrite HB in *.
    all: rewrite (u32_small (n - 2)) by nia.
    all: rewrite <- HeqnS.
    all: rewrite (u32_small nS) by lia.
    all: rewrite u32_small by lia; lia. }
  rewrite E.
  destruct HB as [HB|[HB|[HB|HB]]]; rewrite HB in *.
  all: rewrite u32_small by lia; lia.
Qed.

End Layout.

(** ** FAT entries and FS information words *)

Lemma land_FATMASK_range (v : Z) : 0 <= Z.land v FATMASK < 268435456.
Proof.
  change FATMASK with (Z.ones 28). rewrite Z.land_ones by lia. lia.
Qed.

Lemma land_FATMASK_idem (v : Z) :
  Z.land (Z.land v FATMASK) FATMASK = Z.land v FATMASK.
Proof. rewrite <- Z.land_assoc, Z.land_diag. reflexivity. Qed.

Lemma in_volume_is_fit (fi : Fat32Info) (n : Z) :
  wf_geometry fi -> in_volume fi n -> fits fi n.
Proof. intros WF H. apply in_volume_fits; assumption. Qed.

Lemma fat_slots_area (fi : Fat32Info) (n j : Z) :
  wf_geometry fi -> fits fi n -> fat_slots fi n j -> fat_area fi j.
Proof.
  intros WF [Hn Hf] (i & Hi & Hj).
  pose proof (fat_entry_pos_bounds fi WF i n Hi Hn Hf).
  unfold fat_area, span. lia.
Qed.

Lemma volume_size (s : Filesys) :
  wf_volume s ->
  FirstDataSec (finfo_ s) * BytesPerSec (finfo_ s) + 512
    <= filesys_size (mFilesys_ s) /\
  RsvdSecCnt (finfo_ s) * BytesPerSec (finfo_ s)
    <= FirstDataSec (finfo_ s) * BytesPerSec (finfo_ s) /\
  0 <= RsvdSecCnt (finfo_ s) * BytesPerSec (finfo_ s).
Proof.
  intros [[HB HS HN HF HI HD HT H32 HC] Mp _].
  assert (0 <= NumFats (finfo_ s) * FATSz (finfo_ s)) by nia.
  rewrite HD in *.
  remember (NumFats (finfo_ s) * FATSz (finfo_ s)) as NF.
  destruct HB as [HB|[HB|[HB|HB]]]; rewrite HB in *; lia.
Qed.

(** [GetNextClus] returns the low 28 bits of the word of FAT copy 0. *)
Lemma GetNextClus_word (s : Filesys) (n : Z) :
  wf_volume s -> fits (finfo_ s) n ->
  GetNextClus n s =
    Val (Z.land (word_at (mFilesys_ s) (fat_entry_pos (finfo_ s) 0 n))
           FATMASK).
Proof.
  intros WV [Hn Hf]. pose proof (volume_size s WV) as Sz.
  destruct WV as [WF Mp By].
  pose proof (wf_NumFats _ WF) as HN.
  pose proof (fat_entry_pos_bounds _ WF 0 n ltac:(lia) Hn Hf) as Hb.
  unfold GetNextClus. rewrite GetNextClus_pos.
  rewrite get_le_word by (auto; lia). reflexivity.
Qed.

Lemma GetNextClus_range (s : Filesys) (n m : Z) :
  GetNextClus n s = Val m -> 0 <= m < 268435456.
Proof.
  unfold GetNextClus. destruct (get_le _ _ _ _); cbn; try discriminate.
  intros [= <-]. apply land_FATMASK_range.
Qed.

(** A change away from the entry of [n] in FAT copy 0 does not change
    what [GetNextClus n] returns. *)
Lemma GetNextClus_frame (P : Z -> Prop) (s s' : Filesys) (n : Z) :
  frame P s s' ->
  (forall j, fat_entry_pos (finfo_ s) 0 n <= j
               < fat_entry_pos (finfo_ s) 0 n + 4 -> ~ P j) ->
  GetNextClus n s' = GetNextClus n s.
Proof.
  intros F Hout. unfold GetNextClus.
  rewrite (frame_finfo _ _ _ F), !GetNextClus_pos.
  rewrite (frame_get_le P s s'); auto; try lia.
  unfold fat_entry_pos. pose proof (u32_range
    (u32 (u32 (GetThisFatSecN (finfo_ s) n + u32 (0 * FATSz (finfo_ s)))
          * BytesPerSec (finfo_ s)) + GetThisFatEntOff (finfo_ s) n)).
  lia.
Qed.

Lemma SetNextClus_loop_ok (fatLoc : Z) (k : nat) :
  forall (value i : Z) (s : Filesys),
  wf_volume s -> fits (finfo_ s) fatLoc ->
  0 <= i -> i + Z.of_nat k = NumFats (finfo_ s) ->
  exists s',
    SetNextClus_loop fatLoc value i k s = Ret tt s' /\
    frame (fun j => exists i', i <= i' < NumFats (finfo_ s) /\
             fat_entry_pos (finfo_ s) i' fatLoc <= j
               < fat_entry_pos (finfo_ s) i' fatLoc + 4) s s' /\
    forall i', i <= i' < NumFats (finfo_ s) ->
      word_at (mFilesys_ s') (fat_entry_pos (finfo_ s) i' fatLoc)
      = Z.land value FATMASK.
Proof.
  induction k as [|k IH]; intros value i s WV Hfit Hi Hk.
  - exists s. split; [reflexivity|]. split; [apply frame_refl|].
    intros i' Hi'. lia.
  - pose proof (volume_size s WV) as Sz.
    pose proof (wf_geom _ WV) as WF. destruct Hfit as [Hn Hf].
    pose proof (fat_entry_pos_bounds _ WF i fatLoc ltac:(lia) Hn Hf) as Hb.
    cbn [SetNextClus_loop].
    rewrite (bind_step _ _ s s
               (word_at (mFilesys_ s) (fat_entry_pos (finfo_ s) i fatLoc))).
    2:{ apply lift_Val. apply get_le_word; [apply (wf_bytes _ WV) | lia]. }
    cbv zeta.
    destruct (put_le_ok (Z.land value FATMASK)
                (fat_entry_pos (finfo_ s) i fatLoc) 4 s)
      as (s1 & E1 & F1 & I1); [lia|lia|lia|].
    rewrite (bind_step _ _ s s1 tt) by exact E1.
    pose proof (frame_wf _ _ _ F1 WV) as WV1.
    pose proof (frame_finfo _ _ _ F1) as Efi.
    destruct (IH (Z.land value FATMASK) (i + 1) s1 WV1) as (s' & E' & F' & W').
    { rewrite Efi. split; assumption. }
    { lia. }
    { rewrite Efi. lia. }
    rewrite Efi in *. rewrite land_FATMASK_idem in W'.
    exists s'. split; [exact E'|]. split.
    + eapply frame_trans; [exact F1 | exact F' | |].
      * intros j Hj. exists i. unfold span in Hj. split; lia.
      * intros j (i' & Hi' & Hj). exists i'. split; [lia | exact Hj].
    + intros i' Hi'. destruct (Z.eq_dec i' i) as [->|Hne].
      * rewrite (word_at_frame _ _ _ _ F') ; [| lia |].
        { rewrite I1. change (Z.to_nat 4) with 4%nat.
          rewrite word_at_write by lia.
          apply u32_small. pose proof (land_FATMASK_range value). lia. }
        { intros j Hj (i2 & Hi2 & Hj2).
          destruct (fat_entry_pos_apart _ WF i fatLoc i2 fatLoc) as [A|A];
            try lia. intros [= ?]. lia. }
      * apply W'. lia.
Qed.

(** [SetNextClus] stores the low 28 bits of the value as the whole
    word of every FAT copy, and changes nothing else. *)
Lemma SetNextClus_ok (fatLoc value : Z) (s : Filesys) :
  wf_volume s -> fits (finfo_ s) fatLoc ->
  exists s',
    SetNextClus fatLoc value s = Ret tt s' /\
    frame (fat_slots (finfo_ s) fatLoc) s s' /\
    forall i, 0 <= i < NumFats (finfo_ s) ->
      word_at (mFilesys_ s') (fat_entry_pos (finfo_ s) i fatLoc)
      = Z.land value FATMASK.
Proof.
  intros WV Hfit. pose proof (wf_NumFats _ (wf_geom _ WV)) as HN.
  destruct (SetNextClus_loop_ok fatLoc (Z.to_nat (NumFats (finfo_ s)))
              value 0 s WV Hfit) as (s' & E & F & W); [lia|lia|].
  exists s'. split; [|split; [|exact W]].
  - unfold SetNextClus.
    destruct (Z.gtb_spec (NumFats (finfo_ s)) 255); [lia | exact E].
  - eapply frame_weaken; [exact F|]. intros j (i & Hi & Hj). exists i. auto.
Qed.

Lemma GetNextClus_after_set (fatLoc value : Z) (s s' : Filesys) :
  wf_volume s -> fits (finfo_ s) fatLoc ->
  SetNextClus fatLoc value s = Ret tt s' ->
  GetNextClus fatLoc s' = Val (Z.land value FATMASK).
Proof.
  intros WV Hfit E.
  destruct (SetNextClus_ok fatLoc value s WV Hfit) as (s2 & E2 & F & W).
  rewrite E in E2. injection E2 as <-.
  pose proof (wf_NumFats _ (wf_geom _ WV)) as HN.
  rewrite GetNextClus_word.
  - rewrite (frame_finfo _ _ _ F), W by lia.
    rewrite land_FATMASK_idem. reflexivity.
  - eapply frame_wf; eauto.
  - rewrite (frame_finfo _ _ _ F). exact Hfit.
Qed.

(** A change inside the entries of [m] leaves the entry of another
    cluster alone. *)
Lemma GetNextClus_other (m n : Z) (s s' : Filesys) :
  wf_geometry (finfo_ s) -> fits (finfo_ s) m -> fits (finfo_ s) n ->
  n <> m ->
  frame (fat_slots (finfo_ s) m) s s' ->
  GetNextClus n s' = GetNextClus n s.
Proof.
  intros WF [Hm Hfm] [Hn Hfn] Hne F.
  pose proof (wf_NumFats _ WF) as HN.
  apply (GetNextClus_frame _ _ _ _ F).
  intros j Hj (i & Hi & Hj2).
  destruct (fat_entry_pos_apart _ WF 0 n i m) as [A|A]; try lia.
  intros [= ? ?]. lia.
Qed.

(** A change outside the FAT copies leaves every entry alone. *)
Lemma GetNextClus_outside (P : Z -> Prop) (n : Z) (s s' : Filesys) :
  wf_geometry (finfo_ s) -> fits (finfo_ s) n ->
  frame P s s' -> (forall j, P j -> ~ fat_area (finfo_ s) j) ->
  GetNextClus n s' = GetNextClus n s.
Proof.
  intros WF [Hn Hfn] F Hout.
  pose proof (wf_NumFats _ WF) as HN.
  apply (GetNextClus_frame _ _ _ _ F).
  intros j Hj HP. apply (Hout j HP).
  pose proof (fat_entry_pos_bounds _ WF 0 n ltac:(lia) Hn Hfn).
  unfold fat_area, span. lia.
Qed.

(** ** The areas of the volume are apart *)

Lemma info_words_reserved (s : Filesys) (j : Z) :
  wf_volume s ->
  span (nfree_pos (finfo_ s)) (nfree_pos (finfo_ s) + 8) j ->
  reserved_area (finfo_ s) j.
Proof.
  intros WV Hj. destruct (nfree_pos_wf _ (wf_geom _ WV)) as [_ H].
  unfold span, reserved_area in *. lia.
Qed.

Lemma reserved_not_fat (fi : Fat32Info) (j : Z) :
  reserved_area fi j -> ~ fat_area fi j.
Proof. unfold reserved_area, fat_area, span. lia. Qed.

Lemma fat_not_data (fi : Fat32Info) (j : Z) :
  fat_area fi j -> ~ data_area fi j.
Proof. unfold data_area, fat_area, span. lia. Qed.

Lemma reserved_not_data (s : Filesys) (j : Z) :
  wf_volume s -> reserved_area (finfo_ s) j -> ~ data_area (finfo_ s) j.
Proof.
  intros WV. pose proof (volume_size s WV).
  unfold reserved_area, data_area. lia.
Qed.

Lemma cluster_in_data (fi : Fat32Info) (n j : Z) :
  wf_geometry fi -> in_volume fi n ->
  span (cluster_pos fi n) (cluster_pos fi n + cluster_len fi) j ->
  data_area fi j.
Proof.
  intros WF Hn Hj. destruct (cluster_pos_wf fi WF n Hn) as (_ & H & _).
  unfold span, data_area in *. lia.
Qed.

(** ** The FS information words *)

Lemma nfree_in_range (s : Filesys) :
  wf_volume s ->
  0 <= nfree_pos (finfo_ s) /\
  nfree_pos (finfo_ s) + 8 < filesys_size (mFilesys_ s).
Proof.
  intros WV. pose proof (volume_size s WV) as Sz.
  destruct (nfree_pos_wf _ (wf_geom _ WV)) as [_ H].
  pose proof (u32_range (u32 (FsInfo (finfo_ s) * BytesPerSec (finfo_ s))
                         + 488)) as R.
  fold (nfree_pos (finfo_ s)) in R. lia.
Qed.

Lemma GetNFreeClus_word (s : Filesys) :
  wf_volume s ->
  GetNFreeClus s = Val (word_at (mFilesys_ s) (nfree_pos (finfo_ s))).
Proof.
  intros WV. pose proof (nfree_in_range s WV). unfold GetNFreeClus.
  apply get_le_word; [apply (wf_bytes _ WV) | lia].
Qed.

Lemma GetFATNxtFree_word (s : Filesys) :
  wf_volume s ->
  GetFATNxtFree s = Val (word_at (mFilesys_ s) (nxtfree_pos (finfo_ s))).
Proof.
  intros WV. pose proof (nfree_in_range s WV). unfold GetFATNxtFree.
  pose proof (nxtfree_pos_wf _ (wf_geom _ WV)).
  apply get_le_word; [apply (wf_bytes _ WV) | lia].
Qed.

Lemma GetNFreeClus_frame (P : Z -> Prop) (s s' : Filesys) :
  wf_volume s -> frame P s s' ->
  (forall j, P j ->
     ~ span (nfree_pos (finfo_ s)) (nfree_pos (finfo_ s) + 4) j) ->
  GetNFreeClus s' = GetNFreeClus s.
Proof.
  intros WV F Hout. pose proof (nfree_in_range s WV).
  unfold GetNFreeClus. rewrite (frame_finfo _ _ _ F).
  apply (frame_get_le P); auto; try lia.
  intros j Hj HP. apply (Hout j HP). unfold span. lia.
Qed.

Lemma GetFATNxtFree_frame (P : Z -> Prop) (s s' : Filesys) :
  wf_volume s -> frame P s s' ->
  (forall j, P j ->
     ~ span (nfree_pos (finfo_ s) + 4) (nfree_pos (finfo_ s) + 8) j) ->
  GetFATNxtFree s' = GetFATNxtFree s.
Proof.
  intros WV F Hout. pose proof (nfree_in_range s WV).
  pose proof (nxtfree_pos_wf _ (wf_geom _ WV)) as E.
  unfold GetFATNxtFree. rewrite (frame_finfo _ _ _ F).
  apply (frame_get_le P); auto; try lia.
  intros j Hj HP. apply (Hout j HP). unfold span. lia.
Qed.

(** [UpdateClusCount] replaces the free count by [op] of it, and
    changes nothing else. *)
Lemma UpdateClusCount_ok (op : Z -> Z) (s : Filesys) :
  wf_volume s ->
  exists s',
    UpdateClusCount op s = Ret tt s' /\
    frame (span (nfree_pos (finfo_ s)) (nfree_pos (finfo_ s) + 4)) s s' /\
    GetNFreeClus s' =
      Val (u32 (op (word_at (mFilesys_ s) (nfree_pos (finfo_ s))))).
Proof.
  intros WV. pose proof (nfree_in_range s WV) as R.
  unfold UpdateClusCount.
  rewrite (bind_step _ _ s s _ (lift_Val _ _ _ (GetNFreeClus_word s WV))).
  unfold SetNFreeClus.
  destruct (put_le_ok (op (word_at (mFilesys_ s) (nfree_pos (finfo_ s))))
              (nfree_pos (finfo_ s)) 4 s) as (s' & E & F & I); try lia.
  exists s'. split; [exact E|]. split; [exact F|].
  rewrite GetNFreeClus_word by (eapply frame_wf; eauto).
  rewrite (frame_finfo _ _ _ F), I. change (Z.to_nat 4) with 4%nat.
  rewrite word_at_write by lia. reflexivity.
Qed.

(** [SetFATNxtFree] replaces the hint, and changes nothing else. *)
Lemma SetFATNxtFree_ok (cluster : Z) (s : Filesys) :
  wf_volume s ->
  exists s',
    SetFATNxtFree cluster s = Ret tt s' /\
    frame (span (nfree_pos (finfo_ s) + 4) (nfree_pos (finfo_ s) + 8)) s s' /\
    GetFATNxtFree s' = Val (u32 cluster).
Proof.
  intros WV. pose proof (nfree_in_range s WV) as R.
  pose proof (nxtfree_pos_wf _ (wf_geom _ WV)) as E.
  unfold SetFATNxtFree.
  destruct (put_le_ok cluster (nxtfree_pos (finfo_ s)) 4 s)
    as (s' & E' & F & I); try lia.
  exists s'. split; [exact E'|]. split.
  - eapply frame_weaken; [exact F|]. unfold span. intros j Hj. lia.
  - rewrite GetFATNxtFree_word by (eapply frame_wf; eauto).
    rewrite (frame_finfo _ _ _ F), I. change (Z.to_nat 4) with 4%nat.
    rewrite word_at_write by lia. reflexivity.
Qed.

(** ** Zeroing a cluster *)

Lemma ZeroOutCluster_loop_ok (start : Z) (k : nat) :
  forall (i : Z) (s : Filesys),
  0 <= start -> 0 <= i ->
  start + i + Z.of_nat k < filesys_size (mFilesys_ s) ->
  start + i + Z.of_nat k <= 4294967296 ->
  exists s',
    ZeroOutCluster_loop start i k s = Ret tt s' /\
    frame (span (start + i) (start + i + Z.of_nat k)) s s' /\
    forall j, start + i <= j < start + i + Z.of_nat k ->
      byte_at (mFilesys_ s') j = 0.
Proof.
  induction k as [|k IH]; intros i s Hs Hi Hsz H32.
  - exists s. split; [reflexivity|]. split; [apply frame_refl|]. lia.
  - cbn [ZeroOutCluster_loop]. rewrite (u32_small (start + i)) by lia.
    destruct (put_le_ok 0 (start + i) 1 s) as (s1 & E1 & F1 & I1); try lia.
    rewrite (bind_step _ _ s s1 tt E1).
    destruct (IH (i + 1) s1) as (s' & E' & F' & Z'); try lia.
    { rewrite (frame_size _ _ _ F1). lia. }
    exists s'. split; [exact E'|]. split.
    + eapply frame_trans; [exact F1 | exact F' | |]; unfold span; lia.
    + intros j Hj. destruct (Z.eq_dec j (start + i)) as [->|Hne].
      * rewrite (frame_byte_at _ _ _ _ F') by (unfold span; lia).
        rewrite I1. change (Z.to_nat 1) with 1%nat.
        rewrite <- (Z.add_0_r (start + i)) at 2.
        rewrite byte_at_write_bytes_in by (cbn; lia). reflexivity.
      * apply Z'. lia.
Qed.

(** [ZeroOutCluster] sets every data byte of the cluster to 0, and
    changes nothing else. *)
Lemma ZeroOutCluster_ok (cluster : Z) (s : Filesys) :
  wf_volume s -> in_volume (finfo_ s) cluster ->
  exists s',
    ZeroOutCluster cluster s = Ret tt s' /\
    frame (span (cluster_pos (finfo_ s) cluster)
             (cluster_pos (finfo_ s) cluster + cluster_len (finfo_ s))) s s' /\
    forall k, 0 <= k < cluster_len (finfo_ s) ->
      byte_at (mFilesys_ s') (cluster_pos (finfo_ s) cluster + k) = 0.
Proof.
  intros WV Hc. pose proof (wf_geom _ WV) as WF.
  destruct (cluster_pos_wf _ WF cluster Hc) as (_ & Hlo & Hhi).
  destruct (cluster_len_wf _ WF) as [_ Hlen].
  pose proof (wf_mapped _ WV) as Mp. pose proof (wf_fits32 _ WF) as H32.
  pose proof (volume_size s WV) as Sz.
  pose proof (wf_BytesPerSec _ WF) as HB.
  unfold ZeroOutCluster. cbv zeta.
  fold (cluster_pos (finfo_ s) cluster). fold (cluster_len (finfo_ s)).
  destruct (ZeroOutCluster_loop_ok (cluster_pos (finfo_ s) cluster)
              (Z.to_nat (cluster_len (finfo_ s))) 0 s)
    as (s' & E & F & Zr); try lia.
  rewrite Z.add_0_r, Z2Nat.id in * by lia.
  exists s'. split; [exact E|]. split; [exact F|].
  intros k Hk. apply Zr. lia.
Qed.

(** ** Cluster chains *)

Lemma chain_head (s : Filesys) (n : Z) (l : list Z) :
  chain s n l -> exists l', l = n :: l'.
Proof. intros H. destruct H; eauto. Qed.

Lemma chain_det (s : Filesys) (n : Z) (l l' : list Z) :
  chain s n l -> chain s n l' -> l = l'.
Proof.
  intros H. revert l'. induction H as [n m E Hm | n m l E Hm Hc IH];
    intros l' H'; inversion H' as [n' m' E' Hm' | n' m' l2 E' Hm' Hc']; subst.
  - reflexivity.
  - rewrite E in E'. injection E' as <-. lia.
  - rewrite E in E'. injection E' as <-. lia.
  - rewrite E in E'. injection E' as <-. f_equal. apply IH. exact Hc'.
Qed.

Lemma chain_suffix (s : Filesys) (n x : Z) (l : list Z) :
  chain s n l -> x ∈ l -> exists l1 l2, l = l1 ++ l2 /\ chain s x l2.
Proof.
  intros H. induction H as [n m E Hm | n m l E Hm Hc IH]; intros Hx.
  - apply list_elem_of_singleton in Hx as ->.
    exists [], [n]. split; [reflexivity|]. eapply chain_end; eauto.
  - apply elem_of_cons in Hx as [->|Hx].
    + exists [], (n :: l). split; [reflexivity|]. eapply chain_next; eauto.
    + destruct (IH Hx) as (l1 & l2 & -> & Hc2).
      exists (n :: l1), l2. split; [reflexivity | exact Hc2].
Qed.

Lemma chain_NoDup (s : Filesys) (n : Z) (l : list Z) :
  chain s n l -> NoDup l.
Proof.
  intros H. induction H as [n m E Hm | n m l E Hm Hc IH].
  - apply NoDup_singleton.
  - apply NoDup_cons. split; [|exact IH]. intros Hin.
    destruct (chain_suffix s m n l Hc Hin) as (l1 & l2 & -> & Hc2).
    pose proof (chain_det s n _ _ Hc2 (chain_next s n m _ E Hm Hc)) as Eq.
    apply (f_equal length) in Eq. cbn in Eq. rewrite length_app in Eq. lia.
Qed.

(** A chain is still a chain when none of its entries has changed. *)
Lemma chain_frame (s s' : Filesys) (n : Z) (l : list Z) :
  chain s n l ->
  (forall x, x ∈ l -> GetNextClus x s' = GetNextClus x s) ->
  chain s' n l.
Proof.
  intros H. induction H as [n m E Hm | n m l E Hm Hc IH]; intros Same.
  - apply (chain_end s' n m); [|exact Hm].
    rewrite Same; [exact E | constructor].
  - apply (chain_next s' n m); [|exact Hm|].
    + rewrite Same; [exact E | constructor].
    + apply IH. intros x Hx. apply Same. apply elem_of_cons. auto.
Qed.

(** No entry of a chain of the volume is 0. *)
Lemma chain_entry_nonzero (s : Filesys) (n x : Z) (l : list Z) :
  chain s n l -> Forall (in_volume (finfo_ s)) l -> x ∈ l ->
  GetNextClus x s <> Val 0.
Proof.
  intros H. induction H as [n m E Hm | n m l E Hm Hc IH]; intros Hv Hx.
  - apply list_elem_of_singleton in Hx as ->. rewrite E.
    intros [= ->]. unfold FATEND in Hm. lia.
  - apply Forall_cons in Hv as [_ Hv].
    apply elem_of_cons in Hx as [->|Hx]; [|auto].
    rewrite E. intros [= ->].
    destruct (chain_head _ _ _ Hc) as [l' ->].
    apply Forall_cons in Hv as [[H2 _] _]. lia.
Qed.

(** The walk of [AllocateCluster] stops on the last cluster. *)
Lemma chain_last_spec (s : Filesys) (n : Z) (l : list Z) :
  chain s n l ->
  forall fuel, (length l <= fuel)%nat ->
  exists l0 y, l = l0 ++ [y] /\ chain_last fuel n n s = Val y.
Proof.
  intros H. induction H as [n m E Hm | n m l E Hm Hc IH];
    intros fuel Hf; (destruct fuel as [|fuel]; [cbn in Hf; lia|]).
  - exists (@nil Z). exists n. split; [reflexivity|]. cbn [chain_last]. rewrite E. cbn.
    destruct (Z.geb_spec m FATEND); [reflexivity | lia].
  - destruct (IH fuel) as (l0 & y & -> & Ey); [cbn in Hf; lia|].
    exists (n :: l0). exists y. split; [reflexivity|]. cbn [chain_last].
    rewrite E. cbn. destruct (Z.geb_spec m FATEND); [lia | exact Ey].
Qed.

(** Linking a new terminal cluster after the last one. *)
Lemma chain_snoc (s s' : Filesys) (l0 : list Z) :
  forall (n y c m : Z),
  chain s n (l0 ++ [y]) ->
  (forall x, x ∈ l0 -> GetNextClus x s' = GetNextClus x s) ->
  GetNextClus y s' = Val c -> c < FATEND ->
  GetNextClus c s' = Val m -> FATEND <= m ->
  chain s' n (l0 ++ [y; c]).
Proof.
  induction l0 as [|a l0 IH]; intros n y c m H Same Ey Hc Ec Hm.
  - cbn in *. destruct (chain_head _ _ _ H) as [l' [= -> <-]].
    apply (chain_next s' n c); [exact Ey | exact Hc |].
    apply (chain_end s' c m); assumption.
  - cbn in *.
    inversion H as [n' m' E' Hm' | n' m' l2 E' Hm' Hc']; subst.
    + destruct l0; discriminate.
    + apply (chain_next s' a m'); [|exact Hm'|].
      * rewrite Same; [exact E' | constructor].
      * eapply IH; eauto. intros x Hx. apply Same. apply elem_of_cons. auto.
Qed.

Lemma chain_reaches (s : Filesys) (n x : Z) (l : list Z) :
  chain s n l -> x ∈ l -> reaches s n x.
Proof.
  intros H. induction H as [n m E Hm | n m l E Hm Hc IH]; intros Hx.
  - apply list_elem_of_singleton in Hx as ->. apply reaches_here.
  - apply elem_of_cons in Hx as [->|Hx]; [apply reaches_here|].
    eapply reaches_step; eauto.
Qed.

(** The last cluster of a chain holds an end-of-chain value. *)
Lemma chain_terminal (s : Filesys) (n y : Z) (l0 : list Z) :
  chain s n (l0 ++ [y]) ->
  exists m, GetNextClus y s = Val m /\ FATEND <= m.
Proof.
  revert n. induction l0 as [|a l0 IH]; intros n H; cbn in H.
  - inversion H as [n' m' E' Hm' | n' m' l2 E' Hm' Hc']; subst; [eauto|].
    inversion Hc'.
  - inversion H as [n' m' E' Hm' | n' m' l2 E' Hm' Hc']; subst.
    + destruct l0; discriminate.
    + eapply IH; eauto.
Qed.

(** ** The search for a free cluster *)

Lemma scan_free_found (fuel : nat) :
  forall (p e q : Z) (s : Filesys),
  0 <= p < 4294967295 -> e < 4294967296 ->
  scan_free fuel p e s = Val (true, q) ->
  p <= q /\ (q = p \/ q < e) /\ GetNextClus q s = Val 0.
Proof.
  induction fuel as [|fuel IH]; intros p e q s Hp He H; [discriminate|].
  cbn [scan_free] in H. destruct (GetNextClus p s) as [v| |] eqn:E;
    cbn in H; try discriminate.
  destruct (Z.eqb_spec v 0) as [->|Hv].
  - injection H as <-. auto with zarith.
  - rewrite (u32_small (p + 1)) in H by lia.
    destruct (Z.ltb_spec (p + 1) e); [|discriminate].
    apply IH in H as (A & B & C); try lia.
    repeat split; [lia | lia | exact C].
Qed.

Lemma scan_free_total (fuel : nat) :
  forall (p e : Z) (s : Filesys),
  wf_volume s -> 0 <= p < 4294967295 -> e < 4294967296 ->
  fits (finfo_ s) p -> (forall x, p < x < e -> fits (finfo_ s) x) ->
  (Z.to_nat (e - p) < fuel)%nat ->
  exists r, scan_free fuel p e s = Val r.
Proof.
  induction fuel as [|fuel IH]; intros p e s WV Hp He Fp Fx Hf; [lia|].
  cbn [scan_free]. rewrite (GetNextClus_word s p WV Fp). cbn.
  destruct (_ =? 0); [eauto|].
  rewrite (u32_small (p + 1)) by lia.
  destruct (Z.ltb_spec (p + 1) e); [|eauto].
  apply IH; auto; try lia.
  - apply Fx. lia.
  - intros x Hx. apply Fx. lia.
Qed.

Lemma GetEndOfFat_range (fi : Fat32Info) :
  wf_geometry fi -> 1 <= GetEndOfFat fi <= 8388608.
Proof.
  intros WF. rewrite GetEndOfFat_wf by exact WF.
  destruct WF as [HB HS HN HF HI HD HT H32 HC].
  assert (0 <= (TotSec fi - FirstDataSec fi) / SecPerClus fi
          <= TotSec fi - FirstDataSec fi).
  { split; [apply Z.div_pos; lia|]. apply Z.div_le_upper_bound; nia. }
  assert (0 <= NumFats fi * FATSz fi) by nia.
  destruct HB as [HB|[HB|[HB|HB]]]; rewrite HB in *; lia.
Qed.

(** The search ends; when it finds a cluster, this is a cluster of the
    volume whose entry is 0. *)
Lemma find_free_ok (p sft : Z) (s : Filesys) :
  wf_volume s -> in_volume (finfo_ s) p ->
  exists found q,
    find_free p sft (GetEndOfFat (finfo_ s)) s = Val (found, q) /\
    (found = true ->
     in_volume (finfo_ s) q /\ GetNextClus q s = Val 0).
Proof.
  intros WV Hp. pose proof (wf_geom _ WV) as WF.
  pose proof (GetEndOfFat_range _ WF) as He.
  assert (Fx : forall x, 2 <= x < GetEndOfFat (finfo_ s) ->
                         fits (finfo_ s) x).
  { intros x Hx. apply in_volume_is_fit; [exact WF | exact Hx]. }
  unfold in_volume in Hp. unfold find_free.
  assert (T : forall p0, 2 <= p0 < GetEndOfFat (finfo_ s) ->
            exists r, scan_free (scan_fuel p0 (GetEndOfFat (finfo_ s))) p0
                        (GetEndOfFat (finfo_ s)) s = Val r).
  { intros p0 Hp0. apply scan_free_total.
    - exact WV.
    - lia.
    - lia.
    - apply Fx. lia.
    - intros x Hx. apply Fx. lia.
    - unfold scan_fuel. lia. }
  destruct (T p Hp) as [[found q] E1].
  rewrite E1. cbn [res_bind]. destruct found; cbn [negb andb].
  - exists true, q. split; [reflexivity|]. intros _.
    apply scan_free_found in E1 as (A & B & C); try lia.
    split; [unfold in_volume; lia | exact C].
  - destruct (Z.ltb_spec (sft + 1) 2).
    + destruct (T 2 ltac:(lia)) as [[found q2] E2].
      rewrite E2. cbn [res_bind]. destruct found; cbn [negb].
      * exists true, q2. split; [reflexivity|]. intros _.
        apply scan_free_found in E2 as (A & B & C); try lia.
        split; [unfold in_volume; lia | exact C].
      * exists false, 2. split; [reflexivity | discriminate].
    + exists false, 2. split; [reflexivity | discriminate].
Qed.

(** ** Allocation *)

Lemma chain_last_short (s : Filesys) (n : Z) (l : list Z) :
  chain s n l ->
  forall fuel, (fuel < length l)%nat -> chain_last fuel n n s = Loop.
Proof.
  intros H. induction H as [n m E Hm | n m l E Hm Hc IH];
    intros fuel Hf; (destruct fuel as [|fuel]; [reflexivity|]).
  - cbn in Hf. lia.
  - cbn [chain_last]. rewrite E. cbn [res_bind].
    destruct (Z.geb_spec m FATEND); [lia|]. apply IH. cbn in Hf. lia.
Qed.

Lemma land_FATMASK_small (v : Z) :
  0 <= v < 268435456 -> Z.land v FATMASK = v.
Proof.
  intros H. change FATMASK with (Z.ones 28). rewrite Z.land_ones by lia.
  apply Z.mod_small. exact H.
Qed.

Lemma in_volume_small (fi : Fat32Info) (n : Z) :
  wf_geometry fi -> in_volume fi n -> 2 <= n < 8388608.
Proof.
  intros WF [H2 Hn]. pose proof (GetEndOfFat_range fi WF). lia.
Qed.

(** Changes in the reserved and data areas, composed. *)
Lemma frame_off_fat (P Q : Z -> Prop) (s1 s2 s3 : Filesys) :
  frame P s1 s2 -> frame Q s2 s3 ->
  (forall j, P j -> ~ fat_area (finfo_ s1) j) ->
  (forall j, Q j -> ~ fat_area (finfo_ s1) j) ->
  frame (fun j => ~ fat_area (finfo_ s1) j) s1 s3.
Proof. intros F1 F2 HP HQ. eapply frame_trans; eauto. Qed.

(** The part of [AllocateCluster] that follows the search: [q] is the
    free cluster found and [y] the last cluster of the chain. *)
Lemma alloc_finish (s : Filesys) (head y q : Z) (l0 : list Z) :
  wf_volume s -> valid_chain s head (l0 ++ [y]) ->
  in_volume (finfo_ s) q -> GetNextClus q s = Val 0 ->
  exists s',
    (SetNextClus y q ;;;
     SetNextClus q 0xFFFFFFFF ;;;
     SetFATNxtFree q ;;;
     UpdateClusCount dec32 ;;;
     ZeroOutCluster q ;;;
     ret q)%fs s = Ret q s' /\
    allocated s s' head (l0 ++ [y]) q.
Proof.
  intros WV [Hch Hvol] Hq Hfree. pose proof (wf_geom _ WV) as WF.
  set (fi := finfo_ s) in *.
  assert (Fit : forall x, in_volume fi x -> fits fi x).
  { intros x Hx. apply in_volume_is_fit; assumption. }
  assert (Hl : forall x, x ∈ l0 ++ [y] -> in_volume fi x).
  { intros x Hx. eapply Forall_forall in Hvol; eauto. }
  assert (Hy : in_volume fi y).
  { apply Hl. apply elem_of_app. right. constructor. }
  assert (Hql : q ∉ l0 ++ [y]).
  { intros Hin. eapply chain_entry_nonzero; eauto. }
  pose proof (chain_NoDup _ _ _ Hch) as ND.
  apply NoDup_app in ND as (_ & NDy & _).
  pose proof (in_volume_small fi q WF Hq) as Hqs.
  (* the five writes *)
  destruct (SetNextClus_ok y q s WV (Fit y Hy)) as (s1 & E1 & F1 & W1).
  pose proof (frame_wf _ _ _ F1 WV) as WV1.
  pose proof (frame_finfo _ _ _ F1) as I1. fold fi in F1, I1.
  destruct (SetNextClus_ok q 0xFFFFFFFF s1 WV1) as (s2 & E2 & F2 & W2).
  { rewrite I1. apply Fit. exact Hq. }
  pose proof (frame_wf _ _ _ F2 WV1) as WV2.
  pose proof (frame_finfo _ _ _ F2) as I2. rewrite I1 in F2, I2.
  destruct (SetFATNxtFree_ok q s2 WV2) as (s3 & E3 & F3 & Hint3).
  pose proof (frame_wf _ _ _ F3 WV2) as WV3.
  pose proof (frame_finfo _ _ _ F3) as I3. rewrite I2 in F3, I3.
  destruct (UpdateClusCount_ok dec32 s3 WV3) as (s4 & E4 & F4 & Cnt4).
  pose proof (frame_wf _ _ _ F4 WV3) as WV4.
  pose proof (frame_finfo _ _ _ F4) as I4. rewrite I3 in F4, I4, Cnt4.
  destruct (ZeroOutCluster_ok q s4 WV4) as (s5 & E5 & F5 & Zero5).
  { rewrite I4. exact Hq. }
  pose proof (frame_finfo _ _ _ F5) as I5. rewrite I4 in F5, I5, Zero5.
  exists s5. split.
  { rewrite (bind_step _ _ s s1 tt E1), (bind_step _ _ s1 s2 tt E2),
      (bind_step _ _ s2 s3 tt E3), (bind_step _ _ s3 s4 tt E4),
      (bind_step _ _ s4 s5 tt E5). reflexivity. }
  (* where the areas lie *)
  assert (Slots : forall x j, in_volume fi x -> fat_slots fi x j ->
                              fat_area fi j).
  { intros x j Hx. apply fat_slots_area; auto. }
  assert (Info : forall j, span (nfree_pos fi) (nfree_pos fi + 8) j ->
                           reserved_area fi j).
  { intros j. apply (info_words_reserved s j WV). }
  assert (Data : forall j,
            span (cluster_pos fi q) (cluster_pos fi q + cluster_len fi) j ->
            data_area fi j).
  { intros j. apply cluster_in_data; assumption. }
  assert (RD : forall j, reserved_area fi j -> ~ data_area fi j).
  { intros j. apply (reserved_not_data s j WV). }
  pose proof (reserved_not_fat fi) as RF.
  pose proof (fat_not_data fi) as FD.
  (* the FAT after the two links *)
  assert (N2 : forall x, x ∈ l0 -> GetNextClus x s2 = GetNextClus x s).
  { intros x Hx.
    assert (Hxl : x ∈ l0 ++ [y]) by (apply elem_of_app; auto).
    assert (x <> y).
    { intros ->. apply (NDy y Hx). constructor. }
    assert (x <> q) by (intros ->; auto).
    rewrite (GetNextClus_other q x s1 s2); rewrite ?I1; auto.
    apply (GetNextClus_other y x s s1); auto. }
  assert (Y2 : GetNextClus y s2 = Val q).
  { assert (y <> q).
    { intros ->. apply Hql. apply elem_of_app. right. constructor. }
    rewrite (GetNextClus_other q y s1 s2); rewrite ?I1; auto.
    rewrite (GetNextClus_after_set y q s s1); auto.
    rewrite land_FATMASK_small by lia. reflexivity. }
  assert (Q2 : GetNextClus q s2 = Val 0x0FFFFFFF).
  { rewrite (GetNextClus_after_set q 0xFFFFFFFF s1 s2); auto.
    rewrite I1. auto. }
  assert (C2 : chain s2 head (l0 ++ [y; q])).
  { apply (chain_snoc s s2 l0 head y q 0x0FFFFFFF); auto.
    - unfold FATEND. lia.
    - unfold FATEND. lia. }
  (* the three later writes stay off the FAT *)
  assert (F25 : frame (fun j => ~ fat_area fi j) s2 s5).
  { assert (F24 : frame (fun j => ~ fat_area fi j) s2 s4).
    { eapply frame_trans; [exact F3 | exact F4 | |].
      - intros j Hj. apply RF, Info. unfold span in *. lia.
      - intros j Hj. apply RF, Info. unfold span in *. lia. }
    eapply frame_trans; [exact F24 | exact F5 | auto |].
    intros j Hj Hfat. apply (FD j Hfat). auto. }
  assert (N5 : forall x, in_volume fi x ->
                         GetNextClus x s5 = GetNextClus x s2).
  { intros x Hx.
    apply (GetNextClus_outside (fun j => ~ fat_area fi j) x s2 s5);
      rewrite ?I2; auto. }
  assert (C5 : chain s5 head ((l0 ++ [y]) ++ [q])).
  { rewrite <- app_assoc. cbn [app]. apply (chain_frame s2); [exact C2|].
    intros x Hx. apply N5.
    replace (l0 ++ [y; q]) with ((l0 ++ [y]) ++ [q]) in Hx
      by (rewrite <- app_assoc; reflexivity).
    apply elem_of_app in Hx as [Hx|Hx]; [auto|].
    apply list_elem_of_singleton in Hx as ->. exact Hq. }
  split.
  - exact Hq.
  - exact Hfree.
  - eapply same_fields_trans; [apply (frame_fields _ _ _ F1)|].
    eapply same_fields_trans; [apply (frame_fields _ _ _ F2)|].
    eapply same_fields_trans; [apply (frame_fields _ _ _ F3)|].
    eapply same_fields_trans; [apply (frame_fields _ _ _ F4)|].
    apply (frame_fields _ _ _ F5).
  - exact C5.
  - apply (chain_reaches _ _ _ _ C5). apply elem_of_app. right. constructor.
  - apply (chain_terminal _ _ _ _ C5).
  - exact Zero5.
  - rewrite (GetFATNxtFree_frame _ s4 s5 WV4 F5).
    + rewrite (GetFATNxtFree_frame _ s3 s4 WV3 F4).
      * rewrite Hint3. rewrite u32_small by lia. reflexivity.
      * rewrite I3. unfold span. intros j Hj. lia.
    + rewrite I4. intros j Hj Hs. apply (RD j); [|auto].
      apply Info. unfold span in *. lia.
  - exists (word_at (mFilesys_ s) (nfree_pos fi)). split.
    + apply GetNFreeClus_word. exact WV.
    + rewrite (GetNFreeClus_frame _ s4 s5 WV4 F5).
      2:{ rewrite I4. intros j Hj Hs. apply (RD j); [|auto].
          apply Info. unfold span in *. lia. }
      rewrite Cnt4. unfold dec32. rewrite wrap_idem. do 3 f_equal.
      assert (G3 : GetNFreeClus s3 = GetNFreeClus s).
      { rewrite (GetNFreeClus_frame _ s2 s3 WV2 F3).
        2:{ rewrite I2. unfold span. intros j Hj. lia. }
        rewrite (GetNFreeClus_frame _ s1 s2 WV1 F2).
        2:{ rewrite I1. intros j Hj Hs. apply (RF j); [|eauto].
            apply Info. unfold span in *. lia. }
        apply (GetNFreeClus_frame _ s s1 WV F1). fold fi.
        intros j Hj Hs. apply (RF j); [|eauto].
        apply Info. unfold span in *. lia. }
      rewrite (GetNFreeClus_word s3 WV3), (GetNFreeClus_word s WV) in G3.
      rewrite I3 in G3. injection G3 as G3. exact G3.
Qed.

Lemma bind_assoc {A B C} (m : M A) (k : A -> M B) (k' : B -> M C)
  (s : Filesys) :
  bind (bind m k) k' s = bind m (fun a => bind (k a) k') s.
Proof. unfold bind. destruct (m s); reflexivity. Qed.

Lemma bind_Spin {A B} (m : M A) (k : A -> M B) (s : Filesys) :
  m s = Spin -> bind m k s = Spin.
Proof. intros H. unfold bind. rewrite H. reflexivity. Qed.

Lemma lift_Loop {A} (r : Filesys -> res A) (s : Filesys) :
  r s = Loop -> lift r s = Spin.
Proof. intros H. unfold lift. rewrite H. reflexivity. Qed.

(** The three ways [AllocateCluster] can end on a well-formed volume:
    out of space, a cluster linked at the end of the chain, or a walk
    of the chain that the fuel cuts short. *)
Lemma AllocateCluster_cases (fuel : nat) (head : Z) (l : list Z)
  (s : Filesys) :
  wf_volume s -> valid_chain s head l -> hint_ok s ->
  AllocateCluster fuel head s = Ret 0 s \/
  (exists c s', AllocateCluster fuel head s = Ret c s' /\
                allocated s s' head l c) \/
  ((fuel < length l)%nat /\ AllocateCluster fuel head s = Spin).
Proof.
  intros WV VC Hint. pose proof VC as [Hch Hvol].
  pose proof (wf_geom _ WV) as WF.
  destruct (chain_head _ _ _ Hch) as [l' El].
  assert (Hhead : in_volume (finfo_ s) head).
  { rewrite El in Hvol. apply Forall_cons in Hvol as [H _]. exact H. }
  assert (H2 : in_volume (finfo_ s) 2).
  { unfold in_volume in *. lia. }
  pose proof (GetFATNxtFree_word s WV) as EH.
  remember (word_at (mFilesys_ s) (nxtfree_pos (finfo_ s))) as h eqn:Eh.
  assert (Start : exists p sft,
            (if h =? 0xFFFFFFFF then (2, 1) else (h, 0)) = (p, sft) /\
            in_volume (finfo_ s) p).
  { destruct (Z.eqb_spec h 0xFFFFFFFF) as [E|E].
    - exists 2, 1. auto.
    - exists h, 0. split; [reflexivity|].
      destruct (Hint h EH) as [|]; [contradiction | assumption]. }
  destruct Start as (p & sft & Ep & Hp).
  destruct (find_free_ok p sft s WV Hp) as (found & q & Ef & Hfound).
  unfold AllocateCluster.
  rewrite (bind_step _ _ s s h (lift_Val _ _ _ EH)). cbv beta zeta.
  rewrite Ep.
  rewrite (bind_step _ _ s s (found, q) (lift_Val _ _ _ Ef)).
  destruct found; cbn [negb].
  2:{ left. reflexivity. }
  destruct (Hfound eq_refl) as [Hq Hfree].
  destruct (Z.eqb_spec head 0) as [E0|E0].
  { destruct Hhead. lia. }
  rewrite bind_assoc.
  destruct (le_lt_dec (length l) fuel) as [Hfuel|Hfuel].
  - right. left.
    destruct (chain_last_spec s head l Hch fuel Hfuel) as (l0 & y & -> & Ey).
    rewrite (bind_step _ _ s s y (lift_Val _ _ _ Ey)).
    destruct (alloc_finish s head y q l0 WV VC Hq Hfree) as (s' & E & A).
    exists q, s'. split; [exact E | exact A].
  - right. right. split; [exact Hfuel|].
    apply bind_Spin. apply lift_Loop. apply chain_last_short with (l := l);
      assumption.
Qed.

(** With fuel for the walk of the chain, [AllocateCluster] returns. *)
Lemma AllocateCluster_returns (fuel : nat) (head : Z) (l : list Z)
  (s : Filesys) :
  wf_volume s -> valid_chain s head l -> hint_ok s ->
  (length l <= fuel)%nat ->
  exists c s', AllocateCluster fuel head s = Ret c s'.
Proof.
  intros WV VC Hint Hf.
  destruct (AllocateCluster_cases fuel head l s WV VC Hint)
    as [E|[(c & s' & E & _)|[Hlt _]]]; [eauto | eauto | lia].
Qed.

(** C2, as the code has it.  [AllocateCluster] starts its search at
    the next-free hint of the volume and tests it for 0xFFFFFFFF only,
    so the hint is part of the precondition: on a well-formed volume
    whose next-free hint is 0xFFFFFFFF or a cluster number of the
    volume ([hint_ok]), for the chain [l] of the volume that starts at
    [head]: when [AllocateCluster head] returns a cluster [c] other
    than the out-of-space answer 0, then following the chain from
    [head] reaches [c] (the chain is now [l] followed by [c]), the
    entry of [c] is an end-of-chain value, every data byte of [c] is
    0, the next-free hint is [c], and the free count is one less than
    before (in 32-bit arithmetic). *)
Theorem C2_AllocateCluster_appends (fuel : nat) (head : Z) (l : list Z)
  (s s' : Filesys) (c : Z) :
  wf_volume s -> valid_chain s head l -> hint_ok s ->
  AllocateCluster fuel head s = Ret c s' -> c <> 0 ->
  reaches s' head c /\
  chain s' head (l ++ [c]) /\
  (exists m, GetNextClus c s' = Val m /\ FATEND <= m) /\
  (forall k, 0 <= k < cluster_len (finfo_ s) ->
     byte_at (mFilesys_ s') (cluster_pos (finfo_ s) c + k) = 0) /\
  GetFATNxtFree s' = Val c /\
  (exists f, GetNFreeClus s = Val f /\ GetNFreeClus s' = Val (u32 (f - 1))).
Proof.
  intros WV VC Hint E Hc.
  destruct (AllocateCluster_cases fuel head l s WV VC Hint)
    as [E0|[(c' & s2 & E2 & A)|[_ E3]]].
  - rewrite E in E0. injection E0 as -> _. contradiction.
  - rewrite E in E2. injection E2 as <- <-.
    destruct A. repeat split; assumption.
  - rewrite E in E3. discriminate.
Qed.

(** ** Saving a directory entry *)

Lemma put_le_eq (v pos width : Z) (s : Filesys) :
  width + pos < filesys_size (mFilesys_ s) ->
  put_le v pos width s =
    Ret tt (set_image s (write_bytes (mFilesys_ s) pos v (Z.to_nat width))).
Proof.
  intros H. unfold put_le, write_le, WriteValue. rewrite Z.mul_1_r.
  destruct (Z.geb_spec (width + pos) (filesys_size (mFilesys_ s))); [lia|].
  reflexivity.
Qed.

Lemma put_array_eq (data : list Z) (len pos width : Z) (s : Filesys) :
  width * len + pos < filesys_size (mFilesys_ s) ->
  put_array data len pos width s =
    Ret tt (set_image s
              (write_elems (mFilesys_ s) pos width (take (Z.to_nat len) data))).
Proof.
  intros H. unfold put_array, WriteValue.
  destruct (Z.geb_spec (width * len + pos) (filesys_size (mFilesys_ s)));
    [lia|]. reflexivity.
Qed.

Lemma size_write_bytes (n : nat) (img : image) (at_ v : Z) :
  filesys_size (write_bytes img at_ v n) = filesys_size img.
Proof. unfold filesys_size. rewrite length_write_bytes. reflexivity. Qed.

Lemma size_write_elems (data : list Z) (img : image) (at_ width : Z) :
  filesys_size (write_elems img at_ width data) = filesys_size img.
Proof. unfold filesys_size. rewrite length_write_elems. reflexivity. Qed.

(** [SaveFileEntry] on an entry that lies inside the mapping. *)
Lemma SaveFileEntry_eq (now : tm) (e : FileEntry) (s : Filesys) :
  0 <= entryLoc e -> entryLoc e + 32 <= 4294967296 ->
  entryLoc e + 32 < filesys_size (mFilesys_ s) ->
  SaveFileEntry now e s =
    Ret (SetCurrentTime now e)
        (set_image s (save_image now e (mFilesys_ s))).
Proof.
  intros H0 H32 Hs. unfold SaveFileEntry. cbv zeta.
  rewrite !u32_small by lia.
  erewrite bind_step by (apply put_array_eq; lia).
  change (Z.to_nat 11) with 11%nat.
  rewrite (firstn_all2 (n := 11)) by (rewrite length_map, length_seq; lia).
  repeat (erewrite bind_step
            by (apply put_le_eq; cbn [mFilesys_ set_image];
                rewrite ?size_write_bytes, ?size_write_elems; lia);
          cbn [mFilesys_ set_image error_ finfo_ cwd_ location_ openTable_]).
  reflexivity.
Qed.

Lemma byte_at_write_bytes_at (n : nat) (img : image) (at_ v j : Z) :
  0 <= at_ -> at_ <= j < at_ + Z.of_nat n ->
  at_ + Z.of_nat n <= filesys_size img ->
  byte_at (write_bytes img at_ v n) j
  = (v / 2 ^ (8 * (j - at_))) mod 256.
Proof.
  intros Ha Hj Hs. replace j with (at_ + (j - at_)) at 1 by lia.
  rewrite byte_at_write_bytes_in by lia. apply shiftr_land_255. lia.
Qed.

Lemma byte_at_write_elems_1_other (data : list Z) (img : image)
  (at_ j : Z) :
  0 <= at_ -> 0 <= j -> (j < at_ \/ at_ + Z.of_nat (length data) <= j) ->
  byte_at (write_elems img at_ 1 data) j = byte_at img j.
Proof.
  revert img at_. induction data as [|d ds IH]; intros img at_ Ha Hj Ho.
  - reflexivity.
  - cbn [write_elems]. cbn [length] in Ho. rewrite IH by lia.
    change (Z.to_nat 1) with 1%nat.
    apply byte_at_write_bytes_other; lia.
Qed.

Lemma byte_at_write_elems_1_in (data : list Z) (img : image)
  (at_ : Z) (k : nat) :
  0 <= at_ -> (k < length data)%nat ->
  at_ + Z.of_nat (length data) <= filesys_size img ->
  byte_at (write_elems img at_ 1 data) (at_ + Z.of_nat k)
  = nth k data 0 mod 256.
Proof.
  revert img at_ k. induction data as [|d ds IH]; intros img at_ k Ha Hk Hs.
  - cbn in Hk. lia.
  - cbn [write_elems]. cbn [length] in *. change (Z.to_nat 1) with 1%nat.
    destruct k as [|k].
    + rewrite byte_at_write_elems_1_other by lia.
      rewrite byte_at_write_bytes_at by (rewrite ?Z.add_0_r; lia).
      cbn [nth]. replace (at_ + Z.of_nat 0 - at_) with 0 by lia.
      change (2 ^ (8 * 0)) with 1. rewrite Z.div_1_r. reflexivity.
    + replace (at_ + Z.of_nat (S k)) with (at_ + 1 + Z.of_nat k) by lia.
      rewrite IH; [reflexivity | lia | lia |].
      rewrite size_write_bytes. lia.
Qed.

(** Peeling the writes of [save_image] that do not cover an offset. *)
Ltac skip_writes :=
  repeat (rewrite byte_at_write_bytes_other by lia).

Section SavedBytes.

Variables (now : tm) (e : FileEntry) (img : image).
Let loc := entryLoc e.
Hypothesis Hloc : 0 <= entryLoc e.
Hypothesis Hsize : entryLoc e + 32 <= filesys_size img.

Lemma save_image_length : length (save_image now e img) = length img.
Proof.
  unfold save_image. cbv zeta.
  rewrite !length_write_bytes, length_write_elems. reflexivity.
Qed.

Lemma save_image_bytes_ok : bytes_ok img -> bytes_ok (save_image now e img).
Proof.
  intros H. unfold save_image. cbv zeta.
  do 10 apply bytes_ok_write_bytes. apply bytes_ok_write_elems. exact H.
Qed.

Lemma save_image_outside (j : Z) :
  0 <= j -> ~ span (entryLoc e) (entryLoc e + 32) j ->
  byte_at (save_image now e img) j = byte_at img j.
Proof.
  unfold span. intros Hj Hout. unfold save_image. cbv zeta.
  skip_writes. apply byte_at_write_elems_1_other; cbn; lia.
Qed.

(** Byte 12 is not written. *)
Lemma save_image_12 :
  byte_at (save_image now e img) (entryLoc e + 12)
  = byte_at img (entryLoc e + 12).
Proof.
  unfold save_image. cbv zeta.
  skip_writes. apply byte_at_write_elems_1_other; cbn; lia.
Qed.

Lemma save_image_name (k : nat) :
  (k < 11)%nat ->
  byte_at (save_image now e img) (entryLoc e + Z.of_nat k)
  = str_at (name e) k mod 256.
Proof.
  intros Hk. unfold save_image. cbv zeta.
  skip_writes. rewrite byte_at_write_elems_1_in.
  - rewrite (nth_indep _ 0 (str_at (name e) 0))
      by (rewrite length_map, length_seq; lia).
    rewrite map_nth. rewrite seq_nth by lia. reflexivity.
  - lia.
  - rewrite length_map, length_seq. lia.
  - rewrite length_map, length_seq. lia.
Qed.

Lemma save_image_attr :
  byte_at (save_image now e img) (entryLoc e + 11) = attr e mod 256.
Proof.
  unfold save_image. cbv zeta. skip_writes.
  rewrite byte_at_write_bytes_at;
    rewrite ?size_write_bytes, ?size_write_elems; try lia.
  replace (entryLoc e + 11 - (entryLoc e + 11)) with 0 by lia.
  change (2 ^ (8 * 0)) with 1. rewrite Z.div_1_r. reflexivity.
Qed.

(** Bytes 13 to 19, the creation and access stamps, are zeroed. *)
Lemma save_image_zeroed (k : Z) :
  13 <= k < 20 -> byte_at (save_image now e img) (entryLoc e + k) = 0.
Proof.
  intros Hk. unfold save_image. cbv zeta.
  assert (C : k = 13 \/ k = 14 \/ k = 15 \/ k = 16 \/ k = 17 \/ k = 18
              \/ k = 19) by lia.
  destruct C as [->|[->|[->|[->|[->|[->| ->]]]]]]; skip_writes.
  all: rewrite byte_at_write_bytes_at;
    rewrite ?size_write_bytes, ?size_write_elems; try lia.
  all: apply Z.mod_0_l; lia.
Qed.

Lemma save_image_hi (k : Z) :
  0 <= k < 2 ->
  byte_at (save_image now e img) (entryLoc e + 20 + k)
  = (hi e / 2 ^ (8 * k)) mod 256.
Proof.
  intros Hk. unfold save_image. cbv zeta. skip_writes.
  rewrite byte_at_write_bytes_at;
    rewrite ?size_write_bytes, ?size_write_elems; try lia.
  do 3 f_equal. lia.
Qed.

Lemma save_image_wrtTime (k : Z) :
  0 <= k < 2 ->
  byte_at (save_image now e img) (entryLoc e + 22 + k)
  = (wrtTime (SetCurrentTime now e) / 2 ^ (8 * k)) mod 256.
Proof.
  intros Hk. unfold save_image. cbv zeta. skip_writes.
  rewrite byte_at_write_bytes_at;
    rewrite ?size_write_bytes, ?size_write_elems; try lia.
  do 3 f_equal. lia.
Qed.

Lemma save_image_wrtDate (k : Z) :
  0 <= k < 2 ->
  byte_at (save_image now e img) (entryLoc e + 24 + k)
  = (wrtDate (SetCurrentTime now e) / 2 ^ (8 * k)) mod 256.
Proof.
  intros Hk. unfold save_image. cbv zeta. skip_writes.
  rewrite byte_at_write_bytes_at;
    rewrite ?size_write_bytes, ?size_write_elems; try lia.
  do 3 f_equal. lia.
Qed.

Lemma save_image_lo (k : Z) :
  0 <= k < 2 ->
  byte_at (save_image now e img) (entryLoc e + 26 + k)
  = (lo e / 2 ^ (8 * k)) mod 256.
Proof.
  intros Hk. unfold save_image. cbv zeta. skip_writes.
  rewrite byte_at_write_bytes_at;
    rewrite ?size_write_bytes, ?size_write_elems; try lia.
  do 3 f_equal. lia.
Qed.

Lemma save_image_size (k : Z) :
  0 <= k < 4 ->
  byte_at (save_image now e img) (entryLoc e + 28 + k)
  = (size e / 2 ^ (8 * k)) mod 256.
Proof.
  intros Hk. unfold save_image. cbv zeta.
  rewrite byte_at_write_bytes_at;
    rewrite ?size_write_bytes, ?size_write_elems; try lia.
  do 3 f_equal. lia.
Qed.

End SavedBytes.

(** ** Directory listings *)

Lemma res_bind_Val {A B} (r : res A) (k : A -> res B) (b : B) :
  res_bind r k = Val b -> exists a, r = Val a /\ k a = Val b.
Proof. destruct r; cbn; try discriminate. eauto. Qed.

Lemma of_option_Val {A} (o : option A) (a : A) :
  of_option o = Val a -> o = Some a.
Proof. destruct o; cbn; congruence. Qed.

(** The allocated entries read from the slots [i .. i+n) of one
    cluster. *)
Lemma read_slots_entry (n : nat) :
  forall (location i : Z) (s : Filesys) (l : list FileEntry) (e : FileEntry),
  read_slots false location i n s = Val l -> e ∈ l ->
  exists k, i <= k < i + Z.of_nat n /\
    entry_at (mFilesys_ s) (u32 (location + 32 * k)) e.
Proof.
  induction n as [|n IH]; intros location i s l e H He.
  - cbn in H. injection H as <-. inversion He.
  - cbn [read_slots] in H. cbv zeta in H.
    apply res_bind_Val in H as (buf & Eb & H). apply of_option_Val in Eb.
    apply res_bind_Val in H as (a & Ea & H). apply of_option_Val in Ea.
    apply res_bind_Val in H as (h & Eh & H). apply of_option_Val in Eh.
    apply res_bind_Val in H as (lw & El & H). apply of_option_Val in El.
    apply res_bind_Val in H as (sz & Es & H). apply of_option_Val in Es.
    apply res_bind_Val in H as (rest & Er & H).
    assert (Rest : e ∈ rest -> exists k, i <= k < i + Z.of_nat (S n) /\
              entry_at (mFilesys_ s) (u32 (location + 32 * k)) e).
    { intros Hin. destruct (IH _ _ _ _ _ Er Hin) as (k & Hk & Hat).
      exists k. split; [lia | exact Hat]. }
    destruct (Z.land a LONG =? LONG); [injection H as <-; auto|].
    rewrite !andb_true_r, !andb_false_r, orb_false_r in H.
    destruct (str_at buf 0 =? 0) eqn:E0; cbn [negb andb] in H;
      [injection H as <-; auto|].
    destruct (str_at buf 0 =? DEALLOC) eqn:E5; cbn [negb] in H;
      [injection H as <-; auto|].
    injection H as <-. apply elem_of_cons in He as [->|He]; [|auto].
    exists i. split; [lia|].
    apply Z.eqb_neq in E0, E5.
    split; cbn.
    + exists buf. auto.
    + exact Ea.
    + exact Eh.
    + exact El.
    + exact Es.
    + reflexivity.
    + reflexivity.
Qed.

Lemma entries_per_cluster (fi : Fat32Info) :
  wf_geometry fi ->
  32 * Z.of_nat (Z.to_nat (u32 (u32 (BytesPerSec fi * SecPerClus fi) / 32)))
  <= cluster_len fi.
Proof.
  intros WF. destruct (cluster_len_wf fi WF) as [E H32].
  pose proof (u32_range (BytesPerSec fi * SecPerClus fi)) as R.
  fold (cluster_len fi) in *. rewrite u32_small by lia. lia.
Qed.

(** Every entry of a listing is decoded from a slot of a cluster of
    the directory chain. *)
Lemma GetFileList_listed (fuel : nat) :
  forall (c : Z) (dl : list Z) (s : Filesys) (l : list FileEntry)
    (e : FileEntry),
  wf_volume s -> valid_chain s c dl ->
  GetFileList fuel c false s = Val l -> e ∈ l -> listed s dl e.
Proof.
  induction fuel as [|fuel IH]; intros c dl s l e WV [Hch Hvol] H He;
    [discriminate|].
  pose proof (wf_geom _ WV) as WF.
  cbn [GetFileList] in H. cbv zeta in H.
  apply res_bind_Val in H as (here & Eh & H).
  apply res_bind_Val in H as (next & En & H).
  fold (cluster_pos (finfo_ s) c) in Eh.
  assert (Here : e ∈ here -> listed s dl e).
  { intros Hin. destruct (read_slots_entry _ _ _ _ _ _ Eh Hin)
      as (k & Hk & Hat).
    pose proof (entries_per_cluster _ WF) as Hn.
    destruct (chain_head _ _ _ Hch) as [dl' ->].
    apply Forall_cons in Hvol as [Hc _].
    destruct (cluster_pos_wf _ WF c Hc) as (_ & Hlo & Hhi).
    pose proof (wf_fits32 _ WF). pose proof (volume_size s WV).
    pose proof (wf_BytesPerSec _ WF).
    rewrite u32_small in Hat by lia.
    exists c, k. split; [constructor|]. split; [lia|]. split; [lia|].
    exact Hat. }
  inversion Hch as [n m E Hm | n m dl2 E Hm Hc2]; subst.
  - rewrite E in En. injection En as <-.
    destruct (Z.ltb_spec m FATEND); [lia|]. injection H as <-. auto.
  - rewrite E in En. injection En as <-.
    destruct (Z.ltb_spec m FATEND); [|lia].
    apply res_bind_Val in H as (rest & Er & H). injection H as <-.
    apply elem_of_app in He as [He|He]; [auto|].
    apply Forall_cons in Hvol as [_ Hvol2].
    destruct (IH m dl2 s rest e WV (conj Hc2 Hvol2) Er He)
      as (x & k & Hx & Hk).
    exists x, k. split; [apply elem_of_cons; auto | exact Hk].
Qed.

(** Where a listed entry lies: in the data area, 32 bytes that end
    before the end of the mapping. *)
Lemma listed_span (s : Filesys) (dl : list Z) (e : FileEntry) :
  wf_volume s -> Forall (in_volume (finfo_ s)) dl -> listed s dl e ->
  FirstDataSec (finfo_ s) * BytesPerSec (finfo_ s) <= entryLoc e /\
  entryLoc e + 32 < filesys_size (mFilesys_ s) /\
  entryLoc e + 32 <= 4294967296 /\
  entry_at (mFilesys_ s) (entryLoc e) e.
Proof.
  intros WV Hvol (x & k & Hx & Hk0 & Hk & Hat).
  pose proof (wf_geom _ WV) as WF.
  eapply Forall_forall in Hvol; eauto.
  destruct (cluster_pos_wf _ WF x Hvol) as (_ & Hlo & Hhi).
  pose proof (wf_fits32 _ WF). pose proof (wf_mapped _ WV).
  pose proof (wf_BytesPerSec _ WF).
  rewrite (ea_loc _ _ _ Hat). split; [lia|]. split; [lia|]. split; [lia|].
  exact Hat.
Qed.

(** The reads of a slot inside the mapping go through. *)
Lemma read_slots_total (d : bool) (n : nat) :
  forall (location i : Z) (s : Filesys),
  0 <= location -> 0 <= i ->
  location + 32 * (i + Z.of_nat n) < filesys_size (mFilesys_ s) ->
  location + 32 * (i + Z.of_nat n) <= 4294967296 ->
  exists l, read_slots d location i n s = Val l.
Proof.
  induction n as [|n IH]; intros location i s Hl Hi Hs H32.
  - exists []. reflexivity.
  - cbn [read_slots]. cbv zeta.
    rewrite (u32_small (location + 32 * i)) by lia.
    rewrite !u32_small by lia.
    destruct (proj2 (ReadValue_Some_iff 8 (mFilesys_ s) 11
                       (location + 32 * i) 1) ltac:(lia)) as [buf ->].
    destruct (proj2 (read_le_Some_iff 8 (mFilesys_ s)
                       (location + 32 * i + 11) 1) ltac:(lia)) as [a ->].
    destruct (proj2 (read_le_Some_iff 16 (mFilesys_ s)
                       (location + 32 * i + 20) 2) ltac:(lia)) as [h ->].
    destruct (proj2 (read_le_Some_iff 16 (mFilesys_ s)
                       (location + 32 * i + 26) 2) ltac:(lia)) as [lw ->].
    destruct (proj2 (read_le_Some_iff 32 (mFilesys_ s)
                       (location + 32 * i + 28) 4) ltac:(lia)) as [sz ->].
    cbn [of_option res_bind].
    destruct (IH location (i + 1) s) as [rest ->]; try lia.
    cbn [res_bind]. destruct (_ =? _); [eauto|]. destruct (_ || _); eauto.
Qed.

(** With one unit of fuel per cluster of the directory, [GetFileList]
    returns a listing. *)
Lemma GetFileList_total (d : bool) (fuel : nat) :
  forall (c : Z) (dl : list Z) (s : Filesys),
  wf_volume s -> valid_chain s c dl -> (length dl <= fuel)%nat ->
  exists l, GetFileList fuel c d s = Val l.
Proof.
  induction fuel as [|fuel IH]; intros c dl s WV [Hch Hvol] Hf.
  { destruct (chain_head _ _ _ Hch) as [dl' ->]. cbn in Hf. lia. }
  pose proof (wf_geom _ WV) as WF.
  destruct (chain_head _ _ _ Hch) as [dl' ->].
  apply Forall_cons in Hvol as [Hc Hvol2].
  destruct (cluster_pos_wf _ WF c Hc) as (_ & Hlo & Hhi).
  pose proof (entries_per_cluster _ WF) as Hn.
  pose proof (wf_fits32 _ WF). pose proof (volume_size s WV).
  pose proof (wf_BytesPerSec _ WF). pose proof (wf_mapped _ WV).
  cbn [GetFileList]. cbv zeta. fold (cluster_pos (finfo_ s) c).
  destruct (read_slots_total d
              (Z.to_nat (u32 (u32 (BytesPerSec (finfo_ s)
                                   * SecPerClus (finfo_ s)) / 32)))
              (cluster_pos (finfo_ s) c) 0 s) as [here ->]; try lia.
  cbn [res_bind].
  inversion Hch as [n m E Hm | n m dl2 E Hm Hc2]; subst; rewrite E;
    cbn [res_bind].
  - destruct (Z.ltb_spec m FATEND); [lia | eauto].
  - destruct (Z.ltb_spec m FATEND); [|lia].
    destruct (IH m dl' s WV (conj Hc2 Hvol2)) as [rest ->];
      [cbn in Hf; lia|]. cbn [res_bind]. eauto.
Qed.

(** ** Freeing a chain *)

Lemma u32_add_l (a b : Z) : u32 (u32 a + b) = u32 (a + b).
Proof. unfold wrap. apply Z.add_mod_idemp_l. lia. Qed.

(** The loop of [Rm] and [Rmdir] ends after one round per cluster,
    adds the length of the chain to the free count, and changes only
    FAT entries and the free count. *)
Lemma free_loop_ok (l : list Z) :
  forall (fuel : nat) (n : Z) (s : Filesys),
  wf_volume s -> valid_chain s n l -> (length l <= fuel)%nat ->
  exists s',
    free_loop fuel n s = Ret tt s' /\
    frame (fat_and_count (finfo_ s)) s s' /\
    exists f, GetNFreeClus s = Val f /\
      GetNFreeClus s' = Val (u32 (f + Z.of_nat (length l))).
Proof.
  induction l as [|a l IH]; intros fuel n s WV [Hch Hvol] Hf.
  { inversion Hch. }
  destruct fuel as [|fuel]; [cbn in Hf; lia|].
  pose proof (wf_geom _ WV) as WF.
  assert (Hn : a = n) by (destruct (chain_head _ _ _ Hch) as [? [= ->]]; auto).
  subst a.
  assert (Hnv : in_volume (finfo_ s) n).
  { apply Forall_cons in Hvol as [H _]. exact H. }
  pose proof (in_volume_is_fit _ n WF Hnv) as Fn.
  pose proof (chain_NoDup _ _ _ Hch) as ND. apply NoDup_cons in ND as [Nn _].
  destruct (SetNextClus_ok n 0 s WV Fn) as (s1 & E1 & F1 & _).
  pose proof (frame_wf _ _ _ F1 WV) as WV1.
  pose proof (frame_finfo _ _ _ F1) as I1.
  destruct (UpdateClusCount_ok inc32 s1 WV1) as (s2 & E2 & F2 & C2).
  pose proof (frame_wf _ _ _ F2 WV1) as WV2.
  pose proof (frame_finfo _ _ _ F2) as I2. rewrite I1 in F2, I2, C2.
  assert (F12 : frame (fat_and_count (finfo_ s)) s s2).
  { eapply frame_trans; [exact F1 | exact F2 | |].
    - intros j Hj. left. eapply fat_slots_area; eauto.
    - intros j Hj. right. exact Hj. }
  assert (G1 : GetNFreeClus s1 = GetNFreeClus s).
  { apply (GetNFreeClus_frame _ s s1 WV F1). intros j Hj Hs.
    apply (reserved_not_fat (finfo_ s) j).
    - apply (info_words_reserved s j WV). unfold span in *. lia.
    - eapply fat_slots_area; eauto. }
  rewrite (GetNFreeClus_word s1 WV1), (GetNFreeClus_word s WV), I1 in G1.
  injection G1 as G1. rewrite G1 in C2. unfold inc32 in C2.
  rewrite wrap_idem in C2.
  set (f := word_at (mFilesys_ s) (nfree_pos (finfo_ s))) in *.
  assert (Step : forall m, GetNextClus n s = Val m ->
            free_loop (S fuel) n s =
              (if m <? FATEND then free_loop fuel m else ret tt) s2).
  { intros m Em. cbn [free_loop].
    rewrite (bind_step _ _ s s m (lift_Val _ _ _ Em)).
    rewrite (bind_step _ _ s s1 tt E1), (bind_step _ _ s1 s2 tt E2).
    reflexivity. }
  inversion Hch as [n' m Em Hm | n' m l2 Em Hm Hc2]; subst.
  - rewrite (Step m Em). destruct (Z.ltb_spec m FATEND); [lia|].
    exists s2. split; [reflexivity|]. split; [exact F12|].
    exists f. split; [apply GetNFreeClus_word; exact WV|].
    rewrite C2. reflexivity.
  - rewrite (Step m Em). destruct (Z.ltb_spec m FATEND); [|lia].
    apply Forall_cons in Hvol as [_ Hvol2].
    assert (Hc2' : chain s2 m l).
    { apply (chain_frame s); [exact Hc2|]. intros x Hx.
      assert (Hxv : in_volume (finfo_ s) x)
        by (eapply Forall_forall in Hvol2; eauto).
      pose proof (in_volume_is_fit _ x WF Hxv) as Fx.
      assert (x <> n) by (intros ->; auto).
      rewrite (GetNextClus_outside
                 (span (nfree_pos (finfo_ s)) (nfree_pos (finfo_ s) + 4))
                 x s1 s2); rewrite ?I1; auto.
      - apply (GetNextClus_other n x s s1); auto.
      - intros j Hj. apply reserved_not_fat.
        apply (info_words_reserved s j WV). unfold span in *. lia. }
    destruct (IH fuel m s2 WV2) as (s' & E' & F' & f2 & Ef2 & Ef').
    { split; [exact Hc2' | rewrite I2; exact Hvol2]. }
    { cbn in Hf. lia. }
    rewrite I2 in F'.
    exists s'. split; [exact E'|]. split.
    + eapply frame_trans; [exact F12 | exact F' | auto | auto].
    + exists f. split; [apply GetNFreeClus_word; exact WV|].
      rewrite C2 in Ef2. injection Ef2 as <-. rewrite Ef'.
      rewrite u32_add_l. do 2 f_equal. cbn [length]. lia.
Qed.

(** ** Removing a file *)

Lemma close_step (name_ : list Z) (s : Filesys) :
  (if existsb (fun e => str_eqb (GetShortName e) name_) (openTable_ s)
   then Close [name_] else ret tt) s = Ret tt (after_close name_ s).
Proof.
  unfold after_close. destruct (existsb _ _); reflexivity.
Qed.

Lemma after_close_image (name_ : list Z) (s : Filesys) :
  mFilesys_ (after_close name_ s) = mFilesys_ s /\
  finfo_ (after_close name_ s) = finfo_ s /\
  cwd_ (after_close name_ s) = cwd_ s.
Proof. unfold after_close. destruct (existsb _ _); auto. Qed.

Lemma after_close_wf (name_ : list Z) (s : Filesys) :
  wf_volume s -> wf_volume (after_close name_ s).
Proof.
  destruct (after_close_image name_ s) as (Ei & Ef & _).
  intros [G Mp By]. split; rewrite ?Ei, ?Ef; assumption.
Qed.

(** What only reads the image and the geometry is the same after the
    close step. *)
Lemma GetNextClus_same (s s0 : Filesys) (n : Z) :
  mFilesys_ s0 = mFilesys_ s -> finfo_ s0 = finfo_ s ->
  GetNextClus n s0 = GetNextClus n s.
Proof. intros Ei Ef. unfold GetNextClus, get_le. rewrite Ei, Ef. reflexivity. Qed.

Lemma GetNFreeClus_same (s s0 : Filesys) :
  mFilesys_ s0 = mFilesys_ s -> finfo_ s0 = finfo_ s ->
  GetNFreeClus s0 = GetNFreeClus s.
Proof. intros Ei Ef. unfold GetNFreeClus, get_le. rewrite Ei, Ef. reflexivity. Qed.

Lemma read_slots_same (n : nat) (s s0 : Filesys) (d : bool) (loc i : Z) :
  mFilesys_ s0 = mFilesys_ s ->
  read_slots d loc i n s0 = read_slots d loc i n s.
Proof.
  intros Ei. revert i. induction n as [|n IH]; intros i; [reflexivity|].
  cbn [read_slots]. cbv zeta. rewrite Ei, IH. reflexivity.
Qed.

Lemma GetFileList_same (fuel : nat) (s s0 : Filesys) (c : Z) (d : bool) :
  mFilesys_ s0 = mFilesys_ s -> finfo_ s0 = finfo_ s ->
  GetFileList fuel c d s0 = GetFileList fuel c d s.
Proof.
  intros Ei Ef. revert c. induction fuel as [|fuel IH]; intros c;
    [reflexivity|].
  cbn [GetFileList]. cbv zeta.
  rewrite Ef, (read_slots_same _ s s0), (GetNextClus_same s s0) by assumption.
  destruct (read_slots _ _ _ _ s); cbn; try reflexivity.
  destruct (GetNextClus c s); cbn; try reflexivity.
  destruct (_ <? _); [|reflexivity]. rewrite IH. reflexivity.
Qed.

Lemma chain_same (s s0 : Filesys) (n : Z) (l : list Z) :
  mFilesys_ s0 = mFilesys_ s -> finfo_ s0 = finfo_ s ->
  chain s n l -> chain s0 n l.
Proof.
  intros Ei Ef H. apply (chain_frame s); [exact H|].
  intros x _. apply GetNextClus_same; assumption.
Qed.

(** The scan of [Rm] stops on the target. *)
Lemma Rm_scan_target (fuel : nat) (now : tm) (name_ : list Z)
  (entries : list FileEntry) (e : FileEntry) (s : Filesys) :
  (forall x, x ∈ entries -> FileEntry_copy x = x) ->
  rm_target name_ entries e ->
  Rm_scan fuel now name_ entries s =
    ((if negb (clus e =? 0) then free_loop fuel (clus e) else ret tt) ;;;
     SaveFileEntry now (mark_deleted e) ;;;
     ret true)%fs s.
Proof.
  intros Hcopy (pre & post & -> & Hpre & Hname & Hfile).
  induction pre as [|x pre IH]; cbn [app Rm_scan]; cbv zeta.
  - rewrite Hcopy by constructor. unfold str_eqb.
    rewrite bool_decide_eq_true_2 by exact Hname.
    destruct (Z.eqb_spec (Z.land (attr e) DIRECT) DIRECT); [contradiction|].
    reflexivity.
  - rewrite Hcopy by constructor.
    apply Forall_cons in Hpre as [Hx Hpre].
    assert (IH' := IH (fun y Hy => Hcopy y (list_elem_of_further _ _ _ Hy)) Hpre).
    unfold str_eqb. destruct (bool_decide (GetShortName x = name_)) eqn:Eb.
    + apply bool_decide_eq_true_1 in Eb. destruct Hx as [Hx|Hx];
        [contradiction|].
      rewrite Hx, Z.eqb_refl. exact IH'.
    + exact IH'.
Qed.

(** [SaveFileEntry] changes only the 32 bytes of the entry. *)
Lemma save_frame (now : tm) (e : FileEntry) (s : Filesys) :
  0 <= entryLoc e ->
  entryLoc e + 32 <= filesys_size (mFilesys_ s) ->
  frame (span (entryLoc e) (entryLoc e + 32)) s
    (set_image s (save_image now e (mFilesys_ s))).
Proof.
  intros H0 Hs. split; cbn.
  - repeat split.
  - apply save_image_length.
  - apply save_image_bytes_ok.
  - intros j Hj Hout. apply save_image_outside; assumption.
Qed.

Lemma mark_deleted_loc (e : FileEntry) :
  entryLoc (mark_deleted e) = entryLoc e.
Proof. reflexivity. Qed.

(** One [rm name_] on a well-formed volume: the chain of the target is
    freed, then its entry is saved with the deletion mark. *)
Lemma Rm_ok (fuel : nat) (now : tm) (name_ : list Z) (s : Filesys)
  (dl : list Z) (entries : list FileEntry) (e : FileEntry) (l : list Z) :
  wf_volume s -> valid_chain s (cwd_ s) dl ->
  GetFileList fuel (cwd_ s) false s = Val entries ->
  rm_target name_ entries e ->
  file_chain s e l -> (length l <= fuel)%nat ->
  exists s1 s',
    Rm fuel now [name_] s = Ret tt s' /\
    frame (fat_and_count (finfo_ s)) (after_close name_ s) s1 /\
    (l = [] -> s1 = after_close name_ s) /\
    (exists f, GetNFreeClus s = Val f /\
       GetNFreeClus s1 = Val (u32 (f + Z.of_nat (length l)))) /\
    s' = set_image s1 (save_image now (mark_deleted e) (mFilesys_ s1)) /\
    listed s dl e.
Proof.
  intros WV Hdir Hlist Htar Hfile Hfuel.
  destruct (after_close_image name_ s) as (Ei & Ef & Ec).
  pose proof (after_close_wf name_ s WV) as WV0.
  set (s0 := after_close name_ s) in *.
  assert (Hlisted : forall x, x ∈ entries -> listed s dl x).
  { intros x Hx. eapply GetFileList_listed; eauto. }
  assert (He : listed s dl e).
  { apply Hlisted. destruct Htar as (pre & post & -> & _).
    apply elem_of_app. right. constructor. }
  destruct (listed_span s dl e WV (proj2 Hdir) He) as (Hlo & Hhi & H32 & Hat).
  pose proof (volume_size s WV) as Sz.
  assert (Prefix :
            Rm fuel now [name_] s =
              bind ((if negb (clus e =? 0) then free_loop fuel (clus e)
                     else ret tt) ;;;
                    SaveFileEntry now (mark_deleted e) ;;;
                    ret true)%fs
                   (fun found => if negb found then ret tt else ret tt) s0).
  { unfold Rm. change (size_of [name_] =? 0) with false.
    cbn [Rm_args]. unfold Rm_one.
    unfold bind at 1. unfold bind at 1.
    rewrite close_step. fold s0.
    unfold bind at 1. unfold lift.
    rewrite (GetFileList_same fuel s s0) by assumption. rewrite Hlist.
    rewrite (Rm_scan_target fuel now name_ entries e s0).
    - reflexivity.
    - intros x Hx. destruct (Hlisted x Hx) as (c & k & _ & _ & _ & Hx_at).
      apply (ea_copy _ _ _ Hx_at).
    - exact Htar. }
  rewrite Prefix. clear Prefix.
  assert (Free : exists s1,
            (if negb (clus e =? 0) then free_loop fuel (clus e) else ret tt)
              s0 = Ret tt s1 /\
            frame (fat_and_count (finfo_ s)) s0 s1 /\
            (l = [] -> s1 = s0) /\
            exists f, GetNFreeClus s = Val f /\
              GetNFreeClus s1 = Val (u32 (f + Z.of_nat (length l)))).
  { destruct Hfile as [[E0 ->]|[Hch Hvol]].
    - rewrite E0. exists s0. split; [reflexivity|].
      split; [apply frame_refl|]. split; [auto|].
      exists (word_at (mFilesys_ s) (nfree_pos (finfo_ s))).
      rewrite (GetNFreeClus_same s s0) by assumption.
      rewrite (GetNFreeClus_word s WV). split; [reflexivity|].
      cbn [length]. rewrite Z.add_0_r.
      rewrite u32_small; [reflexivity|].
      apply word_at_range. apply (wf_bytes _ WV).
    - destruct (chain_head _ _ _ Hch) as [l' ->].
      assert (Hc : in_volume (finfo_ s) (clus e)).
      { apply Forall_cons in Hvol as [H _]. exact H. }
      destruct (Z.eqb_spec (clus e) 0) as [E0|E0];
        [destruct Hc; lia|]. cbn [negb].
      destruct (free_loop_ok (clus e :: l') fuel (clus e) s0 WV0)
        as (s1 & E1 & F1 & f & Ef0 & Ef1); [|exact Hfuel|].
      { split; [apply (chain_same s s0); assumption | rewrite Ef; exact Hvol]. }
      rewrite Ef in F1.
      exists s1. split; [exact E1|]. split; [exact F1|].
      split; [discriminate|].
      exists f. rewrite <- (GetNFreeClus_same s s0) by assumption. auto. }
  destruct Free as (s1 & E1 & F1 & Hnil & Hcount).
  exists s1. eexists. split.
  - pose proof (frame_size _ _ _ F1) as Sz1. rewrite Ei in Sz1.
    rewrite bind_assoc, (bind_step _ _ s0 s1 tt E1), bind_assoc.
    rewrite (bind_step _ _ s1 _ _ (SaveFileEntry_eq now (mark_deleted e) s1
               ltac:(rewrite mark_deleted_loc; lia)
               ltac:(rewrite mark_deleted_loc; lia)
               ltac:(rewrite mark_deleted_loc, Sz1; lia))).
    reflexivity.
  - split; [exact F1|]. split; [exact Hnil|]. split; [exact Hcount|].
    split; [reflexivity | exact He].
Qed.

(** ** The bytes of a decoded entry *)

Lemma read_elems_1_length (n : nat) (tbits : Z) (img : image) (at_ : Z) :
  length (read_elems tbits img at_ 1 n) = n.
Proof.
  revert at_. induction n as [|n IH]; intros at_; cbn; [reflexivity|].
  rewrite IH. reflexivity.
Qed.

Lemma read_elems_1_nth (n : nat) (tbits : Z) (img : image) (at_ : Z)
  (k : nat) :
  (k < n)%nat ->
  nth k (read_elems tbits img at_ 1 n) 0
  = wrap tbits (byte_at img (at_ + Z.of_nat k)).
Proof.
  revert at_ k. induction n as [|n IH]; intros at_ k Hk; [lia|].
  cbn [read_elems]. destruct k as [|k].
  - cbn [nth]. change (Z.to_nat 1) with 1%nat. rewrite read_bytes_1.
    rewrite Z.add_0_r. reflexivity.
  - cbn [nth]. rewrite IH by lia. do 2 f_equal. lia.
Qed.

Lemma cstr_length (buf : list Z) : (length (cstr buf) <= length buf)%nat.
Proof.
  induction buf as [|c buf IH]; cbn; [lia|].
  destruct (c =? 0); cbn; lia.
Qed.

Lemma cstr_full (buf : list Z) :
  length (cstr buf) = length buf -> cstr buf = buf.
Proof.
  induction buf as [|c buf IH]; cbn; [reflexivity|].
  destruct (c =? 0); cbn; [discriminate|].
  intros [= H]. rewrite IH by exact H. reflexivity.
Qed.

Lemma u8_byte (img : image) (j : Z) :
  bytes_ok img -> u8 (byte_at img j) = byte_at img j.
Proof.
  intros By. apply wrap_small. pose proof (byte_at_is_byte img j By) as H.
  unfold is_byte in H. change (2 ^ 8) with 256. lia.
Qed.

Section EntryBytes.

Variables (img : image) (loc : Z) (e : FileEntry).
Hypothesis By : bytes_ok img.
Hypothesis Hloc : 0 <= loc.
Hypothesis H32 : loc + 32 <= 4294967296.
Hypothesis Hat : entry_at img loc e.

Lemma entry_attr : attr e = byte_at img (loc + 11).
Proof.
  pose proof (ea_attr _ _ _ Hat) as H. rewrite u32_small in H by lia.
  apply read_le_eq in H as [_ ->]. change (Z.to_nat 1) with 1%nat.
  rewrite read_bytes_1. apply u8_byte. exact By.
Qed.

Lemma entry_hi :
  hi e = byte_at img (loc + 20) + 256 * byte_at img (loc + 21).
Proof.
  pose proof (ea_hi _ _ _ Hat) as H. rewrite u32_small in H by lia.
  apply read_le_eq in H as [_ ->]. change (Z.to_nat 2) with 2%nat.
  rewrite read_bytes_2 by (try apply byte_at_is_byte; auto; lia).
  do 3 f_equal. lia.
Qed.

Lemma entry_lo :
  lo e = byte_at img (loc + 26) + 256 * byte_at img (loc + 27).
Proof.
  pose proof (ea_lo _ _ _ Hat) as H. rewrite u32_small in H by lia.
  apply read_le_eq in H as [_ ->]. change (Z.to_nat 2) with 2%nat.
  rewrite read_bytes_2 by (try apply byte_at_is_byte; auto; lia).
  do 3 f_equal. lia.
Qed.

Lemma entry_size : size e = word_at img (loc + 28).
Proof.
  pose proof (ea_size _ _ _ Hat) as H. rewrite u32_small in H by lia.
  apply read_le_eq in H as [_ ->]. change (Z.to_nat 4) with 4%nat.
  rewrite read_bytes_4 by (apply byte_at_is_byte; exact By).
  reflexivity.
Qed.

Lemma entry_name_nonempty : (0 < length (name e))%nat.
Proof.
  destruct (ea_name _ _ _ Hat) as (buf & _ & -> & H0 & _).
  destruct buf as [|c buf]; [cbn in H0; lia|].
  cbn in *. destruct (Z.eqb_spec c 0); [contradiction|]. cbn. lia.
Qed.

(** A name without a NUL byte is the eleven bytes of the slot. *)
Lemma entry_name (k : nat) :
  length (name e) = 11%nat -> (k < 11)%nat ->
  str_at (name e) k = byte_at img (loc + Z.of_nat k).
Proof.
  intros Hlen Hk. destruct (ea_name _ _ _ Hat) as (buf & Eb & En & _).
  unfold ReadValue in Eb. destruct (_ >=? _); [discriminate|].
  apply (inj Some) in Eb. change (Z.to_nat 11) with 11%nat in Eb.
  subst buf. rewrite En in Hlen |- *.
  rewrite cstr_full by (rewrite Hlen, read_elems_1_length; reflexivity).
  unfold str_at. rewrite read_elems_1_nth by exact Hk.
  apply u8_byte. exact By.
Qed.

End EntryBytes.

Lemma SetCurrentTime_range (now : tm) (e : FileEntry) :
  0 <= wrtTime (SetCurrentTime now e) < 65536 /\
  0 <= wrtDate (SetCurrentTime now e) < 65536.
Proof.
  unfold SetCurrentTime. cbn [wrtTime wrtDate].
  split; apply (wrap_range 16); lia.
Qed.

(** Saving the marked entry over an image that still holds its bytes
    yields the tombstone. *)
Lemma save_tombstone (now : tm) (e : FileEntry) (img img1 : image) :
  bytes_ok img -> 0 <= entryLoc e -> entryLoc e + 32 <= 4294967296 ->
  entryLoc e + 32 <= filesys_size img1 ->
  entry_at img (entryLoc e) e -> length (name e) = 11%nat ->
  (forall k, 0 <= k < 32 ->
     byte_at img1 (entryLoc e + k) = byte_at img (entryLoc e + k)) ->
  tombstoned now e img (save_image now (mark_deleted e) img1) (entryLoc e).
Proof.
  intros By H0 H32 Hs Hat Hlen Same.
  pose proof (mark_deleted_loc e) as EL.
  assert (Hs' : entryLoc (mark_deleted e) + 32 <= filesys_size img1)
    by (rewrite EL; exact Hs).
  assert (H0' : 0 <= entryLoc (mark_deleted e)) by (rewrite EL; exact H0).
  split.
  - replace (entryLoc e) with (entryLoc (mark_deleted e) + Z.of_nat 0)
      by (rewrite EL; lia).
    rewrite save_image_name by (auto; lia).
    unfold mark_deleted. cbn [name]. unfold str_at.
    destruct (name e) as [|c rest]; [discriminate|]. reflexivity.
  - intros k Hk.
    assert (C : 1 <= k <= 10 \/ k = 11 \/ k = 12 \/ k = 20 \/ k = 21
                \/ k = 26 \/ k = 27 \/ 28 <= k <= 31) by lia.
    destruct C as [C|[->|[->|[->|[->|[->|[->|C]]]]]]].
    + replace k with (Z.of_nat (Z.to_nat k)) by lia.
      rewrite <- EL at 1. rewrite save_image_name by (auto; lia).
      assert (Ek : str_at (name (mark_deleted e)) (Z.to_nat k)
                   = str_at (name e) (Z.to_nat k)).
      { unfold mark_deleted, str_at. cbn [name].
        destruct (name e) as [|c rest]; [reflexivity|].
        destruct (Z.to_nat k) as [|k'] eqn:Ek; [lia | reflexivity]. }
      rewrite Ek, (entry_name img (entryLoc e) e By Hat) by (auto; lia).
      pose proof (byte_at_is_byte img (entryLoc e + Z.of_nat (Z.to_nat k)) By)
        as Hb.
      unfold is_byte in Hb. apply Z.mod_small. lia.
    + rewrite <- EL at 1. rewrite save_image_attr by auto.
      cbn [attr mark_deleted].
      rewrite (entry_attr img (entryLoc e) e By H0 H32 Hat).
      pose proof (byte_at_is_byte img (entryLoc e + 11) By) as Hb.
      unfold is_byte in Hb. apply Z.mod_small. lia.
    + rewrite <- EL at 1. rewrite save_image_12 by auto.
      rewrite EL. apply Same. lia.
    + pose proof (save_image_hi now (mark_deleted e) img1 H0' Hs' 0
                    ltac:(lia)) as Hw.
      rewrite EL, Z.add_0_r in Hw. rewrite Hw. cbn [hi mark_deleted].
      rewrite (entry_hi img (entryLoc e) e By H0 H32 Hat).
      pose proof (byte_at_is_byte img (entryLoc e + 20) By) as Hb0.
      pose proof (byte_at_is_byte img (entryLoc e + 21) By) as Hb1.
      unfold is_byte in *. change (2 ^ (8 * 0)) with 1. lia.
    + pose proof (save_image_hi now (mark_deleted e) img1 H0' Hs' 1
                    ltac:(lia)) as Hw.
      rewrite EL in Hw.
      replace (entryLoc e + 20 + 1) with (entryLoc e + 21) in Hw by lia.
      rewrite Hw. cbn [hi mark_deleted].
      rewrite (entry_hi img (entryLoc e) e By H0 H32 Hat).
      pose proof (byte_at_is_byte img (entryLoc e + 20) By) as Hb0.
      pose proof (byte_at_is_byte img (entryLoc e + 21) By) as Hb1.
      unfold is_byte in *. change (2 ^ (8 * 1)) with 256. lia.
    + pose proof (save_image_lo now (mark_deleted e) img1 H0' Hs' 0
                    ltac:(lia)) as Hw.
      rewrite EL, Z.add_0_r in Hw. rewrite Hw. cbn [lo mark_deleted].
      rewrite (entry_lo img (entryLoc e) e By H0 H32 Hat).
      pose proof (byte_at_is_byte img (entryLoc e + 26) By) as Hb0.
      pose proof (byte_at_is_byte img (entryLoc e + 27) By) as Hb1.
      unfold is_byte in *. change (2 ^ (8 * 0)) with 1. lia.
    + pose proof (save_image_lo now (mark_deleted e) img1 H0' Hs' 1
                    ltac:(lia)) as Hw.
      rewrite EL in Hw.
      replace (entryLoc e + 26 + 1) with (entryLoc e + 27) in Hw by lia.
      rewrite Hw. cbn [lo mark_deleted].
      rewrite (entry_lo img (entryLoc e) e By H0 H32 Hat).
      pose proof (byte_at_is_byte img (entryLoc e + 26) By) as Hb0.
      pose proof (byte_at_is_byte img (entryLoc e + 27) By) as Hb1.
      unfold is_byte in *. change (2 ^ (8 * 1)) with 256. lia.
    + pose proof (save_image_size now (mark_deleted e) img1 H0' Hs' (k - 28)
                    ltac:(lia)) as Hw.
      rewrite EL in Hw.
      replace (entryLoc e + 28 + (k - 28)) with (entryLoc e + k) in Hw by lia.
      rewrite Hw. cbn [size mark_deleted].
      rewrite (entry_size img (entryLoc e) e By H0 H32 Hat).
      unfold word_at.
      pose proof (byte_at_is_byte img (entryLoc e + 28) By) as Hb0.
      pose proof (byte_at_is_byte img (entryLoc e + 28 + 1) By) as Hb1.
      pose proof (byte_at_is_byte img (entryLoc e + 28 + 2) By) as Hb2.
      pose proof (byte_at_is_byte img (entryLoc e + 28 + 3) By) as Hb3.
      unfold is_byte in *.
      assert (C4 : k = 28 \/ k = 29 \/ k = 30 \/ k = 31) by lia.
      destruct C4 as [->|[->|[->| ->]]].
      * change (2 ^ (8 * (28 - 28))) with 1. lia.
      * change (2 ^ (8 * (29 - 28))) with 256.
        replace (entryLoc e + 29) with (entryLoc e + 28 + 1) by lia. lia.
      * change (2 ^ (8 * (30 - 28))) with 65536.
        replace (entryLoc e + 30) with (entryLoc e + 28 + 2) by lia. lia.
      * change (2 ^ (8 * (31 - 28))) with 16777216.
        replace (entryLoc e + 31) with (entryLoc e + 28 + 3) by lia. lia.
  - intros k Hk. rewrite <- EL at 1.
    apply save_image_zeroed; auto; lia.
  - pose proof (SetCurrentTime_range now e) as [R _].
    pose proof (save_image_wrtTime now (mark_deleted e) img1 H0' Hs' 0
                  ltac:(lia)) as Hw0.
    pose proof (save_image_wrtTime now (mark_deleted e) img1 H0' Hs' 1
                  ltac:(lia)) as Hw1.
    rewrite EL in Hw0, Hw1. rewrite Z.add_0_r in Hw0.
    replace (entryLoc e + 22 + 1) with (entryLoc e + 23) in Hw1 by lia.
    rewrite Hw0, Hw1.
    change (wrtTime (SetCurrentTime now (mark_deleted e)))
      with (wrtTime (SetCurrentTime now e)).
    change (2 ^ (8 * 0)) with 1. change (2 ^ (8 * 1)) with 256. lia.
  - pose proof (SetCurrentTime_range now e) as [_ R].
    pose proof (save_image_wrtDate now (mark_deleted e) img1 H0' Hs' 0
                  ltac:(lia)) as Hw0.
    pose proof (save_image_wrtDate now (mark_deleted e) img1 H0' Hs' 1
                  ltac:(lia)) as Hw1.
    rewrite EL in Hw0, Hw1. rewrite Z.add_0_r in Hw0.
    replace (entryLoc e + 24 + 1) with (entryLoc e + 25) in Hw1 by lia.
    rewrite Hw0, Hw1.
    change (wrtDate (SetCurrentTime now (mark_deleted e)))
      with (wrtDate (SetCurrentTime now e)).
    change (2 ^ (8 * 0)) with 1. change (2 ^ (8 * 1)) with 256. lia.
Qed.

(** ** [rm]: the free count, the deletion mark, the tombstone *)

(** A change inside a listed entry is a change in the data area. *)
Lemma entry_span_data (s : Filesys) (dl : list Z) (e : FileEntry) (j : Z) :
  wf_volume s -> Forall (in_volume (finfo_ s)) dl -> listed s dl e ->
  span (entryLoc e) (entryLoc e + 32) j -> data_area (finfo_ s) j.
Proof.
  intros WV Hvol He Hj.
  destruct (listed_span s dl e WV Hvol He) as (Hlo & _).
  unfold span, data_area in *. lia.
Qed.

Lemma data_not_fat_and_count (s : Filesys) (j : Z) :
  wf_volume s -> data_area (finfo_ s) j -> ~ fat_and_count (finfo_ s) j.
Proof.
  intros WV Hd [Hf|Hc].
  - apply (fat_not_data _ j Hf Hd).
  - apply (reserved_not_data s j WV); [|exact Hd].
    apply (info_words_reserved s j WV). unfold span in *. lia.
Qed.

(** C7.  On a well-formed volume, for the file that [rm name_]
    removes from the current directory (the first entry with that
    short name that is not a directory), if the chain of the file is
    the chain [l] of the volume, then [rm name_] returns and the free
    count of the FS information sector has grown by the length of [l]
    (in 32-bit arithmetic). *)
Theorem C7_rm_adds_chain_length (fuel : nat) (now : tm) (name_ : list Z)
  (s : Filesys) (dl : list Z) (entries : list FileEntry) (e : FileEntry)
  (l : list Z) :
  wf_volume s -> valid_chain s (cwd_ s) dl ->
  GetFileList fuel (cwd_ s) false s = Val entries ->
  rm_target name_ entries e ->
  valid_chain s (clus e) l -> (length l <= fuel)%nat ->
  exists s' f,
    Rm fuel now [name_] s = Ret tt s' /\
    GetNFreeClus s = Val f /\
    GetNFreeClus s' = Val (u32 (f + Z.of_nat (length l))).
Proof.
  intros WV Hdir Hlist Htar Hfile Hfuel.
  destruct (Rm_ok fuel now name_ s dl entries e l WV Hdir Hlist Htar
              (or_intror Hfile) Hfuel)
    as (s1 & s' & E & F1 & _ & (f & Ef & Ef1) & -> & He).
  destruct (after_close_image name_ s) as (Ei & Efi & _).
  pose proof (frame_wf _ _ _ F1 (after_close_wf name_ s WV)) as WV1.
  pose proof (frame_finfo _ _ _ F1) as I1. rewrite Efi in I1.
  pose proof (frame_size _ _ _ F1) as Sz1. rewrite Ei in Sz1.
  destruct (listed_span s dl e WV (proj2 Hdir) He) as (Hlo & Hhi & H32 & _).
  pose proof (volume_size s WV) as Sz.
  eexists. exists f. split; [exact E|]. split; [exact Ef|].
  rewrite <- Ef1.
  apply (GetNFreeClus_frame (span (entryLoc e) (entryLoc e + 32)) s1 _ WV1).
  - apply (save_frame now (mark_deleted e) s1);
      rewrite mark_deleted_loc; lia.
  - rewrite I1. intros j Hj Hs.
    apply (reserved_not_data s j WV).
    + apply (info_words_reserved s j WV). unfold span in *. lia.
    + apply (entry_span_data s dl e j WV (proj2 Hdir) He Hj).
Qed.

(** C10.  On a well-formed volume, for the file that [rm name_]
    removes from the current directory, if its stored first cluster is
    0 then [rm name_] returns, the first name byte of the entry is
    0xE5, no byte outside the 32 bytes of the entry (which lie in the
    data area) has changed, so that every word of every FAT copy is as
    before, and the free count is as before. *)
Theorem C10_rm_empty_file (fuel : nat) (now : tm) (name_ : list Z)
  (s : Filesys) (dl : list Z) (entries : list FileEntry) (e : FileEntry) :
  wf_volume s -> valid_chain s (cwd_ s) dl ->
  GetFileList fuel (cwd_ s) false s = Val entries ->
  rm_target name_ entries e -> clus e = 0 ->
  exists s',
    Rm fuel now [name_] s = Ret tt s' /\
    byte_at (mFilesys_ s') (entryLoc e) = DEALLOC /\
    data_area (finfo_ s) (entryLoc e) /\
    (forall j, 0 <= j -> ~ span (entryLoc e) (entryLoc e + 32) j ->
       byte_at (mFilesys_ s') j = byte_at (mFilesys_ s) j) /\
    (forall i n, 0 <= i < NumFats (finfo_ s) -> fits (finfo_ s) n ->
       word_at (mFilesys_ s') (fat_entry_pos (finfo_ s) i n)
       = word_at (mFilesys_ s) (fat_entry_pos (finfo_ s) i n)) /\
    GetNFreeClus s' = GetNFreeClus s.
Proof.
  intros WV Hdir Hlist Htar Hclus.
  destruct (Rm_ok fuel now name_ s dl entries e [] WV Hdir Hlist Htar
              (or_introl (conj Hclus eq_refl)) ltac:(cbn; lia))
    as (s1 & s' & E & _ & Hnil & _ & -> & He).
  rewrite (Hnil eq_refl) in *. clear Hnil.
  destruct (after_close_image name_ s) as (Ei & Efi & _).
  pose proof (after_close_wf name_ s WV) as WV0.
  set (s0 := after_close name_ s) in *.
  destruct (listed_span s dl e WV (proj2 Hdir) He) as (Hlo & Hhi & H32 & Hat).
  pose proof (volume_size s WV) as Sz. pose proof (wf_geom _ WV) as WF.
  assert (F : frame (span (entryLoc e) (entryLoc e + 32)) s0
                (set_image s0 (save_image now (mark_deleted e) (mFilesys_ s0)))).
  { apply (save_frame now (mark_deleted e) s0);
      rewrite ?mark_deleted_loc, ?Ei; lia. }
  assert (Data : forall j, span (entryLoc e) (entryLoc e + 32) j ->
                           data_area (finfo_ s) j).
  { intros j. apply (entry_span_data s dl e j WV (proj2 Hdir) He). }
  eexists. split; [exact E|]. cbn [mFilesys_ set_image]. split.
  { replace (entryLoc e) with (entryLoc (mark_deleted e) + Z.of_nat 0)
      by (rewrite mark_deleted_loc; lia).
    rewrite save_image_name;
      rewrite ?mark_deleted_loc, ?Ei; try lia.
    pose proof (entry_name_nonempty _ _ _ Hat) as Hne.
    unfold mark_deleted, str_at. cbn [name].
    destruct (name e); [cbn in Hne; lia | reflexivity]. }
  split; [unfold data_area; lia|]. split.
  { intros j Hj Hout. rewrite <- Ei. apply (frame_byte_at _ _ _ _ F Hj Hout). }
  split.
  { intros i n Hi [Hn Hfit].
    pose proof (fat_entry_pos_bounds _ WF i n Hi Hn Hfit) as Hb.
    rewrite <- Ei.
    apply (word_at_frame (span (entryLoc e) (entryLoc e + 32)) s0 _ _ F);
      [lia|].
    intros j Hj Hs. apply (fat_not_data (finfo_ s) j); [|auto].
    unfold fat_area, span. lia. }
  rewrite (GetNFreeClus_frame _ s0 _ WV0 F).
  - apply GetNFreeClus_same; assumption.
  - rewrite Efi. intros j Hj Hs. apply (reserved_not_data s j WV).
    + apply (info_words_reserved s j WV). unfold span in *. lia.
    + auto.
Qed.

(** [rm] leaves the tombstone of the entry it removes. *)
Lemma Rm_tombstone (fuel : nat) (now : tm) (name_ : list Z)
  (s : Filesys) (dl : list Z) (entries : list FileEntry) (e : FileEntry)
  (l : list Z) :
  wf_volume s -> valid_chain s (cwd_ s) dl ->
  GetFileList fuel (cwd_ s) false s = Val entries ->
  rm_target name_ entries e ->
  file_chain s e l -> (length l <= fuel)%nat ->
  length (name e) = 11%nat ->
  exists s',
    Rm fuel now [name_] s = Ret tt s' /\
    tombstoned now e (mFilesys_ s) (mFilesys_ s') (entryLoc e).
Proof.
  intros WV Hdir Hlist Htar Hfile Hfuel Hlen.
  destruct (Rm_ok fuel now name_ s dl entries e l WV Hdir Hlist Htar
              Hfile Hfuel)
    as (s1 & s' & E & F1 & _ & _ & -> & He).
  destruct (after_close_image name_ s) as (Ei & Efi & _).
  pose proof (frame_size _ _ _ F1) as Sz1. rewrite Ei in Sz1.
  destruct (listed_span s dl e WV (proj2 Hdir) He) as (Hlo & Hhi & H32 & Hat).
  pose proof (volume_size s WV) as Sz.
  eexists. split; [exact E|]. cbn [mFilesys_ set_image].
  apply save_tombstone; auto; try lia.
  - apply (wf_bytes _ WV).
  - intros k Hk. rewrite <- Ei.
    apply (frame_byte_at _ _ _ _ F1); [lia|].
    apply (data_not_fat_and_count s _ WV).
    apply (entry_span_data s dl e _ WV (proj2 Hdir) He).
    unfold span. lia.
Qed.

(** ** [rmdir] *)

Lemma Rmdir_find_target (name_ : list Z) (entries : list FileEntry)
  (e : FileEntry) :
  (forall x, x ∈ entries -> FileEntry_copy x = x) ->
  rmdir_target name_ entries e ->
  Rmdir_find name_ entries = Some e.
Proof.
  intros Hcopy (pre & post & -> & Hpre & Hname & Hdir).
  induction pre as [|x pre IH]; cbn [app Rmdir_find]; cbv zeta.
  - rewrite !Hcopy by constructor. unfold str_eqb.
    rewrite bool_decide_eq_true_2 by exact Hname.
    rewrite Hdir, Z.eqb_refl. reflexivity.
  - rewrite Hcopy by constructor.
    apply Forall_cons in Hpre as [Hx Hpre]. unfold str_eqb.
    rewrite bool_decide_eq_false_2 by exact Hx.
    apply IH; [|exact Hpre].
    intros y Hy. apply Hcopy. apply list_elem_of_further. exact Hy.
Qed.

Lemma tombstoned_frame (now : tm) (e : FileEntry) (img img1 img2 : image)
  (loc : Z) :
  tombstoned now e img img1 loc ->
  (forall k, 0 <= k < 32 -> byte_at img2 (loc + k) = byte_at img1 (loc + k)) ->
  tombstoned now e img img2 loc.
Proof.
  intros [T0 T1 T2 T3 T4] Same. split.
  - rewrite <- (Z.add_0_r loc), Same, Z.add_0_r by lia. exact T0.
  - intros k Hk. rewrite Same by lia. apply T1. exact Hk.
  - intros k Hk. rewrite Same by lia. apply T2. exact Hk.
  - rewrite !Same by lia. exact T3.
  - rewrite !Same by lia. exact T4.
Qed.

(** [rmdir] leaves the tombstone of the entry it removes. *)
Lemma Rmdir_tombstone (fuel : nat) (now : tm) (name_ : list Z)
  (s : Filesys) (dl : list Z) (entries sub : list FileEntry)
  (e : FileEntry) (l : list Z) :
  wf_volume s -> valid_chain s (cwd_ s) dl ->
  GetFileList fuel (cwd_ s) false s = Val entries ->
  str_at name_ 0 <> DOT ->
  rmdir_target name_ entries e ->
  GetFileList fuel (clus e) false s = Val sub -> (length sub <= 2)%nat ->
  valid_chain s (clus e) l -> (length l <= fuel)%nat ->
  length (name e) = 11%nat ->
  exists s',
    Rmdir fuel now [name_] s = Ret tt s' /\
    tombstoned now e (mFilesys_ s) (mFilesys_ s') (entryLoc e).
Proof.
  intros WV Hdir Hlist Hdot Htar Hsub Hlen2 Hch Hfuel Hlen.
  pose proof (wf_geom _ WV) as WF.
  assert (Hlisted : forall x, x ∈ entries -> listed s dl x).
  { intros x Hx. eapply GetFileList_listed; eauto. }
  assert (He : listed s dl e).
  { apply Hlisted. destruct Htar as (pre & post & -> & _).
    apply elem_of_app. right. constructor. }
  destruct (listed_span s dl e WV (proj2 Hdir) He) as (Hlo & Hhi & H32 & Hat).
  pose proof (volume_size s WV) as Sz.
  assert (Hfind : Rmdir_find name_ entries = Some e).
  { apply Rmdir_find_target; [|exact Htar].
    intros x Hx. destruct (Hlisted x Hx) as (c & k & _ & _ & _ & Hx_at).
    apply (ea_copy _ _ _ Hx_at). }
  set (s1 := set_image s (save_image now (mark_deleted e) (mFilesys_ s))).
  assert (F1 : frame (span (entryLoc e) (entryLoc e + 32)) s s1).
  { apply (save_frame now (mark_deleted e) s);
      rewrite mark_deleted_loc; lia. }
  pose proof (frame_wf _ _ _ F1 WV) as WV1.
  assert (Data : forall j, span (entryLoc e) (entryLoc e + 32) j ->
                           data_area (finfo_ s) j).
  { intros j. apply (entry_span_data s dl e j WV (proj2 Hdir) He). }
  assert (Hch1 : valid_chain s1 (clus e) l).
  { destruct Hch as [Hc Hv]. split; [|exact Hv].
    apply (chain_frame s); [exact Hc|]. intros x Hx.
    apply (GetNextClus_outside (span (entryLoc e) (entryLoc e + 32)) x s s1);
      auto.
    - apply in_volume_is_fit; [exact WF|].
      eapply Forall_forall in Hv; eauto.
    - intros j Hj Hf. apply (fat_not_data _ j Hf). auto. }
  destruct (free_loop_ok l fuel (clus e) s1 WV1 Hch1 Hfuel)
    as (s' & E' & F' & _).
  change (finfo_ s1) with (finfo_ s) in F'.
  assert (Hc0 : clus e <> 0).
  { destruct Hch as [Hc Hv]. destruct (chain_head _ _ _ Hc) as [l' ->].
    apply Forall_cons in Hv as [[H2 _] _]. lia. }
  exists s'. split.
  - unfold Rmdir. change (size_of [name_] =? 1) with true. cbn [negb nth].
    rewrite (bind_step _ _ s s entries
               (lift_Val (fun s => GetFileList fuel (cwd_ s) false s)
                  s entries Hlist)).
    destruct (Z.eqb_spec (str_at name_ 0) DOT) as [|_]; [contradiction|].
    cbn [negb]. rewrite Hfind.
    rewrite (bind_step _ _ s s sub (lift_Val _ _ _ Hsub)).
    destruct (Z.gtb_spec (size_of sub) 2) as [Hgt|_];
      [unfold size_of in Hgt; lia|].
    rewrite (bind_step _ _ s s1 _ (SaveFileEntry_eq now (mark_deleted e) s
               ltac:(rewrite mark_deleted_loc; lia)
               ltac:(rewrite mark_deleted_loc; lia)
               ltac:(rewrite mark_deleted_loc; lia))).
    cbn [clus SetCurrentTime mark_deleted].
    destruct (Z.eqb_spec (clus e) 0); [contradiction|]. exact E'.
  - apply (tombstoned_frame now e _ (mFilesys_ s1)).
    + apply save_tombstone; auto; try lia. apply (wf_bytes _ WV).
    + intros k Hk. apply (frame_byte_at _ _ _ _ F'); [lia|].
      apply (data_not_fat_and_count s _ WV). apply Data.
      unfold span. lia.
Qed.

(** C3, as the code has it.  After [rm] has removed a file, and after
    [rmdir] has removed a directory, whose short name fills its eleven
    bytes, the 32-byte entry is [tombstoned]: its first byte is 0xE5;
    bytes 1 to 12, 20, 21 and 26 to 31 are unchanged; bytes 13 to 19
    are 0; bytes 22 to 25 hold the DOS time and date of the removal. *)
Theorem C3_tombstone_amended :
  (forall (fuel : nat) (now : tm) (name_ : list Z) (s : Filesys)
     (dl : list Z) (entries : list FileEntry) (e : FileEntry) (l : list Z),
     wf_volume s -> valid_chain s (cwd_ s) dl ->
     GetFileList fuel (cwd_ s) false s = Val entries ->
     rm_target name_ entries e ->
     file_chain s e l -> (length l <= fuel)%nat ->
     length (name e) = 11%nat ->
     exists s',
       Rm fuel now [name_] s = Ret tt s' /\
       tombstoned now e (mFilesys_ s) (mFilesys_ s') (entryLoc e))
  /\
  (forall (fuel : nat) (now : tm) (name_ : list Z) (s : Filesys)
     (dl : list Z) (entries sub : list FileEntry) (e : FileEntry)
     (l : list Z),
     wf_volume s -> valid_chain s (cwd_ s) dl ->
     GetFileList fuel (cwd_ s) false s = Val entries ->
     str_at name_ 0 <> DOT ->
     rmdir_target name_ entries e ->
     GetFileList fuel (clus e) false s = Val sub -> (length sub <= 2)%nat ->
     valid_chain s (clus e) l -> (length l <= fuel)%nat ->
     length (name e) = 11%nat ->
     exists s',
       Rmdir fuel now [name_] s = Ret tt s' /\
       tombstoned now e (mFilesys_ s) (mFilesys_ s') (entryLoc e)).
Proof.
  split.
  - apply Rm_tombstone.
  - apply Rmdir_tombstone.
Qed.

(** ** [cd] *)

(** A segment that names no directory of the directory in focus makes
    [NavToDir] throw. *)
Lemma NavToDir_loop_unresolved (fuel : nat) (item : list Z)
  (rest : list (list Z)) (i end_ cur : Z) (s : Filesys)
  (entries : list FileEntry) :
  i <> end_ ->
  ((i =? 0) && str_eqb item (str "/")) = false ->
  (item <> str "." \/ cur <> RootClus (finfo_ s)) ->
  GetFileList fuel cur false s = Val entries ->
  nav_find (finfo_ s) item entries = None ->
  NavToDir_loop fuel (item :: rest) i end_ cur s = Throw.
Proof.
  intros Hi Hroot Hdot Hlist Hfind. cbn [NavToDir_loop].
  destruct (Z.eqb_spec i end_); [contradiction|]. cbv zeta.
  rewrite Hroot.
  assert (C : negb (str_eqb item (str "."))
              || negb (cur =? RootClus (finfo_ s)) = true).
  { apply orb_true_iff. destruct Hdot as [H|H]; [left|right].
    - unfold str_eqb. rewrite bool_decide_eq_false_2 by exact H. reflexivity.
    - destruct (Z.eqb_spec cur (RootClus (finfo_ s))); [contradiction|].
      reflexivity. }
  rewrite C, Hlist. cbn [res_bind]. rewrite Hfind. reflexivity.
Qed.

Lemma nav_find_None (fi : Fat32Info) (item : list Z)
  (entries : list FileEntry) :
  (forall e, e ∈ entries ->
     GetShortName (FileEntry_copy e) <> item \/
     IsDir (FileEntry_copy e) = false) ->
  nav_find fi item entries = None.
Proof.
  induction entries as [|e entries IH]; intros H; [reflexivity|].
  cbn [nav_find]. cbv zeta.
  assert (C : str_eqb (GetShortName (FileEntry_copy e)) item
              && IsDir (FileEntry_copy e) = false).
  { destruct (H e ltac:(constructor)) as [Hn|Hd].
    - unfold str_eqb. rewrite bool_decide_eq_false_2 by exact Hn.
      reflexivity.
    - rewrite Hd. apply andb_false_r. }
  rewrite C. apply IH. intros x Hx. apply H.
  apply list_elem_of_further. exact Hx.
Qed.

(** C9.  When the navigation of [cd path] fails, that is when
    [NavToDir] throws on the parsed path, [cd] returns with the state
    it was called in: the current directory cluster and the cached
    location string are unchanged (and so is everything else). *)
Theorem C9_cd_failure_keeps_cwd (fuel : nat) (path : list Z) (s : Filesys) :
  NavToDir fuel (ParseAddress path) 0 (size_of (ParseAddress path)) s
    = Throw ->
  exists s',
    Cd fuel [path] s = Ret tt s' /\
    cwd_ s' = cwd_ s /\ location_ s' = location_ s /\ s' = s.
Proof.
  intros H. exists s. unfold Cd. cbv zeta.
  change (size_of [path] <? 1) with false.
  change (size_of [path] =? 1) with true. cbn [nth].
  rewrite H. auto.
Qed.

(** ** Short-name validation *)

Lemma mem_char_true (c : Z) (chars : list Z) :
  mem_char c chars = true <-> c ∈ chars.
Proof.
  unfold mem_char. rewrite existsb_exists. split.
  - intros (x & Hx & E). apply Z.eqb_eq in E as ->.
    apply list_elem_of_In. exact Hx.
  - intros H. exists c. split; [apply list_elem_of_In; exact H|].
    apply Z.eqb_refl.
Qed.

Lemma mem_char_false (c : Z) (chars : list Z) :
  mem_char c chars = false <-> c ∉ chars.
Proof.
  rewrite <- mem_char_true. destruct (mem_char c chars); split;
    intros H; try reflexivity; try discriminate; try congruence;
    exfalso; apply H; reflexivity.
Qed.

Lemma find_from_none (s chars : list Z) (i : Z) :
  (forall c, c ∈ s -> c ∉ chars) -> find_from s chars i = npos.
Proof.
  revert i. induction s as [|c s IH]; intros i H; [reflexivity|].
  cbn [find_from].
  rewrite (proj2 (mem_char_false c chars)) by (apply H; constructor).
  apply IH. intros x Hx. apply H. apply list_elem_of_further. exact Hx.
Qed.

Lemma find_from_hit (pre post chars : list Z) (c i : Z) :
  (forall x, x ∈ pre -> x ∉ chars) -> c ∈ chars ->
  find_from (pre ++ c :: post) chars i = i + Z.of_nat (length pre).
Proof.
  revert i. induction pre as [|x pre IH]; intros i H Hc; cbn [app find_from].
  - rewrite (proj2 (mem_char_true c chars) Hc). cbn. lia.
  - rewrite (proj2 (mem_char_false x chars)) by (apply H; constructor).
    rewrite IH; [cbn [length]; lia | | exact Hc].
    intros y Hy. apply H. apply list_elem_of_further. exact Hy.
Qed.

(** A string that holds one of the characters has a first one. *)
Lemma first_hit (s chars : list Z) :
  (exists c, c ∈ s /\ c ∈ chars) ->
  exists pre c post, s = pre ++ c :: post /\
    (forall x, x ∈ pre -> x ∉ chars) /\ c ∈ chars.
Proof.
  induction s as [|a s IH]; intros (c & Hc & Hin).
  - inversion Hc.
  - destruct (mem_char a chars) eqn:Ea.
    + exists [], a, s. split; [reflexivity|]. split.
      * intros x Hx. inversion Hx.
      * apply mem_char_true. exact Ea.
    + apply mem_char_false in Ea.
      apply elem_of_cons in Hc as [->|Hc]; [contradiction|].
      destruct (IH (ex_intro _ c (conj Hc Hin)))
        as (pre & c' & post & -> & Hpre & Hc').
      exists (a :: pre), c', post. split; [reflexivity|]. split; [|exact Hc'].
      intros x Hx. apply elem_of_cons in Hx as [->|Hx]; auto.
Qed.

Lemma find_first_of_0 (s chars : list Z) :
  find_first_of s chars 0 = find_from s chars 0.
Proof. reflexivity. Qed.

Lemma dot_singleton (c : Z) : c ∈ [DOT] <-> c = DOT.
Proof. apply list_elem_of_singleton. Qed.

Lemma fill_pad (src : list Z) (n : nat) :
  (length src <= n)%nat -> fill src n = pad n src.
Proof.
  intros H. unfold fill, pad.
  replace n with (length src + (n - length src))%nat at 1 by lia.
  rewrite seq_app, map_app. f_equal.
  - apply list_eq. intros k. rewrite list_lookup_fmap.
    destruct (src !! k) as [x|] eqn:E.
    + pose proof (lookup_lt_Some _ _ _ E) as Hk.
      rewrite lookup_seq_lt by exact Hk. cbn.
      unfold str_length, str_at.
      destruct (Z.geb_spec (Z.of_nat k) (Z.of_nat (length src))); [lia|].
      rewrite nth_lookup, E. reflexivity.
    + pose proof (proj1 (lookup_ge_None _ _) E) as Hk.
      rewrite lookup_seq_ge by lia. reflexivity.
  - cbn [Nat.add]. generalize (n - length src)%nat as m. intros m.
    apply list_eq. intros k. rewrite list_lookup_fmap.
    destruct (decide (k < m)%nat) as [Hk|Hk].
    + rewrite lookup_replicate_2 by exact Hk.
      rewrite lookup_seq_lt by exact Hk. cbn.
      unfold str_length.
      destruct (Z.geb_spec (Z.of_nat (length src + k))
                  (Z.of_nat (length src))); [reflexivity | lia].
    + rewrite (proj1 (lookup_replicate_None m SPACE k)) by lia.
      rewrite lookup_seq_ge by lia. reflexivity.
Qed.

Lemma cstr_no_nul (l : list Z) : 0 ∉ l -> cstr l = l.
Proof.
  induction l as [|c l IH]; intros H; [reflexivity|]. cbn [cstr].
  destruct (Z.eqb_spec c 0) as [->|_]; [exfalso; apply H; constructor|].
  rewrite IH; [reflexivity|]. intros Hin. apply H.
  apply list_elem_of_further. exact Hin.
Qed.

Lemma pad_no_nul (n : nat) (l : list Z) : 0 ∉ l -> 0 ∉ pad n l.
Proof.
  intros H Hin. unfold pad in Hin. apply elem_of_app in Hin as [Hin|Hin];
    [auto|]. apply elem_of_replicate in Hin as [E _]. discriminate.
Qed.

Lemma toupper_pad (n : nat) (l : list Z) :
  map toupper (pad n l) = pad n (map toupper l).
Proof.
  unfold pad. rewrite map_app, length_map. f_equal.
  generalize (n - length l)%nat. intros m.
  induction m as [|m IH]; cbn; [reflexivity|]. rewrite IH. reflexivity.
Qed.

Lemma u64_small (x : Z) : 0 <= x < 18446744073709551616 -> u64 x = x.
Proof. intros H. apply wrap_small. exact H. Qed.

Lemma npos_value : npos = 18446744073709551615.
Proof. reflexivity. Qed.

Lemma ValidateFileName_invalid (name_ : list Z) :
  str_length name_ < npos ->
  (exists c, c ∈ name_ /\ c ∈ invalid_chars) ->
  ValidateFileName name_ = None.
Proof.
  intros Hlen H. destruct (first_hit _ _ H) as (pre & c & post & -> & Hp & Hc).
  unfold ValidateFileName. cbv zeta.
  rewrite find_first_of_0, (find_from_hit pre post _ c 0 Hp Hc).
  unfold str_length in Hlen. rewrite length_app in Hlen. cbn [length] in Hlen.
  rewrite npos_value in *.
  destruct (Z.eqb_spec (0 + Z.of_nat (length pre)) 18446744073709551615);
    [lia | reflexivity].
Qed.

(** A name without a dot: rejected when empty or longer than 8, else
    filled to 11 characters. *)
Lemma ValidateFileName_dotless (name_ : list Z) :
  str_length name_ < npos ->
  (forall c, c ∈ name_ -> c ∉ invalid_chars) -> DOT ∉ name_ ->
  ValidateFileName name_ =
    if (str_length name_ =? 0) || (str_length name_ >? 8) then None
    else Some (cstr (fill name_ 11)).
Proof.
  intros Hlen Hok Hdot. unfold ValidateFileName. cbv zeta.
  rewrite !find_first_of_0, (find_from_none name_ invalid_chars 0 Hok).
  rewrite Z.eqb_refl. cbn [negb].
  rewrite (find_from_none name_ [DOT] 0).
  2:{ intros c Hc Hin. apply dot_singleton in Hin as ->. contradiction. }
  rewrite Z.eqb_refl. cbn [negb].
  change (npos =? 0) with false. cbn [orb].
  unfold str_length in *. rewrite npos_value in *.
  destruct (Z.eqb_spec (Z.of_nat (length name_)) 0) as [E0|E0].
  - rewrite E0. reflexivity.
  - cbn [orb]. rewrite u64_small by lia.
    destruct (Z.eqb_spec 18446744073709551615 (Z.of_nat (length name_) - 1));
      [lia | reflexivity].
Qed.

(** A name whose first dot follows [base]: rejected when [base] or the
    rest [ext] is empty or [ext] is longer than 3, else [base] filled
    to 8 characters and [ext] filled to 3. *)
Lemma ValidateFileName_dotted (base ext : list Z) :
  str_length (base ++ DOT :: ext) < npos ->
  (forall c, c ∈ base ++ DOT :: ext -> c ∉ invalid_chars) -> DOT ∉ base ->
  ValidateFileName (base ++ DOT :: ext) =
    if (str_length base =? 0) || (str_length ext =? 0)
       || (str_length ext >? 3)
    then None
    else Some (cstr (fill base 8 ++ fill ext 3)).
Proof.
  intros Hlen Hok Hdot. unfold ValidateFileName. cbv zeta.
  rewrite !find_first_of_0,
    (find_from_none (base ++ DOT :: ext) invalid_chars 0 Hok).
  rewrite Z.eqb_refl. cbn [negb].
  rewrite (find_from_hit base ext [DOT] DOT 0).
  2:{ intros c Hc Hin. apply dot_singleton in Hin as ->. contradiction. }
  2:{ apply dot_singleton. reflexivity. }
  unfold str_length in *. rewrite length_app in *. cbn [length] in *.
  rewrite npos_value in *. rewrite Z.add_0_l.
  destruct (Z.eqb_spec (Z.of_nat (length base)) 0) as [E0|E0];
    [reflexivity|]. cbn [orb].
  rewrite u64_small by lia.
  destruct (Z.eqb_spec (Z.of_nat (length base))
              (Z.of_nat (length base + S (length ext)) - 1)) as [E1|E1].
  - destruct (Z.eqb_spec (Z.of_nat (length ext)) 0); [reflexivity | lia].
  - destruct (Z.eqb_spec (Z.of_nat (length ext)) 0) as [E2|E2]; [lia|].
    cbn [orb].
    destruct (Z.eqb_spec (Z.of_nat (length base)) 18446744073709551615);
      [lia|]. cbn [negb].
    replace (Z.of_nat (length base + S (length ext))
             - (Z.of_nat (length base) + 1))
      with (Z.of_nat (length ext)) by lia.
    rewrite u64_small by lia.
    destruct (Z.of_nat (length ext) >? 3); [reflexivity|].
    unfold substr.
    replace (Z.to_nat (Z.of_nat (length base) + 1))
      with (length base + 1)%nat by lia.
    rewrite Nat2Z.id, drop_0.
    rewrite take_app_length.
    rewrite drop_app_add by reflexivity. cbn [drop]. rewrite drop_0.
    rewrite take_ge; [reflexivity|]. lia.
Qed.

Lemma invalid_or_clean (name_ : list Z) :
  (exists c, c ∈ name_ /\ c ∈ invalid_chars) \/
  (forall c, c ∈ name_ -> c ∉ invalid_chars).
Proof.
  destruct (decide (Exists (fun c => c ∈ invalid_chars) name_)) as [H|H].
  - left. apply Exists_exists. exact H.
  - right. intros c Hc Hin. apply H. apply Exists_exists. eauto.
Qed.

Lemma fill_length (src : list Z) (n : nat) : length (fill src n) = n.
Proof. unfold fill. rewrite length_map, length_seq. reflexivity. Qed.

Lemma fill_no_nul (src : list Z) (n : nat) : 0 ∉ src -> 0 ∉ fill src n.
Proof.
  intros H Hin. unfold fill in Hin. apply list_elem_of_In in Hin.
  apply in_map_iff in Hin as (i & E & _). revert E.
  destruct (Z.geb_spec (Z.of_nat i) (str_length src)) as [Hi|Hi];
    [discriminate|]. intros E.
  apply H. rewrite <- E. unfold str_at. apply list_elem_of_In. apply nth_In.
  unfold str_length in Hi. lia.
Qed.

Lemma no_nul_app (a b : list Z) : 0 ∉ a -> 0 ∉ b -> 0 ∉ a ++ b.
Proof. intros Ha Hb Hin. apply elem_of_app in Hin as [|]; auto. Qed.

Lemma pad_split (name_ : list Z) :
  (length name_ <= 8)%nat -> pad 11 name_ = pad 8 name_ ++ pad 3 [].
Proof.
  intros H. unfold pad. rewrite <- app_assoc. f_equal. cbn [length app].
  replace (11 - length name_)%nat with ((8 - length name_) + 3)%nat by lia.
  rewrite replicate_add. reflexivity.
Qed.

(** The exact result for an accepted name without NUL: the characters
    are copied as they are. *)
Lemma ValidateFileName_accepts (name_ r : list Z) :
  str_length name_ < npos ->
  ValidateFileName name_ = Some r -> 0 ∉ name_ ->
  length r = 11%nat /\
  (DOT ∉ name_ -> r = pad 8 name_ ++ pad 3 []) /\
  (forall base ext, name_ = base ++ DOT :: ext -> DOT ∉ base ->
     (length base <= 8)%nat -> r = pad 8 base ++ pad 3 ext).
Proof.
  intros Hlen H Hnul.
  destruct (invalid_or_clean name_) as [Hbad|Hok].
  { rewrite (ValidateFileName_invalid name_ Hlen Hbad) in H. discriminate. }
  destruct (decide (Exists (fun c => c ∈ [DOT]) name_)) as [Hd|Hd].
  - apply Exists_exists in Hd.
    destruct (first_hit _ _ Hd) as (base & c & ext & -> & Hb & Hc).
    apply dot_singleton in Hc as ->.
    assert (Hdb : DOT ∉ base).
    { intros Hin. apply (Hb DOT Hin). apply dot_singleton. reflexivity. }
    rewrite (ValidateFileName_dotted base ext Hlen Hok Hdb) in H.
    unfold str_length in H.
    destruct (Z.eqb_spec (Z.of_nat (length base)) 0); [discriminate|].
    destruct (Z.eqb_spec (Z.of_nat (length ext)) 0); [discriminate|].
    destruct (Z.gtb_spec (Z.of_nat (length ext)) 3); [discriminate|].
    cbn [orb] in H. apply (inj Some) in H. subst r.
    assert (Nb : 0 ∉ base).
    { intros Hin. apply Hnul. apply elem_of_app. auto. }
    assert (Ne : 0 ∉ ext).
    { intros Hin. apply Hnul. apply elem_of_app. right.
      apply list_elem_of_further. exact Hin. }
    rewrite cstr_no_nul by (apply no_nul_app; apply fill_no_nul; assumption).
    split; [rewrite length_app, !fill_length; reflexivity|]. split.
    + intros Hno. exfalso. apply Hno. apply elem_of_app. right. constructor.
    + intros base' ext' E Hdb' Hlb.
      assert (base' = base /\ ext' = ext) as [-> ->].
      { clear - E Hdb Hdb'. revert base' E Hdb'.
        induction base as [|a base IH]; intros [|a' base'] E Hdb'.
        - cbn in E. injection E as <-. auto.
        - cbn in E. injection E as <- _. exfalso. apply Hdb'. constructor.
        - cbn in E. injection E as -> _. exfalso. apply Hdb. constructor.
        - cbn in E. injection E as <- E.
          destruct (IH ltac:(intros Hin; apply Hdb;
                             apply list_elem_of_further; exact Hin)
                      base' E
                      ltac:(intros Hin; apply Hdb';
                            apply list_elem_of_further; exact Hin))
            as [-> ->]. auto. }
      rewrite !fill_pad by lia. reflexivity.
  - assert (Hno : DOT ∉ name_).
    { intros Hin. apply Hd. apply Exists_exists. exists DOT.
      split; [exact Hin | apply dot_singleton; reflexivity]. }
    rewrite (ValidateFileName_dotless name_ Hlen Hok Hno) in H.
    unfold str_length in H.
    destruct (Z.eqb_spec (Z.of_nat (length name_)) 0); [discriminate|].
    destruct (Z.gtb_spec (Z.of_nat (length name_)) 8); [discriminate|].
    cbn [orb] in H. apply (inj Some) in H. subst r.
    rewrite cstr_no_nul by (apply fill_no_nul; assumption).
    split; [apply fill_length|]. split.
    + intros _. rewrite fill_pad by lia. apply pad_split. lia.
    + intros base ext -> Hdb _. exfalso. apply Hno.
      apply elem_of_app. right. constructor.
Qed.

(** C8, as the code has it.  [ValidateFileName] rejects every name
    with a space or one of the characters slash, double quote, star,
    plus, backquote, minus, semicolon, colon, less-than, greater-than,
    equals, question mark; every name whose first dot is its first or
    its last character or is followed by more than 3 characters; and
    every name without a dot that is longer than 8.  For an accepted
    name without NUL the result has 11 characters and, when the part
    before the first dot has at most 8 characters, equals up to letter
    case that part right-padded with spaces to 8 followed by the part
    after the first dot right-padded to 3. *)
Theorem C8_ValidateFileName_amended (name_ : list Z) :
  str_length name_ < npos ->
  ((exists c, c ∈ name_ /\ c ∈ invalid_chars) ->
   ValidateFileName name_ = None) /\
  (forall base ext, name_ = base ++ DOT :: ext -> DOT ∉ base ->
     base = [] \/ ext = [] \/ (3 < length ext)%nat ->
     ValidateFileName name_ = None) /\
  (DOT ∉ name_ -> (8 < length name_)%nat -> ValidateFileName name_ = None) /\
  (forall r, ValidateFileName name_ = Some r -> 0 ∉ name_ ->
     length r = 11%nat /\
     (DOT ∉ name_ ->
      map toupper r = pad 8 (map toupper name_) ++ pad 3 []) /\
     (forall base ext, name_ = base ++ DOT :: ext -> DOT ∉ base ->
        (length base <= 8)%nat ->
        map toupper r = pad 8 (map toupper base) ++ pad 3 (map toupper ext))).
Proof.
  intros Hlen. split; [apply ValidateFileName_invalid; exact Hlen|].
  split; [|split].
  - intros base ext -> Hdb Hcase.
    destruct (invalid_or_clean (base ++ DOT :: ext)) as [Hbad|Hok].
    { apply ValidateFileName_invalid; assumption. }
    rewrite (ValidateFileName_dotted base ext Hlen Hok Hdb).
    unfold str_length.
    destruct Hcase as [->|[->|Hext]].
    + reflexivity.
    + cbn [length]. rewrite Z.eqb_refl, orb_true_r. reflexivity.
    + destruct (Z.gtb_spec (Z.of_nat (length ext)) 3); [|lia].
      rewrite orb_true_r. reflexivity.
  - intros Hno H8.
    destruct (invalid_or_clean name_) as [Hbad|Hok].
    { apply ValidateFileName_invalid; assumption. }
    rewrite (ValidateFileName_dotless name_ Hlen Hok Hno).
    unfold str_length.
    destruct (Z.gtb_spec (Z.of_nat (length name_)) 8); [|lia].
    rewrite orb_true_r. reflexivity.
  - intros r H Hnul.
    destruct (ValidateFileName_accepts name_ r Hlen H Hnul) as (L & A & B).
    split; [exact L|]. split.
    + intros Hno. rewrite (A Hno), map_app, !toupper_pad. reflexivity.
    + intros base ext E Hdb Hlb.
      rewrite (B base ext E Hdb Hlb), map_app, !toupper_pad. reflexivity.
Qed.

(** ** Mounting *)

(** On a mapping of more than 512 bytes every read of [Validate] goes
    through, and [Validate] returns exactly when all of its checks
    pass. *)
Lemma Validate_returns (s : Filesys) :
  error_ s = false -> 512 < filesys_size (mFilesys_ s) ->
  returns (Validate s) = boot_checks (mFilesys_ s) /\
  raises (Validate s) = negb (boot_checks (mFilesys_ s)).
Proof.
  intros He Hs.
  destruct (proj2 (ReadValue_Some_iff 8 (mFilesys_ s) 2 510 1) ltac:(lia))
    as [sig Esig].
  pose proof (fun tb p w H => proj2 (read_le_Some_iff tb (mFilesys_ s) p w) H)
    as Rd.
  destruct (Rd 16 11 2 ltac:(lia)) as [bps E1].
  destruct (Rd 16 17 2 ltac:(lia)) as [rootent E2].
  destruct (Rd 32 22 2 ltac:(lia)) as [fatsz16 E3].
  destruct (Rd 32 36 4 ltac:(lia)) as [fatsz32 E4].
  destruct (Rd 32 14 2 ltac:(lia)) as [rsvd E5].
  destruct (Rd 32 16 1 ltac:(lia)) as [numfats E6].
  destruct (Rd 32 13 1 ltac:(lia)) as [spc E7].
  destruct (Rd 32 44 4 ltac:(lia)) as [rootclus E8].
  destruct (Rd 32 48 2 ltac:(lia)) as [fsinfo E9].
  destruct (Rd 32 32 4 ltac:(lia)) as [totsec E10].
  clear Rd.
  unfold boot_checks, boot_field. cbv zeta.
  unfold Validate, bind, throw_if, throw, ret, read_field, get_finfo,
    update_finfo.
  rewrite He.
  cbn [mFilesys_ finfo_ set_finfo error_ cwd_ location_ openTable_].
  rewrite !Esig, E1, E2, E3, E7, E10.
  cbn [mFilesys_ finfo_ set_finfo Signature with_Signature
       default from_option id].
  destruct (negb (str_at sig 0 =? 85) || negb (str_at sig 1 =? 170));
    [split; reflexivity|].
  do 10 (cbn [negb andb mFilesys_ finfo_ set_finfo];
         rewrite ?E1, ?E2, ?E3, ?E4, ?E5, ?E6, ?E7, ?E8, ?E9, ?E10).
  cbn [mFilesys_ finfo_ set_finfo
       BytesPerSec RootEntCnt SecPerClus TotSec FATSz16 RootClus Signature
       with_BytesPerSec with_RootEntCnt with_FATSz16 with_FATSz32
       with_RsvdSecCnt with_NumFats with_SecPerClus with_RootClus
       with_FsInfo with_TotSec with_RootDirSector with_FATSz
       with_FirstDataSec with_Signature].
  destruct (negb (bps =? 512) && negb (bps =? 1024) && negb (bps =? 2048)
            && negb (bps =? 4096)); [split; reflexivity|].
  cbn [negb andb].
  destruct (negb (rootent =? 0)); [split; reflexivity|].
  cbn [negb andb].
  destruct (negb (spc =? 1) && negb (spc =? 2) && negb (spc =? 4)
            && negb (spc =? 16) && negb (spc =? 32) && negb (spc =? 64)
            && negb (spc =? 128)); [split; reflexivity|].
  cbn [negb andb].
  destruct (totsec =? 0); [split; reflexivity|].
  cbn [negb andb mFilesys_ finfo_ set_finfo
       BytesPerSec RootEntCnt SecPerClus TotSec FATSz16 RootClus Signature
       with_BytesPerSec with_RootEntCnt with_FATSz16 with_FATSz32
       with_RsvdSecCnt with_NumFats with_SecPerClus with_RootClus
       with_FsInfo with_TotSec with_RootDirSector with_FATSz
       with_FirstDataSec with_Signature].
  destruct (negb (fatsz16 =? 0)); split; reflexivity.
Qed.

(** Whatever the other fields are, 8 sectors per cluster are refused. *)
Lemma Validate_refuses_8 (s : Filesys) :
  512 < filesys_size (mFilesys_ s) ->
  read_le 32 (mFilesys_ s) 13 1 = Some 8 ->
  returns (Validate s) = false.
Proof.
  intros Hs H8. destruct (error_ s) eqn:He.
  - unfold Validate, bind, throw_if, throw. rewrite He. reflexivity.
  - rewrite (proj1 (Validate_returns s He Hs)).
    unfold boot_checks, boot_field. cbv zeta. rewrite H8.
    cbn [default from_option id]. change (8 =? 1) with false. change (8 =? 2) with false.
    change (8 =? 4) with false. change (8 =? 16) with false.
    change (8 =? 32) with false. change (8 =? 64) with false.
    change (8 =? 128) with false. cbn [negb andb].
    rewrite !andb_false_r. reflexivity.
Qed.

(** ** The two halves of a cluster number *)

Lemma land_high_half (c : Z) :
  0 <= c < 2 ^ 32 -> Z.land c 0xFFFF0000 = c / 65536 * 65536.
Proof.
  intros Hc.
  change 0xFFFF0000 with (Z.land (Z.ones 32) (Z.lnot (Z.ones 16))).
  rewrite Z.land_assoc, Z.land_ones by lia.
  rewrite Z.mod_small by lia.
  change (Z.land c (Z.lnot (Z.ones 16))) with (Z.ldiff c (Z.ones 16)).
  rewrite Z.ldiff_ones_r by lia.
  rewrite Z.shiftl_mul_pow2, Z.shiftr_div_pow2 by lia.
  reflexivity.
Qed.

(** What [SetClus] stores: the low half is right, the high half is the
    low 4 bits of the wanted one, moved 12 bits up. *)
Lemma SetClus_halves (c : Z) (e : FileEntry) :
  0 <= c < 2 ^ 32 ->
  lo (SetClus c e) = c mod 65536 /\
  hi (SetClus c e) = (c / 65536) mod 16 * 4096.
Proof.
  intros Hc. unfold SetClus. cbn [lo hi]. unfold wrap. split.
  - change 0x0000FFFF with (Z.ones 16). rewrite Z.land_ones by lia.
    change (2 ^ 16) with 65536. rewrite Z.mod_mod by lia. reflexivity.
  - rewrite land_high_half by exact Hc.
    rewrite Z.shiftr_div_pow2 by lia.
    change (2 ^ 4) with 16. change (2 ^ 16) with 65536.
    change (2 ^ 32) with 4294967296 in Hc. lia.
Qed.

(** The halves stored by [SetClus] give the cluster back exactly when
    it is below 2^16. *)
Lemma SetClus_round_trip (c : Z) (e : FileEntry) :
  0 <= c < 2 ^ 28 ->
  Z.lor (Z.shiftl (hi (SetClus c e)) 16) (lo (SetClus c e)) = c
  <-> c < 65536.
Proof.
  intros Hc. change (2 ^ 28) with 268435456 in Hc.
  destruct (SetClus_halves c e) as [-> ->];
    [change (2 ^ 32) with 4294967296; lia|].
  rewrite Z.lor_comm, lor_shiftl_add;
    [|lia|change (2 ^ 16) with 65536; lia].
  change (2 ^ 16) with 65536. lia.
Qed.

(** The same for the cluster that the copy constructor, and with it
    every listing of the directory, computes from the halves. *)
Lemma SetClus_copy (c : Z) (e : FileEntry) :
  0 <= c < 2 ^ 28 ->
  clus (FileEntry_copy (SetClus c e)) = c <-> c < 65536.
Proof.
  intros Hc. rewrite <- (SetClus_round_trip c e Hc).
  unfold FileEntry_copy. cbn [clus]. rewrite Z.lor_comm.
  rewrite wrap_small; [reflexivity|].
  change (2 ^ 28) with 268435456 in Hc.
  destruct (SetClus_halves c e) as [-> ->];
    [change (2 ^ 32) with 4294967296; lia|].
  rewrite Z.lor_comm, lor_shiftl_add;
    [|lia|change (2 ^ 16) with 65536; lia].
  change (2 ^ 16) with 65536. change (2 ^ 32) with 4294967296. lia.
Qed.

(** ** The sample volume *)

Import Sample.

Lemma bytes_ok_check (img : image) :
  forallb (fun b => (0 <=? b) && (b <? 256)) img = true -> bytes_ok img.
Proof.
  intros H. apply Forall_forall. intros b Hb.
  rewrite forallb_forall in H. apply list_elem_of_In in Hb.
  specialize (H b Hb). apply andb_true_iff in H as [H1 H2].
  apply Z.leb_le in H1. apply Z.ltb_lt in H2. unfold is_byte. lia.
Qed.

Lemma mounted_wf : wf_volume mounted.
Proof.
  split.
  - split.
    + left. reflexivity.
    + split; apply Z.leb_le; reflexivity.
    + split; apply Z.leb_le; reflexivity.
    + apply Z.ltb_lt. reflexivity.
    + split; [apply Z.leb_le | apply Z.ltb_lt]; reflexivity.
    + reflexivity.
    + apply Z.ltb_lt. reflexivity.
    + apply Z.leb_le. reflexivity.
    + apply Z.leb_le. vm_compute. reflexivity.
  - apply Z.leb_le. vm_compute. reflexivity.
  - apply bytes_ok_check. vm_compute. reflexivity.
Qed.

Lemma in_volume_check (n : Z) :
  (2 <=? n) && (n <? GetEndOfFat (finfo_ mounted)) = true ->
  in_volume (finfo_ mounted) n.
Proof.
  intros H. apply andb_true_iff in H as [H1 H2].
  apply Z.leb_le in H1. apply Z.ltb_lt in H2. split; assumption.
Qed.

Lemma root_chain : valid_chain mounted (cwd_ mounted) [2].
Proof.
  split.
  - apply (chain_end mounted 2 0x0FFFFFFF).
    + vm_compute. reflexivity.
    + apply Z.leb_le. reflexivity.
  - constructor; [|constructor].
    apply in_volume_check. vm_compute. reflexivity.
Qed.

Lemma root_listing :
  GetFileList 5 (cwd_ mounted) false mounted = Val [hello; empty; sub].
Proof. vm_compute. reflexivity. Qed.

Lemma hello_chain : valid_chain mounted (clus hello) [3; 4].
Proof.
  split.
  - apply (chain_next mounted 3 4).
    + vm_compute. reflexivity.
    + apply Z.ltb_lt. reflexivity.
    + apply (chain_end mounted 4 0x0FFFFFFF).
      * vm_compute. reflexivity.
      * apply Z.leb_le. reflexivity.
  - repeat (constructor;
            [apply in_volume_check; vm_compute; reflexivity|]).
    constructor.
Qed.

Lemma sub_chain : valid_chain mounted (clus sub) [5].
Proof.
  split.
  - apply (chain_end mounted 5 0x0FFFFFFF).
    + vm_compute. reflexivity.
    + apply Z.leb_le. reflexivity.
  - constructor; [|constructor].
    apply in_volume_check. vm_compute. reflexivity.
Qed.

Lemma mounted_hint : hint_ok mounted.
Proof.
  intros h E. vm_compute in E. injection E as <-. left. reflexivity.
Qed.

Lemma hello_target : rm_target (str "hello.txt") [hello; empty; sub] hello.
Proof.
  exists [], [empty; sub]. split; [reflexivity|]. split; [constructor|].
  split; [vm_compute; reflexivity|]. vm_compute. discriminate.
Qed.

Lemma empty_target : rm_target (str "empty") [hello; empty; sub] empty.
Proof.
  exists [hello], [sub]. split; [reflexivity|]. split.
  - constructor; [|constructor]. left.
    vm_compute. discriminate.
  - split; [vm_compute; reflexivity|]. vm_compute. discriminate.
Qed.

Lemma sub_target : rmdir_target (str "sub") [hello; empty; sub] sub.
Proof.
  exists [hello; empty], []. split; [reflexivity|]. split.
  - repeat (constructor; [vm_compute; discriminate|]).
    constructor.
  - split; vm_compute; reflexivity.
Qed.

(** ** The claims on the sample volume *)

(** C1.  The entry of cluster 6 holds 0xA0000000; after
    [SetNextClus 6 5] the word of both FAT copies is 5: the low 28
    bits are the value, and the upper 4 bits, which were 0xA, are 0. *)
Theorem C1_SetNextClus_clears_upper_bits :
  word_at (mFilesys_ mounted) (fat_entry_pos (finfo_ mounted) 0 6)
    = 0xA0000000 /\
  word_at (mFilesys_ mounted) (fat_entry_pos (finfo_ mounted) 1 6)
    = 0xA0000000 /\
  SetNextClus 6 5 mounted = Ret tt after_set /\
  word_at (mFilesys_ after_set) (fat_entry_pos (finfo_ mounted) 0 6) = 5 /\
  word_at (mFilesys_ after_set) (fat_entry_pos (finfo_ mounted) 1 6) = 5 /\
  Z.shiftr (word_at (mFilesys_ mounted)
              (fat_entry_pos (finfo_ mounted) 0 6)) 28 = 0xA /\
  Z.shiftr (word_at (mFilesys_ after_set)
              (fat_entry_pos (finfo_ mounted) 0 6)) 28 = 0.
Proof. repeat split; vm_compute; reflexivity. Qed.

(** On every well-formed volume the word that [SetNextClus] leaves in
    each FAT copy has its upper 4 bits clear, whatever they were. *)
Lemma SetNextClus_upper_bits (fatLoc value : Z) (s : Filesys) :
  wf_volume s -> fits (finfo_ s) fatLoc ->
  exists s',
    SetNextClus fatLoc value s = Ret tt s' /\
    forall i, 0 <= i < NumFats (finfo_ s) ->
      Z.land (word_at (mFilesys_ s') (fat_entry_pos (finfo_ s) i fatLoc))
        FATMASK = Z.land value FATMASK /\
      Z.shiftr (word_at (mFilesys_ s') (fat_entry_pos (finfo_ s) i fatLoc))
        28 = 0.
Proof.
  intros WV Hfit.
  destruct (SetNextClus_ok fatLoc value s WV Hfit) as (s' & E & _ & W).
  exists s'. split; [exact E|]. intros i Hi. rewrite (W i Hi).
  split; [apply land_FATMASK_idem|].
  pose proof (land_FATMASK_range value) as R.
  rewrite Z.shiftr_div_pow2 by lia. apply Z.div_small.
  change (2 ^ 28) with 268435456. lia.
Qed.

Lemma C2_witness :
  wf_volume mounted /\ valid_chain mounted 3 [3; 4] /\ hint_ok mounted /\
  AllocateCluster 5 3 mounted = Ret 6 after_alloc /\
  reaches after_alloc 3 6 /\
  chain after_alloc 3 ([3; 4] ++ [6]) /\
  (exists m, GetNextClus 6 after_alloc = Val m /\ FATEND <= m) /\
  (forall k, 0 <= k < cluster_len (finfo_ mounted) ->
     byte_at (mFilesys_ after_alloc)
       (cluster_pos (finfo_ mounted) 6 + k) = 0) /\
  GetFATNxtFree after_alloc = Val 6 /\
  (exists f, GetNFreeClus mounted = Val f /\
             GetNFreeClus after_alloc = Val (u32 (f - 1))).
Proof.
  split; [exact mounted_wf|]. split; [exact hello_chain|].
  split; [exact mounted_hint|].
  split; [vm_compute; reflexivity|].
  apply (C2_AllocateCluster_appends 5 3 [3; 4] mounted after_alloc 6
           mounted_wf hello_chain mounted_hint).
  - vm_compute. reflexivity.
  - discriminate.
Defined.

(** The sample volume with the next-free hint 0x40000006 is
    well formed, and the chain of hello.txt is the same there. *)
Lemma stray_wf : wf_volume Sample2.stray.
Proof.
  split.
  - exact (wf_geom _ mounted_wf).
  - apply Z.leb_le. vm_compute. reflexivity.
  - apply bytes_ok_check. vm_compute. reflexivity.
Qed.

Lemma stray_chain : valid_chain Sample2.stray 3 [3; 4].
Proof.
  split.
  - apply (chain_next Sample2.stray 3 4).
    + vm_compute. reflexivity.
    + apply Z.ltb_lt. reflexivity.
    + apply (chain_end Sample2.stray 4 0x0FFFFFFF).
      * vm_compute. reflexivity.
      * apply Z.leb_le. reflexivity.
  - repeat (constructor;
            [apply in_volume_check; vm_compute; reflexivity|]).
    constructor.
Qed.

(** C2 as stated fails where the next-free hint is no cluster number
    of the volume.  The image below mounts, its hint word is
    0x40000006, and hello.txt has the chain 3, 4.  The search starts at
    the hint; [GetNextClus] multiplies by 4 in 32 bits and so reads the
    free entry of cluster 6; [AllocateCluster 3] returns 0x40000006,
    while the entry of cluster 4 now holds 6: following the chain from
    3 visits 3, 4 and 6 and never the returned number. *)
Lemma C2_counterexample :
  Validate (fresh (mFilesys_ Sample2.stray)) = Ret tt Sample2.stray /\
  wf_volume Sample2.stray /\
  valid_chain Sample2.stray 3 [3; 4] /\
  GetFATNxtFree Sample2.stray = Val 0x40000006 /\
  AllocateCluster 5 3 Sample2.stray = Ret 0x40000006 Sample2.after_stray /\
  0x40000006 <> 0 /\
  chain Sample2.after_stray 3 [3; 4; 6] /\
  ~ reaches Sample2.after_stray 3 0x40000006.
Proof.
  split; [vm_compute; reflexivity|].
  split; [exact stray_wf|]. split; [exact stray_chain|].
  split; [vm_compute; reflexivity|].
  split; [vm_compute; reflexivity|].
  split; [discriminate|].
  split.
  - apply (chain_next Sample2.after_stray 3 4);
      [vm_compute; reflexivity | apply Z.ltb_lt; reflexivity |].
    apply (chain_next Sample2.after_stray 4 6);
      [vm_compute; reflexivity | apply Z.ltb_lt; reflexivity |].
    apply (chain_end Sample2.after_stray 6 0x0FFFFFFF);
      [vm_compute; reflexivity | apply Z.leb_le; reflexivity].
  - intros R.
    inversion R as [|a b c E3 L3 R4]; subst.
    vm_compute in E3. injection E3 as <-.
    inversion R4 as [|a b c E4 L4 R6]; subst.
    vm_compute in E4. injection E4 as <-.
    inversion R6 as [|a b c E6 L6 R7]; subst.
    vm_compute in E6. injection E6 as <-.
    vm_compute in L6. discriminate.
Qed.

(** C3 as stated fails: [rm hello.txt] zeroes byte 13 of the entry
    (the tenths of the creation time, 0x64 before), and
    [rmdir sub] replaces byte 22 (the write time). *)
Lemma C3_counterexample :
  (Rm 5 noon [str "hello.txt"] mounted = Ret tt after_rm /\
   byte_at (mFilesys_ after_rm) (entryLoc hello) = 0xE5 /\
   ~ (forall k, 1 <= k < 32 ->
        byte_at (mFilesys_ after_rm) (entryLoc hello + k)
        = byte_at (mFilesys_ mounted) (entryLoc hello + k))) /\
  (Rmdir 5 noon [str "sub"] mounted = Ret tt after_rmdir /\
   byte_at (mFilesys_ after_rmdir) (entryLoc sub) = 0xE5 /\
   ~ (forall k, 1 <= k < 32 ->
        byte_at (mFilesys_ after_rmdir) (entryLoc sub + k)
        = byte_at (mFilesys_ mounted) (entryLoc sub + k))).
Proof.
  split; (split; [vm_compute; reflexivity|]);
    (split; [vm_compute; reflexivity|]).
  - intros H. specialize (H 13 ltac:(lia)). vm_compute in H. discriminate.
  - intros H. specialize (H 22 ltac:(lia)). vm_compute in H. discriminate.
Qed.

Lemma C3_witness :
  (exists s',
     Rm 5 noon [str "hello.txt"] mounted = Ret tt s' /\
     tombstoned noon hello (mFilesys_ mounted) (mFilesys_ s')
       (entryLoc hello)) /\
  (exists s',
     Rmdir 5 noon [str "sub"] mounted = Ret tt s' /\
     tombstoned noon sub (mFilesys_ mounted) (mFilesys_ s') (entryLoc sub)).
Proof.
  split.
  - apply (proj1 C3_tombstone_amended 5%nat noon (str "hello.txt") mounted
             [2] [hello; empty; sub] hello [3; 4]).
    + exact mounted_wf.
    + exact root_chain.
    + exact root_listing.
    + exact hello_target.
    + right. exact hello_chain.
    + cbn. lia.
    + reflexivity.
  - apply (proj2 C3_tombstone_amended 5%nat noon (str "sub") mounted
             [2] [hello; empty; sub] sub_entries sub [5]).
    + exact mounted_wf.
    + exact root_chain.
    + exact root_listing.
    + vm_compute. discriminate.
    + exact sub_target.
    + vm_compute. reflexivity.
    + cbn. lia.
    + exact sub_chain.
    + cbn. lia.
    + reflexivity.
Defined.

(** C4.  An image with the signature 0x55 0xAA, 512 bytes per sector,
    no root entries, a zero 16-bit FAT size, 16 sectors and 8 sectors
    per cluster is refused, while the same image with 1, 2, 4, 16, 32,
    64 or 128 sectors per cluster is mounted. *)
Theorem C4_Validate_refuses_8 :
  ReadValue 8 (image_with 8) 2 510 1 = Some [0x55; 0xaa] /\
  read_le 16 (image_with 8) 11 2 = Some 512 /\
  read_le 16 (image_with 8) 17 2 = Some 0 /\
  read_le 32 (image_with 8) 22 2 = Some 0 /\
  read_le 32 (image_with 8) 32 4 = Some 16 /\
  read_le 32 (image_with 8) 13 1 = Some 8 /\
  raises (Validate (fresh (image_with 8))) = true /\
  map (fun spc => returns (Validate (fresh (image_with spc))))
    [1; 2; 4; 16; 32; 64; 128]
  = [true; true; true; true; true; true; true].
Proof. repeat split; vm_compute; reflexivity. Qed.

(** C5.  In a mapping of 512 bytes the accesses that end exactly at
    byte 512 are refused: the guard of [ReadValue] and [WriteValue] is
    [width * len + pos >= filesys_size_]. *)
Theorem C5_last_byte_out_of_range :
  filesys_size (replicate 512 0) = 512 /\
  read_le 32 (replicate 512 0) 508 4 = None /\
  read_le 16 (replicate 512 0) 510 2 = None /\
  read_le 8 (replicate 512 0) 511 1 = None /\
  write_le (replicate 512 0) 7 508 4 = None /\
  write_le (replicate 512 0) 7 510 2 = None /\
  write_le (replicate 512 0) 7 511 1 = None /\
  (exists v, read_le 32 (replicate 512 0) 507 4 = Some v).
Proof.
  repeat split; try (vm_compute; reflexivity).
  exists 0. vm_compute. reflexivity.
Qed.

(** C6.  [SetClus 0x10000] stores the high half 0x1000, so the
    cluster combined again from the halves, in memory and after a
    save and a new listing of the directory, is 0x10000000. *)
Theorem C6_SetClus_high_half :
  hi (SetClus 0x10000 hello) = 0x1000 /\
  lo (SetClus 0x10000 hello) = 0 /\
  Z.lor (Z.shiftl (hi (SetClus 0x10000 hello)) 16)
        (lo (SetClus 0x10000 hello)) = 0x10000000 /\
  clus (FileEntry_copy (SetClus 0x10000 hello)) = 0x10000000 /\
  (entries <- GetFileList 5 2 false
                (state_after (SaveFileEntry noon (SetClus 0x10000 hello)
                                mounted) mounted) ;;
   Val (map clus (take 1 entries)))%res = Val [0x10000000].
Proof. repeat split; vm_compute; reflexivity. Qed.

Lemma C7_witness :
  exists s' f,
    Rm 5 noon [str "hello.txt"] mounted = Ret tt s' /\
    GetNFreeClus mounted = Val f /\
    GetNFreeClus s' = Val (u32 (f + Z.of_nat (length [3; 4]))).
Proof.
  apply (C7_rm_adds_chain_length 5 noon (str "hello.txt") mounted [2]
           [hello; empty; sub] hello [3; 4]).
  - exact mounted_wf.
  - exact root_chain.
  - exact root_listing.
  - exact hello_target.
  - exact hello_chain.
  - cbn. lia.
Defined.

(** C8 as stated fails: a backslash, a second dot and a dot at the end
    are accepted when they come after the first dot or are no dot at
    all, a base longer than 8 is cut when an extension follows, and
    no letter is changed to upper case. *)
Lemma C8_counterexample :
  ValidateFileName (str "a\b") = Some (str "a\b        ") /\
  ValidateFileName (str "a.b.c") = Some (str "a       b.c") /\
  ValidateFileName (str "a.b.") = Some (str "a       b. ") /\
  ValidateFileName (str "abcdefghij.txt") = Some (str "abcdefghtxt") /\
  ValidateFileName (str "hello.txt") = Some (str "hello   txt").
Proof. repeat split; vm_compute; reflexivity. Qed.

Lemma C8_witness :
  str_length (str "hello.txt") < npos /\
  ValidateFileName (str "hello world") = None /\
  ValidateFileName (str "hello.text") = None /\
  ValidateFileName (str "helloworld") = None /\
  map toupper (str "hello   txt")
  = pad 8 (map toupper (str "hello")) ++ pad 3 (map toupper (str "txt")).
Proof.
  split; [vm_compute; reflexivity|]. split; [|split; [|split]].
  - apply (proj1 (C8_ValidateFileName_amended (str "hello world")
                    ltac:(vm_compute; reflexivity))).
    exists 32. split; [vm_compute|vm_compute];
      apply list_elem_of_In; cbn; tauto.
  - apply (proj1 (proj2 (C8_ValidateFileName_amended (str "hello.text")
                    ltac:(vm_compute; reflexivity)))
             (str "hello") (str "text")).
    + vm_compute. reflexivity.
    + vm_compute. intros H. apply list_elem_of_In in H. cbn in H.
      intuition discriminate.
    + right. right. vm_compute. lia.
  - apply (proj1 (proj2 (proj2 (C8_ValidateFileName_amended
                    (str "helloworld") ltac:(vm_compute; reflexivity))))).
    + vm_compute. intros H. apply list_elem_of_In in H. cbn in H.
      intuition discriminate.
    + vm_compute. lia.
  - apply (proj2 (proj2 (proj2 (C8_ValidateFileName_amended
                    (str "hello.txt") ltac:(vm_compute; reflexivity))))
             (str "hello   txt")).
    + vm_compute. reflexivity.
    + vm_compute. intros H. apply list_elem_of_In in H. cbn in H.
      intuition discriminate.
    + vm_compute. reflexivity.
    + vm_compute. intros H. apply list_elem_of_In in H. cbn in H.
      intuition discriminate.
    + vm_compute. lia.
Defined.

Lemma C9_witness :
  NavToDir 5 (ParseAddress (str "sub/nosuch")) 0
    (size_of (ParseAddress (str "sub/nosuch"))) mounted = Throw /\
  exists s',
    Cd 5 [str "sub/nosuch"] mounted = Ret tt s' /\
    cwd_ s' = cwd_ mounted /\ location_ s' = location_ mounted /\
    s' = mounted.
Proof.
  split; [vm_compute; reflexivity|].
  apply (C9_cd_failure_keeps_cwd 5 (str "sub/nosuch") mounted).
  vm_compute. reflexivity.
Defined.

Lemma C10_witness :
  exists s',
    Rm 5 noon [str "empty"] mounted = Ret tt s' /\
    byte_at (mFilesys_ s') (entryLoc empty) = DEALLOC /\
    data_area (finfo_ mounted) (entryLoc empty) /\
    (forall j, 0 <= j -> ~ span (entryLoc empty) (entryLoc empty + 32) j ->
       byte_at (mFilesys_ s') j = byte_at (mFilesys_ mounted) j) /\
    (forall i n, 0 <= i < NumFats (finfo_ mounted) ->
       fits (finfo_ mounted) n ->
       word_at (mFilesys_ s') (fat_entry_pos (finfo_ mounted) i n)
       = word_at (mFilesys_ mounted) (fat_entry_pos (finfo_ mounted) i n)) /\
    GetNFreeClus s' = GetNFreeClus mounted.
Proof.
  apply (C10_rm_empty_file 5 noon (str "empty") mounted [2]
           [hello; empty; sub] empty).
  - exact mounted_wf.
  - exact root_chain.
  - exact root_listing.
  - exact empty_target.
  - reflexivity.
Defined.

(** * Further properties of the volume engine *)

(** ** Image primitives *)

Lemma read_le_at (tbits : Z) (img : image) (pos width : Z) :
  width + pos < filesys_size img ->
  read_le tbits img pos width
  = Some (read_bytes tbits img pos 0 (Z.to_nat width) 0).
Proof.
  intros H. unfold read_le, ReadValue. rewrite Z.mul_1_r.
  destruct (Z.geb_spec (width + pos) (filesys_size img)); [lia|].
  reflexivity.
Qed.

(** X1.  A value stored by [WriteValue] with a width of 1, 2 or 4 is
    read back by [ReadValue] at the same offset, cut to the bytes
    written; the size of the image and every byte outside the written
    ones stay as they were. *)
Theorem WriteValue_then_ReadValue (img img' : image) (v pos width : Z) :
  0 <= pos -> width = 1 \/ width = 2 \/ width = 4 ->
  write_le img v pos width = Some img' ->
  read_le 32 img' pos width = Some (v mod 2 ^ (8 * width)) /\
  filesys_size img' = filesys_size img /\
  forall j, 0 <= j -> j < pos \/ pos + width <= j ->
    byte_at img' j = byte_at img j.
Proof.
  intros Hp Hw H. destruct (write_le_eq _ _ _ _ _ H) as [Hs E]. subst img'.
  clear H.
  assert (Hsz : filesys_size (write_bytes img pos v (Z.to_nat width))
                = filesys_size img).
  { unfold filesys_size. rewrite length_write_bytes. reflexivity. }
  split; [|split; [exact Hsz|]].
  - rewrite read_le_at by (rewrite Hsz; exact Hs). f_equal.
    assert (B : forall k, 0 <= k < width ->
              byte_at (write_bytes img pos v (Z.to_nat width)) (pos + k)
              = (v / 2 ^ (8 * k)) mod 256).
    { intros k Hk. rewrite byte_at_write_bytes_in by lia.
      apply shiftr_land_255. lia. }
    destruct Hw as [-> | [-> | ->]].
    + pose proof (B 0 ltac:(lia)) as B0. rewrite Z.add_0_r in B0.
      change (2 ^ (8 * 0)) with 1 in B0. rewrite Z.div_1_r in B0.
      change (Z.to_nat 1) with 1%nat in *.
      rewrite read_bytes_1, B0. unfold wrap.
      change (2 ^ (8 * 1)) with 256. change (2 ^ 32) with 4294967296. lia.
    + pose proof (B 0 ltac:(lia)) as B0. rewrite Z.add_0_r in B0.
      pose proof (B 1 ltac:(lia)) as B1.
      change (2 ^ (8 * 0)) with 1 in B0. rewrite Z.div_1_r in B0.
      change (2 ^ (8 * 1)) with 256 in B1.
      change (Z.to_nat 2) with 2%nat in *.
      rewrite read_bytes_2; unfold is_byte; rewrite ?B0, ?B1; lia.
    + change (Z.to_nat 4) with 4%nat.
      rewrite read_write_4 by lia. reflexivity.
  - intros j Hj Hout. apply byte_at_write_bytes_other; lia.
Qed.

Lemma WriteValue_then_ReadValue_witness :
  read_le 32 [1; 0x34; 0x12; 4; 5] 1 2 = Some (0x51234 mod 2 ^ (8 * 2)) /\
  filesys_size [1; 0x34; 0x12; 4; 5] = filesys_size [1; 2; 3; 4; 5] /\
  forall j, 0 <= j -> j < 1 \/ 1 + 2 <= j ->
    byte_at [1; 0x34; 0x12; 4; 5] j = byte_at [1; 2; 3; 4; 5] j.
Proof.
  apply (WriteValue_then_ReadValue [1; 2; 3; 4; 5] [1; 0x34; 0x12; 4; 5]
           0x51234 1 2).
  - lia.
  - right. left. reflexivity.
  - vm_compute. reflexivity.
Defined.

(** ** FAT entries *)

(** X2.  After [SetNextClus n v] the entry of [n] reads as the low 28
    bits of [v], the entry of every other cluster reads as before, and
    no byte outside the FAT copies has changed. *)
Theorem SetNextClus_then_GetNextClus (n v : Z) (s : Filesys) :
  wf_volume s -> fits (finfo_ s) n ->
  exists s',
    SetNextClus n v s = Ret tt s' /\
    GetNextClus n s' = Val (Z.land v FATMASK) /\
    (forall m, fits (finfo_ s) m -> m <> n ->
       GetNextClus m s' = GetNextClus m s) /\
    (forall j, 0 <= j -> ~ fat_area (finfo_ s) j ->
       byte_at (mFilesys_ s') j = byte_at (mFilesys_ s) j) /\
    filesys_size (mFilesys_ s') = filesys_size (mFilesys_ s).
Proof.
  intros WV Fn. pose proof (wf_geom _ WV) as WF.
  destruct (SetNextClus_ok n v s WV Fn) as (s' & E & F & _).
  exists s'. split; [exact E|]. split; [|split; [|split]].
  - apply (GetNextClus_after_set n v s s' WV Fn E).
  - intros m Fm Hm. apply (GetNextClus_other n m s s' WF Fn Fm Hm F).
  - intros j Hj Hout. apply (frame_same _ _ _ F j Hj).
    intros Hin. apply Hout. eapply fat_slots_area; eauto.
  - unfold filesys_size. rewrite (frame_length _ _ _ F). reflexivity.
Qed.

Lemma SetNextClus_then_GetNextClus_witness :
  exists s',
    SetNextClus 6 5 Sample.mounted = Ret tt s' /\
    GetNextClus 6 s' = Val (Z.land 5 FATMASK) /\
    (forall m, fits (finfo_ Sample.mounted) m -> m <> 6 ->
       GetNextClus m s' = GetNextClus m Sample.mounted) /\
    (forall j, 0 <= j -> ~ fat_area (finfo_ Sample.mounted) j ->
       byte_at (mFilesys_ s') j = byte_at (mFilesys_ Sample.mounted) j) /\
    filesys_size (mFilesys_ s') = filesys_size (mFilesys_ Sample.mounted).
Proof.
  apply (SetNextClus_then_GetNextClus 6 5 Sample.mounted).
  - exact mounted_wf.
  - split; vm_compute; intros; discriminate.
Defined.

(** X3.  [SetNextClus n v] leaves the same word, the low 28 bits of
    [v], in the entry of [n] of every FAT copy, and changes no byte
    other than the four of that entry in each copy. *)
Theorem SetNextClus_mirrors (n v : Z) (s s' : Filesys) :
  wf_volume s -> fits (finfo_ s) n ->
  SetNextClus n v s = Ret tt s' ->
  (forall i, 0 <= i < NumFats (finfo_ s) ->
     word_at (mFilesys_ s') (fat_entry_pos (finfo_ s) i n)
     = Z.land v FATMASK) /\
  (forall j, 0 <= j ->
     (forall i, 0 <= i < NumFats (finfo_ s) ->
        j < fat_entry_pos (finfo_ s) i n \/
        fat_entry_pos (finfo_ s) i n + 4 <= j) ->
     byte_at (mFilesys_ s') j = byte_at (mFilesys_ s) j).
Proof.
  intros WV Fn E.
  destruct (SetNextClus_ok n v s WV Fn) as (s1 & E1 & F & W).
  rewrite E in E1. injection E1 as <-. split; [exact W|].
  intros j Hj Hout. apply (frame_same _ _ _ F j Hj).
  intros (i & Hi & Hin). destruct (Hout i Hi); lia.
Qed.

Lemma SetNextClus_mirrors_witness :
  (forall i, 0 <= i < NumFats (finfo_ Sample.mounted) ->
     word_at (mFilesys_ Sample.after_set)
       (fat_entry_pos (finfo_ Sample.mounted) i 6)
     = Z.land 5 FATMASK) /\
  (forall j, 0 <= j ->
     (forall i, 0 <= i < NumFats (finfo_ Sample.mounted) ->
        j < fat_entry_pos (finfo_ Sample.mounted) i 6 \/
        fat_entry_pos (finfo_ Sample.mounted) i 6 + 4 <= j) ->
     byte_at (mFilesys_ Sample.after_set) j
     = byte_at (mFilesys_ Sample.mounted) j).
Proof.
  apply (SetNextClus_mirrors 6 5 Sample.mounted Sample.after_set).
  - exact mounted_wf.
  - split; vm_compute; intros; discriminate.
  - vm_compute. reflexivity.
Defined.

(** ** The FS information sector *)

(** X4.  The free count and the next-free hint are two separate words:
    [SetNFreeClus] is read back by [GetNFreeClus] and leaves the hint
    alone, [SetFATNxtFree] is read back by [GetFATNxtFree] and leaves
    the count alone, and neither changes a FAT entry. *)
Theorem FsInfo_words (v c : Z) (s : Filesys) :
  wf_volume s ->
  (exists s1,
     SetNFreeClus v s = Ret tt s1 /\
     GetNFreeClus s1 = Val (u32 v) /\
     GetFATNxtFree s1 = GetFATNxtFree s /\
     forall n, fits (finfo_ s) n -> GetNextClus n s1 = GetNextClus n s) /\
  (exists s2,
     SetFATNxtFree c s = Ret tt s2 /\
     GetFATNxtFree s2 = Val (u32 c) /\
     GetNFreeClus s2 = GetNFreeClus s /\
     forall n, fits (finfo_ s) n -> GetNextClus n s2 = GetNextClus n s).
Proof.
  intros WV. pose proof (wf_geom _ WV) as WF. split.
  - destruct (UpdateClusCount_ok (fun _ => v) s WV) as (s1 & E & F & G).
    exists s1. split; [|split; [|split]].
    + unfold UpdateClusCount in E.
      rewrite (bind_step _ _ s s _
                 (lift_Val _ _ _ (GetNFreeClus_word s WV))) in E.
      exact E.
    + exact G.
    + apply (GetFATNxtFree_frame _ s s1 WV F). unfold span. intros j Hj.
      lia.
    + intros n Fn. apply (GetNextClus_outside _ n s s1 WF Fn F).
      intros j Hj. apply reserved_not_fat.
      apply (info_words_reserved s j WV). unfold span in *. lia.
  - destruct (SetFATNxtFree_ok c s WV) as (s2 & E & F & G).
    exists s2. split; [exact E|]. split; [exact G|]. split.
    + apply (GetNFreeClus_frame _ s s2 WV F). unfold span. intros j Hj.
      lia.
    + intros n Fn. apply (GetNextClus_outside _ n s s2 WF Fn F).
      intros j Hj. apply reserved_not_fat.
      apply (info_words_reserved s j WV). unfold span in *. lia.
Qed.

Lemma FsInfo_words_witness :
  (exists s1,
     SetNFreeClus 9 Sample.mounted = Ret tt s1 /\
     GetNFreeClus s1 = Val (u32 9) /\
     GetFATNxtFree s1 = GetFATNxtFree Sample.mounted /\
     forall n, fits (finfo_ Sample.mounted) n ->
       GetNextClus n s1 = GetNextClus n Sample.mounted) /\
  (exists s2,
     SetFATNxtFree 6 Sample.mounted = Ret tt s2 /\
     GetFATNxtFree s2 = Val (u32 6) /\
     GetNFreeClus s2 = GetNFreeClus Sample.mounted /\
     forall n, fits (finfo_ Sample.mounted) n ->
       GetNextClus n s2 = GetNextClus n Sample.mounted).
Proof.
  apply (FsInfo_words 9 6 Sample.mounted). exact mounted_wf.
Defined.

(** ** Clearing a cluster *)

(** X5.  [ZeroOutCluster c] on a cluster of the volume returns, leaves
    0 in every byte of the cluster and changes nothing else: the other
    clusters, the FAT entries, the free count and the hint are as
    before. *)
Theorem ZeroOutCluster_clears (c : Z) (s : Filesys) :
  wf_volume s -> in_volume (finfo_ s) c ->
  exists s',
    ZeroOutCluster c s = Ret tt s' /\
    (forall k, 0 <= k < cluster_len (finfo_ s) ->
       byte_at (mFilesys_ s') (cluster_pos (finfo_ s) c + k) = 0) /\
    (forall j, 0 <= j ->
       j < cluster_pos (finfo_ s) c \/
       cluster_pos (finfo_ s) c + cluster_len (finfo_ s) <= j ->
       byte_at (mFilesys_ s') j = byte_at (mFilesys_ s) j) /\
    (forall n, fits (finfo_ s) n -> GetNextClus n s' = GetNextClus n s) /\
    GetNFreeClus s' = GetNFreeClus s /\
    GetFATNxtFree s' = GetFATNxtFree s.
Proof.
  intros WV Hc. pose proof (wf_geom _ WV) as WF.
  destruct (ZeroOutCluster_ok c s WV Hc) as (s' & E & F & Z0).
  assert (D : forall j,
            span (cluster_pos (finfo_ s) c)
              (cluster_pos (finfo_ s) c + cluster_len (finfo_ s)) j ->
            data_area (finfo_ s) j).
  { intros j Hj. apply (cluster_in_data (finfo_ s) c j WF Hc Hj). }
  exists s'. split; [exact E|]. split; [exact Z0|].
  split; [|split; [|split]].
  - intros j Hj Hout. apply (frame_same _ _ _ F j Hj). unfold span. lia.
  - intros n Fn. apply (GetNextClus_outside _ n s s' WF Fn F).
    intros j Hj Hfat. apply (fat_not_data (finfo_ s) j Hfat (D j Hj)).
  - apply (GetNFreeClus_frame _ s s' WV F). intros j Hj Hw.
    apply (reserved_not_data s j WV); [|exact (D j Hj)].
    apply (info_words_reserved s j WV). unfold span in *. lia.
  - apply (GetFATNxtFree_frame _ s s' WV F). intros j Hj Hw.
    apply (reserved_not_data s j WV); [|exact (D j Hj)].
    apply (info_words_reserved s j WV). unfold span in *. lia.
Qed.

Lemma ZeroOutCluster_clears_witness :
  exists s',
    ZeroOutCluster 3 Sample.mounted = Ret tt s' /\
    (forall k, 0 <= k < cluster_len (finfo_ Sample.mounted) ->
       byte_at (mFilesys_ s')
         (cluster_pos (finfo_ Sample.mounted) 3 + k) = 0) /\
    (forall j, 0 <= j ->
       j < cluster_pos (finfo_ Sample.mounted) 3 \/
       cluster_pos (finfo_ Sample.mounted) 3
         + cluster_len (finfo_ Sample.mounted) <= j ->
       byte_at (mFilesys_ s') j = byte_at (mFilesys_ Sample.mounted) j) /\
    (forall n, fits (finfo_ Sample.mounted) n ->
       GetNextClus n s' = GetNextClus n Sample.mounted) /\
    GetNFreeClus s' = GetNFreeClus Sample.mounted /\
    GetFATNxtFree s' = GetFATNxtFree Sample.mounted.
Proof.
  apply (ZeroOutCluster_clears 3 Sample.mounted).
  - exact mounted_wf.
  - apply in_volume_check. vm_compute. reflexivity.
Defined.

(** ** Allocation: the search and its effects *)

(** A scan that finds nothing has met a used entry at every position
    from its start up to the end of the FAT. *)
Lemma scan_free_none (fuel : nat) :
  forall (p e q : Z) (s : Filesys),
  0 <= p < 4294967295 -> e < 4294967296 ->
  scan_free fuel p e s = Val (false, q) ->
  forall x, p <= x < e -> GetNextClus x s <> Val 0.
Proof.
  induction fuel as [|fuel IH]; intros p e q s Hp He H x Hx; [discriminate|].
  cbn [scan_free] in H. destruct (GetNextClus p s) as [v| |] eqn:E;
    cbn in H; try discriminate.
  destruct (Z.eqb_spec v 0) as [->|Hv]; [discriminate|].
  rewrite (u32_small (p + 1)) in H by lia.
  destruct (Z.eq_dec x p) as [->|Hne].
  - rewrite E. intros [= ->]. contradiction.
  - destruct (Z.ltb_spec (p + 1) e); [|lia].
    apply (IH (p + 1) e q s ltac:(lia) ltac:(lia) H x). lia.
Qed.

(** The search of [AllocateCluster], started as the source starts it,
    gives up only when no cluster of the volume is free. *)
Lemma find_free_none (h q : Z) (s : Filesys) :
  wf_geometry (finfo_ s) ->
  h = 0xFFFFFFFF \/ in_volume (finfo_ s) h ->
  (let '(p, sft) := if h =? 0xFFFFFFFF then (2, 1) else (h, 0) in
   find_free p sft (GetEndOfFat (finfo_ s)) s) = Val (false, q) ->
  forall x, in_volume (finfo_ s) x -> GetNextClus x s <> Val 0.
Proof.
  intros WF Hh H x [Hx2 Hxe].
  pose proof (GetEndOfFat_range _ WF) as He.
  assert (Top : forall q2,
            scan_free (scan_fuel 2 (GetEndOfFat (finfo_ s))) 2
              (GetEndOfFat (finfo_ s)) s = Val (false, q2) ->
            GetNextClus x s <> Val 0).
  { intros q2 E.
    apply (scan_free_none _ 2 (GetEndOfFat (finfo_ s)) q2 s
             ltac:(lia) ltac:(lia) E x). lia. }
  unfold find_free in H.
  destruct (Z.eqb_spec h 0xFFFFFFFF) as [Eh|Eh]; cbv iota beta in H.
  - revert Top.
    destruct (scan_free _ 2 _ s) as [[found q1]| |];
      cbn [res_bind] in H; try discriminate.
    destruct found; cbn [negb andb] in H; [discriminate|].
    intros Top. apply (Top q1 eq_refl).
  - destruct Hh as [Hh|[Hh2 Hhe]]; [contradiction|].
    destruct (scan_free (scan_fuel h (GetEndOfFat (finfo_ s))) h
                (GetEndOfFat (finfo_ s)) s) as [[found q1]| |] eqn:E1;
      cbn [res_bind] in H; try discriminate.
    destruct found; cbn [negb andb] in H; [discriminate|].
    change (0 + 1 <? 2) with true in H. cbv iota in H.
    destruct (scan_free (scan_fuel 2 (GetEndOfFat (finfo_ s))) 2
                (GetEndOfFat (finfo_ s)) s) as [[found q2]| |] eqn:E2;
      cbn [res_bind] in H; try discriminate.
    destruct found; cbn [negb] in H; [discriminate|].
    apply (Top q2 eq_refl).
Qed.

(** The writes of [AllocateCluster] that follow the link of the chain:
    [q] becomes a terminal cluster, the hint is [q], the free count is
    one less and the cluster is cleared; only the entry of [q], the two
    words of the FS information sector and the cluster change. *)
Lemma alloc_tail (s : Filesys) (q : Z) :
  wf_volume s -> in_volume (finfo_ s) q ->
  exists s',
    (SetNextClus q 0xFFFFFFFF ;;;
     SetFATNxtFree q ;;;
     UpdateClusCount dec32 ;;;
     ZeroOutCluster q ;;;
     ret q)%fs s = Ret q s' /\
    frame (fun j => fat_slots (finfo_ s) q j \/
                    span (nfree_pos (finfo_ s)) (nfree_pos (finfo_ s) + 8) j \/
                    span (cluster_pos (finfo_ s) q)
                      (cluster_pos (finfo_ s) q + cluster_len (finfo_ s)) j)
      s s' /\
    GetNextClus q s' = Val 0x0FFFFFFF /\
    GetFATNxtFree s' = Val q /\
    (exists f, GetNFreeClus s = Val f /\
               GetNFreeClus s' = Val (u32 (f - 1))) /\
    (forall k, 0 <= k < cluster_len (finfo_ s) ->
       byte_at (mFilesys_ s') (cluster_pos (finfo_ s) q + k) = 0).
Proof.
  intros WV Hq. pose proof (wf_geom _ WV) as WF.
  set (fi := finfo_ s) in *.
  pose proof (in_volume_is_fit fi q WF Hq) as Fq.
  pose proof (in_volume_small fi q WF Hq) as Hqs.
  destruct (SetNextClus_ok q 0xFFFFFFFF s WV Fq) as (s2 & E2 & F2 & _).
  pose proof (frame_wf _ _ _ F2 WV) as WV2.
  pose proof (frame_finfo _ _ _ F2) as I2. fold fi in F2, I2.
  destruct (SetFATNxtFree_ok q s2 WV2) as (s3 & E3 & F3 & Hint3).
  pose proof (frame_wf _ _ _ F3 WV2) as WV3.
  pose proof (frame_finfo _ _ _ F3) as I3. rewrite I2 in F3, I3.
  destruct (UpdateClusCount_ok dec32 s3 WV3) as (s4 & E4 & F4 & Cnt4).
  pose proof (frame_wf _ _ _ F4 WV3) as WV4.
  pose proof (frame_finfo _ _ _ F4) as I4. rewrite I3 in F4, I4, Cnt4.
  destruct (ZeroOutCluster_ok q s4 WV4) as (s5 & E5 & F5 & Zero5).
  { rewrite I4. exact Hq. }
  pose proof (frame_finfo _ _ _ F5) as I5. rewrite I4 in F5, I5, Zero5.
  assert (Info : forall j, span (nfree_pos fi) (nfree_pos fi + 8) j ->
                           reserved_area fi j).
  { intros j. apply (info_words_reserved s j WV). }
  assert (Data : forall j,
            span (cluster_pos fi q) (cluster_pos fi q + cluster_len fi) j ->
            data_area fi j).
  { intros j. apply cluster_in_data; assumption. }
  assert (RD : forall j, reserved_area fi j -> ~ data_area fi j).
  { intros j. apply (reserved_not_data s j WV). }
  pose proof (reserved_not_fat fi) as RF.
  pose proof (fat_not_data fi) as FD.
  assert (F35 : frame (fun j => ~ fat_area fi j) s2 s5).
  { assert (F24 : frame (fun j => ~ fat_area fi j) s2 s4).
    { eapply frame_trans; [exact F3 | exact F4 | |].
      - intros j Hj. apply RF, Info. unfold span in *. lia.
      - intros j Hj. apply RF, Info. unfold span in *. lia. }
    eapply frame_trans; [exact F24 | exact F5 | auto |].
    intros j Hj Hfat. apply (FD j Hfat). auto. }
  exists s5. split.
  { rewrite (bind_step _ _ s s2 tt E2), (bind_step _ _ s2 s3 tt E3),
      (bind_step _ _ s3 s4 tt E4), (bind_step _ _ s4 s5 tt E5).
    reflexivity. }
  split; [|split; [|split; [|split]]].
  - assert (F45 : frame
              (fun j => span (nfree_pos fi) (nfree_pos fi + 8) j \/
                        span (cluster_pos fi q)
                          (cluster_pos fi q + cluster_len fi) j) s3 s5).
    { eapply frame_trans; [exact F4 | exact F5 | |].
      - intros j Hj. left. unfold span in *. lia.
      - intros j Hj. right. exact Hj. }
    assert (F25 : frame
              (fun j => span (nfree_pos fi) (nfree_pos fi + 8) j \/
                        span (cluster_pos fi q)
                          (cluster_pos fi q + cluster_len fi) j) s2 s5).
    { eapply frame_trans; [exact F3 | exact F45 | |].
      - intros j Hj. left. unfold span in *. lia.
      - intros j Hj. exact Hj. }
    eapply frame_trans; [exact F2 | exact F25 | |].
    + intros j Hj. left. exact Hj.
    + intros j Hj. right. exact Hj.
  - rewrite (GetNextClus_outside (fun j => ~ fat_area fi j) q s2 s5);
      rewrite ?I2; auto.
    apply (GetNextClus_after_set q 0xFFFFFFFF s s2 WV Fq E2).
  - rewrite (GetFATNxtFree_frame _ s4 s5 WV4 F5).
    + rewrite (GetFATNxtFree_frame _ s3 s4 WV3 F4).
      * rewrite Hint3. rewrite u32_small by lia. reflexivity.
      * rewrite I3. unfold span. intros j Hj. lia.
    + rewrite I4. intros j Hj Hs. apply (RD j); [|auto].
      apply Info. unfold span in *. lia.
  - exists (word_at (mFilesys_ s) (nfree_pos fi)). split.
    + apply GetNFreeClus_word. exact WV.
    + rewrite (GetNFreeClus_frame _ s4 s5 WV4 F5).
      2:{ rewrite I4. intros j Hj Hs. apply (RD j); [|auto].
          apply Info. unfold span in *. lia. }
      rewrite Cnt4. unfold dec32. rewrite wrap_idem. do 3 f_equal.
      assert (G3 : GetNFreeClus s3 = GetNFreeClus s).
      { rewrite (GetNFreeClus_frame _ s2 s3 WV2 F3).
        2:{ rewrite I2. unfold span. intros j Hj. lia. }
        apply (GetNFreeClus_frame _ s s2 WV F2). fold fi.
        intros j Hj Hs. apply (RF j); [|eapply fat_slots_area; eauto].
        apply Info. unfold span in *. lia. }
      rewrite (GetNFreeClus_word s3 WV3), (GetNFreeClus_word s WV) in G3.
      rewrite I3 in G3. injection G3 as G3. exact G3.
  - exact Zero5.
Qed.

(** Writes that stay inside the entries of the clusters in [Y], or
    outside the FAT copies, leave the entry of every other cluster
    alone. *)
Lemma GetNextClus_off_slots (P : Z -> Prop) (Y : Z -> Prop) (n : Z)
  (s s' : Filesys) :
  wf_geometry (finfo_ s) -> fits (finfo_ s) n -> ~ Y n ->
  frame P s s' ->
  (forall j, P j ->
     (exists y, Y y /\ fits (finfo_ s) y /\ fat_slots (finfo_ s) y j) \/
     ~ fat_area (finfo_ s) j) ->
  GetNextClus n s' = GetNextClus n s.
Proof.
  intros WF [Hn Hfn] HY F HP.
  pose proof (wf_NumFats _ WF) as HN.
  apply (GetNextClus_frame _ _ _ _ F).
  intros j Hj Pj. destruct (HP j Pj) as [(y & Yy & [Hy Hfy] & i & Hi & Hj2)|Out].
  - destruct (fat_entry_pos_apart _ WF 0 n i y) as [A|A]; try lia.
    intros [= ? ?]. subst. contradiction.
  - apply Out.
    pose proof (fat_entry_pos_bounds _ WF 0 n ltac:(lia) Hn Hfn).
    unfold fat_area, span. lia.
Qed.

(** [AllocateCluster] up to the end of its search. *)
Lemma AllocateCluster_search (fuel : nat) (head : Z) (s : Filesys) :
  wf_volume s -> hint_ok s -> in_volume (finfo_ s) 2 ->
  exists found q,
    AllocateCluster fuel head s =
      (if negb found then ret 0
       else
         ((if head =? 0 then ret tt
           else
             (location <- lift (chain_last fuel head head) ;;
              SetNextClus location q)) ;;;
          SetNextClus q 0xFFFFFFFF ;;;
          SetFATNxtFree q ;;;
          UpdateClusCount dec32 ;;;
          ZeroOutCluster q ;;;
          ret q))%fs s /\
    (found = true -> in_volume (finfo_ s) q /\ GetNextClus q s = Val 0) /\
    (found = false ->
     forall x, in_volume (finfo_ s) x -> GetNextClus x s <> Val 0).
Proof.
  intros WV Hint H2. pose proof (wf_geom _ WV) as WF.
  pose proof (GetFATNxtFree_word s WV) as EH.
  remember (word_at (mFilesys_ s) (nxtfree_pos (finfo_ s))) as h eqn:Eh.
  assert (Hh : h = 0xFFFFFFFF \/ in_volume (finfo_ s) h) by (apply Hint, EH).
  assert (Start : exists p sft,
            (if h =? 0xFFFFFFFF then (2, 1) else (h, 0)) = (p, sft) /\
            in_volume (finfo_ s) p).
  { destruct (Z.eqb_spec h 0xFFFFFFFF) as [E|E].
    - exists 2, 1. auto.
    - exists h, 0. split; [reflexivity|].
      destruct Hh as [|]; [contradiction | assumption]. }
  destruct Start as (p & sft & Ep & Hp).
  destruct (find_free_ok p sft s WV Hp) as (found & q & Ef & Hfound).
  exists found, q. split; [|split; [exact Hfound|]].
  - unfold AllocateCluster.
    rewrite (bind_step _ _ s s h (lift_Val _ _ _ EH)). cbv beta zeta.
    rewrite Ep.
    rewrite (bind_step _ _ s s (found, q) (lift_Val _ _ _ Ef)).
    reflexivity.
  - intros ->. apply (find_free_none h q s WF Hh). rewrite Ep. exact Ef.
Qed.

(** The steps after the search end with the cluster found. *)
Lemma alloc_steps_result (m : M unit) (q c : Z) (s s' : Filesys) :
  (m ;;;
   SetNextClus q 0xFFFFFFFF ;;;
   SetFATNxtFree q ;;;
   UpdateClusCount dec32 ;;;
   ZeroOutCluster q ;;;
   ret q)%fs s = Ret c s' -> c = q.
Proof.
  intros H.
  apply bind_Ret in H as (? & ? & _ & H).
  apply bind_Ret in H as (? & ? & _ & H).
  apply bind_Ret in H as (? & ? & _ & H).
  apply bind_Ret in H as (? & ? & _ & H).
  apply bind_Ret in H as (? & ? & _ & H).
  unfold ret in H. injection H as H _. auto.
Qed.

(** X6.  On a well-formed volume that has a cluster 2 and whose
    next-free hint is 0xFFFFFFFF or a cluster number of the volume
    ([hint_ok]; the code starts its search at the hint and tests it
    for 0xFFFFFFFF only): [AllocateCluster] gives the out-of-space
    answer 0 exactly when no cluster of the volume has a free FAT
    entry, and then it has changed nothing. *)
Theorem AllocateCluster_out_of_space (fuel : nat) (head : Z) (s : Filesys) :
  wf_volume s -> hint_ok s -> in_volume (finfo_ s) 2 ->
  ((forall n, in_volume (finfo_ s) n -> GetNextClus n s <> Val 0) ->
   AllocateCluster fuel head s = Ret 0 s) /\
  (forall s', AllocateCluster fuel head s = Ret 0 s' ->
     s' = s /\
     forall n, in_volume (finfo_ s) n -> GetNextClus n s <> Val 0).
Proof.
  intros WV Hint H2.
  destruct (AllocateCluster_search fuel head s WV Hint H2)
    as (found & q & E & Hf & Hn).
  rewrite E. destruct found; cbn [negb].
  - destruct (Hf eq_refl) as [Hq Hfree]. split.
    + intros Hall. destruct (Hall q Hq Hfree).
    + intros s' H. apply alloc_steps_result in H.
      destruct Hq as [Hq _]. lia.
  - split.
    + intros _. reflexivity.
    + intros s' [= <-]. split; [reflexivity|]. apply Hn. reflexivity.
Qed.

(** X7.  [AllocateCluster 0], the call that starts a new chain, on a
    well-formed volume that has a cluster 2 and a free cluster and
    whose next-free hint is 0xFFFFFFFF or a cluster number of the
    volume ([hint_ok]): it returns a cluster [c] of the volume that
    was free, [c] alone is now a chain, its data is cleared, the hint
    is [c], the free count is one less (in 32-bit arithmetic), and the
    entry of every other cluster is as before. *)
Theorem AllocateCluster_new_chain (fuel : nat) (s : Filesys) :
  wf_volume s -> hint_ok s -> in_volume (finfo_ s) 2 ->
  (exists n, in_volume (finfo_ s) n /\ GetNextClus n s = Val 0) ->
  exists c s',
    AllocateCluster fuel 0 s = Ret c s' /\
    in_volume (finfo_ s) c /\
    GetNextClus c s = Val 0 /\
    chain s' c [c] /\
    (forall k, 0 <= k < cluster_len (finfo_ s) ->
       byte_at (mFilesys_ s') (cluster_pos (finfo_ s) c + k) = 0) /\
    GetFATNxtFree s' = Val c /\
    (exists f, GetNFreeClus s = Val f /\
               GetNFreeClus s' = Val (u32 (f - 1))) /\
    (forall m, fits (finfo_ s) m -> m <> c ->
       GetNextClus m s' = GetNextClus m s).
Proof.
  intros WV Hint H2 (n & Hn & Hfree). pose proof (wf_geom _ WV) as WF.
  destruct (AllocateCluster_search fuel 0 s WV Hint H2)
    as (found & q & E & Hf & Hnone).
  destruct found.
  2:{ destruct (Hnone eq_refl n Hn Hfree). }
  destruct (Hf eq_refl) as [Hq Hqfree]. cbn [negb] in E.
  change (0 =? 0) with true in E. cbv iota in E.
  destruct (alloc_tail s q WV Hq) as (s' & E' & F & Q & Hint' & Cnt & Zero).
  exists q, s'. split.
  { rewrite E. rewrite (bind_step _ _ s s tt eq_refl). exact E'. }
  split; [exact Hq|]. split; [exact Hqfree|]. split.
  { apply (chain_end s' q 0x0FFFFFFF); [exact Q | unfold FATEND; lia]. }
  split; [exact Zero|]. split; [exact Hint'|]. split; [exact Cnt|].
  intros m Fm Hm.
  apply (GetNextClus_off_slots _ (fun y => y = q) m s s' WF Fm Hm F).
  intros j [Hj|[Hj|Hj]].
  - left. exists q. split; [reflexivity|]. split; [|exact Hj].
    apply in_volume_is_fit; assumption.
  - right. apply reserved_not_fat. apply (info_words_reserved s j WV Hj).
  - right. intros Hfat. apply (fat_not_data _ j Hfat).
    apply (cluster_in_data _ q j WF Hq Hj).
Qed.

(** X8.  On a well-formed volume whose next-free hint is 0xFFFFFFFF
    or a cluster number of the volume ([hint_ok]), a cluster [c]
    appended by [AllocateCluster] to the chain [l] of the volume is
    not in [l] and disturbs nothing else: the FAT entry of every
    cluster other than [c] and the last cluster of [l] is as before,
    no data byte outside the cluster [c] has changed, and every chain
    of the volume that does not pass through the last cluster of [l]
    is the same chain afterwards. *)
Theorem AllocateCluster_keeps_others (fuel : nat) (head : Z) (l : list Z)
  (s s' : Filesys) (c y : Z) :
  wf_volume s -> valid_chain s head l -> hint_ok s ->
  AllocateCluster fuel head s = Ret c s' -> c <> 0 ->
  last l = Some y ->
  (c ∉ l) /\
  (forall m, fits (finfo_ s) m -> m <> y -> m <> c ->
     GetNextClus m s' = GetNextClus m s) /\
  (forall j, data_area (finfo_ s) j ->
     j < cluster_pos (finfo_ s) c \/
     cluster_pos (finfo_ s) c + cluster_len (finfo_ s) <= j ->
     byte_at (mFilesys_ s') j = byte_at (mFilesys_ s) j) /\
  (forall h2 l2, valid_chain s h2 l2 -> y ∉ l2 -> valid_chain s' h2 l2).
Proof.
  intros WV VC Hint E Hc Hlast. pose proof VC as [Hch Hvol].
  pose proof (wf_geom _ WV) as WF.
  destruct (chain_head _ _ _ Hch) as [l' El].
  assert (Hhead : in_volume (finfo_ s) head).
  { rewrite El in Hvol. apply Forall_cons in Hvol as [H _]. exact H. }
  assert (H2 : in_volume (finfo_ s) 2) by (unfold in_volume in *; lia).
  destruct (AllocateCluster_search fuel head s WV Hint H2)
    as (found & q & E1 & Hf & _).
  rewrite E1 in E. destruct found; cbn [negb] in E.
  2:{ injection E as E _. congruence. }
  destruct (Hf eq_refl) as [Hq Hqfree].
  pose proof (alloc_steps_result _ q c s s' E) as ->.
  destruct (Z.eqb_spec head 0) as [E0|E0]; [destruct Hhead; lia|].
  rewrite bind_assoc in E.
  destruct (le_lt_dec (length l) fuel) as [Hfuel|Hfuel].
  2:{ rewrite (bind_Spin _ _ s) in E; [discriminate|].
      apply lift_Loop. apply chain_last_short with (l := l); assumption. }
  destruct (chain_last_spec s head l Hch fuel Hfuel) as (l0 & y' & El0 & Ey).
  assert (y' = y).
  { rewrite El0, last_snoc in Hlast. congruence. }
  subst y'.
  rewrite (bind_step _ _ s s y (lift_Val _ _ _ Ey)) in E.
  assert (Hy : in_volume (finfo_ s) y).
  { eapply Forall_forall in Hvol; [exact Hvol|].
    rewrite El0. apply elem_of_app. right. constructor. }
  pose proof (in_volume_is_fit _ y WF Hy) as Fy.
  pose proof (in_volume_is_fit _ q WF Hq) as Fq.
  destruct (SetNextClus_ok y q s WV Fy) as (s1 & E2 & F1 & _).
  pose proof (frame_wf _ _ _ F1 WV) as WV1.
  pose proof (frame_finfo _ _ _ F1) as I1.
  rewrite (bind_step _ _ s s1 tt E2) in E.
  destruct (alloc_tail s1 q WV1) as (s5 & E5 & F5 & _).
  { rewrite I1. exact Hq. }
  rewrite E5 in E. injection E as <-. rewrite I1 in F5.
  assert (F : frame
            (fun j => fat_slots (finfo_ s) y j \/ fat_slots (finfo_ s) q j \/
               span (nfree_pos (finfo_ s)) (nfree_pos (finfo_ s) + 8) j \/
               span (cluster_pos (finfo_ s) q)
                 (cluster_pos (finfo_ s) q + cluster_len (finfo_ s)) j)
            s s5).
  { eapply frame_trans; [exact F1 | exact F5 | |].
    - intros j Hj. left. exact Hj.
    - intros j Hj. right. exact Hj. }
  assert (Hql : q ∉ l).
  { intros Hin. eapply chain_entry_nonzero; eauto. }
  assert (Keep : forall m, fits (finfo_ s) m -> m <> y -> m <> q ->
            GetNextClus m s5 = GetNextClus m s).
  { intros m Fm Hmy Hmq.
    assert (HY : ~ (m = y \/ m = q)) by (intros [|]; contradiction).
    apply (GetNextClus_off_slots _ (fun x => x = y \/ x = q) m s s5 WF Fm
             HY F).
    intros j [Hj|[Hj|[Hj|Hj]]].
    - left. exists y. auto.
    - left. exists q. auto.
    - right. apply reserved_not_fat. apply (info_words_reserved s j WV Hj).
    - right. intros Hfat. apply (fat_not_data _ j Hfat).
      apply (cluster_in_data _ q j WF Hq Hj). }
  split; [exact Hql|]. split; [exact Keep|]. split.
  - intros j Hd Hout.
    assert (0 <= j).
    { unfold data_area in Hd. destruct WF. nia. }
    apply (frame_same _ _ _ F j); [assumption|].
    intros [Hj|[Hj|[Hj|Hj]]].
    + apply (fat_not_data (finfo_ s) j); [|exact Hd].
      exact (fat_slots_area _ y j WF Fy Hj).
    + apply (fat_not_data (finfo_ s) j); [|exact Hd].
      exact (fat_slots_area _ q j WF Fq Hj).
    + apply (reserved_not_data s j WV); [|exact Hd].
      apply (info_words_reserved s j WV Hj).
    + unfold span in Hj. lia.
  - intros h2 l2 [Hch2 Hvol2] Hy2. split.
    + apply (chain_frame s); [exact Hch2|]. intros x Hx.
      assert (Hxv : in_volume (finfo_ s) x)
        by (eapply Forall_forall in Hvol2; eauto).
      apply Keep.
      * apply in_volume_is_fit; assumption.
      * intros ->. contradiction.
      * intros ->. eapply chain_entry_nonzero; eauto.
    + rewrite (frame_finfo _ _ _ F). exact Hvol2.
Qed.

(** The sample volumes used below. *)
Lemma full_wf : wf_volume Sample2.full.
Proof.
  split.
  - split.
    + left. reflexivity.
    + split; apply Z.leb_le; reflexivity.
    + split; apply Z.leb_le; reflexivity.
    + apply Z.ltb_lt. reflexivity.
    + split; [apply Z.leb_le | apply Z.ltb_lt]; reflexivity.
    + reflexivity.
    + apply Z.ltb_lt. reflexivity.
    + apply Z.leb_le. reflexivity.
    + apply Z.leb_le. vm_compute. reflexivity.
  - apply Z.leb_le. vm_compute. reflexivity.
  - apply bytes_ok_check. vm_compute. reflexivity.
Qed.

Lemma full_hint : hint_ok Sample2.full.
Proof.
  intros h E. vm_compute in E. injection E as <-. left. reflexivity.
Qed.

Lemma AllocateCluster_out_of_space_witness :
  AllocateCluster 5 3 Sample2.full = Ret 0 Sample2.full.
Proof.
  apply (proj1 (AllocateCluster_out_of_space 5 3 Sample2.full full_wf
                  full_hint ltac:(split; vm_compute; congruence))).
  intros n [H2 He]. change (GetEndOfFat (finfo_ Sample2.full)) with 13 in He.
  assert (Hn : n = 2 \/ n = 3 \/ n = 4 \/ n = 5 \/ n = 6 \/ n = 7 \/ n = 8 \/
               n = 9 \/ n = 10 \/ n = 11 \/ n = 12) by lia.
  repeat (destruct Hn as [->|Hn]; [vm_compute; discriminate|]).
  subst n. vm_compute. discriminate.
Defined.

Lemma AllocateCluster_new_chain_witness :
  exists c s',
    AllocateCluster 5 0 Sample.mounted = Ret c s' /\
    in_volume (finfo_ Sample.mounted) c /\
    GetNextClus c Sample.mounted = Val 0 /\
    chain s' c [c] /\
    (forall k, 0 <= k < cluster_len (finfo_ Sample.mounted) ->
       byte_at (mFilesys_ s')
         (cluster_pos (finfo_ Sample.mounted) c + k) = 0) /\
    GetFATNxtFree s' = Val c /\
    (exists f, GetNFreeClus Sample.mounted = Val f /\
               GetNFreeClus s' = Val (u32 (f - 1))) /\
    (forall m, fits (finfo_ Sample.mounted) m -> m <> c ->
       GetNextClus m s' = GetNextClus m Sample.mounted).
Proof.
  apply (AllocateCluster_new_chain 5 Sample.mounted mounted_wf mounted_hint).
  - apply in_volume_check. vm_compute. reflexivity.
  - exists 7. split.
    + apply in_volume_check. vm_compute. reflexivity.
    + vm_compute. reflexivity.
Defined.

Lemma AllocateCluster_keeps_others_witness :
  (6 ∉ [3; 4]) /\
  (forall m, fits (finfo_ Sample.mounted) m -> m <> 4 -> m <> 6 ->
     GetNextClus m Sample.after_alloc = GetNextClus m Sample.mounted) /\
  (forall j, data_area (finfo_ Sample.mounted) j ->
     j < cluster_pos (finfo_ Sample.mounted) 6 \/
     cluster_pos (finfo_ Sample.mounted) 6
       + cluster_len (finfo_ Sample.mounted) <= j ->
     byte_at (mFilesys_ Sample.after_alloc) j
     = byte_at (mFilesys_ Sample.mounted) j) /\
  (forall h2 l2, valid_chain Sample.mounted h2 l2 -> 4 ∉ l2 ->
     valid_chain Sample.after_alloc h2 l2).
Proof.
  apply (AllocateCluster_keeps_others 5 3 [3; 4] Sample.mounted
           Sample.after_alloc 6 4 mounted_wf hello_chain mounted_hint).
  - vm_compute. reflexivity.
  - discriminate.
  - reflexivity.
Defined.

(** ** Directory listings: which slots are returned *)

Lemma wanted_test (d : bool) (n0 : Z) :
  (negb (n0 =? 0) && negb (n0 =? DEALLOC) && negb d)
  || (((n0 =? 0) || (n0 =? DEALLOC)) && d) = true <-> wanted d n0.
Proof.
  unfold wanted.
  destruct (Z.eqb_spec n0 0), (Z.eqb_spec n0 DEALLOC), d; cbn;
    intuition (try discriminate; try congruence).
Qed.

(** Every entry returned for the slots [i .. i+n) of a cluster comes
    from one of these slots, which is not a long-name slot and has a
    first byte of the wanted kind. *)
Lemma read_slots_sound (d : bool) (n : nat) :
  forall (location i : Z) (s : Filesys) (l : list FileEntry) (e : FileEntry),
  read_slots d location i n s = Val l -> e ∈ l ->
  exists k buf a, i <= k < i + Z.of_nat n /\
    entryLoc e = u32 (location + 32 * k) /\
    ReadValue 8 (mFilesys_ s) 11 (u32 (location + 32 * k)) 1 = Some buf /\
    read_le 8 (mFilesys_ s) (u32 (u32 (location + 32 * k) + 11)) 1 = Some a /\
    Z.land a LONG <> LONG /\ wanted d (str_at buf 0).
Proof.
  induction n as [|n IH]; intros location i s l e H He.
  - cbn in H. injection H as <-. inversion He.
  - cbn [read_slots] in H. cbv zeta in H.
    apply res_bind_Val in H as (buf & Eb & H). apply of_option_Val in Eb.
    apply res_bind_Val in H as (a & Ea & H). apply of_option_Val in Ea.
    apply res_bind_Val in H as (h & Eh & H).
    apply res_bind_Val in H as (lw & El & H).
    apply res_bind_Val in H as (sz & Es & H).
    apply res_bind_Val in H as (rest & Er & H).
    assert (Rest : e ∈ rest -> exists k buf a, i <= k < i + Z.of_nat (S n) /\
              entryLoc e = u32 (location + 32 * k) /\
              ReadValue 8 (mFilesys_ s) 11 (u32 (location + 32 * k)) 1
                = Some buf /\
              read_le 8 (mFilesys_ s) (u32 (u32 (location + 32 * k) + 11)) 1
                = Some a /\
              Z.land a LONG <> LONG /\ wanted d (str_at buf 0)).
    { intros Hin.
      destruct (IH _ _ _ _ _ Er Hin) as (k & buf' & a' & Hk & Hrest).
      exists k, buf', a'. split; [lia | exact Hrest]. }
    destruct (Z.eqb_spec (Z.land a LONG) LONG) as [HL|HL];
      [injection H as <-; auto|].
    destruct (_ || _) eqn:W; [|injection H as <-; auto].
    apply wanted_test in W. injection H as <-.
    apply elem_of_cons in He as [->|He]; [|auto].
    exists i, buf, a. split; [lia|]. cbn [entryLoc FileEntry_copy FileEntry_new].
    auto.
Qed.

(** Every slot among [i .. i+n) that is not a long-name slot and has a
    first byte of the wanted kind gives one of the entries returned. *)
Lemma read_slots_complete (d : bool) (n : nat) :
  forall (location i : Z) (s : Filesys) (l : list FileEntry)
    (k : Z) (buf : list Z) (a : Z),
  read_slots d location i n s = Val l -> i <= k < i + Z.of_nat n ->
  ReadValue 8 (mFilesys_ s) 11 (u32 (location + 32 * k)) 1 = Some buf ->
  read_le 8 (mFilesys_ s) (u32 (u32 (location + 32 * k) + 11)) 1 = Some a ->
  Z.land a LONG <> LONG -> wanted d (str_at buf 0) ->
  exists e, e ∈ l /\ entryLoc e = u32 (location + 32 * k).
Proof.
  induction n as [|n IH]; intros location i s l k buf a H Hk Eb Ea HL W;
    [lia|].
  cbn [read_slots] in H. cbv zeta in H.
  apply res_bind_Val in H as (buf' & Eb' & H). apply of_option_Val in Eb'.
  apply res_bind_Val in H as (a' & Ea' & H). apply of_option_Val in Ea'.
  apply res_bind_Val in H as (h & Eh & H).
  apply res_bind_Val in H as (lw & El & H).
  apply res_bind_Val in H as (sz & Es & H).
  apply res_bind_Val in H as (rest & Er & H).
  destruct (Z.eq_dec k i) as [->|Hne].
  - rewrite Eb in Eb'. rewrite Ea in Ea'.
    apply (inj Some) in Eb'. apply (inj Some) in Ea'. subst buf' a'.
    destruct (Z.eqb_spec (Z.land a LONG) LONG) as [|_]; [contradiction|].
    apply wanted_test in W. rewrite W in H. injection H as <-.
    eexists. split; [constructor|]. reflexivity.
  - destruct (IH location (i + 1) s rest k buf a Er ltac:(lia) Eb Ea HL W)
      as (e & He & Hloc).
    exists e. split; [|exact Hloc].
    destruct (_ =? _); [injection H as <-; exact He|].
    destruct (_ || _); injection H as <-; [|exact He].
    apply elem_of_cons. right. exact He.
Qed.

(** The two bytes that decide about a slot, as [GetFileList] reads
    them. *)
Lemma slot_reads (s : Filesys) (loc : Z) :
  wf_volume s -> 0 <= loc -> loc + 32 < filesys_size (mFilesys_ s) ->
  loc + 32 <= 4294967296 ->
  exists buf,
    ReadValue 8 (mFilesys_ s) 11 (u32 loc) 1 = Some buf /\
    str_at buf 0 = byte_at (mFilesys_ s) loc /\
    read_le 8 (mFilesys_ s) (u32 (u32 loc + 11)) 1
    = Some (byte_at (mFilesys_ s) (loc + 11)).
Proof.
  intros WV Hl Hs H32. pose proof (wf_bytes _ WV) as By.
  rewrite !u32_small by lia.
  exists (read_elems 8 (mFilesys_ s) loc 1 11). split; [|split].
  - unfold ReadValue. destruct (Z.geb_spec (1 * 11 + loc)
                                  (filesys_size (mFilesys_ s))); [lia|].
    reflexivity.
  - unfold str_at. rewrite read_elems_1_nth by lia.
    rewrite Z.add_0_r. apply u8_byte. exact By.
  - rewrite read_le_at by lia. change (Z.to_nat 1) with 1%nat.
    rewrite read_bytes_1, u8_byte by exact By. reflexivity.
Qed.

(** The slots that a listing returns. *)
Lemma GetFileList_chain_slots (d : bool) (fuel : nat) :
  forall (c : Z) (dl : list Z) (s : Filesys),
  wf_volume s -> valid_chain s c dl -> (length dl <= fuel)%nat ->
  exists entries,
    GetFileList fuel c d s = Val entries /\
    (forall e, e ∈ entries ->
       exists x k, x ∈ dl /\ 0 <= k /\
         32 * k + 32 <= cluster_len (finfo_ s) /\
         entryLoc e = cluster_pos (finfo_ s) x + 32 * k /\
         wanted d (byte_at (mFilesys_ s) (entryLoc e)) /\
         Z.land (byte_at (mFilesys_ s) (entryLoc e + 11)) LONG <> LONG) /\
    (forall x k, x ∈ dl -> 0 <= k ->
       32 * k + 32 <= cluster_len (finfo_ s) ->
       wanted d (byte_at (mFilesys_ s) (cluster_pos (finfo_ s) x + 32 * k)) ->
       Z.land (byte_at (mFilesys_ s)
                 (cluster_pos (finfo_ s) x + 32 * k + 11)) LONG <> LONG ->
       exists e, e ∈ entries /\
         entryLoc e = cluster_pos (finfo_ s) x + 32 * k).
Proof.
  induction fuel as [|fuel IH]; intros c dl s WV [Hch Hvol] Hf.
  { destruct (chain_head _ _ _ Hch) as [dl' ->]. cbn in Hf. lia. }
  pose proof (wf_geom _ WV) as WF.
  destruct (GetFileList_total d (S fuel) c dl s WV (conj Hch Hvol) Hf)
    as [entries E].
  exists entries. split; [exact E|].
  cbn [GetFileList] in E. cbv zeta in E.
  apply res_bind_Val in E as (here & Eh & E).
  apply res_bind_Val in E as (next & En & E).
  fold (cluster_pos (finfo_ s) c) in Eh.
  destruct (chain_head _ _ _ Hch) as [dl' Edl]. subst dl.
  pose proof Hvol as Hvol0.
  apply Forall_cons in Hvol as [Hc Hvol2].
  destruct (cluster_pos_wf _ WF c Hc) as (_ & Hlo & Hhi).
  destruct (cluster_len_wf _ WF) as [Elen Hlen32].
  pose proof (wf_fits32 _ WF) as H32. pose proof (volume_size s WV) as Hvs.
  pose proof (wf_BytesPerSec _ WF) as HB. pose proof (wf_mapped _ WV) as Hm.
  pose proof (wf_FirstDataSec _ WF) as HF.
  assert (Hnum : Z.of_nat (Z.to_nat
            (u32 (u32 (BytesPerSec (finfo_ s) * SecPerClus (finfo_ s)) / 32)))
            = cluster_len (finfo_ s) / 32).
  { fold (cluster_len (finfo_ s)).
    pose proof (u32_range (BytesPerSec (finfo_ s) * SecPerClus (finfo_ s)))
      as R. fold (cluster_len (finfo_ s)) in R.
    rewrite u32_small by lia. lia. }
  assert (Here_sound : forall e, e ∈ here ->
            exists k, 0 <= k /\ 32 * k + 32 <= cluster_len (finfo_ s) /\
              entryLoc e = cluster_pos (finfo_ s) c + 32 * k /\
              wanted d (byte_at (mFilesys_ s) (entryLoc e)) /\
              Z.land (byte_at (mFilesys_ s) (entryLoc e + 11)) LONG <> LONG).
  { intros e He.
    destruct (read_slots_sound _ _ _ _ _ _ _ Eh He)
      as (k & buf & a & Hk & Eloc & Eb & Ea & HL & W).
    rewrite Hnum in Hk.
    assert (Hk32 : 32 * k + 32 <= cluster_len (finfo_ s)) by lia.
    destruct (slot_reads s (cluster_pos (finfo_ s) c + 32 * k) WV)
      as (buf' & Eb' & E0 & Ea'); try lia.
    rewrite Eb in Eb'. apply (inj Some) in Eb'. subst buf'.
    rewrite Ea in Ea'. apply (inj Some) in Ea'. subst a.
    rewrite u32_small in Eloc by lia.
    exists k. rewrite Eloc, <- E0. repeat (split; [lia || assumption|]).
    assumption. }
  assert (Here_complete : forall k, 0 <= k ->
            32 * k + 32 <= cluster_len (finfo_ s) ->
            wanted d (byte_at (mFilesys_ s) (cluster_pos (finfo_ s) c + 32 * k)) ->
            Z.land (byte_at (mFilesys_ s)
                      (cluster_pos (finfo_ s) c + 32 * k + 11)) LONG <> LONG ->
            exists e, e ∈ here /\
              entryLoc e = cluster_pos (finfo_ s) c + 32 * k).
  { intros k Hk0 Hk32 W HL.
    destruct (slot_reads s (cluster_pos (finfo_ s) c + 32 * k) WV)
      as (buf & Eb & E0 & Ea); try lia.
    rewrite <- E0 in W.
    destruct (read_slots_complete _ _ _ _ _ _ k buf _ Eh ltac:(lia) Eb Ea HL W)
      as (e & He & Hloc).
    exists e. split; [exact He|]. rewrite Hloc. apply u32_small. lia. }
  inversion Hch as [n m Em Hm' | n m dl2 Em Hm' Hc2]; subst.
  - rewrite Em in En. injection En as <-.
    destruct (Z.ltb_spec m FATEND); [lia|]. injection E as <-. split.
    + intros e He. destruct (Here_sound e He) as (k & Hk).
      exists c, k. split; [constructor | exact Hk].
    + intros x k Hx. apply list_elem_of_singleton in Hx as ->.
      apply Here_complete.
  - rewrite Em in En. injection En as <-.
    destruct (Z.ltb_spec m FATEND); [|lia].
    apply res_bind_Val in E as (rest & Er & E). injection E as <-.
    destruct (IH m dl' s WV (conj Hc2 Hvol2) ltac:(cbn in Hf; lia))
      as (rest' & Er' & Sound & Complete).
    rewrite Er in Er'. injection Er' as <-. split.
    + intros e He. apply elem_of_app in He as [He|He].
      * destruct (Here_sound e He) as (k & Hk).
        exists c, k. split; [constructor | exact Hk].
      * destruct (Sound e He) as (x & k & Hx & Hk).
        exists x, k. split; [apply elem_of_cons; auto | exact Hk].
    + intros x k Hx Hk0 Hk32 W HL. apply elem_of_cons in Hx as [->|Hx].
      * destruct (Here_complete k Hk0 Hk32 W HL) as (e & He & Hloc).
        exists e. split; [apply elem_of_app; auto | exact Hloc].
      * destruct (Complete x k Hx Hk0 Hk32 W HL) as (e & He & Hloc).
        exists e. split; [apply elem_of_app; auto | exact Hloc].
Qed.

(** X9.  On a well-formed volume, with one unit of fuel per cluster of
    the directory chain, [GetFileList] returns; the entries it returns
    are exactly those of the 32-byte slots of the clusters of the
    chain that are not long-name slots (attribute bits 0 to 3 all set)
    and whose first byte is of the kind asked for: neither 0 nor 0xE5
    for the used entries, 0 or 0xE5 for the deleted ones. *)
Theorem GetFileList_slots (d : bool) (fuel : nat) :
  forall (c : Z) (dl : list Z) (s : Filesys),
  wf_volume s -> valid_chain s c dl -> (length dl <= fuel)%nat ->
  exists entries,
    GetFileList fuel c d s = Val entries /\
    (forall e, e ∈ entries ->
       exists x k, x ∈ dl /\ 0 <= k /\
         32 * k + 32 <= cluster_len (finfo_ s) /\
         entryLoc e = cluster_pos (finfo_ s) x + 32 * k /\
         wanted d (byte_at (mFilesys_ s) (entryLoc e)) /\
         Z.land (byte_at (mFilesys_ s) (entryLoc e + 11)) LONG <> LONG) /\
    (forall x k, x ∈ dl -> 0 <= k ->
       32 * k + 32 <= cluster_len (finfo_ s) ->
       wanted d (byte_at (mFilesys_ s) (cluster_pos (finfo_ s) x + 32 * k)) ->
       Z.land (byte_at (mFilesys_ s)
                 (cluster_pos (finfo_ s) x + 32 * k + 11)) LONG <> LONG ->
       exists e, e ∈ entries /\
         entryLoc e = cluster_pos (finfo_ s) x + 32 * k).
Proof. exact (GetFileList_chain_slots d fuel). Qed.

Lemma GetFileList_slots_witness :
  exists entries,
    GetFileList 5 2 false Sample.mounted = Val entries /\
    (forall e, e ∈ entries ->
       exists x k, x ∈ [2] /\ 0 <= k /\
         32 * k + 32 <= cluster_len (finfo_ Sample.mounted) /\
         entryLoc e = cluster_pos (finfo_ Sample.mounted) x + 32 * k /\
         wanted false (byte_at (mFilesys_ Sample.mounted) (entryLoc e)) /\
         Z.land (byte_at (mFilesys_ Sample.mounted) (entryLoc e + 11)) LONG
         <> LONG) /\
    (forall x k, x ∈ [2] -> 0 <= k ->
       32 * k + 32 <= cluster_len (finfo_ Sample.mounted) ->
       wanted false
         (byte_at (mFilesys_ Sample.mounted)
            (cluster_pos (finfo_ Sample.mounted) x + 32 * k)) ->
       Z.land (byte_at (mFilesys_ Sample.mounted)
                 (cluster_pos (finfo_ Sample.mounted) x + 32 * k + 11)) LONG
       <> LONG ->
       exists e, e ∈ entries /\
         entryLoc e = cluster_pos (finfo_ Sample.mounted) x + 32 * k).
Proof.
  apply (GetFileList_slots false 5 2 [2] Sample.mounted mounted_wf root_chain).
  cbn. lia.
Defined.

(** ** Directory listings: what an entry holds *)

Lemma read_elems_1_bytes (img : image) (at_ : Z) (n : nat) :
  bytes_ok img ->
  read_elems 8 img at_ 1 n
  = map (fun k => byte_at img (at_ + Z.of_nat k)) (seq 0 n).
Proof.
  intros By. apply (nth_ext _ _ 0 0).
  - rewrite read_elems_1_length, length_map, length_seq. reflexivity.
  - intros k Hk. rewrite read_elems_1_length in Hk.
    rewrite read_elems_1_nth by exact Hk.
    rewrite (nth_indep _ 0 ((fun k => byte_at img (at_ + Z.of_nat k)) 0%nat))
      by (rewrite length_map, length_seq; exact Hk).
    rewrite (map_nth (fun k => byte_at img (at_ + Z.of_nat k)) (seq 0 n)
               0%nat k).
    rewrite seq_nth by exact Hk. apply u8_byte. exact By.
Qed.

(** Every entry returned for the slots [i .. i+n) of a cluster is
    decoded from one of these slots. *)
Lemma read_slots_decoded (d : bool) (n : nat) :
  forall (location i : Z) (s : Filesys) (l : list FileEntry) (e : FileEntry),
  read_slots d location i n s = Val l -> e ∈ l ->
  exists k, i <= k < i + Z.of_nat n /\
    decoded (mFilesys_ s) (u32 (location + 32 * k)) e.
Proof.
  induction n as [|n IH]; intros location i s l e H He.
  - cbn in H. injection H as <-. inversion He.
  - cbn [read_slots] in H. cbv zeta in H.
    apply res_bind_Val in H as (buf & Eb & H). apply of_option_Val in Eb.
    apply res_bind_Val in H as (a & Ea & H). apply of_option_Val in Ea.
    apply res_bind_Val in H as (h & Eh & H). apply of_option_Val in Eh.
    apply res_bind_Val in H as (lw & El & H). apply of_option_Val in El.
    apply res_bind_Val in H as (sz & Es & H). apply of_option_Val in Es.
    apply res_bind_Val in H as (rest & Er & H).
    assert (Rest : e ∈ rest -> exists k, i <= k < i + Z.of_nat (S n) /\
              decoded (mFilesys_ s) (u32 (location + 32 * k)) e).
    { intros Hin. destruct (IH _ _ _ _ _ Er Hin) as (k & Hk & Hat).
      exists k. split; [lia | exact Hat]. }
    destruct (Z.land a LONG =? LONG); [injection H as <-; auto|].
    destruct (_ || _); [|injection H as <-; auto].
    injection H as <-. apply elem_of_cons in He as [->|He]; [|auto].
    exists i. split; [lia|].
    split; cbn.
    + exists buf. auto.
    + exact Ea.
    + exact Eh.
    + exact El.
    + exact Es.
    + reflexivity.
    + reflexivity.
Qed.

(** Every entry of a listing, of used or of free slots, is decoded
    from a slot of a cluster of the directory chain. *)
Lemma GetFileList_decoded (d : bool) (fuel : nat) :
  forall (c : Z) (dl : list Z) (s : Filesys) (l : list FileEntry)
    (e : FileEntry),
  wf_volume s -> valid_chain s c dl ->
  GetFileList fuel c d s = Val l -> e ∈ l ->
  exists x k, x ∈ dl /\ 0 <= k /\ 32 * k + 32 <= cluster_len (finfo_ s) /\
    decoded (mFilesys_ s) (cluster_pos (finfo_ s) x + 32 * k) e.
Proof.
  induction fuel as [|fuel IH]; intros c dl s l e WV [Hch Hvol] H He;
    [discriminate|].
  pose proof (wf_geom _ WV) as WF.
  cbn [GetFileList] in H. cbv zeta in H.
  apply res_bind_Val in H as (here & Eh & H).
  apply res_bind_Val in H as (next & En & H).
  fold (cluster_pos (finfo_ s) c) in Eh.
  assert (Here : e ∈ here ->
            exists x k, x ∈ dl /\ 0 <= k /\
              32 * k + 32 <= cluster_len (finfo_ s) /\
              decoded (mFilesys_ s) (cluster_pos (finfo_ s) x + 32 * k) e).
  { intros Hin. destruct (read_slots_decoded _ _ _ _ _ _ _ Eh Hin)
      as (k & Hk & Hat).
    pose proof (entries_per_cluster _ WF) as Hn.
    destruct (chain_head _ _ _ Hch) as [dl' ->].
    apply Forall_cons in Hvol as [Hc _].
    destruct (cluster_pos_wf _ WF c Hc) as (_ & Hlo & Hhi).
    pose proof (wf_fits32 _ WF). pose proof (volume_size s WV).
    pose proof (wf_BytesPerSec _ WF).
    rewrite u32_small in Hat by lia.
    exists c, k. split; [constructor|]. split; [lia|]. split; [lia|].
    exact Hat. }
  inversion Hch as [n m E Hm | n m dl2 E Hm Hc2]; subst.
  - rewrite E in En. injection En as <-.
    destruct (Z.ltb_spec m FATEND); [lia|]. injection H as <-. auto.
  - rewrite E in En. injection En as <-.
    destruct (Z.ltb_spec m FATEND); [|lia].
    apply res_bind_Val in H as (rest & Er & H). injection H as <-.
    apply elem_of_app in He as [He|He]; [auto|].
    apply Forall_cons in Hvol as [_ Hvol2].
    destruct (IH m dl2 s rest e WV (conj Hc2 Hvol2) Er He)
      as (x & k & Hx & Hk).
    exists x, k. split; [apply elem_of_cons; auto | exact Hk].
Qed.

(** The fields of an entry of a listing. *)
Lemma GetFileList_entry_bytes (d : bool) (fuel : nat) (c : Z) (dl : list Z)
  (s : Filesys) (entries : list FileEntry) (e : FileEntry) :
  wf_volume s -> valid_chain s c dl ->
  GetFileList fuel c d s = Val entries -> e ∈ entries ->
  let img := mFilesys_ s in
  let loc := entryLoc e in
  name e = cstr (map (fun k => byte_at img (loc + Z.of_nat k)) (seq 0 11)) /\
  attr e = byte_at img (loc + 11) /\
  hi e = byte_at img (loc + 20) + 256 * byte_at img (loc + 21) /\
  lo e = byte_at img (loc + 26) + 256 * byte_at img (loc + 27) /\
  size e = word_at img (loc + 28) /\
  clus e = lo e + 65536 * hi e.
Proof.
  intros WV VC E He img loc. pose proof (wf_bytes _ WV) as By.
  pose proof (wf_geom _ WV) as WF.
  destruct (GetFileList_decoded d fuel c dl s entries e WV VC E He)
    as (x & k & Hx & Hk0 & Hk & [Dn Da Dh Dl Ds Dloc Dcp]).
  assert (Hxv : in_volume (finfo_ s) x).
  { destruct VC as [_ Hv]. rewrite Forall_forall in Hv. apply Hv. exact Hx. }
  destruct (cluster_pos_wf _ WF x Hxv) as (_ & Hlo & Hhi).
  pose proof (wf_fits32 _ WF) as H32. pose proof (wf_mapped _ WV) as Mp.
  pose proof (wf_BytesPerSec _ WF) as HB.
  assert (HD : 0 <= FirstDataSec (finfo_ s) * BytesPerSec (finfo_ s)).
  { pose proof (wf_FsInfo _ WF). pose proof (wf_NumFats _ WF).
    pose proof (wf_FATSz _ WF). pose proof (wf_FirstDataSec _ WF). nia. }
  fold loc in Dloc. rewrite <- Dloc in *. fold img in Dn, Da, Dh, Dl, Ds.
  rewrite !u32_small in * by lia.
  assert (Ha : attr e = byte_at img (loc + 11)).
  { apply read_le_eq in Da as [_ ->]. change (Z.to_nat 1) with 1%nat.
    rewrite read_bytes_1. apply u8_byte. exact By. }
  assert (Hh : hi e = byte_at img (loc + 20) + 256 * byte_at img (loc + 21)).
  { apply read_le_eq in Dh as [_ ->]. change (Z.to_nat 2) with 2%nat.
    rewrite read_bytes_2 by (try apply byte_at_is_byte; auto; lia).
    do 3 f_equal. lia. }
  assert (Hl : lo e = byte_at img (loc + 26) + 256 * byte_at img (loc + 27)).
  { apply read_le_eq in Dl as [_ ->]. change (Z.to_nat 2) with 2%nat.
    rewrite read_bytes_2 by (try apply byte_at_is_byte; auto; lia).
    do 3 f_equal. lia. }
  assert (Hs : size e = word_at img (loc + 28)).
  { apply read_le_eq in Ds as [_ ->]. change (Z.to_nat 4) with 4%nat.
    rewrite read_bytes_4 by (apply byte_at_is_byte; exact By).
    reflexivity. }
  split; [|split; [exact Ha|split; [exact Hh|split; [exact Hl|split;
            [exact Hs|]]]]].
  - destruct Dn as (buf & Eb & En).
    unfold ReadValue in Eb. destruct (_ >=? _); [discriminate|].
    apply (inj Some) in Eb. change (Z.to_nat 11) with 11%nat in Eb.
    rewrite En, <- Eb. rewrite read_elems_1_bytes by exact By. reflexivity.
  - apply (f_equal clus) in Dcp. cbn [clus FileEntry_copy] in Dcp.
    rewrite <- Dcp.
    pose proof (byte_at_is_byte img (loc + 20) By) as B20.
    pose proof (byte_at_is_byte img (loc + 21) By) as B21.
    pose proof (byte_at_is_byte img (loc + 26) By) as B26.
    pose proof (byte_at_is_byte img (loc + 27) By) as B27.
    unfold is_byte in *.
    rewrite lor_shiftl_add by (change (2 ^ 16) with 65536; lia).
    change (2 ^ 16) with 65536.
    rewrite u32_small by lia. lia.
Qed.

(** X10.  On a well-formed volume, every entry that [GetFileList]
    returns for a directory chain of the volume, in a listing of the
    used entries ([getDealloc] false) or of the deleted and free ones
    ([getDealloc] true), carries the bytes of its slot: the name is
    the 11 name bytes up to the first NUL, the attribute is byte 11,
    the two cluster halves are the 16-bit words at 20 and 26, the size
    is the 32-bit word at 28, and the cluster is [lo + 65536 * hi]. *)
Theorem GetFileList_fields (d : bool) (fuel : nat) (c : Z) (dl : list Z)
  (s : Filesys) (entries : list FileEntry) (e : FileEntry) :
  wf_volume s -> valid_chain s c dl ->
  GetFileList fuel c d s = Val entries -> e ∈ entries ->
  let img := mFilesys_ s in
  let loc := entryLoc e in
  name e = cstr (map (fun k => byte_at img (loc + Z.of_nat k)) (seq 0 11)) /\
  attr e = byte_at img (loc + 11) /\
  hi e = byte_at img (loc + 20) + 256 * byte_at img (loc + 21) /\
  lo e = byte_at img (loc + 26) + 256 * byte_at img (loc + 27) /\
  size e = word_at img (loc + 28) /\
  clus e = lo e + 65536 * hi e.
Proof. exact (GetFileList_entry_bytes d fuel c dl s entries e). Qed.

Lemma GetFileList_fields_witness :
  let img := mFilesys_ Sample.mounted in
  let loc := entryLoc Sample.hello in
  name Sample.hello
  = cstr (map (fun k => byte_at img (loc + Z.of_nat k)) (seq 0 11)) /\
  attr Sample.hello = byte_at img (loc + 11) /\
  hi Sample.hello = byte_at img (loc + 20) + 256 * byte_at img (loc + 21) /\
  lo Sample.hello = byte_at img (loc + 26) + 256 * byte_at img (loc + 27) /\
  size Sample.hello = word_at img (loc + 28) /\
  clus Sample.hello = lo Sample.hello + 65536 * hi Sample.hello.
Proof.
  apply (GetFileList_fields false 5 2 [2] Sample.mounted
           [Sample.hello; Sample.empty; Sample.sub] Sample.hello
           mounted_wf root_chain root_listing).
  constructor.
Defined.

(** ** Removal: what happens to the FAT *)

(** The loop of [Rm] and [Rmdir] leaves 0 in the entry of every
    cluster of the chain and leaves the other entries alone. *)
Lemma free_loop_entries (l : list Z) :
  forall (fuel : nat) (n : Z) (s s' : Filesys),
  wf_volume s -> valid_chain s n l ->
  free_loop fuel n s = Ret tt s' ->
  (forall x, x ∈ l -> GetNextClus x s' = Val 0) /\
  (forall m, fits (finfo_ s) m -> m ∉ l ->
     GetNextClus m s' = GetNextClus m s).
Proof.
  induction l as [|a l IH]; intros fuel n s s' WV [Hch Hvol] E.
  { inversion Hch. }
  destruct fuel as [|fuel]; [discriminate|].
  pose proof (wf_geom _ WV) as WF.
  assert (Hn : a = n) by (destruct (chain_head _ _ _ Hch) as [? [= ->]]; auto).
  subst a.
  assert (Hnv : in_volume (finfo_ s) n).
  { apply Forall_cons in Hvol as [H _]. exact H. }
  pose proof (in_volume_is_fit _ n WF Hnv) as Fn.
  pose proof (chain_NoDup _ _ _ Hch) as ND. apply NoDup_cons in ND as [Nn _].
  destruct (SetNextClus_ok n 0 s WV Fn) as (s1 & E1 & F1 & _).
  pose proof (frame_wf _ _ _ F1 WV) as WV1.
  pose proof (frame_finfo _ _ _ F1) as I1.
  destruct (UpdateClusCount_ok inc32 s1 WV1) as (s2 & E2 & F2 & _).
  pose proof (frame_wf _ _ _ F2 WV1) as WV2.
  pose proof (frame_finfo _ _ _ F2) as I2. rewrite I1 in F2, I2.
  assert (Off : forall j, span (nfree_pos (finfo_ s)) (nfree_pos (finfo_ s) + 4) j ->
                          ~ fat_area (finfo_ s) j).
  { intros j Hj. apply reserved_not_fat.
    apply (info_words_reserved s j WV). unfold span in *. lia. }
  assert (N2 : GetNextClus n s2 = Val 0).
  { rewrite (GetNextClus_outside
               (span (nfree_pos (finfo_ s)) (nfree_pos (finfo_ s) + 4))
               n s1 s2); rewrite ?I1; auto.
    apply (GetNextClus_after_set n 0 s s1 WV Fn E1). }
  assert (O2 : forall m, fits (finfo_ s) m -> m <> n ->
                 GetNextClus m s2 = GetNextClus m s).
  { intros m Fm Hm.
    rewrite (GetNextClus_outside
               (span (nfree_pos (finfo_ s)) (nfree_pos (finfo_ s) + 4))
               m s1 s2); rewrite ?I1; auto.
    apply (GetNextClus_other n m s s1); auto. }
  assert (Step : forall m, GetNextClus n s = Val m ->
            free_loop (S fuel) n s =
              (if m <? FATEND then free_loop fuel m else ret tt) s2).
  { intros m Em. cbn [free_loop].
    rewrite (bind_step _ _ s s m (lift_Val _ _ _ Em)).
    rewrite (bind_step _ _ s s1 tt E1), (bind_step _ _ s1 s2 tt E2).
    reflexivity. }
  inversion Hch as [n' m Em Hm | n' m l2 Em Hm Hc2]; subst.
  - rewrite (Step m Em) in E. destruct (Z.ltb_spec m FATEND); [lia|].
    injection E as <-. split.
    + intros x Hx. apply list_elem_of_singleton in Hx as ->. exact N2.
    + intros x Fx Hx. apply O2; [exact Fx|]. intros ->. apply Hx. constructor.
  - rewrite (Step m Em) in E. destruct (Z.ltb_spec m FATEND); [|lia].
    apply Forall_cons in Hvol as [_ Hvol2].
    assert (Hc2' : chain s2 m l).
    { apply (chain_frame s); [exact Hc2|]. intros x Hx.
      apply O2.
      - apply in_volume_is_fit; [exact WF|].
        eapply Forall_forall in Hvol2; eauto.
      - intros ->. auto. }
    destruct (IH fuel m s2 s' WV2) as [Zero Other]; [|exact E|].
    { split; [exact Hc2' | rewrite I2; exact Hvol2]. }
    rewrite I2 in Other. split.
    + intros x Hx. apply elem_of_cons in Hx as [->|Hx]; [|auto].
      rewrite Other; auto.
    + intros x Fx Hx. rewrite Other.
      * apply O2; [exact Fx|]. intros ->. apply Hx. constructor.
      * exact Fx.
      * intros Hin. apply Hx. apply elem_of_cons. auto.
Qed.

(** Every entry of a listing is its own copy. *)
Lemma read_slots_copy (d : bool) (n : nat) :
  forall (location i : Z) (s : Filesys) (l : list FileEntry) (e : FileEntry),
  read_slots d location i n s = Val l -> e ∈ l -> FileEntry_copy e = e.
Proof.
  induction n as [|n IH]; intros location i s l e H He.
  - cbn in H. injection H as <-. inversion He.
  - cbn [read_slots] in H. cbv zeta in H.
    apply res_bind_Val in H as (buf & _ & H).
    apply res_bind_Val in H as (a & _ & H).
    apply res_bind_Val in H as (h & _ & H).
    apply res_bind_Val in H as (lw & _ & H).
    apply res_bind_Val in H as (sz & _ & H).
    apply res_bind_Val in H as (rest & Er & H).
    pose proof (IH _ _ _ _ e Er) as Rest.
    destruct (_ =? _); [injection H as <-; auto|].
    destruct (_ || _); injection H as <-; [|auto].
    apply elem_of_cons in He as [->|He]; [reflexivity | auto].
Qed.

Lemma GetFileList_copy (d : bool) (fuel : nat) :
  forall (c : Z) (s : Filesys) (l : list FileEntry) (e : FileEntry),
  GetFileList fuel c d s = Val l -> e ∈ l -> FileEntry_copy e = e.
Proof.
  induction fuel as [|fuel IH]; intros c s l e H He; [discriminate|].
  cbn [GetFileList] in H. cbv zeta in H.
  apply res_bind_Val in H as (here & Eh & H).
  apply res_bind_Val in H as (next & En & H).
  pose proof (read_slots_copy _ _ _ _ _ _ e Eh) as Here.
  destruct (_ <? _).
  - apply res_bind_Val in H as (rest & Er & H). injection H as <-.
    apply elem_of_app in He as [He|He]; [auto|]. eapply IH; eauto.
  - injection H as <-. auto.
Qed.

(** [Rm] up to its writes. *)
Lemma Rm_run (fuel : nat) (now : tm) (name_ : list Z) (s : Filesys)
  (entries : list FileEntry) (e : FileEntry) (s1 : Filesys) :
  GetFileList fuel (cwd_ s) false s = Val entries ->
  rm_target name_ entries e ->
  (if negb (clus e =? 0) then free_loop fuel (clus e) else ret tt)
    (after_close name_ s) = Ret tt s1 ->
  0 <= entryLoc e -> entryLoc e + 32 <= 4294967296 ->
  entryLoc e + 32 < filesys_size (mFilesys_ s1) ->
  Rm fuel now [name_] s =
    Ret tt (set_image s1 (save_image now (mark_deleted e) (mFilesys_ s1))).
Proof.
  intros Hlist Htar E1 Hlo H32 Hsz.
  destruct (after_close_image name_ s) as (Ei & Ef & Ec).
  unfold Rm. change (size_of [name_] =? 0) with false.
  cbn [Rm_args]. unfold Rm_one.
  unfold bind at 1. unfold bind at 1.
  rewrite close_step.
  unfold bind at 1. unfold lift.
  rewrite (GetFileList_same fuel s (after_close name_ s)) by assumption.
  rewrite Hlist.
  rewrite (Rm_scan_target fuel now name_ entries e (after_close name_ s));
    [|intros x Hx; apply (GetFileList_copy _ _ _ _ _ x Hlist Hx) | exact Htar].
  rewrite (bind_step _ _ _ s1 tt E1).
  rewrite (bind_step _ _ s1 _ _ (SaveFileEntry_eq now (mark_deleted e) s1
             ltac:(rewrite mark_deleted_loc; lia)
             ltac:(rewrite mark_deleted_loc; lia)
             ltac:(rewrite mark_deleted_loc; lia))).
  reflexivity.
Qed.

(** X11.  [rm] of a file frees its whole chain: afterwards the FAT
    entry of every cluster of the chain is 0, the entry of every other
    cluster and the next-free hint are as before. *)
Theorem Rm_frees_chain (fuel : nat) (now : tm) (name_ : list Z)
  (s : Filesys) (dl : list Z) (entries : list FileEntry) (e : FileEntry)
  (l : list Z) :
  wf_volume s -> valid_chain s (cwd_ s) dl ->
  GetFileList fuel (cwd_ s) false s = Val entries ->
  rm_target name_ entries e ->
  valid_chain s (clus e) l -> (length l <= fuel)%nat ->
  exists s',
    Rm fuel now [name_] s = Ret tt s' /\
    (forall x, x ∈ l -> GetNextClus x s' = Val 0) /\
    (forall m, fits (finfo_ s) m -> m ∉ l ->
       GetNextClus m s' = GetNextClus m s) /\
    GetFATNxtFree s' = GetFATNxtFree s.
Proof.
  intros WV Hdir Hlist Htar Hch Hfuel. pose proof (wf_geom _ WV) as WF.
  destruct (after_close_image name_ s) as (Ei & Ef & Ec).
  pose proof (after_close_wf name_ s WV) as WV0.
  set (s0 := after_close name_ s) in *.
  assert (He : listed s dl e).
  { eapply GetFileList_listed; eauto.
    destruct Htar as (pre & post & -> & _).
    apply elem_of_app. right. constructor. }
  destruct (listed_span s dl e WV (proj2 Hdir) He) as (Hlo & Hhi & H32 & Hat).
  pose proof (volume_size s WV) as Sz.
  assert (Hc0 : clus e <> 0).
  { destruct Hch as [Hc Hv]. destruct (chain_head _ _ _ Hc) as [l' ->].
    apply Forall_cons in Hv as [[H2 _] _]. lia. }
  assert (Hch0 : valid_chain s0 (clus e) l).
  { destruct Hch as [Hc Hv]. split; [|rewrite Ef; exact Hv].
    apply (chain_same s s0); assumption. }
  destruct (free_loop_ok l fuel (clus e) s0 WV0 Hch0 Hfuel)
    as (s1 & E1 & F1 & _).
  destruct (free_loop_entries l fuel (clus e) s0 s1 WV0 Hch0 E1)
    as [Zero Other].
  rewrite Ef in F1, Other.
  pose proof (frame_size _ _ _ F1) as Sz1. rewrite Ei in Sz1.
  pose proof (frame_wf _ _ _ F1 WV0) as WV1.
  pose proof (frame_finfo _ _ _ F1) as I1. rewrite Ef in I1.
  set (s' := set_image s1 (save_image now (mark_deleted e) (mFilesys_ s1))).
  assert (F2 : frame (span (entryLoc e) (entryLoc e + 32)) s1 s').
  { apply (save_frame now (mark_deleted e) s1);
      rewrite mark_deleted_loc; lia. }
  assert (Data : forall j, span (entryLoc e) (entryLoc e + 32) j ->
                           ~ fat_area (finfo_ s) j).
  { intros j Hj Hf. apply (fat_not_data _ j Hf).
    apply (entry_span_data s dl e j WV (proj2 Hdir) He Hj). }
  assert (Keep : forall m, fits (finfo_ s) m ->
                   GetNextClus m s' = GetNextClus m s1).
  { intros m Fm.
    apply (GetNextClus_outside (span (entryLoc e) (entryLoc e + 32))
             m s1 s'); rewrite ?I1; auto. }
  exists s'. split; [|split; [|split]].
  - apply (Rm_run fuel now name_ s entries e s1 Hlist Htar).
    + destruct (Z.eqb_spec (clus e) 0); [contradiction|]. exact E1.
    + pose proof (wf_geom _ WV) as G. destruct G. nia.
    + exact H32.
    + lia.
  - intros x Hx. rewrite Keep; [auto|].
    apply in_volume_is_fit; [exact WF|].
    destruct Hch as [_ Hv]. eapply Forall_forall in Hv; eauto.
  - intros m Fm Hm. rewrite (Keep m Fm). rewrite (Other m Fm Hm).
    apply GetNextClus_same; assumption.
  - rewrite (GetFATNxtFree_frame _ s1 s' WV1 F2).
    + rewrite (GetFATNxtFree_frame _ s0 s1 WV0 F1).
      * unfold GetFATNxtFree, get_le. subst s0. rewrite Ei, Ef. reflexivity.
      * rewrite Ef. intros j [Hj|Hj] Hs.
        -- apply (reserved_not_fat (finfo_ s) j); [|exact Hj].
           apply (info_words_reserved s j WV). unfold span in *. lia.
        -- unfold span in *. lia.
    + rewrite I1. intros j Hj Hs.
      apply (reserved_not_data s j WV).
      * apply (info_words_reserved s j WV). unfold span in *. lia.
      * apply (entry_span_data s dl e j WV (proj2 Hdir) He Hj).
Qed.

Lemma Rm_frees_chain_witness :
  exists s',
    Rm 5 Sample.noon [str "hello.txt"] Sample.mounted = Ret tt s' /\
    (forall x, x ∈ [3; 4] -> GetNextClus x s' = Val 0) /\
    (forall m, fits (finfo_ Sample.mounted) m -> m ∉ [3; 4] ->
       GetNextClus m s' = GetNextClus m Sample.mounted) /\
    GetFATNxtFree s' = GetFATNxtFree Sample.mounted.
Proof.
  apply (Rm_frees_chain 5 Sample.noon (str "hello.txt") Sample.mounted [2]
           [Sample.hello; Sample.empty; Sample.sub] Sample.hello [3; 4]
           mounted_wf root_chain root_listing hello_target hello_chain).
  cbn. lia.
Defined.

(** ** Removal: names that are not removed *)

Lemma Rm_scan_none (fuel : nat) (now : tm) (name_ : list Z)
  (entries : list FileEntry) (s : Filesys) :
  Forall (fun x => GetShortName x <> name_ \/
                   Z.land (attr x) DIRECT = DIRECT) entries ->
  Rm_scan fuel now name_ entries s = Ret false s.
Proof.
  induction entries as [|x entries IH]; intros H; [reflexivity|].
  apply Forall_cons in H as [Hx H]. cbn [Rm_scan]. cbv zeta.
  change (GetShortName (FileEntry_copy x)) with (GetShortName x).
  change (attr (FileEntry_copy x)) with (attr x).
  unfold str_eqb. destruct (bool_decide (GetShortName x = name_)) eqn:Eb.
  - apply bool_decide_eq_true_1 in Eb. destruct Hx as [Hx|Hx];
      [contradiction|].
    rewrite Hx, Z.eqb_refl. apply IH. exact H.
  - apply IH. exact H.
Qed.

(** X12.  [rm] of a name that no file of the current directory has
    (every entry with that short name is a directory) writes nothing
    to the image and stops: the names that follow it on the command
    line are not looked at.  Only the open table can change: an open
    entry with that name is closed before the search. *)
Theorem Rm_not_found (fuel : nat) (now : tm) (name_ : list Z)
  (rest : list (list Z)) (s : Filesys) (entries : list FileEntry) :
  GetFileList fuel (cwd_ s) false s = Val entries ->
  Forall (fun x => GetShortName x <> name_ \/
                   Z.land (attr x) DIRECT = DIRECT) entries ->
  exists s',
    Rm fuel now (name_ :: rest) s = Ret tt s' /\
    mFilesys_ s' = mFilesys_ s /\ cwd_ s' = cwd_ s /\
    location_ s' = location_ s /\
    openTable_ s' =
      (if existsb (fun e => str_eqb (GetShortName e) name_) (openTable_ s)
       then erase_first name_ (openTable_ s) else openTable_ s).
Proof.
  intros Hlist Hnone.
  destruct (after_close_image name_ s) as (Ei & Ef & Ec).
  exists (after_close name_ s). split.
  - unfold Rm.
    replace (size_of (name_ :: rest) =? 0) with false
      by (symmetry; apply Z.eqb_neq; unfold size_of; cbn [length]; lia).
    cbn [Rm_args]. unfold Rm_one.
    unfold bind at 1. unfold bind at 1.
    rewrite close_step.
    unfold bind at 1. unfold lift.
    rewrite (GetFileList_same fuel s (after_close name_ s)) by assumption.
    rewrite Hlist, Rm_scan_none by exact Hnone. reflexivity.
  - split; [exact Ei|]. split; [exact Ec|].
    unfold after_close. destruct (existsb _ _); auto.
Qed.

Lemma Rm_not_found_witness :
  exists s',
    Rm 5 Sample.noon [str "sub"; str "hello.txt"] Sample.mounted
      = Ret tt s' /\
    mFilesys_ s' = mFilesys_ Sample.mounted /\
    cwd_ s' = cwd_ Sample.mounted /\
    location_ s' = location_ Sample.mounted /\
    openTable_ s' =
      (if existsb (fun e => str_eqb (GetShortName e) (str "sub"))
            (openTable_ Sample.mounted)
       then erase_first (str "sub") (openTable_ Sample.mounted)
       else openTable_ Sample.mounted).
Proof.
  apply (Rm_not_found 5 Sample.noon (str "sub") [str "hello.txt"]
           Sample.mounted [Sample.hello; Sample.empty; Sample.sub]
           root_listing).
  repeat (constructor; [vm_compute; auto; left; discriminate|]).
  constructor.
Defined.

Lemma Rmdir_find_none (name_ : list Z) (entries : list FileEntry) :
  Forall (fun x => GetShortName x <> name_) entries ->
  Rmdir_find name_ entries = None.
Proof.
  induction entries as [|x entries IH]; intros H; [reflexivity|].
  apply Forall_cons in H as [Hx H]. cbn [Rmdir_find]. cbv zeta.
  change (GetShortName (FileEntry_copy x)) with (GetShortName x).
  unfold str_eqb. rewrite bool_decide_eq_false_2 by exact Hx.
  apply IH. exact H.
Qed.

(** X13.  [rmdir] changes nothing at all when the name starts with a
    dot, when no entry of the current directory has the name, when the
    first entry with the name is a file, or when the directory named
    lists more than two entries. *)
Theorem Rmdir_refuses (fuel : nat) (now : tm) (name_ : list Z)
  (s : Filesys) (entries : list FileEntry) :
  GetFileList fuel (cwd_ s) false s = Val entries ->
  str_at name_ 0 = DOT \/
  Forall (fun x => GetShortName x <> name_) entries \/
  (exists pre e post, entries = pre ++ e :: post /\
     Forall (fun x => GetShortName x <> name_) pre /\
     GetShortName e = name_ /\ Z.land (attr e) DIRECT <> DIRECT) \/
  (exists e sub, rmdir_target name_ entries e /\
     GetFileList fuel (clus e) false s = Val sub /\ (2 < length sub)%nat) ->
  Rmdir fuel now [name_] s = Ret tt s.
Proof.
  intros Hlist H.
  unfold Rmdir. change (size_of [name_] =? 1) with true. cbn [negb nth].
  rewrite (bind_step _ _ s s entries
             (lift_Val (fun s => GetFileList fuel (cwd_ s) false s)
                s entries Hlist)).
  destruct (Z.eqb_spec (str_at name_ 0) DOT) as [Hdot|Hdot]; cbn [negb];
    [reflexivity|].
  destruct H as [H|[H|[H|H]]].
  - contradiction.
  - rewrite Rmdir_find_none by exact H. reflexivity.
  - destruct H as (pre & e & post & -> & Hpre & Hname & Hfile).
    assert (E : Rmdir_find name_ (pre ++ e :: post) = None).
    { clear Hlist. induction pre as [|x pre IH]; cbn [app Rmdir_find];
        cbv zeta.
      - change (GetShortName (FileEntry_copy e)) with (GetShortName e).
        change (attr (FileEntry_copy e)) with (attr e).
        unfold str_eqb. rewrite bool_decide_eq_true_2 by exact Hname.
        destruct (Z.eqb_spec (Z.land (attr e) DIRECT) DIRECT);
          [contradiction | reflexivity].
      - change (GetShortName (FileEntry_copy x)) with (GetShortName x).
        apply Forall_cons in Hpre as [Hx Hpre].
        unfold str_eqb. rewrite bool_decide_eq_false_2 by exact Hx.
        apply IH. exact Hpre. }
    rewrite E. reflexivity.
  - destruct H as (e & sub & Htar & Hsub & Hlen).
    rewrite (Rmdir_find_target name_ entries e); [|
      intros x Hx; apply (GetFileList_copy _ _ _ _ _ x Hlist Hx) | exact Htar].
    rewrite (bind_step _ _ s s sub (lift_Val _ _ _ Hsub)).
    destruct (Z.gtb_spec (size_of sub) 2) as [_|Hle];
      [reflexivity | unfold size_of in Hle; lia].
Qed.

Lemma Rmdir_refuses_witness :
  Rmdir 5 Sample.noon [str "hello.txt"] Sample.mounted
  = Ret tt Sample.mounted.
Proof.
  apply (Rmdir_refuses 5 Sample.noon (str "hello.txt") Sample.mounted
           [Sample.hello; Sample.empty; Sample.sub] root_listing).
  right. right. left.
  exists [], Sample.hello, [Sample.empty; Sample.sub].
  split; [reflexivity|]. split; [constructor|].
  split; [vm_compute; reflexivity | vm_compute; discriminate].
Defined.

(** ** Removal of a directory *)

(** X14.  [rmdir] of an empty directory (at most the two dot entries
    listed) returns, adds the length of the chain of the directory to
    the free count, leaves 0 in the FAT entry of every cluster of that
    chain and leaves the entry of every other cluster as it was. *)
Theorem Rmdir_frees_chain (fuel : nat) (now : tm) (name_ : list Z)
  (s : Filesys) (dl : list Z) (entries sub : list FileEntry)
  (e : FileEntry) (l : list Z) :
  wf_volume s -> valid_chain s (cwd_ s) dl ->
  GetFileList fuel (cwd_ s) false s = Val entries ->
  str_at name_ 0 <> DOT ->
  rmdir_target name_ entries e ->
  GetFileList fuel (clus e) false s = Val sub -> (length sub <= 2)%nat ->
  valid_chain s (clus e) l -> (length l <= fuel)%nat ->
  exists s' f,
    Rmdir fuel now [name_] s = Ret tt s' /\
    GetNFreeClus s = Val f /\
    GetNFreeClus s' = Val (u32 (f + Z.of_nat (length l))) /\
    (forall x, x ∈ l -> GetNextClus x s' = Val 0) /\
    (forall m, fits (finfo_ s) m -> m ∉ l ->
       GetNextClus m s' = GetNextClus m s).
Proof.
  intros WV Hdir Hlist Hdot Htar Hsub Hlen2 Hch Hfuel.
  pose proof (wf_geom _ WV) as WF.
  assert (He : listed s dl e).
  { eapply GetFileList_listed; eauto.
    destruct Htar as (pre & post & -> & _).
    apply elem_of_app. right. constructor. }
  destruct (listed_span s dl e WV (proj2 Hdir) He) as (Hlo & Hhi & H32 & Hat).
  pose proof (volume_size s WV) as Sz.
  assert (Hfind : Rmdir_find name_ entries = Some e).
  { apply Rmdir_find_target; [|exact Htar].
    intros x Hx. apply (GetFileList_copy _ _ _ _ _ x Hlist Hx). }
  set (s1 := set_image s (save_image now (mark_deleted e) (mFilesys_ s))).
  assert (F1 : frame (span (entryLoc e) (entryLoc e + 32)) s s1).
  { apply (save_frame now (mark_deleted e) s);
      rewrite mark_deleted_loc; lia. }
  pose proof (frame_wf _ _ _ F1 WV) as WV1.
  assert (Data : forall j, span (entryLoc e) (entryLoc e + 32) j ->
                           data_area (finfo_ s) j).
  { intros j. apply (entry_span_data s dl e j WV (proj2 Hdir) He). }
  assert (Keep1 : forall m, fits (finfo_ s) m ->
                    GetNextClus m s1 = GetNextClus m s).
  { intros m Fm.
    apply (GetNextClus_outside (span (entryLoc e) (entryLoc e + 32)) m s s1);
      auto.
    intros j Hj Hf. apply (fat_not_data _ j Hf). auto. }
  assert (Hch1 : valid_chain s1 (clus e) l).
  { destruct Hch as [Hc Hv]. split; [|exact Hv].
    apply (chain_frame s); [exact Hc|]. intros x Hx. apply Keep1.
    apply in_volume_is_fit; [exact WF|].
    eapply Forall_forall in Hv; eauto. }
  destruct (free_loop_ok l fuel (clus e) s1 WV1 Hch1 Hfuel)
    as (s' & E' & F' & f & Ef & Ef').
  destruct (free_loop_entries l fuel (clus e) s1 s' WV1 Hch1 E')
    as [Zero Other].
  change (finfo_ s1) with (finfo_ s) in F', Other.
  assert (Hc0 : clus e <> 0).
  { destruct Hch as [Hc Hv]. destruct (chain_head _ _ _ Hc) as [l' ->].
    apply Forall_cons in Hv as [[H2 _] _]. lia. }
  exists s', f. split; [|split; [|split; [exact Ef'|split; [exact Zero|]]]].
  - unfold Rmdir. change (size_of [name_] =? 1) with true. cbn [negb nth].
    rewrite (bind_step _ _ s s entries
               (lift_Val (fun s => GetFileList fuel (cwd_ s) false s)
                  s entries Hlist)).
    destruct (Z.eqb_spec (str_at name_ 0) DOT) as [|_]; [contradiction|].
    cbn [negb]. rewrite Hfind.
    rewrite (bind_step _ _ s s sub (lift_Val _ _ _ Hsub)).
    destruct (Z.gtb_spec (size_of sub) 2) as [Hgt|_];
      [unfold size_of in Hgt; lia|].
    rewrite (bind_step _ _ s s1 _ (SaveFileEntry_eq now (mark_deleted e) s
               ltac:(rewrite mark_deleted_loc; lia)
               ltac:(rewrite mark_deleted_loc; lia)
               ltac:(rewrite mark_deleted_loc; lia))).
    cbn [clus SetCurrentTime mark_deleted].
    destruct (Z.eqb_spec (clus e) 0); [contradiction|]. exact E'.
  - rewrite <- Ef. symmetry.
    apply (GetNFreeClus_frame _ s s1 WV F1). intros j Hj Hs.
    apply (reserved_not_data s j WV); [|auto].
    apply (info_words_reserved s j WV). unfold span in *. lia.
  - intros m Fm Hm. rewrite (Other m Fm Hm). apply Keep1. exact Fm.
Qed.

Lemma Rmdir_frees_chain_witness :
  exists s' f,
    Rmdir 5 Sample.noon [str "sub"] Sample.mounted = Ret tt s' /\
    GetNFreeClus Sample.mounted = Val f /\
    GetNFreeClus s' = Val (u32 (f + Z.of_nat (length [5]))) /\
    (forall x, x ∈ [5] -> GetNextClus x s' = Val 0) /\
    (forall m, fits (finfo_ Sample.mounted) m -> m ∉ [5] ->
       GetNextClus m s' = GetNextClus m Sample.mounted).
Proof.
  apply (Rmdir_frees_chain 5 Sample.noon (str "sub") Sample.mounted [2]
           [Sample.hello; Sample.empty; Sample.sub] Sample.sub_entries
           Sample.sub [5] mounted_wf root_chain root_listing).
  - vm_compute. discriminate.
  - exact sub_target.
  - vm_compute. reflexivity.
  - cbn. lia.
  - exact sub_chain.
  - cbn. lia.
Defined.

(** ** Paths: [ParseAddress] *)

Lemma slash_singleton (c : Z) : c ∈ [SLASH] <-> c = SLASH.
Proof. apply list_elem_of_singleton. Qed.

(** The search for the next slash from [start]: none in the rest of
    the string, or a first one after [k] other characters. *)
Lemma next_slash (add : list Z) (start : nat) :
  (find_first_of add [SLASH] (Z.of_nat start) = npos /\
   (SLASH ∉ drop start add)) \/
  (exists pre post,
     drop start add = pre ++ SLASH :: post /\ (SLASH ∉ pre) /\
     find_first_of add [SLASH] (Z.of_nat start)
     = Z.of_nat start + Z.of_nat (length pre)).
Proof.
  unfold find_first_of. rewrite Nat2Z.id.
  destruct (decide (Exists (fun c => c ∈ [SLASH]) (drop start add)))
    as [H|H].
  - right. apply Exists_exists in H.
    destruct (first_hit _ _ H) as (pre & c & post & E & Hp & Hc).
    apply slash_singleton in Hc as ->.
    exists pre, post. split; [exact E|]. split.
    + intros Hin. apply (Hp SLASH Hin). apply slash_singleton. reflexivity.
    + rewrite E. apply find_from_hit; [exact Hp|].
      apply slash_singleton. reflexivity.
  - left. split.
    + apply find_from_none. intros c Hc Hin. apply H.
      apply Exists_exists. eauto.
    + intros Hin. apply H. apply Exists_exists. exists SLASH.
      split; [exact Hin | apply slash_singleton; reflexivity].
Qed.

Lemma filter_no_slash (l : list Z) :
  SLASH ∉ l -> filter (fun c => c <> SLASH) l = l.
Proof.
  induction l as [|c l IH]; intros H; [reflexivity|].
  rewrite filter_cons_True.
  - rewrite IH; [reflexivity|]. intros Hin. apply H.
    apply list_elem_of_further. exact Hin.
  - intros ->. apply H. constructor.
Qed.

(** The loop of [ParseAddress] from [start] on: the segments it adds
    are not empty, hold no slash, and together are the characters
    other than slashes of the rest of the string. *)
Lemma ParseAddress_loop_segments (fuel : nat) :
  forall (add : list Z) (start : nat) (acc : list (list Z)),
  str_length add < npos -> (start <= length add)%nat ->
  (length add - start < fuel)%nat ->
  exists segs,
    ParseAddress_loop fuel add (Z.of_nat start) acc = acc ++ segs /\
    Forall (fun seg => seg <> [] /\ SLASH ∉ seg) segs /\
    concat segs = filter (fun c => c <> SLASH) (drop start add).
Proof.
  induction fuel as [|fuel IH]; intros add start acc Hlen Hs Hf; [lia|].
  cbn [ParseAddress_loop]. cbv zeta.
  unfold str_length in *. rewrite npos_value in Hlen.
  destruct (next_slash add start) as [[E Hno]|(pre & post & Ed & Hpre & E)].
  - rewrite E, Z.eqb_refl. cbn [negb].
    rewrite Nat2Z.id.
    destruct (Z.ltb_spec (Z.of_nat start) (Z.of_nat (length add))) as [Hlt|Hge].
    + exists [drop start add]. split; [reflexivity|]. split.
      * constructor; [|constructor]. split; [|exact Hno].
        intros E0. apply (f_equal length) in E0.
        rewrite length_drop in E0. cbn in E0. lia.
      * cbn [concat]. rewrite app_nil_r, filter_no_slash by exact Hno.
        reflexivity.
    + exists []. split; [rewrite app_nil_r; reflexivity|].
      split; [constructor|].
      rewrite drop_ge by lia. reflexivity.
  - assert (Hd : length (drop start add)
                 = (length pre + S (length post))%nat).
    { rewrite Ed, length_app. reflexivity. }
    rewrite length_drop in Hd.
    rewrite E, npos_value.
    destruct (Z.eqb_spec (Z.of_nat start + Z.of_nat (length pre))
                18446744073709551615) as [|_]; [lia|]. cbn [negb].
    replace (Z.of_nat start + Z.of_nat (length pre) + 1)
      with (Z.of_nat (start + length pre + 1)) by lia.
    assert (Epost : drop (start + length pre + 1) add = post).
    { replace (start + length pre + 1)%nat
        with (start + (length pre + 1))%nat by lia.
      rewrite <- drop_drop, Ed.
      rewrite drop_app_add by reflexivity. reflexivity. }
    assert (Efil : filter (fun c => c <> SLASH) (drop start add)
                   = pre ++ filter (fun c => c <> SLASH) post).
    { rewrite Ed, filter_app, filter_no_slash by exact Hpre.
      rewrite filter_cons_False by (intros H; apply H; reflexivity).
      reflexivity. }
    destruct (IH add (start + length pre + 1)%nat
                (if negb (u64 (Z.of_nat start
                               - (Z.of_nat start + Z.of_nat (length pre)))
                          =? 0)
                 then acc ++ [substr add (Z.of_nat start)
                                (Z.of_nat start + Z.of_nat (length pre)
                                 - Z.of_nat start)]
                 else acc))
      as (segs & Eloop & Hsegs & Hcat);
      [unfold str_length; rewrite npos_value; lia | lia | lia |].
    rewrite Eloop. rewrite Epost in Hcat. clear Eloop.
    destruct (Nat.eq_dec (length pre) 0%nat) as [E0|E0].
    + destruct pre; [|discriminate]. cbn [length].
      replace (Z.of_nat start - (Z.of_nat start + Z.of_nat 0)) with 0 by lia.
      change (u64 0 =? 0) with true. cbn [negb].
      exists segs. split; [reflexivity|]. split; [exact Hsegs|].
      rewrite Efil. exact Hcat.
    + replace (u64 (Z.of_nat start
                    - (Z.of_nat start + Z.of_nat (length pre))))
        with (18446744073709551616 - Z.of_nat (length pre)).
      2:{ unfold wrap. change (2 ^ 64) with 18446744073709551616.
          symmetry. rewrite <- (Z.mod_add _ 1) by lia.
          rewrite Z.mod_small by lia. lia. }
      destruct (Z.eqb_spec (18446744073709551616 - Z.of_nat (length pre)) 0);
        [lia|]. cbn [negb].
      assert (Esub : substr add (Z.of_nat start)
                       (Z.of_nat start + Z.of_nat (length pre)
                        - Z.of_nat start) = pre).
      { unfold substr. rewrite Nat2Z.id, Ed.
        replace (Z.to_nat (Z.of_nat start + Z.of_nat (length pre)
                           - Z.of_nat start)) with (length pre) by lia.
        apply take_app_length. }
      rewrite Esub, <- app_assoc.
      exists (pre :: segs). split; [reflexivity|]. split.
      * constructor; [|exact Hsegs]. split; [|exact Hpre].
        intros ->. apply E0. reflexivity.
      * cbn [concat]. rewrite Hcat, Efil. reflexivity.
Qed.

(** The segments of a path. *)
Lemma ParseAddress_parts (add : list Z) :
  str_length add < npos ->
  exists segs,
    ParseAddress add =
      (if str_at add 0 =? SLASH then [str "/"] else []) ++ segs /\
    Forall (fun seg => seg <> [] /\ SLASH ∉ seg) segs /\
    concat segs = filter (fun c => c <> SLASH) (map tolower add).
Proof.
  intros Hlen. unfold ParseAddress, str_length in *.
  destruct add as [|c add].
  { exists []. repeat split. constructor. }
  destruct (Z.eqb_spec (Z.of_nat (length (c :: add))) 0) as [E|_];
    [cbn [length] in E; lia|]. cbn [negb]. cbv zeta.
  assert (Hl : str_length (map tolower (c :: add)) < npos).
  { unfold str_length. rewrite length_map. exact Hlen. }
  assert (Hc : (str_at (map tolower (c :: add)) 0 =? SLASH)
               = (str_at (c :: add) 0 =? SLASH)).
  { cbn [map str_at nth]. unfold tolower, SLASH.
    destruct (Z.leb_spec 65 c), (Z.leb_spec c 90); cbn [andb];
      try reflexivity.
    destruct (Z.eqb_spec (c + 32) 47), (Z.eqb_spec c 47);
      try reflexivity; exfalso; lia. }
  rewrite Hc. destruct (Z.eqb_spec (str_at (c :: add) 0) SLASH) as [Es|Es].
  - destruct (ParseAddress_loop_segments
                (S (length (map tolower (c :: add))))
                (map tolower (c :: add)) 1 [[SLASH]] Hl)
      as (segs & E & Hsegs & Hcat);
      [rewrite length_map; cbn [length]; lia | lia |].
    exists segs. split; [exact E|]. split; [exact Hsegs|].
    rewrite Hcat. cbn [str_at nth] in Es. subst c.
    cbn [map drop]. rewrite drop_0.
    change (tolower SLASH) with SLASH.
    rewrite filter_cons_False by (intros H; apply H; reflexivity).
    reflexivity.
  - destruct (ParseAddress_loop_segments
                (S (length (map tolower (c :: add))))
                (map tolower (c :: add)) 0 [] Hl)
      as (segs & E & Hsegs & Hcat);
      [lia | lia |].
    exists segs. split; [exact E|]. split; [exact Hsegs|].
    rewrite Hcat, drop_0. reflexivity.
Qed.

(** X15.  [ParseAddress] gives ["/"] first when the path starts with a
    slash, and then segments that are never empty, never hold a slash
    and, put together, are the characters of the path other than
    slashes, in lower case; so repeated and trailing slashes add
    nothing, and the empty path has no segment. *)
Theorem ParseAddress_segments (add : list Z) :
  str_length add < npos ->
  exists segs,
    ParseAddress add =
      (if str_at add 0 =? SLASH then [str "/"] else []) ++ segs /\
    Forall (fun seg => seg <> [] /\ SLASH ∉ seg) segs /\
    concat segs = filter (fun c => c <> SLASH) (map tolower add).
Proof. exact (ParseAddress_parts add). Qed.

Lemma ParseAddress_segments_witness :
  exists segs,
    ParseAddress (str "/Sub//Hello.TXT/") =
      (if str_at (str "/Sub//Hello.TXT/") 0 =? SLASH then [str "/"] else [])
      ++ segs /\
    Forall (fun seg => seg <> [] /\ SLASH ∉ seg) segs /\
    concat segs
    = filter (fun c => c <> SLASH) (map tolower (str "/Sub//Hello.TXT/")).
Proof.
  apply (ParseAddress_segments (str "/Sub//Hello.TXT/")).
  vm_compute. reflexivity.
Defined.

(** ** Short names: encoding and decoding *)

Lemma filter_pad (n : nat) (l : list Z) :
  SPACE ∉ l -> filter (fun c => c <> SPACE) (pad n l) = l.
Proof.
  intros H. unfold pad. rewrite filter_app.
  replace (filter (fun c => c <> SPACE) (replicate (n - length l) SPACE))
    with (@nil Z).
  - rewrite app_nil_r. induction l as [|c l IH]; [reflexivity|].
    rewrite filter_cons_True.
    + rewrite IH; [reflexivity|]. intros Hin. apply H.
      apply list_elem_of_further. exact Hin.
    + intros ->. apply H. constructor.
  - generalize (n - length l)%nat. intros m.
    induction m as [|m IH]; [reflexivity|]. cbn [replicate].
    rewrite filter_cons_False by (intros E; apply E; reflexivity).
    exact IH.
Qed.

Lemma pad_length (n : nat) (l : list Z) :
  (length l <= n)%nat -> length (pad n l) = n.
Proof.
  intros H. unfold pad. rewrite length_app, length_replicate. lia.
Qed.

Lemma space_invalid : SPACE ∈ invalid_chars.
Proof. apply list_elem_of_In. vm_compute. auto. Qed.

(** X16.  A name accepted by [ValidateFileName] is found again under
    itself: when the part before its first dot has at most 8
    characters, [GetShortName] of an entry that carries the encoded
    name is the name in lower case. *)
Theorem ValidateFileName_then_GetShortName (name_ r : list Z)
  (e : FileEntry) :
  str_length name_ < npos -> 0 ∉ name_ ->
  ValidateFileName name_ = Some r -> name e = r ->
  (forall base ext, name_ = base ++ DOT :: ext -> DOT ∉ base ->
     (length base <= 8)%nat) ->
  GetShortName e = map tolower name_.
Proof.
  intros Hlen Hnul H He Hbase.
  destruct (ValidateFileName_accepts name_ r Hlen H Hnul) as (L & A & B).
  assert (Hok : forall c, c ∈ name_ -> c ∉ invalid_chars).
  { destruct (invalid_or_clean name_) as [Hbad|Hok]; [|exact Hok].
    rewrite (ValidateFileName_invalid name_ Hlen Hbad) in H. discriminate. }
  assert (Hsp : SPACE ∉ name_).
  { intros Hin. apply (Hok SPACE Hin). apply space_invalid. }
  unfold GetShortName. rewrite He. cbv zeta.
  destruct (decide (Exists (fun c => c ∈ [DOT]) name_)) as [Hd|Hd].
  - apply Exists_exists in Hd.
    destruct (first_hit _ _ Hd) as (base & c & ext & E & Hb & Hc).
    apply dot_singleton in Hc as ->.
    assert (Hdb : DOT ∉ base).
    { intros Hin. apply (Hb DOT Hin). apply dot_singleton. reflexivity. }
    pose proof (Hbase base ext E Hdb) as Hlb.
    rewrite (B base ext E Hdb Hlb). subst name_.
    rewrite (ValidateFileName_dotted base ext Hlen Hok Hdb) in H.
    unfold str_length in H.
    destruct (Z.eqb_spec (Z.of_nat (length base)) 0); [discriminate|].
    destruct (Z.eqb_spec (Z.of_nat (length ext)) 0); [discriminate|].
    destruct (Z.gtb_spec (Z.of_nat (length ext)) 3); [discriminate|].
    assert (Sb : SPACE ∉ base).
    { intros Hin. apply Hsp. apply elem_of_app. auto. }
    assert (Se : SPACE ∉ ext).
    { intros Hin. apply Hsp. apply elem_of_app. right.
      apply list_elem_of_further. exact Hin. }
    rewrite take_app_length' by (symmetry; apply pad_length; lia).
    rewrite drop_app_length' by (symmetry; apply pad_length; lia).
    rewrite take_ge by (rewrite pad_length; lia).
    rewrite !filter_pad by assumption.
    unfold str_length.
    destruct (Z.eqb_spec (Z.of_nat (length ext)) 0); [lia|]. reflexivity.
  - assert (Hno : DOT ∉ name_).
    { intros Hin. apply Hd. apply Exists_exists. exists DOT.
      split; [exact Hin | apply dot_singleton; reflexivity]. }
    rewrite (A Hno).
    rewrite (ValidateFileName_dotless name_ Hlen Hok Hno) in H.
    unfold str_length in H.
    destruct (Z.eqb_spec (Z.of_nat (length name_)) 0); [discriminate|].
    destruct (Z.gtb_spec (Z.of_nat (length name_)) 8); [discriminate|].
    rewrite take_app_length' by (symmetry; apply pad_length; lia).
    rewrite drop_app_length' by (symmetry; apply pad_length; lia).
    rewrite filter_pad by assumption. reflexivity.
Qed.

Lemma ValidateFileName_then_GetShortName_witness :
  GetShortName (mkFileEntry (str "notes   txt") 0 0 0 0 0 0 0 0 0)
  = map tolower (str "notes.txt").
Proof.
  apply (ValidateFileName_then_GetShortName (str "notes.txt")
           (str "notes   txt")).
  - vm_compute. reflexivity.
  - vm_compute. intros H. apply list_elem_of_In in H. cbn in H.
    intuition discriminate.
  - vm_compute. reflexivity.
  - reflexivity.
  - intros base ext E Hdb.
    assert (L : (length (base ++ DOT :: ext) = 9)%nat)
      by (rewrite <- E; reflexivity).
    rewrite length_app in L. cbn [length] in L. lia.
Defined.

(** ** Time stamps *)

(** X17.  The stamp set by [SetCurrentTime] decodes to the local time
    it was given: bits 0 to 4 of the time word are half the seconds,
    at most 29; bits 5 to 10 the minutes; bits 11 to 15 the hours;
    bits 0 to 4 of the date word are the day; bits 5 to 8 the month
    counted from 1; bits 9 to 15 the years after 1980.  The other
    fields of the entry are untouched. *)
Theorem SetCurrentTime_decodes (now : tm) (e : FileEntry) :
  0 <= tm_sec now <= 61 -> 0 <= tm_min now <= 59 ->
  0 <= tm_hour now <= 23 -> 1 <= tm_mday now <= 31 ->
  0 <= tm_mon now <= 11 -> 80 <= tm_year now <= 207 ->
  let e' := SetCurrentTime now e in
  wrtTime e' mod 32 = Z.min (tm_sec now / 2) 29 /\
  wrtTime e' / 32 mod 64 = tm_min now /\
  wrtTime e' / 2048 = tm_hour now /\
  wrtDate e' mod 32 = tm_mday now /\
  wrtDate e' / 32 mod 16 = tm_mon now + 1 /\
  wrtDate e' / 512 = tm_year now - 80 /\
  name e' = name e /\ attr e' = attr e /\ lo e' = lo e /\ hi e' = hi e /\
  size e' = size e /\ clus e' = clus e /\ entryLoc e' = entryLoc e.
Proof.
  intros Hs Hm Hh Hd Hmo Hy e'. subst e'. unfold SetCurrentTime.
  cbn [wrtTime wrtDate name attr lo hi size clus entryLoc].
  assert (Q : Z.quot (tm_sec now) 2 = tm_sec now / 2).
  { apply Z.quot_div_nonneg; lia. }
  rewrite Q.
  set (t0 := if u8 (tm_sec now / 2) >? 29 then 29 else u8 (tm_sec now / 2)).
  assert (T0 : t0 = Z.min (tm_sec now / 2) 29).
  { subst t0. rewrite (wrap_small 8) by (change (2 ^ 8) with 256; lia).
    destruct (Z.gtb_spec (tm_sec now / 2) 29); lia. }
  assert (R0 : 0 <= t0 < 32) by lia.
  unfold wrap. change (2 ^ 16) with 65536.
  rewrite (Z.mod_small t0) by lia.
  rewrite (lor_shiftl_add t0 (tm_min now) 5)
    by (change (2 ^ 5) with 32; lia).
  change (2 ^ 5) with 32.
  rewrite (Z.mod_small (t0 + tm_min now * 32)) by lia.
  rewrite (lor_shiftl_add _ (tm_hour now) 11)
    by (change (2 ^ 11) with 2048; lia).
  change (2 ^ 11) with 2048.
  rewrite (Z.mod_small (t0 + tm_min now * 32 + tm_hour now * 2048)) by lia.
  rewrite (Z.mod_small (tm_mday now)) by lia.
  rewrite (lor_shiftl_add (tm_mday now) (tm_mon now + 1) 5)
    by (change (2 ^ 5) with 32; lia).
  change (2 ^ 5) with 32.
  rewrite (Z.mod_small (tm_mday now + (tm_mon now + 1) * 32)) by lia.
  rewrite (lor_shiftl_add _ (tm_year now - 80) 9)
    by (change (2 ^ 9) with 512; lia).
  change (2 ^ 9) with 512.
  rewrite (Z.mod_small (tm_mday now + (tm_mon now + 1) * 32
                        + (tm_year now - 80) * 512)) by lia.
  rewrite <- T0. repeat split; lia.
Qed.

Lemma SetCurrentTime_decodes_witness :
  let e' := SetCurrentTime Sample.noon Sample.hello in
  wrtTime e' mod 32 = Z.min (tm_sec Sample.noon / 2) 29 /\
  wrtTime e' / 32 mod 64 = tm_min Sample.noon /\
  wrtTime e' / 2048 = tm_hour Sample.noon /\
  wrtDate e' mod 32 = tm_mday Sample.noon /\
  wrtDate e' / 32 mod 16 = tm_mon Sample.noon + 1 /\
  wrtDate e' / 512 = tm_year Sample.noon - 80 /\
  name e' = name Sample.hello /\ attr e' = attr Sample.hello /\
  lo e' = lo Sample.hello /\ hi e' = hi Sample.hello /\
  size e' = size Sample.hello /\ clus e' = clus Sample.hello /\
  entryLoc e' = entryLoc Sample.hello.
Proof.
  apply (SetCurrentTime_decodes Sample.noon Sample.hello);
    vm_compute; split; discriminate.
Defined.

(** ** Saving an entry and reading it back *)

Lemma read_le_2_bytes (img : image) (pos v : Z) :
  2 + pos < filesys_size img -> 0 <= v < 65536 ->
  byte_at img pos = (v / 2 ^ (8 * 0)) mod 256 ->
  byte_at img (pos + 1) = (v / 2 ^ (8 * 1)) mod 256 ->
  read_le 16 img pos 2 = Some v.
Proof.
  intros Hs Hv B0 B1. rewrite read_le_at by exact Hs.
  change (Z.to_nat 2) with 2%nat.
  change (2 ^ (8 * 0)) with 1 in B0. change (2 ^ (8 * 1)) with 256 in B1.
  rewrite Z.div_1_r in B0.
  rewrite read_bytes_2; unfold is_byte; rewrite ?B0, ?B1; try lia.
  f_equal. lia.
Qed.

Lemma read_le_4_bytes (img : image) (pos v : Z) :
  4 + pos < filesys_size img -> 0 <= v < 4294967296 ->
  (forall k, 0 <= k < 4 ->
     byte_at img (pos + k) = (v / 2 ^ (8 * k)) mod 256) ->
  read_le 32 img pos 4 = Some v.
Proof.
  intros Hs Hv B. rewrite read_le_at by exact Hs.
  change (Z.to_nat 4) with 4%nat.
  pose proof (B 0 ltac:(lia)) as B0. rewrite Z.add_0_r in B0.
  pose proof (B 1 ltac:(lia)) as B1.
  pose proof (B 2 ltac:(lia)) as B2.
  pose proof (B 3 ltac:(lia)) as B3.
  change (2 ^ (8 * 0)) with 1 in B0. change (2 ^ (8 * 1)) with 256 in B1.
  change (2 ^ (8 * 2)) with 65536 in B2.
  change (2 ^ (8 * 3)) with 16777216 in B3.
  rewrite Z.div_1_r in B0.
  rewrite read_bytes_4; unfold is_byte; rewrite ?B0, ?B1, ?B2, ?B3;
    try lia.
  f_equal. lia.
Qed.

(** The reads of a saved entry. *)
Lemma SaveFileEntry_reads (now : tm) (e : FileEntry) (s : Filesys) :
  let loc := entryLoc e in
  0 <= loc -> loc + 32 <= 4294967296 ->
  loc + 32 < filesys_size (mFilesys_ s) ->
  length (name e) = 11%nat -> Forall is_byte (name e) ->
  0 <= attr e < 256 -> 0 <= lo e < 65536 -> 0 <= hi e < 65536 ->
  0 <= size e < 4294967296 ->
  exists s',
    SaveFileEntry now e s = Ret (SetCurrentTime now e) s' /\
    ReadValue 8 (mFilesys_ s') 11 loc 1 = Some (name e) /\
    read_le 8 (mFilesys_ s') (loc + 11) 1 = Some (attr e) /\
    read_le 16 (mFilesys_ s') (loc + 20) 2 = Some (hi e) /\
    read_le 16 (mFilesys_ s') (loc + 26) 2 = Some (lo e) /\
    read_le 32 (mFilesys_ s') (loc + 28) 4 = Some (size e) /\
    read_le 16 (mFilesys_ s') (loc + 22) 2
      = Some (wrtTime (SetCurrentTime now e)) /\
    read_le 16 (mFilesys_ s') (loc + 24) 2
      = Some (wrtDate (SetCurrentTime now e)) /\
    (forall j, 0 <= j -> j < loc \/ loc + 32 <= j \/ j = loc + 12 ->
       byte_at (mFilesys_ s') j = byte_at (mFilesys_ s) j).
Proof.
  intros loc Hloc H32 Hsz Hlen Hname Ha Hl Hh Hs. subst loc.
  set (img' := save_image now e (mFilesys_ s)).
  exists (set_image s img'). cbn [mFilesys_ set_image].
  assert (Sz : filesys_size img' = filesys_size (mFilesys_ s)).
  { unfold filesys_size, img'. rewrite save_image_length. reflexivity. }
  assert (Hle : entryLoc e + 32 <= filesys_size (mFilesys_ s)) by lia.
  pose proof (SetCurrentTime_range now e) as [Rt Rd].
  split; [apply SaveFileEntry_eq; assumption|].
  split; [|split; [|split; [|split; [|split; [|split; [|split]]]]]].
  - unfold ReadValue.
    destruct (Z.geb_spec (1 * 11 + entryLoc e) (filesys_size img')); [lia|].
    f_equal. change (Z.to_nat 11) with 11%nat.
    apply (nth_ext _ _ 0 0).
    + rewrite read_elems_1_length, Hlen. reflexivity.
    + intros k Hk. rewrite read_elems_1_length in Hk.
      rewrite read_elems_1_nth by exact Hk. unfold img'.
      rewrite (save_image_name now e (mFilesys_ s) Hloc Hle k Hk).
      assert (B : is_byte (str_at (name e) k)).
      { eapply Forall_forall; [exact Hname|]. unfold str_at.
        apply list_elem_of_In. apply nth_In. lia. }
      unfold is_byte in B. unfold str_at in *. unfold wrap.
      change (2 ^ 8) with 256. lia.
  - rewrite read_le_at by lia. change (Z.to_nat 1) with 1%nat.
    rewrite read_bytes_1. unfold img'.
    rewrite (save_image_attr now e (mFilesys_ s) Hloc Hle).
    f_equal. unfold wrap. change (2 ^ 8) with 256. lia.
  - apply read_le_2_bytes; [lia | exact Hh | |].
    + rewrite <- (Z.add_0_r (entryLoc e + 20)).
      apply (save_image_hi now e (mFilesys_ s) Hloc Hle 0). lia.
    + apply (save_image_hi now e (mFilesys_ s) Hloc Hle 1). lia.
  - apply read_le_2_bytes; [lia | exact Hl | |].
    + rewrite <- (Z.add_0_r (entryLoc e + 26)).
      apply (save_image_lo now e (mFilesys_ s) Hloc Hle 0). lia.
    + apply (save_image_lo now e (mFilesys_ s) Hloc Hle 1). lia.
  - apply read_le_4_bytes; [lia | exact Hs |]. intros k Hk.
    apply (save_image_size now e (mFilesys_ s) Hloc Hle k Hk).
  - apply read_le_2_bytes; [lia | exact Rt | |].
    + rewrite <- (Z.add_0_r (entryLoc e + 22)).
      apply (save_image_wrtTime now e (mFilesys_ s) Hloc Hle 0). lia.
    + apply (save_image_wrtTime now e (mFilesys_ s) Hloc Hle 1). lia.
  - apply read_le_2_bytes; [lia | exact Rd | |].
    + rewrite <- (Z.add_0_r (entryLoc e + 24)).
      apply (save_image_wrtDate now e (mFilesys_ s) Hloc Hle 0). lia.
    + apply (save_image_wrtDate now e (mFilesys_ s) Hloc Hle 1). lia.
  - intros j Hj [Hout|[Hout| ->]].
    + apply save_image_outside; try assumption. unfold span. lia.
    + apply save_image_outside; try assumption. unfold span. lia.
    + apply save_image_12; assumption.
Qed.

(** X18.  An entry written by [SaveFileEntry] is read back by the
    reads of [GetFileList]: the 11 name bytes, the attribute, the two
    cluster halves and the size are those of the entry, and the words
    at 22 and 24 are the time and date stamp that the call has set.
    Outside the 32 bytes of the slot nothing changes, and byte 12 of
    the slot is left as it was. *)
Theorem SaveFileEntry_then_read (now : tm) (e : FileEntry) (s : Filesys) :
  let loc := entryLoc e in
  0 <= loc -> loc + 32 <= 4294967296 ->
  loc + 32 < filesys_size (mFilesys_ s) ->
  length (name e) = 11%nat -> Forall is_byte (name e) ->
  0 <= attr e < 256 -> 0 <= lo e < 65536 -> 0 <= hi e < 65536 ->
  0 <= size e < 4294967296 ->
  exists s',
    SaveFileEntry now e s = Ret (SetCurrentTime now e) s' /\
    ReadValue 8 (mFilesys_ s') 11 loc 1 = Some (name e) /\
    read_le 8 (mFilesys_ s') (loc + 11) 1 = Some (attr e) /\
    read_le 16 (mFilesys_ s') (loc + 20) 2 = Some (hi e) /\
    read_le 16 (mFilesys_ s') (loc + 26) 2 = Some (lo e) /\
    read_le 32 (mFilesys_ s') (loc + 28) 4 = Some (size e) /\
    read_le 16 (mFilesys_ s') (loc + 22) 2
      = Some (wrtTime (SetCurrentTime now e)) /\
    read_le 16 (mFilesys_ s') (loc + 24) 2
      = Some (wrtDate (SetCurrentTime now e)) /\
    (forall j, 0 <= j -> j < loc \/ loc + 32 <= j \/ j = loc + 12 ->
       byte_at (mFilesys_ s') j = byte_at (mFilesys_ s) j).
Proof. exact (SaveFileEntry_reads now e s). Qed.

Lemma SaveFileEntry_then_read_witness :
  let e := SetClus 9 Sample.hello in
  let s := Sample.mounted in
  let loc := entryLoc e in
  exists s',
    SaveFileEntry Sample.noon e s = Ret (SetCurrentTime Sample.noon e) s' /\
    ReadValue 8 (mFilesys_ s') 11 loc 1 = Some (name e) /\
    read_le 8 (mFilesys_ s') (loc + 11) 1 = Some (attr e) /\
    read_le 16 (mFilesys_ s') (loc + 20) 2 = Some (hi e) /\
    read_le 16 (mFilesys_ s') (loc + 26) 2 = Some (lo e) /\
    read_le 32 (mFilesys_ s') (loc + 28) 4 = Some (size e) /\
    read_le 16 (mFilesys_ s') (loc + 22) 2
      = Some (wrtTime (SetCurrentTime Sample.noon e)) /\
    read_le 16 (mFilesys_ s') (loc + 24) 2
      = Some (wrtDate (SetCurrentTime Sample.noon e)) /\
    (forall j, 0 <= j -> j < loc \/ loc + 32 <= j \/ j = loc + 12 ->
       byte_at (mFilesys_ s') j = byte_at (mFilesys_ s) j).
Proof.
  apply (SaveFileEntry_then_read Sample.noon (SetClus 9 Sample.hello)
           Sample.mounted).
  - vm_compute. discriminate.
  - vm_compute. discriminate.
  - vm_compute. reflexivity.
  - reflexivity.
  - apply bytes_ok_check. vm_compute. reflexivity.
  - vm_compute. split; [discriminate | reflexivity].
  - vm_compute. split; [discriminate | reflexivity].
  - vm_compute. split; [discriminate | reflexivity].
  - vm_compute. split; [discriminate | reflexivity].
Defined.

(** ** Mounting: which images are accepted *)

Lemma boot_checks_spec (img : image) :
  bytes_ok img -> 512 < filesys_size img ->
  boot_checks img = true <->
  (byte_at img 510 = 0x55 /\ byte_at img 511 = 0xaa) /\
  (boot_field 16 img 11 2 = 512 \/ boot_field 16 img 11 2 = 1024 \/
   boot_field 16 img 11 2 = 2048 \/ boot_field 16 img 11 2 = 4096) /\
  boot_field 16 img 17 2 = 0 /\
  (boot_field 32 img 13 1 = 1 \/ boot_field 32 img 13 1 = 2 \/
   boot_field 32 img 13 1 = 4 \/ boot_field 32 img 13 1 = 16 \/
   boot_field 32 img 13 1 = 32 \/ boot_field 32 img 13 1 = 64 \/
   boot_field 32 img 13 1 = 128) /\
  boot_field 32 img 32 4 <> 0 /\
  boot_field 32 img 22 2 = 0.
Proof.
  intros By Hs. unfold boot_checks. cbv zeta.
  assert (Sig : ReadValue 8 img 2 510 1 = Some (read_elems 8 img 510 1 2)).
  { unfold ReadValue.
    destruct (Z.geb_spec (1 * 2 + 510) (filesys_size img)); [lia|].
    reflexivity. }
  rewrite Sig. cbn [default from_option id]. unfold str_at.
  rewrite !read_elems_1_nth by lia.
  rewrite !u8_byte by exact By.
  change (510 + Z.of_nat 0) with 510. change (510 + Z.of_nat 1) with 511.
  rewrite !andb_true_iff, !negb_true_iff, orb_false_iff, !negb_false_iff,
    !andb_false_iff, !negb_false_iff, !Z.eqb_eq, Z.eqb_neq.
  tauto.
Qed.

(** X19.  [Validate] accepts an image exactly when the object has no
    error, the mapping has more than 512 bytes, bytes 510 and 511 are
    0x55 and 0xAA, the bytes per sector are 512, 1024, 2048 or 4096,
    the root entry count is 0, the sectors per cluster are 1, 2, 4,
    16, 32, 64 or 128, the total sector count is not 0 and the 16-bit
    FAT size is 0; otherwise it throws. *)
Theorem Validate_accepts_iff (s : Filesys) :
  bytes_ok (mFilesys_ s) ->
  let img := mFilesys_ s in
  ((exists s', Validate s = Ret tt s') <->
   error_ s = false /\ 512 < filesys_size img /\
   (byte_at img 510 = 0x55 /\ byte_at img 511 = 0xaa) /\
   (boot_field 16 img 11 2 = 512 \/ boot_field 16 img 11 2 = 1024 \/
    boot_field 16 img 11 2 = 2048 \/ boot_field 16 img 11 2 = 4096) /\
   boot_field 16 img 17 2 = 0 /\
   (boot_field 32 img 13 1 = 1 \/ boot_field 32 img 13 1 = 2 \/
    boot_field 32 img 13 1 = 4 \/ boot_field 32 img 13 1 = 16 \/
    boot_field 32 img 13 1 = 32 \/ boot_field 32 img 13 1 = 64 \/
    boot_field 32 img 13 1 = 128) /\
   boot_field 32 img 32 4 <> 0 /\
   boot_field 32 img 22 2 = 0) /\
  ((exists s', Validate s = Ret tt s') \/ (exists s', Validate s = Raise s')).
Proof.
  intros By img. subst img.
  destruct (error_ s) eqn:He.
  { assert (R : Validate s = Raise s).
    { unfold Validate, bind, throw_if, throw. rewrite He. reflexivity. }
    split; [|right; eauto]. split.
    - intros [s' E]. rewrite R in E. discriminate.
    - intros [E _]. discriminate. }
  destruct (Z.lt_ge_cases 512 (filesys_size (mFilesys_ s))) as [Hs|Hs].
  - destruct (Validate_returns s He Hs) as [R1 R2].
    pose proof (boot_checks_spec (mFilesys_ s) By Hs) as B.
    destruct (boot_checks (mFilesys_ s)).
    + destruct (Validate s) as [[] s'| |] eqn:E; try discriminate.
      split; [|left; eauto]. split.
      * intros _. split; [reflexivity|]. split; [exact Hs|].
        apply B. reflexivity.
      * intros _. eauto.
    + destruct (Validate s) as [[] s'| s' |] eqn:E; try discriminate.
      split; [|right; eauto]. split.
      * intros [s2 E2]. discriminate.
      * intros (_ & _ & H). apply B in H. discriminate.
  - assert (R : Validate s = Raise s).
    { unfold Validate, bind, throw_if, throw, ret. rewrite He.
      unfold ReadValue.
      destruct (Z.geb_spec (1 * 2 + 510) (filesys_size (mFilesys_ s)));
        [reflexivity | lia]. }
    split; [|right; eauto]. split.
    + intros [s' E]. rewrite R in E. discriminate.
    + intros (_ & H & _). lia.
Qed.

Lemma Validate_accepts_iff_witness :
  let img := mFilesys_ (Sample.fresh Sample.disk) in
  ((exists s', Validate (Sample.fresh Sample.disk) = Ret tt s') <->
   error_ (Sample.fresh Sample.disk) = false /\ 512 < filesys_size img /\
   (byte_at img 510 = 0x55 /\ byte_at img 511 = 0xaa) /\
   (boot_field 16 img 11 2 = 512 \/ boot_field 16 img 11 2 = 1024 \/
    boot_field 16 img 11 2 = 2048 \/ boot_field 16 img 11 2 = 4096) /\
   boot_field 16 img 17 2 = 0 /\
   (boot_field 32 img 13 1 = 1 \/ boot_field 32 img 13 1 = 2 \/
    boot_field 32 img 13 1 = 4 \/ boot_field 32 img 13 1 = 16 \/
    boot_field 32 img 13 1 = 32 \/ boot_field 32 img 13 1 = 64 \/
    boot_field 32 img 13 1 = 128) /\
   boot_field 32 img 32 4 <> 0 /\
   boot_field 32 img 22 2 = 0) /\
  ((exists s', Validate (Sample.fresh Sample.disk) = Ret tt s') \/
   (exists s', Validate (Sample.fresh Sample.disk) = Raise s')).
Proof.
  apply (Validate_accepts_iff (Sample.fresh Sample.disk)).
  apply bytes_ok_check. vm_compute. reflexivity.
Defined.

(** X20.  After a successful [Validate] the image is untouched, the
    current directory is the root cluster, the location is "/", and
    the geometry holds the fields of the boot sector: the FAT size is
    the 32-bit one, and the first data sector is the reserved sectors
    plus the sectors of all FAT copies, in 32-bit arithmetic. *)
Theorem Validate_mounts (s s' : Filesys) :
  Validate s = Ret tt s' ->
  let img := mFilesys_ s in
  let fi := finfo_ s' in
  mFilesys_ s' = img /\ openTable_ s' = openTable_ s /\
  cwd_ s' = RootClus fi /\ location_ s' = str "/" /\
  BytesPerSec fi = boot_field 16 img 11 2 /\
  SecPerClus fi = boot_field 32 img 13 1 /\
  RsvdSecCnt fi = boot_field 32 img 14 2 /\
  NumFats fi = boot_field 32 img 16 1 /\
  FATSz fi = boot_field 32 img 36 4 /\
  RootClus fi = boot_field 32 img 44 4 /\
  FsInfo fi = boot_field 32 img 48 2 /\
  TotSec fi = boot_field 32 img 32 4 /\
  FirstDataSec fi = u32 (RsvdSecCnt fi + u32 (NumFats fi * FATSz fi)).
Proof.
  intros H img fi. subst img fi.
  assert (He : error_ s = false).
  { destruct (error_ s) eqn:He; [|reflexivity].
    unfold Validate, bind, throw_if, throw in H. rewrite He in H.
    discriminate. }
  assert (Hs : 512 < filesys_size (mFilesys_ s)).
  { destruct (Z.lt_ge_cases 512 (filesys_size (mFilesys_ s))) as [Hs|Hs];
      [exact Hs|].
    unfold Validate, bind, throw_if, throw, ret in H. rewrite He in H.
    unfold ReadValue in H.
    destruct (Z.geb_spec (1 * 2 + 510) (filesys_size (mFilesys_ s)));
      [discriminate | lia]. }
  destruct (proj2 (ReadValue_Some_iff 8 (mFilesys_ s) 2 510 1) ltac:(lia))
    as [sig Esig].
  pose proof (fun tb p w H => proj2 (read_le_Some_iff tb (mFilesys_ s) p w) H)
    as Rd.
  unfold boot_field.
  destruct (Rd 16 11 2 ltac:(lia)) as [bps E1].
  destruct (Rd 16 17 2 ltac:(lia)) as [rootent E2].
  destruct (Rd 32 22 2 ltac:(lia)) as [fatsz16 E3].
  destruct (Rd 32 36 4 ltac:(lia)) as [fatsz32 E4].
  destruct (Rd 32 14 2 ltac:(lia)) as [rsvd E5].
  destruct (Rd 32 16 1 ltac:(lia)) as [numfats E6].
  destruct (Rd 32 13 1 ltac:(lia)) as [spc E7].
  destruct (Rd 32 44 4 ltac:(lia)) as [rootclus E8].
  destruct (Rd 32 48 2 ltac:(lia)) as [fsinfo E9].
  destruct (Rd 32 32 4 ltac:(lia)) as [totsec E10].
  clear Rd.
  unfold Validate, bind, throw_if, throw, ret, read_field, get_finfo,
    update_finfo in H.
  rewrite He in H.
  cbn [mFilesys_ finfo_ set_finfo error_ cwd_ location_ openTable_] in H.
  rewrite Esig in H.
  cbn [mFilesys_ finfo_ set_finfo Signature with_Signature] in H.
  destruct (negb (str_at sig 0 =? 85) || negb (str_at sig 1 =? 170));
    [discriminate|].
  do 10 (cbn [negb andb mFilesys_ finfo_ set_finfo] in H;
         rewrite ?E1, ?E2, ?E3, ?E4, ?E5, ?E6, ?E7, ?E8, ?E9, ?E10 in H).
  cbn [mFilesys_ finfo_ set_finfo
       BytesPerSec RootEntCnt SecPerClus TotSec FATSz16 RootClus Signature
       with_BytesPerSec with_RootEntCnt with_FATSz16 with_FATSz32
       with_RsvdSecCnt with_NumFats with_SecPerClus with_RootClus
       with_FsInfo with_TotSec with_RootDirSector with_FATSz
       with_FirstDataSec with_Signature] in H.
  assert (Hb : (negb (bps =? 512) && negb (bps =? 1024) && negb (bps =? 2048)
                && negb (bps =? 4096)) = true \/
               (bps = 512 \/ bps = 1024 \/ bps = 2048 \/ bps = 4096)).
  { destruct (Z.eqb_spec bps 512), (Z.eqb_spec bps 1024),
      (Z.eqb_spec bps 2048), (Z.eqb_spec bps 4096); cbn; auto. }
  destruct Hb as [Hb|Hb]; [rewrite Hb in H; discriminate|].
  destruct (negb (bps =? 512) && negb (bps =? 1024) && negb (bps =? 2048)
            && negb (bps =? 4096)); [discriminate|].
  cbn [negb andb] in H.
  destruct (Z.eqb_spec rootent 0) as [R0|R0]; cbn [negb] in H;
    [|discriminate].
  destruct (negb (spc =? 1) && negb (spc =? 2) && negb (spc =? 4)
            && negb (spc =? 16) && negb (spc =? 32) && negb (spc =? 64)
            && negb (spc =? 128)); [discriminate|].
  cbn [negb andb] in H.
  destruct (totsec =? 0); [discriminate|].
  cbn [negb andb mFilesys_ finfo_ set_finfo
       BytesPerSec RootEntCnt SecPerClus TotSec FATSz16 FATSz32 RootClus
       Signature RsvdSecCnt NumFats FATSz RootDirSector
       with_BytesPerSec with_RootEntCnt with_FATSz16 with_FATSz32
       with_RsvdSecCnt with_NumFats with_SecPerClus with_RootClus
       with_FsInfo with_TotSec with_RootDirSector with_FATSz
       with_FirstDataSec with_Signature] in H.
  destruct (Z.eqb_spec fatsz16 0) as [F0|F0]; cbn [negb] in H;
    [|discriminate].
  injection H as <-.
  rewrite E1, E4, E5, E6, E7, E8, E9, E10.
  cbn [mFilesys_ finfo_ cwd_ location_ openTable_ set_finfo set_cwd
       set_location
       BytesPerSec RootEntCnt SecPerClus TotSec FATSz16 FATSz32 RootClus
       Signature RsvdSecCnt NumFats FATSz RootDirSector FirstDataSec FsInfo
       with_BytesPerSec with_RootEntCnt with_FATSz16 with_FATSz32
       with_RsvdSecCnt with_NumFats with_SecPerClus with_RootClus
       with_FsInfo with_TotSec with_RootDirSector with_FATSz
       with_FirstDataSec with_Signature default from_option id].
  repeat (split; [reflexivity|]).
  assert (Q : Z.quot (rootent * 32 + (bps - 1)) bps = 0).
  { rewrite R0. apply Z.quot_small. lia. }
  rewrite Q. change (u32 0) with 0. rewrite Z.add_0_r.
  apply wrap_idem.
Qed.

Lemma Validate_mounts_witness :
  let img := mFilesys_ (Sample.fresh Sample.disk) in
  let fi := finfo_ Sample.mounted in
  mFilesys_ Sample.mounted = img /\
  openTable_ Sample.mounted = openTable_ (Sample.fresh Sample.disk) /\
  cwd_ Sample.mounted = RootClus fi /\
  location_ Sample.mounted = str "/" /\
  BytesPerSec fi = boot_field 16 img 11 2 /\
  SecPerClus fi = boot_field 32 img 13 1 /\
  RsvdSecCnt fi = boot_field 32 img 14 2 /\
  NumFats fi = boot_field 32 img 16 1 /\
  FATSz fi = boot_field 32 img 36 4 /\
  RootClus fi = boot_field 32 img 44 4 /\
  FsInfo fi = boot_field 32 img 48 2 /\
  TotSec fi = boot_field 32 img 32 4 /\
  FirstDataSec fi = u32 (RsvdSecCnt fi + u32 (NumFats fi * FATSz fi)).
Proof.
  apply (Validate_mounts (Sample.fresh Sample.disk) Sample.mounted).
  vm_compute. reflexivity.
Defined.

(** ** The open table *)

Lemma erase_first_none (name_ : list Z) (table : list FileEntry) :
  Forall (fun e => GetShortName e <> name_) table ->
  erase_first name_ table = table.
Proof.
  induction table as [|e table IH]; intros H; [reflexivity|].
  apply Forall_cons in H as [He H]. cbn [erase_first]. unfold str_eqb.
  rewrite bool_decide_eq_false_2 by exact He. rewrite IH by exact H.
  reflexivity.
Qed.

Lemma erase_first_snoc (name_ : list Z) (table : list FileEntry)
  (x : FileEntry) :
  Forall (fun e => GetShortName e <> name_) table ->
  GetShortName x = name_ ->
  erase_first name_ (table ++ [x]) = table.
Proof.
  induction table as [|e table IH]; intros H Hx.
  - cbn [app erase_first]. unfold str_eqb.
    rewrite bool_decide_eq_true_2 by exact Hx. reflexivity.
  - apply Forall_cons in H as [He H]. cbn [app erase_first]. unfold str_eqb.
    rewrite bool_decide_eq_false_2 by exact He. rewrite IH by assumption.
    reflexivity.
Qed.

(** What the scan of [Open] does to the table: nothing, or one more
    entry at the end, a file with the wanted name and the permission
    asked for. *)
Lemma Open_scan_cases (name_ : list Z) (p : Z)
  (list_ table : list FileEntry) :
  Open_scan name_ p list_ table = table \/
  exists x, Open_scan name_ p list_ table = table ++ [x] /\
    GetShortName x = name_ /\ Z.land (attr x) DIRECT <> DIRECT /\
    openInfo x = p /\ In (entryLoc x) (map entryLoc list_).
Proof.
  induction list_ as [|e0 rest IH]; [left; reflexivity|].
  cbn [Open_scan]. cbv zeta. unfold str_eqb.
  destruct (bool_decide (GetShortName (FileEntry_copy e0) = name_)) eqn:Eb.
  - apply bool_decide_eq_true_1 in Eb.
    destruct (Z.eqb_spec (Z.land (attr (FileEntry_copy e0)) DIRECT) DIRECT)
      as [Hd|Hd]; [left; reflexivity|].
    right. eexists. split; [reflexivity|].
    split; [exact Eb|]. split; [exact Hd|]. split; [reflexivity|].
    left. reflexivity.
  - destruct IH as [IH|(x & E & Hx)]; [left; exact IH|].
    right. exists x. split; [exact E|].
    destruct Hx as (A & B & C & D). repeat split; try assumption.
    right. exact D.
Qed.

Lemma existsb_open (name_ : list Z) (table : list FileEntry) :
  existsb (fun e => str_eqb (GetShortName (FileEntry_copy e)) name_) table
  = false <->
  Forall (fun e => GetShortName e <> name_) table.
Proof.
  induction table as [|e table IH]; cbn [existsb].
  - split; [constructor | reflexivity].
  - change (GetShortName (FileEntry_copy e)) with (GetShortName e).
    unfold str_eqb at 1. rewrite orb_false_iff, IH, Forall_cons.
    rewrite bool_decide_eq_false. reflexivity.
Qed.

(** [Open] leaves everything but the open table alone and, when it
    returns, has either left the table as it was or added one entry
    for a name that was not open. *)
Lemma Open_cases (fuel : nat) (argv : list (list Z)) (s s' : Filesys) :
  Open fuel argv s = Ret tt s' ->
  s' = s \/
  exists x,
    s' = set_openTable s (openTable_ s ++ [x]) /\
    Forall (fun e => GetShortName e <> nth 0 argv []) (openTable_ s) /\
    GetShortName x = nth 0 argv [] /\ Z.land (attr x) DIRECT <> DIRECT /\
    (openInfo x = 1 \/ openInfo x = 2 \/ openInfo x = 3).
Proof.
  unfold Open. intros H.
  destruct (negb (size_of argv =? 2)); [injection H as <-; auto|].
  cbv zeta in H.
  assert (Go : forall p, (p = 1 \/ p = 2 \/ p = 3) ->
            (list_ <- lift (GetFileList fuel (cwd_ s) false) ;;
             fun s =>
               if existsb
                    (fun e => str_eqb (GetShortName (FileEntry_copy e))
                                (nth 0 argv []))
                    (openTable_ s)
               then Ret tt s
               else
                 Ret tt (set_openTable s
                           (Open_scan (nth 0 argv []) p list_
                              (openTable_ s))))%fs s = Ret tt s' ->
            s' = s \/
            exists x,
              s' = set_openTable s (openTable_ s ++ [x]) /\
              Forall (fun e => GetShortName e <> nth 0 argv [])
                (openTable_ s) /\
              GetShortName x = nth 0 argv [] /\
              Z.land (attr x) DIRECT <> DIRECT /\
              (openInfo x = 1 \/ openInfo x = 2 \/ openInfo x = 3)).
  { intros p Hp E. apply bind_Ret in E as (list_ & s1 & E1 & E).
    apply lift_Ret in E1 as [_ ->].
    destruct (existsb _ (openTable_ s)) eqn:Ex; [injection E as <-; auto|].
    apply existsb_open in Ex. injection E as <-.
    destruct (Open_scan_cases (nth 0 argv []) p list_ (openTable_ s))
      as [E|(x & E & Hn & Hd & Hi & _)]; rewrite E.
    - left. destruct s. reflexivity.
    - right. exists x. rewrite Hi. auto. }
  destruct (str_eqb (nth 1 argv []) (str "rw")).
  { apply (Go _ ltac:(right; right; reflexivity) H). }
  destruct (str_eqb (nth 1 argv []) (str "r")).
  { apply (Go _ ltac:(left; reflexivity) H). }
  destruct (str_eqb (nth 1 argv []) (str "w")).
  { apply (Go _ ltac:(right; left; reflexivity) H). }
  injection H as <-. auto.
Qed.

(** X21.  [open] followed by [close] of the same name puts the object
    back exactly as it was, when no entry with that name was open
    before: whether or not the file was found. *)
Theorem Open_then_Close (fuel : nat) (name_ mode : list Z)
  (s s1 : Filesys) :
  Forall (fun e => GetShortName e <> name_) (openTable_ s) ->
  Open fuel [name_; mode] s = Ret tt s1 ->
  Close [name_] s1 = Ret tt s.
Proof.
  intros Hno H. unfold Close. change (size_of [name_] =? 1) with true.
  cbn [negb nth]. f_equal.
  destruct (Open_cases fuel [name_; mode] s s1 H)
    as [->|(x & -> & _ & Hx & _)]; cbn [nth] in *.
  - rewrite erase_first_none by exact Hno. destruct s. reflexivity.
  - cbn [openTable_ set_openTable].
    rewrite erase_first_snoc by assumption. destruct s. reflexivity.
Qed.

Lemma Open_then_Close_witness :
  Close [str "hello.txt"] Sample2.opened = Ret tt Sample.mounted.
Proof.
  apply (Open_then_Close 5 (str "hello.txt") (str "r") Sample.mounted
           Sample2.opened).
  - constructor.
  - vm_compute. reflexivity.
Defined.

Lemma erase_first_sub (name_ : list Z) (table : list FileEntry) :
  sublist (erase_first name_ table) table.
Proof.
  induction table as [|e table IH]; cbn [erase_first]; [constructor|].
  destruct (str_eqb _ _).
  - apply sublist_cons. reflexivity.
  - apply sublist_skip. exact IH.
Qed.

Lemma erase_first_Forall (P : FileEntry -> Prop) (name_ : list Z)
  (table : list FileEntry) :
  Forall P table -> Forall P (erase_first name_ table).
Proof.
  induction table as [|e table IH]; intros H; [constructor|].
  apply Forall_cons in H as [He H]. cbn [erase_first].
  destruct (str_eqb _ _); [exact H|]. constructor; auto.
Qed.

(** X22.  The open table keeps its shape through [open] and [close]:
    if no two of its entries have the same short name and none is a
    directory, the same holds afterwards; both commands leave the
    image, the geometry, the current directory and the location
    alone. *)
Theorem open_table_invariant (fuel : nat) (argv : list (list Z))
  (s s' : Filesys) :
  Open fuel argv s = Ret tt s' \/ Close argv s = Ret tt s' ->
  NoDup (map GetShortName (openTable_ s)) ->
  Forall (fun e => Z.land (attr e) DIRECT <> DIRECT) (openTable_ s) ->
  NoDup (map GetShortName (openTable_ s')) /\
  Forall (fun e => Z.land (attr e) DIRECT <> DIRECT) (openTable_ s') /\
  mFilesys_ s' = mFilesys_ s /\ finfo_ s' = finfo_ s /\
  cwd_ s' = cwd_ s /\ location_ s' = location_ s.
Proof.
  intros [H|H] ND Files.
  - destruct (Open_cases fuel argv s s' H)
      as [->|(x & -> & Hno & Hx & Hd & _)]; [auto 10|].
    cbn [openTable_ mFilesys_ finfo_ cwd_ location_ set_openTable].
    split; [|split; [|auto]].
    + rewrite map_app. cbn [map]. apply NoDup_app. split; [exact ND|].
      split; [|apply NoDup_singleton].
      intros n Hn Hin. apply list_elem_of_singleton in Hin as ->.
      apply list_elem_of_fmap in Hn as (e & He & Hin).
      eapply Forall_forall in Hno; [|exact Hin]. congruence.
    + apply Forall_app. split; [exact Files|]. constructor; [exact Hd|].
      constructor.
  - unfold Close in H. destruct (negb (size_of argv =? 1));
      injection H as <-; [auto 10|].
    cbn [openTable_ mFilesys_ finfo_ cwd_ location_ set_openTable].
    pose proof (erase_first_sub (nth 0 argv []) (openTable_ s)) as Sub.
    split; [|split; [|auto]].
    + apply (sublist_NoDup _ _ ND). apply fmap_sublist. exact Sub.
    + apply erase_first_Forall. exact Files.
Qed.

Lemma open_table_invariant_witness :
  NoDup (map GetShortName (openTable_ Sample2.opened)) /\
  Forall (fun e => Z.land (attr e) DIRECT <> DIRECT)
    (openTable_ Sample2.opened) /\
  mFilesys_ Sample2.opened = mFilesys_ Sample.mounted /\
  finfo_ Sample2.opened = finfo_ Sample.mounted /\
  cwd_ Sample2.opened = cwd_ Sample.mounted /\
  location_ Sample2.opened = location_ Sample.mounted.
Proof.
  apply (open_table_invariant 5 [str "hello.txt"; str "r"] Sample.mounted
           Sample2.opened).
  - left. vm_compute. reflexivity.
  - constructor.
  - constructor.
Defined.

(** ** The command line *)

Lemma not_blank_tests (c : Z) :
  ~ blank c -> (c =? SPACE) = false /\ (c =? TAB) = false.
Proof.
  unfold blank. intros H.
  destruct (Z.eqb_spec c SPACE), (Z.eqb_spec c TAB); tauto.
Qed.

Lemma blank_tests (c : Z) :
  blank c -> (c =? SPACE) || (c =? TAB) = true /\ (c =? QUOTE) = false.
Proof.
  unfold blank, SPACE, TAB, QUOTE. intros [-> | ->]; split; reflexivity.
Qed.

Lemma push_last_snoc (av : list (list Z)) (x : list Z) (ch : Z) :
  push_last (av ++ [x]) ch = av ++ [x ++ [ch]].
Proof.
  induction av as [|a av IH]; [reflexivity|].
  cbn [app push_last]. rewrite IH.
  destruct (av ++ [x]) eqn:E; [destruct av; discriminate | reflexivity].
Qed.

(** The characters of the command name. *)
Lemma split_name (w : list Z) :
  forall n, Forall (fun c => ~ blank c) w ->
  fold_left split_step w (mkWords n [] (-1) false false)
  = mkWords (n ++ w) [] (-1) false false.
Proof.
  induction w as [|ch w IH]; intros n H.
  - rewrite app_nil_r. reflexivity.
  - apply Forall_cons in H as [Hc H]. cbn [fold_left].
    destruct (not_blank_tests ch Hc) as [E1 E2].
    unfold split_step at 2. cbn [w_lookForEndQuote w_newWord w_c w_name w_argv].
    rewrite E1, E2. cbn [orb andb negb]. change (-1 =? -1) with true.
    cbv iota. rewrite IH by exact H. rewrite <- app_assoc. reflexivity.
Qed.

(** Separators after the name, a word or a closing quote: the next
    character starts an argument. *)
Lemma split_blanks (sep : list Z) :
  forall n av c nw, Forall blank sep -> sep <> [] -> -1 <= c ->
  (c = -1 -> nw = false) ->
  exists c', 0 <= c' /\
    fold_left split_step sep (mkWords n av c nw false)
    = mkWords n av c' true false.
Proof.
  induction sep as [|ch sep IH]; intros n av c nw H Hne Hc Hn;
    [contradiction|].
  apply Forall_cons in H as [Hb H]. cbn [fold_left].
  destruct (blank_tests ch Hb) as [E1 E2].
  assert (Step : split_step (mkWords n av c nw false) ch
                 = mkWords n av (if nw then c else c + 1) true false).
  { unfold split_step.
    cbn [w_lookForEndQuote w_newWord w_c w_name w_argv].
    rewrite E1, E2. cbn [orb andb negb]. destruct nw; reflexivity. }
  rewrite Step.
  assert (Hc' : 0 <= (if nw then c else c + 1)).
  { destruct nw; [|lia]. destruct (Z.eq_dec c (-1)) as [E|E]; [|lia].
    specialize (Hn E). discriminate. }
  destruct sep as [|ch2 sep].
  - exists (if nw then c else c + 1). split; [exact Hc' | reflexivity].
  - apply IH; [exact H | discriminate | lia | lia].
Qed.

(** Trailing separators change neither the name nor the arguments. *)
Lemma split_trail (sep : list Z) :
  forall n av c nw, Forall blank sep ->
  exists c' nw',
    fold_left split_step sep (mkWords n av c nw false)
    = mkWords n av c' nw' false.
Proof.
  induction sep as [|ch sep IH]; intros n av c nw H; [eauto|].
  apply Forall_cons in H as [Hb H]. cbn [fold_left].
  destruct (blank_tests ch Hb) as [E1 E2].
  assert (Step : split_step (mkWords n av c nw false) ch
                 = mkWords n av (if nw then c else c + 1) true false).
  { unfold split_step.
    cbn [w_lookForEndQuote w_newWord w_c w_name w_argv].
    rewrite E1, E2. cbn [orb andb negb]. destruct nw; reflexivity. }
  rewrite Step. apply IH. exact H.
Qed.

(** The characters of a word after its first one. *)
Lemma split_word_rest (r : list Z) :
  forall n av x c, Forall (fun c => ~ blank c) r -> 0 <= c ->
  fold_left split_step r (mkWords n (av ++ [x]) c false false)
  = mkWords n (av ++ [x ++ r]) c false false.
Proof.
  induction r as [|ch r IH]; intros n av x c H Hc.
  - rewrite app_nil_r. reflexivity.
  - apply Forall_cons in H as [Hb H]. cbn [fold_left].
    destruct (not_blank_tests ch Hb) as [E1 E2].
    unfold split_step at 2.
    cbn [w_lookForEndQuote w_newWord w_c w_name w_argv].
    rewrite E1, E2. cbn [orb andb negb].
    destruct (Z.eqb_spec c (-1)); [lia|].
    rewrite push_last_snoc, IH by assumption.
    rewrite <- app_assoc. reflexivity.
Qed.

(** The characters between two quotes after the first one. *)
Lemma split_quoted_rest (r : list Z) :
  forall n av x c, Forall (fun c => c <> QUOTE) r -> 0 <= c ->
  fold_left split_step r (mkWords n (av ++ [x]) c false true)
  = mkWords n (av ++ [x ++ r]) c false true.
Proof.
  induction r as [|ch r IH]; intros n av x c H Hc.
  - rewrite app_nil_r. reflexivity.
  - apply Forall_cons in H as [Hq H]. cbn [fold_left].
    unfold split_step at 2.
    cbn [w_lookForEndQuote w_newWord w_c w_name w_argv].
    destruct (Z.eqb_spec ch QUOTE); [contradiction|].
    cbn [orb andb negb]. rewrite !andb_false_r. cbn [orb].
    destruct (Z.eqb_spec c (-1)); [lia|].
    rewrite push_last_snoc, IH by assumption.
    rewrite <- app_assoc. reflexivity.
Qed.

(** One argument, typed where an argument can start. *)
Lemma split_token (a : token) (n : list Z) (av : list (list Z)) (c : Z) :
  token_ok a -> 0 <= c ->
  exists c' nw, 0 <= c' /\
    fold_left split_step (token_chars a) (mkWords n av c true false)
    = mkWords n (av ++ [token_text a]) c' nw false.
Proof.
  intros Hok Hc. destruct a as [w|t]; cbn [token_ok token_chars token_text] in *.
  - destruct Hok as (Hne & Hb & Hq). destruct w as [|ch r]; [contradiction|].
    apply Forall_cons in Hb as [Hb Hr]. cbn [nth] in Hq. cbn [fold_left].
    destruct (not_blank_tests ch Hb) as [E1 E2].
    assert (Step : split_step (mkWords n av c true false) ch
                   = mkWords n (av ++ [[ch]]) c false false).
    { unfold split_step.
      cbn [w_lookForEndQuote w_newWord w_c w_name w_argv].
      rewrite E1, E2. destruct (Z.eqb_spec ch QUOTE); [contradiction|].
      cbn [orb andb negb]. destruct (Z.eqb_spec c (-1)); [lia|].
      rewrite push_last_snoc. reflexivity. }
    rewrite Step, split_word_rest by assumption.
    exists c, false. split; [exact Hc | reflexivity].
  - destruct Hok as (Hne & Hq). destruct t as [|ch r]; [contradiction|].
    apply Forall_cons in Hq as [Hq Hr]. cbn [fold_left app].
    assert (Step1 : split_step (mkWords n av c true false) QUOTE
                    = mkWords n av c true true).
    { reflexivity. }
    assert (Step2 : split_step (mkWords n av c true true) ch
                    = mkWords n (av ++ [[ch]]) c false true).
    { unfold split_step.
      cbn [w_lookForEndQuote w_newWord w_c w_name w_argv].
      destruct (Z.eqb_spec ch QUOTE); [contradiction|].
      cbn [orb andb negb]. rewrite !andb_false_r. cbn [orb].
      destruct (Z.eqb_spec c (-1)); [lia|].
      rewrite push_last_snoc. reflexivity. }
    rewrite Step1, Step2, fold_left_app, split_quoted_rest by assumption.
    cbn [fold_left app].
    exists (c + 1), true. split; [lia | reflexivity].
Qed.

(** The arguments of a line, each after its separators. *)
Lemma split_args (args : list (list Z * token)) :
  forall n av c nw,
  Forall (fun p => fst p <> [] /\ Forall blank (fst p) /\ token_ok (snd p))
    args ->
  -1 <= c -> (c = -1 -> nw = false) ->
  exists c' nw', -1 <= c' /\ (c' = -1 -> nw' = false) /\
    fold_left split_step
      (concat (map (fun p => fst p ++ token_chars (snd p)) args))
      (mkWords n av c nw false)
    = mkWords n (av ++ map (fun p => token_text (snd p)) args) c' nw' false.
Proof.
  induction args as [|[sep a] args IH]; intros n av c nw H Hc Hn.
  - exists c, nw. rewrite app_nil_r. auto.
  - apply Forall_cons in H as [(Hne & Hsep & Hok) H]. cbn [fst snd] in *.
    cbn [map concat fst snd]. rewrite !fold_left_app.
    destruct (split_blanks sep n av c nw Hsep Hne Hc Hn) as (c1 & Hc1 & ->).
    destruct (split_token a n av c1 Hok Hc1) as (c2 & nw2 & Hc2 & ->).
    destruct (IH n (av ++ [token_text a]) c2 nw2 H ltac:(lia) ltac:(lia))
      as (c3 & nw3 & Hc3 & Hn3 & ->).
    exists c3, nw3. rewrite <- app_assoc. auto.
Qed.

(** X23.  A line other than "exit" made of a command name, then
    arguments each after at least one space or tab, then spaces or
    tabs, is split into that name and those arguments: a plain word is an argument as typed (a
    quote inside it is an ordinary character), and a text between two
    double quotes is one argument with its spaces kept and the quotes
    dropped. *)
Theorem split_line_words (w0 : list Z) (args : list (list Z * token))
  (trail : list Z) :
  let input :=
    w0 ++ concat (map (fun p => fst p ++ token_chars (snd p)) args)
       ++ trail in
  w0 <> [] -> Forall (fun c => ~ blank c) w0 ->
  Forall (fun p => fst p <> [] /\ Forall blank (fst p) /\ token_ok (snd p))
    args ->
  Forall blank trail -> input <> str "exit" ->
  split_line input = Call w0 (map (fun p => token_text (snd p)) args).
Proof.
  intros input Hne Hw0 Hargs Htrail Hexit. unfold split_line, str_eqb.
  rewrite bool_decide_eq_false_2 by exact Hexit.
  subst input. rewrite !fold_left_app.
  rewrite (split_name w0 [] Hw0). cbn [app].
  destruct (split_args args w0 [] (-1) false Hargs ltac:(lia) ltac:(auto))
    as (c1 & nw1 & _ & _ & ->).
  destruct (split_trail trail w0 ([] ++ map (fun p => token_text (snd p)) args)
              c1 nw1 Htrail) as (c2 & nw2 & ->).
  cbn [w_lookForEndQuote w_name w_argv negb app].
  rewrite bool_decide_eq_false_2 by exact Hne. reflexivity.
Qed.

Lemma split_line_words_witness :
  split_line (str "write  f 0 " ++ QUOTE :: str "a b" ++ [QUOTE; SPACE])
  = Call (str "write") [str "f"; str "0"; str "a b"].
Proof.
  apply (split_line_words (str "write")
           [ ([SPACE; SPACE], Plain (str "f"));
             ([SPACE], Plain (str "0"));
             ([SPACE], Quoted (str "a b")) ] [SPACE]).
  - discriminate.
  - repeat (constructor; [unfold blank; intros [|]; discriminate|]).
    constructor.
  - repeat (constructor;
            [cbn [fst snd token_ok]; split; [discriminate|]; split;
             [repeat (constructor; [unfold blank; auto|]); constructor|];
             first [ split; [discriminate|]; split;
                     [repeat (constructor;
                              [unfold blank; intros [|]; discriminate|]);
                      constructor | discriminate]
                   | split; [discriminate|];
                     repeat (constructor; [discriminate|]); constructor ]|]).
    constructor.
  - constructor; [unfold blank; auto | constructor].
  - discriminate.
Defined.

(** A step never gives the line a name once an argument can start. *)
Lemma split_step_no_name (w : words) (ch : Z) :
  w_name w = [] -> 0 <= w_c w ->
  w_name (split_step w ch) = [] /\ 0 <= w_c (split_step w ch).
Proof.
  intros Hn Hc. unfold split_step.
  destruct (_ || _).
  - destruct (negb (w_newWord w)); cbn [w_name w_c]; split; auto; lia.
  - destruct (Z.eqb_spec (w_c w) (-1)); [lia|].
    destruct (w_newWord w); cbn [w_name w_c]; auto.
Qed.

Lemma split_fold_no_name (input : list Z) :
  forall w, w_name w = [] -> 0 <= w_c w ->
  w_name (fold_left split_step input w) = [].
Proof.
  induction input as [|ch input IH]; intros w Hn Hc; [exact Hn|].
  cbn [fold_left]. destruct (split_step_no_name w ch Hn Hc) as [Hn' Hc'].
  apply IH; assumption.
Qed.

(** X24.  A line that starts with a space or a tab never runs a
    command: what follows the first separator is taken for arguments
    of an empty name, and the line is skipped, or reported for its
    unclosed quote. *)
Theorem split_line_leading_blank (b : Z) (rest : list Z) :
  blank b ->
  split_line (b :: rest) = Skip \/ split_line (b :: rest) = Unclosed.
Proof.
  intros Hb. unfold split_line, str_eqb.
  rewrite bool_decide_eq_false_2.
  2:{ intros E. injection E as E _. destruct Hb as [-> | ->]; discriminate. }
  cbn [fold_left].
  destruct (blank_tests b Hb) as [E1 E2].
  assert (Step : split_step (mkWords [] [] (-1) false false) b
                 = mkWords [] [] 0 true false).
  { unfold split_step. cbn [w_lookForEndQuote w_newWord w_c w_name w_argv].
    rewrite E1, E2. reflexivity. }
  rewrite Step.
  pose proof (split_fold_no_name rest (mkWords [] [] 0 true false)
                eq_refl ltac:(cbn; lia)) as Hn.
  destruct (w_lookForEndQuote _); cbn [negb]; [right; reflexivity|].
  rewrite Hn. left. reflexivity.
Qed.

Lemma split_line_leading_blank_witness :
  split_line (SPACE :: str "ls") = Skip \/
  split_line (SPACE :: str "ls") = Unclosed.
Proof.
  apply (split_line_leading_blank SPACE (str "ls")). left. reflexivity.
Defined.

(** ** Transfers along the chain of a file *)

Lemma store_nil (buf : list Z) (off : nat) : store buf off [] = buf.
Proof.
  unfold store. cbn [length app]. rewrite Nat.add_0_r. apply take_drop.
Qed.

Lemma length_store (buf d : list Z) (off : nat) :
  (off + length d <= length buf)%nat ->
  length (store buf off d) = length buf.
Proof.
  intros H. unfold store. rewrite !length_app, length_take, length_drop. lia.
Qed.

Lemma store_store (buf d1 d2 : list Z) (a : nat) :
  (a + length d1 <= length buf)%nat ->
  store (store buf a d1) (a + length d1) d2 = store buf a (d1 ++ d2).
Proof.
  intros H. unfold store.
  assert (La : length (take a buf) = a) by (rewrite length_take; lia).
  rewrite (app_assoc (take a buf) d1).
  rewrite take_app_length' by (rewrite length_app, La; lia).
  rewrite drop_app_ge by (rewrite length_app, La; lia).
  rewrite length_app, La, drop_drop, <- !app_assoc.
  do 4 f_equal. rewrite length_app. lia.
Qed.

Lemma store_app_l (X Y d : list Z) (off : nat) :
  (off + length d <= length X)%nat ->
  store (X ++ Y) off d = store X off d ++ Y.
Proof.
  intros H. unfold store.
  rewrite take_app_le by lia. rewrite drop_app_le by lia.
  rewrite <- !app_assoc. reflexivity.
Qed.

Lemma store_app_r (X Y d : list Z) (off : nat) :
  store (X ++ Y) (length X + off) d = X ++ store Y off d.
Proof.
  unfold store.
  rewrite take_app_ge by lia. rewrite drop_app_ge by lia.
  rewrite <- !app_assoc. do 3 f_equal; f_equal; lia.
Qed.

Lemma store_app (X Y d1 d2 : list Z) (off : nat) :
  (off + length d1 <= length X)%nat ->
  (off + length d1)%nat = length X \/ d2 = [] ->
  store (X ++ Y) off (d1 ++ d2) = store X off d1 ++ store Y 0 d2.
Proof.
  intros H [E | ->].
  - rewrite <- store_store by (rewrite length_app; lia).
    rewrite store_app_l by lia.
    rewrite E, <- (length_store X d1 off) by lia.
    rewrite <- (Nat.add_0_r (length (store X off d1))).
    apply store_app_r.
  - rewrite app_nil_r, store_nil. apply store_app_l. exact H.
Qed.

Lemma take_drop_store (X d : list Z) (off : nat) :
  (off + length d <= length X)%nat ->
  take (length d) (drop off (store X off d)) = d.
Proof.
  intros H. unfold store.
  rewrite drop_app_length' by (rewrite length_take; lia).
  apply take_app_length.
Qed.

(** Taking across two pieces, when the first is used up or nothing is
    taken of the second. *)
Lemma take_app_pieces (X Y : list Z) (t n : nat) :
  (t <= length X)%nat -> t = length X \/ n = 0%nat ->
  take (t + n) (X ++ Y) = take t X ++ take n Y.
Proof.
  intros H [-> | ->].
  - rewrite take_app_add', firstn_all by reflexivity. reflexivity.
  - rewrite Nat.add_0_r, take_app_le by lia. cbn. rewrite app_nil_r.
    reflexivity.
Qed.

Lemma length_bytes_from (img : image) (pos : Z) (n : nat) :
  length (bytes_from img pos n) = n.
Proof. unfold bytes_from. rewrite length_map, length_seq. reflexivity. Qed.

Lemma bytes_from_nth (img : image) (pos : Z) (n k : nat) :
  (k < n)%nat ->
  nth k (bytes_from img pos n) 0 = byte_at img (pos + Z.of_nat k).
Proof.
  intros Hk. unfold bytes_from.
  rewrite (nth_indep _ 0 ((fun k => byte_at img (pos + Z.of_nat k)) 0%nat))
    by (rewrite length_map, length_seq; exact Hk).
  rewrite (map_nth (fun k => byte_at img (pos + Z.of_nat k)) (seq 0 n)
             0%nat k).
  rewrite seq_nth by exact Hk. reflexivity.
Qed.

Lemma bytes_from_ext (img img' : image) (pos : Z) (n : nat) :
  (forall k, (k < n)%nat ->
     byte_at img' (pos + Z.of_nat k) = byte_at img (pos + Z.of_nat k)) ->
  bytes_from img' pos n = bytes_from img pos n.
Proof.
  intros H. unfold bytes_from. apply map_ext_in. intros k Hk.
  apply in_seq in Hk. apply H. lia.
Qed.

Lemma bytes_from_part (img : image) (pos : Z) (n o t : nat) :
  (o + t <= n)%nat ->
  take t (drop o (bytes_from img pos n)) = bytes_from img (pos + Z.of_nat o) t.
Proof.
  intros H. apply (nth_ext _ _ 0 0).
  - rewrite length_take, length_drop, !length_bytes_from. lia.
  - intros k Hk.
    rewrite length_take, length_drop, length_bytes_from in Hk.
    rewrite nth_firstn. destruct (Nat.ltb_spec k t); [|lia].
    rewrite nth_skipn, !bytes_from_nth by lia. f_equal. lia.
Qed.

Lemma length_cluster_bytes (s : Filesys) (c : Z) :
  length (cluster_bytes s c) = Z.to_nat (cluster_len (finfo_ s)).
Proof. apply length_bytes_from. Qed.

Lemma length_chain_bytes (s : Filesys) (l : list Z) :
  length (chain_bytes s l)
  = (length l * Z.to_nat (cluster_len (finfo_ s)))%nat.
Proof.
  induction l as [|c l IH]; [reflexivity|].
  unfold chain_bytes in *. cbn [map concat length].
  rewrite length_app, IH, length_cluster_bytes. lia.
Qed.

Lemma chain_bytes_app (s : Filesys) (l1 l2 : list Z) :
  chain_bytes s (l1 ++ l2) = chain_bytes s l1 ++ chain_bytes s l2.
Proof. unfold chain_bytes. rewrite map_app, concat_app. reflexivity. Qed.

(** Two clusters of the volume do not overlap. *)
Lemma clusters_apart (fi : Fat32Info) (c c' j : Z) :
  wf_geometry fi -> in_volume fi c -> in_volume fi c' -> c <> c' ->
  span (cluster_pos fi c) (cluster_pos fi c + cluster_len fi) j ->
  ~ span (cluster_pos fi c') (cluster_pos fi c' + cluster_len fi) j.
Proof.
  intros WF Hc Hc' Hne.
  destruct (cluster_pos_wf fi WF c Hc) as (-> & _ & _).
  destruct (cluster_pos_wf fi WF c' Hc') as (-> & _ & _).
  destruct (cluster_len_wf fi WF) as [-> Hl].
  unfold span. intros H H'.
  assert (c < c' \/ c' < c) as [L | L] by lia; nia.
Qed.

(** The bytes of a cluster are those of the image before a change that
    leaves the cluster alone. *)
Lemma cluster_bytes_frame (P : Z -> Prop) (s s' : Filesys) (c : Z) :
  wf_geometry (finfo_ s) -> in_volume (finfo_ s) c -> frame P s s' ->
  (forall j, span (cluster_pos (finfo_ s) c)
               (cluster_pos (finfo_ s) c + cluster_len (finfo_ s)) j ->
             ~ P j) ->
  cluster_bytes s' c = cluster_bytes s c.
Proof.
  intros WF Hc F Hout. unfold cluster_bytes.
  rewrite (frame_finfo _ _ _ F).
  destruct (cluster_pos_wf _ WF c Hc) as (_ & Hlo & _).
  destruct (cluster_len_wf _ WF) as [_ Hl].
  pose proof (wf_BytesPerSec _ WF) as HB.
  pose proof (wf_FirstDataSec _ WF) as HD.
  apply bytes_from_ext. intros k Hk.
  apply (frame_byte_at P); [exact F | |].
  - assert (0 <= FirstDataSec (finfo_ s) * BytesPerSec (finfo_ s)).
    { pose proof (wf_FsInfo _ WF). pose proof (wf_NumFats _ WF).
      pose proof (wf_FATSz _ WF). nia. }
    lia.
  - apply Hout. unfold span. lia.
Qed.

Lemma chain_bytes_frame (P : Z -> Prop) (s s' : Filesys) (l : list Z) :
  wf_geometry (finfo_ s) -> Forall (in_volume (finfo_ s)) l ->
  frame P s s' ->
  (forall j, chain_area (finfo_ s) l j -> ~ P j) ->
  chain_bytes s' l = chain_bytes s l.
Proof.
  intros WF Hv F Hout. unfold chain_bytes. f_equal.
  apply map_ext_in. intros c Hc. apply list_elem_of_In in Hc.
  apply (cluster_bytes_frame P); auto.
  - rewrite Forall_forall in Hv. apply Hv. exact Hc.
  - intros j Hj. apply Hout. exists c. auto.
Qed.

(** The values of one round of the second loop of [FileOperate]. *)
Lemma round_values (s : Filesys) (c off length_ amount : Z) :
  wf_volume s -> in_volume (finfo_ s) c ->
  0 <= off < cluster_len (finfo_ s) ->
  0 <= amount < length_ -> length_ < 4294967296 ->
  let fi := finfo_ s in
  let tran := Z.min (length_ - amount) (cluster_len fi - off) in
  u32 (u32 (BytesPerSec fi * SecPerClus fi) - off) = cluster_len fi - off /\
  u32 (length_ - amount) = length_ - amount /\
  u32 (u32 (BytesPerSec fi * GetFirstSectorOfClus fi c) + off)
    = cluster_pos fi c + off /\
  u32 (amount + tran) = amount + tran /\
  0 <= cluster_pos fi c /\
  1 * tran + (cluster_pos fi c + off) < filesys_size (mFilesys_ s) /\
  c < FATEND.
Proof.
  intros WV Hc Ho Ha Hl fi tran. pose proof (wf_geom _ WV) as WF.
  destruct (cluster_pos_wf _ WF c Hc) as (_ & Hlo & Hhi).
  destruct (cluster_len_wf _ WF) as [El Hlen].
  pose proof (wf_mapped _ WV) as Mp. pose proof (wf_fits32 _ WF) as H32.
  pose proof (volume_size s WV) as (_ & _ & Sz).
  pose proof (wf_BytesPerSec _ WF) as HB.
  pose proof (in_volume_small _ _ WF Hc) as Hs.
  fold (cluster_len fi). fold (cluster_pos fi c). subst fi tran.
  assert (0 <= FirstDataSec (finfo_ s) * BytesPerSec (finfo_ s)).
  { pose proof (wf_FsInfo _ WF). pose proof (wf_NumFats _ WF).
    pose proof (wf_FATSz _ WF). pose proof (wf_FirstDataSec _ WF). nia. }
  repeat split; try (apply u32_small); unfold FATEND; try lia.
Qed.

Lemma read_chars_eq (buf : list Z) (off len pos : Z) (s : Filesys) :
  bytes_ok (mFilesys_ s) -> 1 * len + pos < filesys_size (mFilesys_ s) ->
  read_chars buf off len pos s
  = Some (store buf (Z.to_nat off)
            (bytes_from (mFilesys_ s) pos (Z.to_nat len)), s).
Proof.
  intros By H. unfold read_chars, ReadValue.
  destruct (Z.geb_spec (1 * len + pos) (filesys_size (mFilesys_ s))); [lia|].
  rewrite read_elems_1_bytes by exact By. reflexivity.
Qed.

(** The second loop of [FileOperate] when it reads. *)
Lemma read_loop (s : Filesys) (length_ : Z) (cur : Z) (l : list Z) :
  wf_volume s -> 0 <= length_ < 4294967296 ->
  chain s cur l -> Forall (in_volume (finfo_ s)) l ->
  forall (fuel : nat) (buf : list Z) (amount off : Z),
  0 <= off < cluster_len (finfo_ s) -> 0 <= amount <= length_ ->
  length_ - amount <= Z.of_nat fuel -> length_ <= Z.of_nat (length buf) ->
  let data := drop (Z.to_nat off) (chain_bytes s l) in
  let n := Z.min (length_ - amount) (Z.of_nat (length data)) in
  FileOperate_loop fuel read_chars buf length_ amount cur off s
  = Ret (amount + n, store buf (Z.to_nat amount) (take (Z.to_nat n) data)) s.
Proof.
  intros WV Hl Hch. pose proof (wf_geom _ WV) as WF.
  induction Hch as [c m E Hm | c m l E Hm Hch IH];
    intros Hv fuel buf amount off Ho Ha Hf Hb data n.
  all: apply Forall_cons in Hv as [Hc Hv].
  all: destruct (Z.eq_dec amount length_) as [Eq | Ne].
  all: try (assert (n = 0) as -> by (subst n; lia);
            change (Z.to_nat 0) with 0%nat; cbn [take];
            rewrite store_nil, Z.add_0_r;
            destruct fuel; cbn [FileOperate_loop];
            (destruct (Z.ltb_spec amount length_); [lia|]); reflexivity).
  all: destruct (round_values s c off length_ amount WV Hc Ho ltac:(lia)
                   ltac:(lia)) as (R1 & R2 & R3 & R4 & R5 & R6 & R7).
  all: destruct fuel as [|fuel]; [lia|].
  all: cbn [FileOperate_loop]; cbv zeta.
  all: destruct (Z.ltb_spec amount length_); [|lia].
  all: destruct (Z.ltb_spec c FATEND); [|lia].
  all: cbn [andb]; rewrite R1, R2, R3.
  all: set (tran := if length_ - amount >? cluster_len (finfo_ s) - off
                    then cluster_len (finfo_ s) - off
                    else length_ - amount).
  all: assert (Et : tran = Z.min (length_ - amount)
                             (cluster_len (finfo_ s) - off))
         by (subst tran; destruct (Z.gtb_spec (length_ - amount)
                                     (cluster_len (finfo_ s) - off)); lia).
  all: rewrite <- Et in R4, R6; rewrite R4.
  all: rewrite (read_chars_eq buf amount tran
                 (cluster_pos (finfo_ s) c + off) s (wf_bytes _ WV) R6).
  all: rewrite E.
  all: pose proof (length_cluster_bytes s c) as Lc.
  all: assert (Ed : bytes_from (mFilesys_ s) (cluster_pos (finfo_ s) c + off)
                      (Z.to_nat tran)
                    = take (Z.to_nat tran)
                        (drop (Z.to_nat off) (cluster_bytes s c)))
         by (unfold cluster_bytes; rewrite bytes_from_part by lia;
             f_equal; lia).
  - (* the last cluster of the chain *)
    destruct fuel; cbn [FileOperate_loop];
      (destruct (Z.ltb_spec m FATEND); [lia|]); rewrite andb_false_r.
    all: subst data n; unfold chain_bytes; cbn [map concat];
      rewrite app_nil_r, length_drop, Lc.
    all: replace (Z.min (length_ - amount)
                    (Z.of_nat (Z.to_nat (cluster_len (finfo_ s))
                               - Z.to_nat off)))
           with tran by lia.
    all: rewrite Ed; reflexivity.
  - (* a cluster followed by others *)
    specialize (IH Hv fuel
                  (store buf (Z.to_nat amount)
                     (bytes_from (mFilesys_ s)
                        (cluster_pos (finfo_ s) c + off) (Z.to_nat tran)))
                  (amount + tran) 0).
    cbv zeta in IH. rewrite IH; clear IH; try lia.
    2:{ rewrite length_store; rewrite ?length_bytes_from; lia. }
    change (Z.to_nat 0) with 0%nat. rewrite drop_0.
    set (n' := Z.min (length_ - (amount + tran))
                 (Z.of_nat (length (chain_bytes s l)))).
    assert (Hn' : 0 <= n') by lia.
    assert (En : n = tran + n').
    { subst n n' data. unfold chain_bytes. cbn [map concat].
      fold (chain_bytes s l).
      rewrite length_drop, length_app, Lc. lia. }
    rewrite En, Z.add_assoc. do 2 f_equal.
    replace (Z.to_nat (amount + tran))
      with (Z.to_nat amount
            + length (bytes_from (mFilesys_ s)
                        (cluster_pos (finfo_ s) c + off) (Z.to_nat tran)))%nat
      by (rewrite length_bytes_from; lia).
    rewrite store_store by (rewrite length_bytes_from; lia).
    f_equal. subst data. unfold chain_bytes. cbn [map concat].
    fold (chain_bytes s l).
    rewrite drop_app_le by lia.
    rewrite Z2Nat.inj_add by lia.
    rewrite take_app_pieces; [rewrite Ed; reflexivity | |].
    + rewrite length_drop, Lc. lia.
    + rewrite length_drop, Lc. subst n'. lia.
Qed.

Lemma write_chars_eq (data : list Z) (off len pos : Z) (s : Filesys) :
  1 * len + pos < filesys_size (mFilesys_ s) ->
  write_chars data off len pos s
  = Some (data,
          set_image s
            (write_elems (mFilesys_ s) pos 1
               (take (Z.to_nat len) (drop (Z.to_nat off) data)))).
Proof.
  intros H. unfold write_chars, WriteValue.
  destruct (Z.geb_spec (1 * len + pos) (filesys_size (mFilesys_ s))); [lia|].
  reflexivity.
Qed.

Lemma take_add (X : list Z) (a b : nat) :
  take (a + b) X = take a X ++ take b (drop a X).
Proof.
  revert X. induction a as [|a IH]; intros X; [reflexivity|].
  destruct X as [|x X]; cbn [Nat.add take drop app].
  - destruct b; reflexivity.
  - rewrite IH. reflexivity.
Qed.

Lemma nth_store (X d : list Z) (off k : nat) :
  (off + length d <= length X)%nat ->
  nth k (store X off d) 0
  = if (k <? off)%nat then nth k X 0
    else if (k <? off + length d)%nat then nth (k - off) d 0
    else nth k X 0.
Proof.
  intros H. unfold store.
  assert (La : length (take off X) = off) by (rewrite length_take; lia).
  destruct (Nat.ltb_spec k off).
  - rewrite app_nth1 by lia. rewrite nth_firstn.
    destruct (Nat.ltb_spec k off); [reflexivity | lia].
  - rewrite app_nth2 by lia. rewrite La.
    destruct (Nat.ltb_spec k (off + length d)).
    + rewrite app_nth1 by lia. reflexivity.
    + rewrite app_nth2 by lia. rewrite nth_skipn. f_equal. lia.
Qed.

(** One transfer into a cluster. *)
Lemma cluster_write (s : Filesys) (c off : Z) (d : list Z) :
  wf_volume s -> in_volume (finfo_ s) c -> Forall is_byte d ->
  0 <= off -> off + Z.of_nat (length d) <= cluster_len (finfo_ s) ->
  let s1 :=
    set_image s
      (write_elems (mFilesys_ s) (cluster_pos (finfo_ s) c + off) 1 d) in
  frame (span (cluster_pos (finfo_ s) c + off)
           (cluster_pos (finfo_ s) c + off + Z.of_nat (length d))) s s1 /\
  cluster_bytes s1 c = store (cluster_bytes s c) (Z.to_nat off) d.
Proof.
  intros WV Hc Hd Ho Hlen s1. pose proof (wf_geom _ WV) as WF.
  destruct (cluster_pos_wf _ WF c Hc) as (_ & Hlo & Hhi).
  destruct (cluster_len_wf _ WF) as [El Hl].
  pose proof (wf_mapped _ WV) as Mp.
  pose proof (wf_BytesPerSec _ WF) as HB.
  assert (H0 : 0 <= cluster_pos (finfo_ s) c).
  { pose proof (wf_FsInfo _ WF). pose proof (wf_NumFats _ WF).
    pose proof (wf_FATSz _ WF). pose proof (wf_FirstDataSec _ WF). nia. }
  split.
  - split.
    + repeat split.
    + subst s1. cbn [mFilesys_ set_image]. apply length_write_elems.
    + intros By. subst s1. cbn [mFilesys_ set_image].
      apply bytes_ok_write_elems. exact By.
    + intros j Hj Hout. subst s1. cbn [mFilesys_ set_image].
      apply byte_at_write_elems_1_other; unfold span in Hout; lia.
  - apply (nth_ext _ _ 0 0).
    + rewrite length_store; rewrite !length_cluster_bytes; subst s1;
        cbn [finfo_ set_image]; lia.
    + intros k Hk. rewrite length_cluster_bytes in Hk.
      subst s1. cbn [finfo_ set_image] in Hk.
      rewrite nth_store by (rewrite length_cluster_bytes; lia).
      unfold cluster_bytes. cbn [finfo_ mFilesys_ set_image].
      rewrite !bytes_from_nth by lia.
      destruct (Nat.ltb_spec k (Z.to_nat off)).
      * apply byte_at_write_elems_1_other; lia.
      * destruct (Nat.ltb_spec k (Z.to_nat off + length d)).
        -- replace (cluster_pos (finfo_ s) c + Z.of_nat k)
             with (cluster_pos (finfo_ s) c + off
                   + Z.of_nat (k - Z.to_nat off)) by lia.
           rewrite byte_at_write_elems_1_in by lia.
           apply Z.mod_small.
           rewrite Forall_forall in Hd. apply Hd.
           apply list_elem_of_In. apply nth_In. lia.
        -- apply byte_at_write_elems_1_other; lia.
Qed.

(** A change inside the data area leaves every chain as it is. *)
Lemma chain_off_fat (P : Z -> Prop) (s s' : Filesys) (n : Z) (l : list Z) :
  wf_geometry (finfo_ s) -> Forall (in_volume (finfo_ s)) l ->
  frame P s s' -> (forall j, P j -> ~ fat_area (finfo_ s) j) ->
  chain s n l -> chain s' n l.
Proof.
  intros WF Hv F Hout Hch. apply (chain_frame s); [exact Hch|].
  intros x Hx. apply (GetNextClus_outside P); auto.
  apply in_volume_is_fit; [exact WF|].
  rewrite Forall_forall in Hv. apply Hv. exact Hx.
Qed.

Lemma chain_area_data (fi : Fat32Info) (l : list Z) (j : Z) :
  wf_geometry fi -> Forall (in_volume fi) l -> chain_area fi l j ->
  ~ fat_area fi j.
Proof.
  intros WF Hv (c & Hc & Hj).
  rewrite Forall_forall in Hv.
  pose proof (cluster_in_data fi c j WF (Hv c Hc) Hj) as D.
  unfold data_area in D. unfold fat_area, span. lia.
Qed.

(** The second loop of [FileOperate] when it writes. *)
Lemma write_loop (length_ : Z) (data : list Z) (l : list Z) :
  0 <= length_ < 4294967296 -> length_ <= Z.of_nat (length data) ->
  Forall is_byte data ->
  forall (s : Filesys) (cur : Z) (fuel : nat) (amount off : Z),
  wf_volume s -> chain s cur l -> Forall (in_volume (finfo_ s)) l ->
  0 <= off < cluster_len (finfo_ s) -> 0 <= amount <= length_ ->
  length_ - amount <= Z.of_nat fuel ->
  let n := Z.min (length_ - amount)
             (Z.of_nat (length l) * cluster_len (finfo_ s) - off) in
  exists s',
    FileOperate_loop fuel write_chars data length_ amount cur off s
    = Ret (amount + n, data) s' /\
    frame (chain_area (finfo_ s) l) s s' /\
    chain_bytes s' l
    = store (chain_bytes s l) (Z.to_nat off)
        (take (Z.to_nat n) (drop (Z.to_nat amount) data)).
Proof.
  intros Hl Hdata By.
  induction l as [|c l IH]; intros s cur fuel amount off WV Hch Hv Ho Ha Hf n.
  { apply chain_head in Hch as [? ?]. discriminate. }
  pose proof (wf_geom _ WV) as WF.
  destruct (cluster_len_wf _ WF) as [_ Hlen].
  assert (cur = c) as ->.
  { apply chain_head in Hch as [? E]. injection E as -> _. reflexivity. }
  pose proof (chain_NoDup _ _ _ Hch) as ND.
  apply NoDup_cons in ND as [Hnotin _].
  apply Forall_cons in Hv as [Hc Hv].
  destruct (Z.eq_dec amount length_) as [Eq | Ne].
  { assert (n = 0) as -> by (subst n; cbn [length]; nia).
    exists s. change (Z.to_nat 0) with 0%nat. cbn [take].
    rewrite store_nil, Z.add_0_r. split; [|split; [apply frame_refl|]].
    - destruct fuel; cbn [FileOperate_loop];
        (destruct (Z.ltb_spec amount length_); [lia|]); reflexivity.
    - reflexivity. }
  destruct (round_values s c off length_ amount WV Hc Ho ltac:(lia)
              ltac:(lia)) as (R1 & R2 & R3 & R4 & R5 & R6 & R7).
  destruct fuel as [|fuel]; [lia|].
  cbn [FileOperate_loop]; cbv zeta.
  destruct (Z.ltb_spec amount length_); [|lia].
  destruct (Z.ltb_spec c FATEND); [|lia].
  cbn [andb]; rewrite R1, R2, R3.
  set (tran := if length_ - amount >? cluster_len (finfo_ s) - off
               then cluster_len (finfo_ s) - off
               else length_ - amount).
  assert (Et : tran = Z.min (length_ - amount)
                        (cluster_len (finfo_ s) - off))
    by (subst tran; destruct (Z.gtb_spec (length_ - amount)
                                (cluster_len (finfo_ s) - off)); lia).
  rewrite <- Et in R4, R6; rewrite R4.
  rewrite (write_chars_eq data amount tran
             (cluster_pos (finfo_ s) c + off) s R6).
  set (d1 := take (Z.to_nat tran) (drop (Z.to_nat amount) data)).
  assert (Ld1 : length d1 = Z.to_nat tran).
  { subst d1. rewrite length_take, length_drop. lia. }
  assert (Bd1 : Forall is_byte d1).
  { subst d1. apply Forall_take, Forall_drop. exact By. }
  destruct (cluster_write s c off d1 WV Hc Bd1 ltac:(lia) ltac:(lia))
    as [F1 W1].
  set (s1 := set_image s
               (write_elems (mFilesys_ s) (cluster_pos (finfo_ s) c + off)
                  1 d1)) in *.
  assert (Hin1 : forall j,
            span (cluster_pos (finfo_ s) c + off)
              (cluster_pos (finfo_ s) c + off + Z.of_nat (length d1)) j ->
            span (cluster_pos (finfo_ s) c)
              (cluster_pos (finfo_ s) c + cluster_len (finfo_ s)) j).
  { unfold span. intros j Hj. lia. }
  assert (Hout1 : forall j,
            span (cluster_pos (finfo_ s) c + off)
              (cluster_pos (finfo_ s) c + off + Z.of_nat (length d1)) j ->
            ~ fat_area (finfo_ s) j).
  { intros j Hj. apply (chain_area_data _ [c]); [exact WF | | ].
    - constructor; [exact Hc | constructor].
    - exists c. split; [constructor | apply Hin1; exact Hj]. }
  assert (E1 : GetNextClus c s1 = GetNextClus c s).
  { apply (GetNextClus_outside _ c s s1 WF
             (in_volume_is_fit _ _ WF Hc) F1 Hout1). }
  rewrite E1.
  pose proof (length_cluster_bytes s c) as Lc.
  inversion Hch as [c' m E Hm | c' m l' E Hm Hch']; subst.
  - (* the last cluster of the chain *)
    rewrite E.
    exists s1. split; [|split].
    + destruct fuel; cbn [FileOperate_loop];
        (destruct (Z.ltb_spec m FATEND); [lia|]); rewrite andb_false_r.
      all: do 2 f_equal; subst n; cbn [length]; lia.
    + apply (frame_weaken _ _ _ _ F1). intros j Hj.
      exists c. split; [constructor | apply Hin1; exact Hj].
    + unfold chain_bytes. cbn [map concat]. rewrite !app_nil_r, W1.
      f_equal. subst d1 n. cbn [length]. do 2 f_equal. lia.
  - (* a cluster followed by others *)
    rewrite E.
    assert (WV1 : wf_volume s1) by (apply (frame_wf _ _ _ F1 WV)).
    assert (Hch1 : chain s1 m l).
    { apply (chain_off_fat _ s s1 m l WF Hv F1 Hout1 Hch'). }
    destruct (IH s1 m fuel (amount + tran) 0 WV1 Hch1 Hv ltac:(cbn; lia)
                ltac:(lia) ltac:(lia)) as (s' & Run & F2 & W2).
    assert (Ef : finfo_ s1 = finfo_ s) by reflexivity.
    rewrite Ef in Run, F2, W2.
    set (n' := Z.min (length_ - (amount + tran))
                 (Z.of_nat (length l) * cluster_len (finfo_ s) - 0)) in *.
    assert (Hn' : 0 <= n') by (subst n'; nia).
    assert (En : n = tran + n').
    { subst n n'. cbn [length]. nia. }
    exists s'. split; [|split].
    + rewrite Run, En, Z.add_assoc. reflexivity.
    + apply (frame_trans _ _ _ s s1 s' F1 F2).
      * intros j Hj. exists c. split; [constructor | apply Hin1; exact Hj].
      * intros j (x & Hx & Hj). exists x. split; [|exact Hj].
        apply elem_of_cons. right. exact Hx.
    + unfold chain_bytes. cbn [map concat].
      fold (chain_bytes s' l). fold (chain_bytes s l).
      assert (Ec : cluster_bytes s' c = cluster_bytes s1 c).
      { apply (cluster_bytes_frame _ s1 s' c WF Hc F2).
        intros j Hj (x & Hx & Hjx).
        apply (clusters_apart _ c x j WF Hc); auto.
        - rewrite Forall_forall in Hv. apply Hv. exact Hx.
        - intros ->. contradiction. }
      assert (El : chain_bytes s1 l = chain_bytes s l).
      { apply (chain_bytes_frame _ s s1 l WF Hv F1).
        intros j (x & Hx & Hjx) Hj.
        apply (clusters_apart _ c x j WF Hc); auto.
        - rewrite Forall_forall in Hv. apply Hv. exact Hx.
        - intros ->. contradiction. }
      rewrite Ec, W1, W2, El. change (Z.to_nat 0) with 0%nat.
      rewrite En, (Z2Nat.inj_add tran n'), take_add by lia.
      fold d1. rewrite drop_drop.
      replace (Z.to_nat amount + Z.to_nat tran)%nat
        with (Z.to_nat (amount + tran)) by lia.
      symmetry. apply store_app.
      * rewrite Lc. lia.
      * rewrite Lc, Ld1.
        destruct (Z.eq_dec tran (cluster_len (finfo_ s) - off)) as [T | T];
          [left; lia | right].
        assert (n' = 0) as -> by (subst n'; lia). reflexivity.
Qed.

(** The first loop of [FileOperate] walks [q] links of the chain. *)
Lemma seek_ok (s : Filesys) (cur : Z) (l : list Z) :
  chain s cur l ->
  forall q : nat,
  FileOperate_seek q cur s
  = Val (if (q <? length l)%nat then Some (nth q l 0) else None) /\
  ((q < length l)%nat -> chain s (nth q l 0) (drop q l)).
Proof.
  intros H. induction H as [c m E Hm | c m l E Hm Hch IH]; intros q.
  - destruct q as [|q].
    + split; [reflexivity|]. intros _. apply (chain_end s c m E Hm).
    + cbn [FileOperate_seek]. rewrite E. cbn [res_bind].
      destruct (Z.geb_spec m FATEND); [|lia].
      split; [reflexivity|]. cbn [length]. lia.
  - destruct q as [|q].
    + split; [reflexivity|]. intros _. apply (chain_next s c m l E Hm Hch).
    + cbn [FileOperate_seek]. rewrite E. cbn [res_bind].
      destruct (Z.geb_spec m FATEND); [lia|].
      destruct (IH q) as [-> Hc]. cbn [length nth drop].
      change (S q <? S (length l))%nat with (q <? length l)%nat.
      split; [reflexivity|]. intros Hq. apply Hc. lia.
Qed.

Lemma FileOperate_run (funct : transfer) (stream : list Z)
  (start length_ : Z) (file : FileEntry) (l : list Z) (s : Filesys) :
  chain s (clus file) l ->
  let q := Z.to_nat (start / cluster_len (finfo_ s)) in
  FileOperate funct stream start length_ file s
  = if (q <? length l)%nat
    then FileOperate_loop (Z.to_nat length_) funct stream length_ 0
           (nth q l 0) (start mod cluster_len (finfo_ s)) s
    else Ret (0, stream) s.
Proof.
  intros Hch q. unfold FileOperate. cbv zeta.
  fold (cluster_len (finfo_ s)). fold q.
  destruct (seek_ok s (clus file) l Hch q) as [-> _].
  destruct (q <? length l)%nat; reflexivity.
Qed.

(** What is left of a file [start] bytes in. *)
Lemma chain_bytes_drop (s : Filesys) (l : list Z) (start : Z) :
  0 <= start -> 0 < cluster_len (finfo_ s) ->
  let q := Z.to_nat (start / cluster_len (finfo_ s)) in
  drop (Z.to_nat start) (chain_bytes s l)
  = drop (Z.to_nat (start mod cluster_len (finfo_ s)))
      (chain_bytes s (drop q l)).
Proof.
  intros Hs Hc q.
  pose proof (Z.div_mod start (cluster_len (finfo_ s)) ltac:(lia)) as Dm.
  pose proof (Z.mod_pos_bound start (cluster_len (finfo_ s)) Hc) as Hr.
  assert (Hq : 0 <= start / cluster_len (finfo_ s))
    by (apply Z.div_pos; lia).
  assert (Eq : (q * Z.to_nat (cluster_len (finfo_ s)))%nat
               = Z.to_nat (cluster_len (finfo_ s)
                           * (start / cluster_len (finfo_ s)))).
  { subst q. rewrite Z2Nat.inj_mul by lia. lia. }
  destruct (Nat.le_gt_cases q (length l)) as [Le | Gt].
  - rewrite <- (take_drop q l) at 1. rewrite chain_bytes_app.
    assert (Lt : length (chain_bytes s (take q l))
                 = (q * Z.to_nat (cluster_len (finfo_ s)))%nat).
    { rewrite length_chain_bytes, length_take. f_equal. lia. }
    rewrite drop_app_ge by lia. f_equal. lia.
  - rewrite (drop_ge l q) by lia.
    rewrite drop_ge;
      [unfold chain_bytes; cbn [map concat]; rewrite drop_nil; reflexivity|].
    rewrite length_chain_bytes.
    assert ((length l * Z.to_nat (cluster_len (finfo_ s)))%nat
            <= (q * Z.to_nat (cluster_len (finfo_ s)))%nat)%nat
      by (apply Nat.mul_le_mono_r; lia).
    lia.
Qed.

(** [FileOperate] with [ReadValue]: the buffer receives the bytes of
    the file from [start] on. *)
Lemma FileOperate_read_chain (buf : list Z) (start length_ : Z)
  (file : FileEntry) (l : list Z) (s : Filesys) :
  wf_volume s -> valid_chain s (clus file) l ->
  0 <= start -> 0 <= length_ < 4294967296 ->
  length_ <= Z.of_nat (length buf) ->
  let data := drop (Z.to_nat start) (chain_bytes s l) in
  let n := Z.min length_ (Z.of_nat (length data)) in
  FileOperate read_chars buf start length_ file s
  = Ret (n, store buf 0 (take (Z.to_nat n) data)) s.
Proof.
  intros WV [Hch Hv] Hs Hl Hb data n. pose proof (wf_geom _ WV) as WF.
  destruct (cluster_len_wf _ WF) as [_ Hlen].
  pose proof (chain_bytes_drop s l start Hs ltac:(lia)) as Ed.
  cbv zeta in Ed. fold data in Ed.
  rewrite (FileOperate_run _ _ _ _ _ l s Hch).
  set (q := Z.to_nat (start / cluster_len (finfo_ s))) in *.
  destruct (Nat.ltb_spec q (length l)) as [Lt | Ge].
  - destruct (seek_ok s (clus file) l Hch q) as [_ Hq].
    pose proof (read_loop s length_ (nth q l 0) (drop q l) WV Hl (Hq Lt)
                  (Forall_drop _ q l Hv) (Z.to_nat length_) buf 0
                  (start mod cluster_len (finfo_ s))
                  (Z.mod_pos_bound start (cluster_len (finfo_ s))
                     ltac:(lia)) ltac:(lia) ltac:(lia) Hb)
      as Run.
    cbv zeta in Run. rewrite <- Ed, Z.sub_0_r, Z.add_0_l in Run.
    exact Run.
  - assert (data = []) as E.
    { rewrite Ed, (drop_ge l q) by lia. unfold chain_bytes. cbn.
      apply drop_nil. }
    assert (n = 0) as -> by (subst n; rewrite E; cbn [length]; lia).
    change (Z.to_nat 0) with 0%nat. cbn [take]. rewrite store_nil.
    reflexivity.
Qed.

(** X25.  Reading through [FileOperate] from a file whose chain is [l]
    returns the number of bytes asked for, cut at the end of the last
    cluster of the chain, and puts that many bytes of the clusters of
    the chain, taken in chain order from offset [start], at the head of
    the buffer; the rest of the buffer and the volume are unchanged.
    A start at or beyond the end of the chain returns 0. *)
Theorem FileOperate_reads (buf : list Z) (start length_ : Z)
  (file : FileEntry) (l : list Z) (s : Filesys) :
  wf_volume s -> valid_chain s (clus file) l ->
  0 <= start -> 0 <= length_ < 4294967296 ->
  length_ <= Z.of_nat (length buf) ->
  let data := drop (Z.to_nat start) (chain_bytes s l) in
  let n := Z.min length_ (Z.of_nat (length data)) in
  FileOperate read_chars buf start length_ file s
  = Ret (n, take (Z.to_nat n) data ++ drop (Z.to_nat n) buf) s /\
  (Z.of_nat (length l) * cluster_len (finfo_ s) <= start -> n = 0).
Proof.
  intros WV Hc Hs Hl Hb data n. split.
  - rewrite (FileOperate_read_chain buf start length_ file l s WV Hc Hs Hl Hb).
    fold data. fold n. unfold store. rewrite take_0, length_take.
    cbn [app]. do 4 f_equal. subst n. lia.
  - intros Hend. subst n data.
    rewrite length_drop, length_chain_bytes.
    destruct (cluster_len_wf _ (wf_geom _ WV)) as [_ Hlen].
    assert (Z.of_nat (length l * Z.to_nat (cluster_len (finfo_ s)))
            = Z.of_nat (length l) * cluster_len (finfo_ s)) by nia.
    lia.
Qed.

Lemma FileOperate_reads_witness :
  FileOperate read_chars (replicate 6 0) 510 6 Sample.hello Sample.mounted
  = Ret (Z.min 6 (Z.of_nat (length (drop (Z.to_nat 510)
                                     (chain_bytes Sample.mounted [3; 4])))),
         take (Z.to_nat (Z.min 6 (Z.of_nat (length (drop (Z.to_nat 510)
                                     (chain_bytes Sample.mounted [3; 4]))))))
           (drop (Z.to_nat 510) (chain_bytes Sample.mounted [3; 4]))
         ++ drop (Z.to_nat (Z.min 6 (Z.of_nat (length (drop (Z.to_nat 510)
                                     (chain_bytes Sample.mounted [3; 4]))))))
              (replicate 6 0))
        Sample.mounted.
Proof.
  apply (FileOperate_reads (replicate 6 0) 510 6 Sample.hello [3; 4]
           Sample.mounted mounted_wf hello_chain).
  - lia.
  - lia.
  - vm_compute. discriminate.
Defined.

(** X26.  Writing through [FileOperate] into a file whose chain is [l]
    returns the number of bytes asked for, cut at the end of the last
    cluster of the chain; it changes bytes of the clusters of the chain
    only, leaves the chain as it is, and stores that many bytes of the
    data at offset [start] of the content of the chain.  Reading the
    same range afterwards returns the bytes written. *)
Theorem FileOperate_write_then_read (data : list Z) (start length_ : Z)
  (file : FileEntry) (l : list Z) (s : Filesys) :
  wf_volume s -> valid_chain s (clus file) l ->
  0 <= start -> 0 <= length_ < 4294967296 ->
  length_ <= Z.of_nat (length data) -> Forall is_byte data ->
  let n := Z.min length_
             (Z.of_nat (length (drop (Z.to_nat start) (chain_bytes s l)))) in
  exists s',
    FileOperate write_chars data start length_ file s = Ret (n, data) s' /\
    frame (chain_area (finfo_ s) l) s s' /\
    valid_chain s' (clus file) l /\
    chain_bytes s' l
    = store (chain_bytes s l) (Z.to_nat start) (take (Z.to_nat n) data) /\
    forall buf, length_ <= Z.of_nat (length buf) ->
      FileOperate read_chars buf start length_ file s'
      = Ret (n, take (Z.to_nat n) data ++ drop (Z.to_nat n) buf) s'.
Proof.
  intros WV [Hch Hv] Hs Hl Hd By n. pose proof (wf_geom _ WV) as WF.
  destruct (cluster_len_wf _ WF) as [_ Hlen].
  pose proof (Z.div_mod start (cluster_len (finfo_ s)) ltac:(lia)) as Dm.
  pose proof (Z.mod_pos_bound start (cluster_len (finfo_ s)) ltac:(lia))
    as Hr.
  assert (Hq0 : 0 <= start / cluster_len (finfo_ s))
    by (apply Z.div_pos; lia).
  assert (Ln : Z.of_nat (length (chain_bytes s l))
               = Z.of_nat (length l) * cluster_len (finfo_ s))
    by (rewrite length_chain_bytes; nia).
  assert (Write : exists s',
            FileOperate write_chars data start length_ file s
            = Ret (n, data) s' /\
            frame (chain_area (finfo_ s) l) s s' /\
            chain_bytes s' l
            = store (chain_bytes s l) (Z.to_nat start)
                (take (Z.to_nat n) data)).
  { rewrite (FileOperate_run _ _ _ _ _ l s Hch).
    set (q := Z.to_nat (start / cluster_len (finfo_ s))) in *.
    destruct (Nat.ltb_spec q (length l)) as [Lt | Ge].
    - destruct (seek_ok s (clus file) l Hch q) as [_ Hq].
      pose proof (chain_NoDup _ _ _ Hch) as ND.
      rewrite <- (take_drop q l) in ND, Hv.
      apply NoDup_app in ND as (_ & Hapart & _).
      apply Forall_app in Hv as [Hv1 Hv2].
      destruct (write_loop length_ data (drop q l) Hl Hd By s (nth q l 0)
                  (Z.to_nat length_) 0 (start mod cluster_len (finfo_ s))
                  WV (Hq Lt) Hv2 Hr ltac:(lia) ltac:(lia))
        as (s' & Run & F & W).
      cbv zeta in Run, W. rewrite drop_0 in W.
      assert (En : Z.min (length_ - 0)
                     (Z.of_nat (length (drop q l)) * cluster_len (finfo_ s)
                      - start mod cluster_len (finfo_ s)) = n).
      { subst n. rewrite !length_drop.
        assert (Z.of_nat q = start / cluster_len (finfo_ s)) by lia.
        nia. }
      rewrite En, Z.add_0_l in *.
      exists s'. split; [exact Run|]. split.
      + apply (frame_weaken _ _ _ _ F). intros j (x & Hx & Hj).
        exists x. split; [|exact Hj].
        rewrite <- (take_drop q l). apply elem_of_app. right. exact Hx.
      + rewrite <- (take_drop q l) at 1 2. rewrite !chain_bytes_app, W.
        rewrite (chain_bytes_frame _ s s' (take q l) WF Hv1 F).
        2:{ intros j (x & Hx & Hjx) (y & Hy & Hjy).
            apply (clusters_apart _ x y j WF); auto.
            - rewrite Forall_forall in Hv1. apply Hv1. exact Hx.
            - rewrite Forall_forall in Hv2. apply Hv2. exact Hy.
            - intros ->. apply (Hapart y Hx Hy). }
        replace (Z.to_nat start)
          with (length (chain_bytes s (take q l))
                + Z.to_nat (start mod cluster_len (finfo_ s)))%nat.
        * symmetry. apply store_app_r.
        * rewrite length_chain_bytes, length_take.
          assert (Z.of_nat q = start / cluster_len (finfo_ s)) by lia.
          nia.
    - assert (n = 0) as E0.
      { subst n. rewrite length_drop.
        assert (start / cluster_len (finfo_ s) = Z.of_nat q) by lia.
        nia. }
      rewrite E0. exists s. split; [reflexivity|].
      split; [apply frame_refl|]. change (Z.to_nat 0) with 0%nat.
      cbn [take]. rewrite store_nil. reflexivity. }
  destruct Write as (s' & Run & F & W).
  assert (Hch' : valid_chain s' (clus file) l).
  { split; [|rewrite (frame_finfo _ _ _ F); exact Hv].
    apply (chain_off_fat _ s s' _ l WF Hv F); [|exact Hch].
    intros j Hj. apply (chain_area_data _ l j WF Hv Hj). }
  exists s'. split; [exact Run|]. split; [exact F|].
  split; [exact Hch'|]. split; [exact W|].
  intros buf Hb.
  rewrite (FileOperate_read_chain buf start length_ file l s'
             (frame_wf _ _ _ F WV) Hch' Hs Hl Hb).
  assert (Ln' : length (chain_bytes s' l) = length (chain_bytes s l)).
  { rewrite !length_chain_bytes, (frame_finfo _ _ _ F). reflexivity. }
  assert (En : Z.min length_
                 (Z.of_nat (length (drop (Z.to_nat start)
                                      (chain_bytes s' l)))) = n)
    by (subst n; rewrite !length_drop, Ln'; reflexivity).
  rewrite En.
  assert (Et : take (Z.to_nat n) (drop (Z.to_nat start) (chain_bytes s' l))
               = take (Z.to_nat n) data).
  { destruct (Z.eq_dec n 0) as [-> | Nz]; [reflexivity|].
    assert (Ld : length (take (Z.to_nat n) data) = Z.to_nat n).
    { rewrite length_take. subst n. lia. }
    rewrite W. rewrite <- Ld at 1. apply take_drop_store.
    rewrite Ld. subst n. rewrite length_drop in *. lia. }
  rewrite Et. unfold store. rewrite take_0, length_take. cbn [app].
  do 4 f_equal. subst n. lia.
Qed.

Lemma FileOperate_write_then_read_witness :
  exists s',
    FileOperate write_chars (str "fat32 volume") 508 8 Sample.hello
      Sample.mounted
    = Ret (Z.min 8 (Z.of_nat (length (drop (Z.to_nat 508)
                                       (chain_bytes Sample.mounted [3; 4])))),
           str "fat32 volume") s' /\
    frame (chain_area (finfo_ Sample.mounted) [3; 4]) Sample.mounted s' /\
    valid_chain s' (clus Sample.hello) [3; 4] /\
    chain_bytes s' [3; 4]
    = store (chain_bytes Sample.mounted [3; 4]) (Z.to_nat 508)
        (take (Z.to_nat (Z.min 8 (Z.of_nat (length (drop (Z.to_nat 508)
                                       (chain_bytes Sample.mounted [3; 4]))))))
           (str "fat32 volume")) /\
    forall buf, 8 <= Z.of_nat (length buf) ->
      FileOperate read_chars buf 508 8 Sample.hello s'
      = Ret (Z.min 8 (Z.of_nat (length (drop (Z.to_nat 508)
                                       (chain_bytes Sample.mounted [3; 4])))),
             take (Z.to_nat (Z.min 8 (Z.of_nat (length (drop (Z.to_nat 508)
                                       (chain_bytes Sample.mounted [3; 4]))))))
               (str "fat32 volume")
             ++ drop (Z.to_nat (Z.min 8 (Z.of_nat (length (drop (Z.to_nat 508)
                                       (chain_bytes Sample.mounted [3; 4]))))))
                  buf) s'.
Proof.
  apply (FileOperate_write_then_read (str "fat32 volume") 508 8 Sample.hello
           [3; 4] Sample.mounted mounted_wf hello_chain).
  - lia.
  - lia.
  - vm_compute. discriminate.
  - apply bytes_ok_check. vm_compute. reflexivity.
Defined.

(** ** New entries *)

Lemma tolower_idem (c : Z) : tolower (tolower c) = tolower c.
Proof.
  unfold tolower.
  destruct (Z.leb_spec 65 c), (Z.leb_spec c 90); cbn [andb];
    destruct (Z.leb_spec 65 (c + 32)), (Z.leb_spec (c + 32) 90);
    cbn [andb]; try reflexivity; try lia.
  all: destruct (Z.leb_spec 65 c), (Z.leb_spec c 90); cbn [andb];
    try reflexivity; lia.
Qed.

Lemma tolower_slash (c : Z) : tolower c = SLASH <-> c = SLASH.
Proof.
  unfold tolower, SLASH.
  destruct (Z.leb_spec 65 c), (Z.leb_spec c 90); cbn [andb]; lia.
Qed.

(** A path without a slash is its own single segment, in lower case. *)
Lemma ParseAddress_simple (add : list Z) :
  add <> [] -> SLASH ∉ add -> str_length add < npos ->
  ParseAddress add = [map tolower add].
Proof.
  intros Hne Hno Hlen. unfold ParseAddress, str_length in *.
  destruct add as [|c add]; [contradiction|].
  destruct (Z.eqb_spec (Z.of_nat (length (c :: add))) 0) as [E|_];
    [cbn [length] in E; lia|]. cbn [negb]. cbv zeta.
  assert (Hno' : SLASH ∉ map tolower (c :: add)).
  { intros Hin. apply list_elem_of_fmap in Hin as (x & Ex & Hx).
    symmetry in Ex. apply (proj1 (tolower_slash x)) in Ex. subst x. contradiction. }
  assert (H0 : (str_at (map tolower (c :: add)) 0 =? SLASH) = false).
  { apply Z.eqb_neq. intros E. apply Hno'. cbn [map str_at nth] in *.
    rewrite <- E. constructor. }
  rewrite H0. cbn [ParseAddress_loop]. cbv zeta.
  destruct (next_slash (map tolower (c :: add)) 0)
    as [[E _]|(pre & post & Ed & _ & _)].
  - change (Z.of_nat 0) with 0 in E. rewrite E, Z.eqb_refl. cbn [negb].
    unfold str_length.
    destruct (Z.ltb_spec 0 (Z.of_nat (length (map tolower (c :: add)))));
      [reflexivity | cbn [map length] in *; lia].
  - exfalso. apply Hno'. rewrite drop_0 in Ed. rewrite Ed.
    apply elem_of_app. right. constructor.
Qed.

(** With a single segment there is nowhere to navigate. *)
Lemma NavToDir_single (fuel : nat) (x : list Z) (s : Filesys) :
  NavToDir fuel [x] 0 (u64 (size_of [x] - 1)) s = Val (cwd_ s).
Proof. reflexivity. Qed.

Lemma back_snoc (l : list (list Z)) (x : list Z) : back (l ++ [x]) = x.
Proof.
  unfold back. rewrite length_app. cbn [length].
  rewrite app_nth2 by lia.
  replace (length l + 1 - 1 - length l)%nat with 0%nat by lia. reflexivity.
Qed.

(** When the leading segments do not resolve, the last one is a
    segment of its own. *)
Lemma unresolved_last (fuel : nat) (target : list Z) (s : Filesys) :
  str_length target < npos ->
  NavToDir fuel (ParseAddress target) 0
    (u64 (size_of (ParseAddress target) - 1)) s = Throw ->
  target <> [] ->
  let seg := back (ParseAddress target) in
  seg <> [] /\ (SLASH ∉ seg) /\ str_length seg < npos /\
  map tolower seg = seg.
Proof.
  intros Hlen Hnav Hne seg.
  destruct (ParseAddress_parts target Hlen) as (segs & E & Hsegs & Hcat).
  destruct (decide (segs = [])) as [-> | Hs].
  { exfalso. rewrite app_nil_r in E. rewrite E in Hnav.
    destruct (Z.eqb_spec (str_at target 0) SLASH) as [E0 | N0].
    - cbn in Hnav. discriminate.
    - destruct target as [|c target]; [contradiction|].
      cbn [str_at nth] in N0. cbn [concat map] in Hcat.
      rewrite filter_cons_True in Hcat; [discriminate|].
      intros Ec. apply N0. apply tolower_slash. exact Ec. }
  destruct (exists_last Hs) as (segs' & x & ->).
  subst seg. rewrite E, app_assoc, back_snoc.
  apply Forall_app in Hsegs as [_ Hx].
  apply Forall_cons in Hx as [[Hx1 Hx2] _].
  assert (Hin : forall c, c ∈ x -> c ∈ map tolower target).
  { intros c Hc.
    assert (c ∈ concat (segs' ++ [x])).
    { rewrite concat_app. apply elem_of_app. right. cbn [concat].
      rewrite app_nil_r. exact Hc. }
    rewrite Hcat in H. apply list_elem_of_filter in H as [_ H]. exact H. }
  split; [exact Hx1|]. split; [exact Hx2|]. split.
  - assert (L : (length x <= length (concat (segs' ++ [x])))%nat).
    { rewrite concat_app, length_app. cbn [concat].
      rewrite app_nil_r. lia. }
    rewrite Hcat in L.
    pose proof (length_filter (fun c => c <> SLASH) (map tolower target)) as L2.
    rewrite length_map in L2. unfold str_length in *. lia.
  - rewrite <- (map_id x) at 2. apply map_ext_in. intros c Hc.
    apply list_elem_of_In in Hc. apply Hin in Hc.
    apply list_elem_of_fmap in Hc as (c0 & -> & _). apply tolower_idem.
Qed.

(** X27.  When the directory part of the path given to [create] does
    not resolve, the command does not stop: it goes on in the current
    directory with the last segment of the path, so it does exactly
    what [create] of that segment alone does.  [mkdir] with such a
    path stops and changes nothing. *)
Theorem Create_bad_location (fuel : nat) (now now1 now2 now3 : tm)
  (target : list Z) (s : Filesys) :
  str_length target < npos -> target <> [] ->
  NavToDir fuel (ParseAddress target) 0
    (u64 (size_of (ParseAddress target) - 1)) s = Throw ->
  Create fuel now [target] s
  = Create fuel now [back (ParseAddress target)] s /\
  Mkdir fuel now1 now2 now3 [target] s = Ret tt s.
Proof.
  intros Hlen Hne Hnav.
  destruct (unresolved_last fuel target s Hlen Hnav Hne)
    as (S1 & S2 & S3 & S4).
  split.
  - unfold Create at 2. cbn [size_of length nth]. cbv zeta.
    change (negb (Z.of_nat 1 =? 1)) with false. cbv iota.
    rewrite (ParseAddress_simple _ S1 S2 S3), S4, NavToDir_single.
    replace (back [back (ParseAddress target)])
      with (back (ParseAddress target)) by reflexivity.
    unfold Create. cbn [size_of length nth]. cbv zeta.
    change (negb (Z.of_nat 1 =? 1)) with false. cbv iota.
    rewrite Hnav. reflexivity.
  - unfold Mkdir. cbn [size_of length nth]. cbv zeta.
    change (negb (Z.of_nat 1 =? 1)) with false. cbv iota.
    rewrite Hnav. reflexivity.
Qed.

Lemma Create_bad_location_witness :
  Create 5 Sample.noon [str "nodir/new"] Sample.mounted
  = Create 5 Sample.noon [back (ParseAddress (str "nodir/new"))]
      Sample.mounted /\
  Mkdir 5 Sample.noon Sample.noon Sample.noon [str "nodir/new"]
    Sample.mounted
  = Ret tt Sample.mounted.
Proof.
  apply (Create_bad_location 5 Sample.noon Sample.noon Sample.noon
           Sample.noon (str "nodir/new") Sample.mounted).
  - vm_compute. reflexivity.
  - discriminate.
  - vm_compute. reflexivity.
Defined.

Lemma fill_chars (src : list Z) (n : nat) (c : Z) :
  c ∈ fill src n -> c ∈ src \/ c = SPACE.
Proof.
  intros Hin. unfold fill in Hin. apply list_elem_of_In in Hin.
  apply in_map_iff in Hin as (i & E & _). revert E.
  destruct (Z.geb_spec (Z.of_nat i) (str_length src)) as [Hi|Hi];
    [intros <-; right; reflexivity|]. intros <-. left.
  unfold str_at. apply list_elem_of_In. apply nth_In.
  unfold str_length in Hi. lia.
Qed.

Lemma fill_head (src : list Z) (n : nat) :
  src <> [] -> str_at (fill src (S n)) 0 = str_at src 0.
Proof.
  intros H. destruct src as [|c src]; [contradiction|].
  unfold fill. cbn [seq map str_at nth]. unfold str_length. cbn [length].
  destruct (Z.geb_spec (Z.of_nat 0) (Z.of_nat (S (length src)))); [lia|].
  reflexivity.
Qed.

(** The characters of an encoded name. *)
Lemma ValidateFileName_chars (name_ r : list Z) :
  str_length name_ < npos ->
  ValidateFileName name_ = Some r -> 0 ∉ name_ ->
  length r = 11%nat /\
  (forall c, c ∈ r -> c ∈ name_ \/ c = SPACE) /\
  str_at r 0 = str_at name_ 0.
Proof.
  intros Hlen H Hnul.
  destruct (invalid_or_clean name_) as [Hbad|Hok].
  { rewrite (ValidateFileName_invalid name_ Hlen Hbad) in H. discriminate. }
  destruct (decide (Exists (fun c => c ∈ [DOT]) name_)) as [Hd|Hd].
  - apply Exists_exists in Hd.
    destruct (first_hit _ _ Hd) as (base & c & ext & -> & Hb & Hc).
    apply dot_singleton in Hc as ->.
    assert (Hdb : DOT ∉ base).
    { intros Hin. apply (Hb DOT Hin). apply dot_singleton. reflexivity. }
    rewrite (ValidateFileName_dotted base ext Hlen Hok Hdb) in H.
    unfold str_length in H.
    destruct (Z.eqb_spec (Z.of_nat (length base)) 0); [discriminate|].
    destruct (Z.eqb_spec (Z.of_nat (length ext)) 0); [discriminate|].
    destruct (Z.gtb_spec (Z.of_nat (length ext)) 3); [discriminate|].
    cbn [orb] in H. apply (inj Some) in H. subst r.
    assert (Nb : 0 ∉ base).
    { intros Hin. apply Hnul. apply elem_of_app. auto. }
    assert (Ne : 0 ∉ ext).
    { intros Hin. apply Hnul. apply elem_of_app. right.
      apply list_elem_of_further. exact Hin. }
    rewrite cstr_no_nul by (apply no_nul_app; apply fill_no_nul; assumption).
    split; [rewrite length_app, !fill_length; reflexivity|]. split.
    + intros c Hc. apply elem_of_app in Hc as [Hc|Hc];
        apply fill_chars in Hc as [Hc| ->]; auto; left.
      * apply elem_of_app. auto.
      * apply elem_of_app. right. apply list_elem_of_further. exact Hc.
    + assert (base <> []) by (intros ->; cbn in *; lia).
      destruct base as [|b base]; [contradiction|].
      unfold str_at at 1. rewrite app_nth1 by (rewrite fill_length; lia).
      apply (fill_head (b :: base) 7). discriminate.
  - assert (Hno : DOT ∉ name_).
    { intros Hin. apply Hd. apply Exists_exists. exists DOT.
      split; [exact Hin | apply dot_singleton; reflexivity]. }
    rewrite (ValidateFileName_dotless name_ Hlen Hok Hno) in H.
    unfold str_length in H.
    destruct (Z.eqb_spec (Z.of_nat (length name_)) 0); [discriminate|].
    destruct (Z.gtb_spec (Z.of_nat (length name_)) 8); [discriminate|].
    cbn [orb] in H. apply (inj Some) in H. subst r.
    rewrite cstr_no_nul by (apply fill_no_nul; assumption).
    split; [apply fill_length|]. split.
    + intros c Hc. apply fill_chars in Hc. exact Hc.
    + apply (fill_head name_ 10). intros ->. cbn in *. lia.
Qed.

(** [AddEntry] when the name is taken. *)
Lemma AddEntry_taken (fuel : nat) (location : Z) (name_ : list Z) (attr_ : Z)
  (entries : list FileEntry) (s : Filesys) :
  GetFileList fuel location false s = Val entries ->
  Exists (fun e => GetShortName e = name_) entries ->
  AddEntry fuel location name_ attr_ s = Ret None s.
Proof.
  intros E Hex. unfold AddEntry.
  rewrite (bind_step _ _ s s entries) by (apply lift_Val; exact E).
  destruct (existsb _ entries) eqn:X; [reflexivity|].
  apply existsb_open in X. apply Exists_exists in Hex as (e & He & Hn).
  rewrite Forall_forall in X. exfalso. apply (X e He Hn).
Qed.

(** [AddEntry] when the name is new and the directory has a free
    slot. *)
Lemma AddEntry_free_slot (fuel : nat) (location : Z) (name_ : list Z)
  (attr_ : Z) (entries others : list FileEntry) (slot : FileEntry)
  (s : Filesys) :
  GetFileList fuel location false s = Val entries ->
  Forall (fun e => GetShortName e <> name_) entries ->
  GetFileList fuel location true s = Val (slot :: others) ->
  AddEntry fuel location name_ attr_ s
  = Ret (Some (FileEntry_copy
                 (new_entry slot (fill (map toupper name_) 11) attr_))) s.
Proof.
  intros E Hnew Ef. unfold AddEntry.
  rewrite (bind_step _ _ s s entries) by (apply lift_Val; exact E).
  apply existsb_open in Hnew. rewrite Hnew.
  rewrite (bind_step _ _ s s (slot :: others)) by (apply lift_Val; exact Ef).
  cbn [size_of length].
  destruct (Z.eqb_spec (Z.of_nat (S (length others))) 0); [lia|].
  reflexivity.
Qed.

Lemma tolower_byte (c : Z) :
  is_byte c -> c <> 0 -> c <> DEALLOC ->
  is_byte (tolower c) /\ tolower c <> 0 /\ tolower c <> DEALLOC.
Proof.
  unfold is_byte, tolower, DEALLOC.
  destruct (Z.leb_spec 65 c), (Z.leb_spec c 90); cbn [andb]; lia.
Qed.

Lemma tolower_byte' (c : Z) :
  is_byte c -> c <> 0 -> is_byte (tolower c) /\ tolower c <> 0.
Proof.
  unfold is_byte, tolower.
  destruct (Z.leb_spec 65 c), (Z.leb_spec c 90); cbn [andb]; lia.
Qed.

Lemma slash_invalid : SLASH ∈ invalid_chars.
Proof. apply list_elem_of_In. vm_compute. auto. Qed.

(** X28.  [create] of a valid name (of bytes other than NUL, the
    first one not 0xE5) that no entry of the current directory has,
    when the directory has a free slot: the command returns, changes
    only the 32 bytes of the first free slot, and the directory then
    lists at that slot an empty file (no cluster, size 0, attribute 0)
    under the encoded name. *)
Theorem Create_adds_entry (fuel : nat) (now : tm) (target fixed : list Z)
  (dl : list Z) (entries others : list FileEntry) (slot : FileEntry)
  (s : Filesys) :
  wf_volume s -> valid_chain s (cwd_ s) dl -> (length dl <= fuel)%nat ->
  str_length target < npos ->
  0 ∉ target -> Forall is_byte target -> str_at target 0 <> DEALLOC ->
  ValidateFileName (map tolower target) = Some fixed ->
  GetFileList fuel (cwd_ s) false s = Val entries ->
  Forall (fun e => GetShortName e <> map tolower target) entries ->
  GetFileList fuel (cwd_ s) true s = Val (slot :: others) ->
  exists s',
    Create fuel now [target] s = Ret tt s' /\
    frame (span (entryLoc slot) (entryLoc slot + 32)) s s' /\
    exists entries' e,
      GetFileList fuel (cwd_ s') false s' = Val entries' /\ e ∈ entries' /\
      entryLoc e = entryLoc slot /\ name e = fixed /\ attr e = 0 /\
      clus e = 0 /\ size e = 0.
Proof.
  intros WV Hch Hf Hlen Hnul Hby H0 HV E Hnew Hfree.
  pose proof (wf_geom _ WV) as WF.
  set (name_ := map tolower target) in *.
  assert (Hlen' : str_length name_ < npos).
  { unfold str_length, name_. rewrite length_map. exact Hlen. }
  assert (Hnul' : 0 ∉ name_).
  { intros Hin. apply list_elem_of_fmap in Hin as (c & Ec & Hc).
    rewrite Forall_forall in Hby.
    destruct (tolower_byte' c (Hby c Hc)) as [_ N]; [|congruence].
    intros ->. contradiction. }
  assert (Hno : SLASH ∉ target).
  { intros Hin.
    rewrite (ValidateFileName_invalid name_ Hlen') in HV; [discriminate|].
    exists SLASH. split; [|apply slash_invalid].
    apply list_elem_of_fmap. exists SLASH. split; [reflexivity | exact Hin]. }
  destruct (ValidateFileName_chars name_ fixed Hlen' HV Hnul')
    as (Lf & Cf & Hf0).
  assert (Hne : target <> []).
  { intros ->. subst name_. cbn in HV. discriminate. }
  (* the free slot *)
  destruct (GetFileList_chain_slots true fuel (cwd_ s) dl s WV Hch Hf)
    as (free & Ef & Sound & _).
  rewrite Hfree in Ef. injection Ef as <-.
  destruct (Sound slot ltac:(constructor))
    as (x & k & Hx & Hk0 & Hk & Eloc & _ & _).
  destruct Hch as [Hc Hv].
  assert (Hxv : in_volume (finfo_ s) x).
  { rewrite Forall_forall in Hv. apply Hv. exact Hx. }
  destruct (cluster_pos_wf _ WF x Hxv) as (_ & Hlo & Hhi).
  pose proof (wf_mapped _ WV) as Mp. pose proof (wf_fits32 _ WF) as H32.
  pose proof (wf_BytesPerSec _ WF) as HB.
  pose proof (volume_size s WV) as (_ & _ & Hr).
  assert (HD : 0 <= FirstDataSec (finfo_ s) * BytesPerSec (finfo_ s)).
  { pose proof (wf_FsInfo _ WF). pose proof (wf_NumFats _ WF).
    pose proof (wf_FATSz _ WF). pose proof (wf_FirstDataSec _ WF). nia. }
  (* the entry that is saved *)
  set (e1 := set_name
               (SetClus 0
                  (FileEntry_copy
                     (new_entry slot (fill (map toupper name_) 11) 0)))
               fixed).
  assert (L1 : entryLoc e1 = entryLoc slot) by reflexivity.
  assert (B0 : 0 <= entryLoc e1) by (rewrite L1; lia).
  assert (B1 : entryLoc e1 + 32 <= 4294967296) by (rewrite L1; lia).
  assert (B2 : entryLoc e1 + 32 < filesys_size (mFilesys_ s))
    by (rewrite L1; lia).
  assert (Bf : Forall is_byte fixed).
  { apply Forall_forall. intros c Hcf. destruct (Cf c Hcf) as [Hin | ->].
    - apply list_elem_of_fmap in Hin as (c0 & -> & Hc0).
      rewrite Forall_forall in Hby.
      apply tolower_byte'; [apply Hby; exact Hc0|].
      intros ->. contradiction.
    - unfold is_byte, SPACE. lia. }
  assert (Nf : 0 ∉ fixed).
  { intros Hin. destruct (Cf 0 Hin) as [Hz | Hz]; [contradiction|].
    discriminate. }
  assert (Z0 : 0 <= 0 < 256 /\ 0 <= 0 < 65536 /\ 0 <= 0 < 4294967296)
    by lia.
  destruct Z0 as (Z8 & Z16 & Z32).
  destruct (SaveFileEntry_reads now e1 s B0 B1 B2 Lf Bf Z8 Z16 Z16 Z32)
    as (s' & Run & Rn & Ra & Rh & Rl & Rs & _ & _ & _).
  assert (Es' : s' = set_image s (save_image now e1 (mFilesys_ s))).
  { rewrite (SaveFileEntry_eq now e1 s B0 B1 B2) in Run.
    injection Run as <-. reflexivity. }
  assert (F : frame (span (entryLoc slot) (entryLoc slot + 32)) s s').
  { rewrite Es', <- L1. apply save_frame; lia. }
  exists s'. split; [|split; [exact F|]].
  { unfold Create. cbn [size_of length nth]. cbv zeta.
    change (negb (Z.of_nat 1 =? 1)) with false. cbv iota.
    rewrite (ParseAddress_simple target Hne Hno Hlen). fold name_.
    rewrite NavToDir_single.
    replace (back [name_]) with name_ by reflexivity.
    rewrite HV.
    rewrite (bind_step _ _ s s _
               (AddEntry_free_slot fuel (cwd_ s) name_ 0 entries others slot s
                  E Hnew Hfree)).
    fold e1. unfold bind. rewrite Run. reflexivity. }
  (* the listing after *)
  assert (WV' : wf_volume s') by (apply (frame_wf _ _ _ F WV)).
  assert (Ef' : finfo_ s' = finfo_ s) by (apply (frame_finfo _ _ _ F)).
  assert (Ec' : cwd_ s' = cwd_ s) by (rewrite Es'; reflexivity).
  assert (Hch' : valid_chain s' (cwd_ s) dl).
  { split; [|rewrite Ef'; exact Hv].
    apply (chain_off_fat _ s s' _ dl WF Hv F); [|exact Hc].
    intros j Hj. apply (chain_area_data _ dl j WF Hv).
    exists x. split; [exact Hx|]. unfold span in *. lia. }
  destruct (GetFileList_chain_slots false fuel (cwd_ s) dl s' WV' Hch' Hf)
    as (entries' & E' & _ & Complete).
  rewrite Ef' in Complete.
  assert (Hbyte0 : byte_at (mFilesys_ s') (entryLoc slot)
                   = tolower (str_at target 0)).
  { rewrite Es', <- L1. cbn [mFilesys_ set_image].
    pose proof (save_image_name now e1 (mFilesys_ s) B0 ltac:(lia) 0
                  ltac:(lia)) as Nm.
    change (Z.of_nat 0) with 0 in Nm. rewrite Z.add_0_r in Nm. rewrite Nm.
    change (name e1) with fixed. rewrite Hf0.
    destruct target as [|t0 target']; [contradiction|].
    subst name_. cbn [map str_at nth] in *.
    apply Forall_cons in Hby as [Hb0 _].
    destruct (tolower_byte' t0 Hb0) as [R _].
    { intros ->. apply Hnul. constructor. }
    apply Z.mod_small. exact R. }
  assert (Hbyte11 : byte_at (mFilesys_ s') (entryLoc slot + 11) = 0).
  { rewrite Es', <- L1. cbn [mFilesys_ set_image].
    rewrite (save_image_attr now e1 (mFilesys_ s) B0 ltac:(lia)).
    reflexivity. }
  destruct (Complete x k Hx Hk0 Hk) as (e & He & Hloc).
  { rewrite <- Eloc, Hbyte0. unfold wanted.
    destruct target as [|t0 target']; [contradiction|].
    cbn [str_at nth] in *. apply Forall_cons in Hby as [Hb0 _].
    destruct (tolower_byte t0 Hb0) as (_ & N0 & N1); auto.
    intros ->. apply Hnul. constructor. }
  { rewrite <- Eloc, Hbyte11. vm_compute. discriminate. }
  rewrite <- Eloc in Hloc.
  pose proof (GetFileList_listed fuel (cwd_ s) dl s' entries' e WV' Hch' E' He)
    as Hl.
  destruct (listed_span s' dl e WV' ltac:(rewrite Ef'; exact Hv) Hl)
    as (_ & _ & _ & At).
  rewrite Hloc in At. destruct At as [(buf & Eb & En & _) Aa Ah Al As _ Acp].
  exists entries', e. rewrite Ec'. split; [exact E'|]. split; [exact He|].
  split; [exact Hloc|].
  rewrite L1 in Rn, Ra, Rh, Rl, Rs.
  rewrite !u32_small in * by lia.
  rewrite Rn in Eb. apply (inj Some) in Eb. subst buf.
  rewrite Ra in Aa. apply (inj Some) in Aa.
  rewrite Rh in Ah. apply (inj Some) in Ah.
  rewrite Rl in Al. apply (inj Some) in Al.
  rewrite Rs in As. apply (inj Some) in As.
  split; [rewrite En; apply cstr_no_nul; exact Nf|].
  split; [symmetry; exact Aa|]. split; [|symmetry; exact As].
  rewrite <- Acp. cbn [clus FileEntry_copy]. rewrite <- Al, <- Ah.
  reflexivity.
Qed.

Lemma Create_adds_entry_witness :
  exists s',
    Create 5 Sample.noon [str "New.txt"] Sample.mounted = Ret tt s' /\
    frame (span (entryLoc (mkFileEntry [] 0 0 0 0 0 0 0 2144 0))
             (entryLoc (mkFileEntry [] 0 0 0 0 0 0 0 2144 0) + 32))
      Sample.mounted s' /\
    exists entries' e,
      GetFileList 5 (cwd_ s') false s' = Val entries' /\ e ∈ entries' /\
      entryLoc e = entryLoc (mkFileEntry [] 0 0 0 0 0 0 0 2144 0) /\
      name e = str "new     txt" /\ attr e = 0 /\ clus e = 0 /\ size e = 0.
Proof.
  apply (Create_adds_entry 5 Sample.noon (str "New.txt") (str "new     txt")
           [2] [Sample.hello; Sample.empty; Sample.sub]
           (tl (match GetFileList 5 (cwd_ Sample.mounted) true Sample.mounted
                with Val l => l | _ => [] end))
           (mkFileEntry [] 0 0 0 0 0 0 0 2144 0)
           Sample.mounted mounted_wf root_chain).
  - cbn. lia.
  - vm_compute. reflexivity.
  - vm_compute. intros H. apply list_elem_of_In in H. cbn in H.
    intuition discriminate.
  - apply bytes_ok_check. vm_compute. reflexivity.
  - vm_compute. discriminate.
  - vm_compute. reflexivity.
  - exact root_listing.
  - repeat (constructor; [vm_compute; discriminate|]). constructor.
  - vm_compute. reflexivity.
Defined.

(** X29.  [create] and [mkdir] of a name that an entry of the current
    directory already has, file or directory, change nothing. *)
Theorem existing_name_refused (fuel : nat) (now now1 now2 now3 : tm)
  (target : list Z) (entries : list FileEntry) (s : Filesys) :
  str_length target < npos -> target <> [] -> SLASH ∉ target ->
  GetFileList fuel (cwd_ s) false s = Val entries ->
  Exists (fun e => GetShortName e = map tolower target) entries ->
  Create fuel now [target] s = Ret tt s /\
  Mkdir fuel now1 now2 now3 [target] s = Ret tt s.
Proof.
  intros Hlen Hne Hno E Hex.
  pose proof (AddEntry_taken fuel (cwd_ s) (map tolower target) 0 entries s
                E Hex) as A0.
  pose proof (AddEntry_taken fuel (cwd_ s) (map tolower target) DIRECT
                entries s E Hex) as A1.
  split.
  - unfold Create. cbn [size_of length nth]. cbv zeta.
    change (negb (Z.of_nat 1 =? 1)) with false. cbv iota.
    rewrite (ParseAddress_simple target Hne Hno Hlen), NavToDir_single.
    replace (back [map tolower target]) with (map tolower target)
      by reflexivity.
    destruct (ValidateFileName (map tolower target)); [|reflexivity].
    rewrite (bind_step _ _ s s _ A0). reflexivity.
  - unfold Mkdir. cbn [size_of length nth]. cbv zeta.
    change (negb (Z.of_nat 1 =? 1)) with false. cbv iota.
    rewrite (ParseAddress_simple target Hne Hno Hlen), NavToDir_single.
    replace (back [map tolower target]) with (map tolower target)
      by reflexivity.
    destruct (ValidateFileName (map tolower target)); [|reflexivity].
    rewrite (bind_step _ _ s s _ A1). reflexivity.
Qed.

Lemma existing_name_refused_witness :
  Create 5 Sample.noon [str "SUB"] Sample.mounted = Ret tt Sample.mounted /\
  Mkdir 5 Sample.noon Sample.noon Sample.noon [str "SUB"] Sample.mounted
  = Ret tt Sample.mounted.
Proof.
  apply (existing_name_refused 5 Sample.noon Sample.noon Sample.noon
           Sample.noon (str "SUB")
           [Sample.hello; Sample.empty; Sample.sub] Sample.mounted).
  - vm_compute. reflexivity.
  - discriminate.
  - vm_compute. intros H. apply list_elem_of_In in H. cbn in H.
    intuition discriminate.
  - exact root_listing.
  - apply Exists_cons. right. apply Exists_cons. right.
    apply Exists_cons. left. vm_compute. reflexivity.
Defined.

(** ** New directories *)

(** What [SaveFileEntry] leaves in the slot of the entry. *)
Lemma save_slot_holds (now : tm) (e : FileEntry) (img : image) :
  0 <= entryLoc e -> entryLoc e + 32 <= filesys_size img ->
  Forall is_byte (name e) -> length (name e) = 11%nat ->
  0 <= attr e < 256 -> 0 <= lo e < 65536 -> 0 <= hi e < 65536 ->
  0 <= size e < 4294967296 ->
  slot_holds (save_image now e img) (entryLoc e) e.
Proof.
  intros H0 Hs Hb Hl Ha Hlo Hhi Hsz. unfold slot_holds.
  split; [|split; [|split; [|split]]].
  - intros k Hk. rewrite (save_image_name now e img H0 Hs k Hk).
    apply Z.mod_small. rewrite Forall_forall in Hb. apply Hb.
    unfold str_at. apply list_elem_of_In. apply nth_In. lia.
  - rewrite (save_image_attr now e img H0 Hs). apply Z.mod_small. exact Ha.
  - pose proof (save_image_hi now e img H0 Hs 0 ltac:(lia)) as B0.
    pose proof (save_image_hi now e img H0 Hs 1 ltac:(lia)) as B1.
    rewrite Z.add_0_r in B0.
    replace (entryLoc e + 20 + 1) with (entryLoc e + 21) in B1 by lia.
    change (2 ^ (8 * 0)) with 1 in B0. change (2 ^ (8 * 1)) with 256 in B1.
    rewrite B0, B1. lia.
  - pose proof (save_image_lo now e img H0 Hs 0 ltac:(lia)) as B0.
    pose proof (save_image_lo now e img H0 Hs 1 ltac:(lia)) as B1.
    rewrite Z.add_0_r in B0.
    replace (entryLoc e + 26 + 1) with (entryLoc e + 27) in B1 by lia.
    change (2 ^ (8 * 0)) with 1 in B0. change (2 ^ (8 * 1)) with 256 in B1.
    rewrite B0, B1. lia.
  - unfold word_at.
    pose proof (save_image_size now e img H0 Hs 0 ltac:(lia)) as B0.
    pose proof (save_image_size now e img H0 Hs 1 ltac:(lia)) as B1.
    pose proof (save_image_size now e img H0 Hs 2 ltac:(lia)) as B2.
    pose proof (save_image_size now e img H0 Hs 3 ltac:(lia)) as B3.
    rewrite Z.add_0_r in B0.
    change (2 ^ (8 * 0)) with 1 in B0. change (2 ^ (8 * 1)) with 256 in B1.
    change (2 ^ (8 * 2)) with 65536 in B2.
    change (2 ^ (8 * 3)) with 16777216 in B3.
    rewrite B0, B1, B2, B3. lia.
Qed.

(** A slot keeps what it holds through a change elsewhere. *)
Lemma slot_holds_frame (P : Z -> Prop) (s s' : Filesys) (loc : Z)
  (e : FileEntry) :
  frame P s s' -> 0 <= loc ->
  (forall j, span loc (loc + 32) j -> ~ P j) ->
  slot_holds (mFilesys_ s) loc e -> slot_holds (mFilesys_ s') loc e.
Proof.
  intros F H0 Hout (Hn & Ha & Hh & Hl & Hs).
  assert (B : forall k, 0 <= k < 32 ->
            byte_at (mFilesys_ s') (loc + k) = byte_at (mFilesys_ s) (loc + k)).
  { intros k Hk. apply (frame_byte_at P); [exact F | lia |].
    apply Hout. unfold span. lia. }
  unfold slot_holds. split; [|split; [|split; [|split]]].
  - intros k Hk. rewrite B by lia. apply Hn. exact Hk.
  - rewrite B by lia. exact Ha.
  - rewrite !B by lia. exact Hh.
  - rewrite !B by lia. exact Hl.
  - unfold word_at in *.
    replace (loc + 28 + 1) with (loc + 29) in * by lia.
    replace (loc + 28 + 2) with (loc + 30) in * by lia.
    replace (loc + 28 + 3) with (loc + 31) in * by lia.
    rewrite !B by lia. exact Hs.
Qed.

(** A slot that holds a used entry is listed with the fields it
    holds. *)
Lemma slot_listed (fuel : nat) (d : Z) (dl : list Z) (s : Filesys)
  (x k : Z) (e1 : FileEntry) :
  wf_volume s -> valid_chain s d dl -> (length dl <= fuel)%nat ->
  x ∈ dl -> 0 <= k -> 32 * k + 32 <= cluster_len (finfo_ s) ->
  slot_holds (mFilesys_ s) (cluster_pos (finfo_ s) x + 32 * k) e1 ->
  length (name e1) = 11%nat -> 0 ∉ name e1 ->
  str_at (name e1) 0 <> DEALLOC -> Z.land (attr e1) LONG <> LONG ->
  exists entries e,
    GetFileList fuel d false s = Val entries /\ e ∈ entries /\
    entryLoc e = cluster_pos (finfo_ s) x + 32 * k /\
    name e = name e1 /\ attr e = attr e1 /\ lo e = lo e1 /\ hi e = hi e1 /\
    size e = size e1 /\ clus e = lo e1 + 65536 * hi e1.
Proof.
  intros WV Hch Hf Hx Hk0 Hk (Hn & Ha & Hh & Hl & Hs) Ln Nn N0 NL.
  destruct (GetFileList_chain_slots false fuel d dl s WV Hch Hf)
    as (entries & E & _ & Complete).
  destruct (Complete x k Hx Hk0 Hk) as (e & He & Hloc).
  { pose proof (Hn 0%nat ltac:(lia)) as B0.
    change (Z.of_nat 0) with 0 in B0. rewrite Z.add_0_r in B0.
    rewrite B0. unfold wanted. split; [|exact N0].
    intros E0. apply Nn. rewrite <- E0. unfold str_at.
    apply list_elem_of_In. apply nth_In. lia. }
  { rewrite Ha. exact NL. }
  destruct (GetFileList_entry_bytes false fuel d dl s entries e WV Hch E He)
    as (Fn & Fa & Fh & Fl & Fs & Fc).
  rewrite Hloc in Fn, Fa, Fh, Fl, Fs.
  exists entries, e. split; [exact E|]. split; [exact He|].
  split; [exact Hloc|].
  assert (En : map (fun k0 => byte_at (mFilesys_ s)
                        (cluster_pos (finfo_ s) x + 32 * k + Z.of_nat k0))
                 (seq 0 11) = name e1).
  { apply (nth_ext _ _ 0 0).
    - rewrite length_map, length_seq, Ln. reflexivity.
    - intros i Hi. rewrite length_map, length_seq in Hi.
      rewrite (nth_indep _ 0
                 ((fun k0 => byte_at (mFilesys_ s)
                      (cluster_pos (finfo_ s) x + 32 * k + Z.of_nat k0))
                    0%nat))
        by (rewrite length_map, length_seq; exact Hi).
      rewrite (map_nth (fun k0 => byte_at (mFilesys_ s)
                 (cluster_pos (finfo_ s) x + 32 * k + Z.of_nat k0))
                 (seq 0 11) 0%nat i).
      rewrite seq_nth by exact Hi. cbn [Nat.add]. apply Hn. exact Hi. }
  rewrite En in Fn.
  split; [rewrite Fn; apply cstr_no_nul; exact Nn|].
  split; [congruence|]. split; [congruence|]. split; [congruence|].
  split; [congruence|]. rewrite Fc, Fl, Fh, Hl, Hh. reflexivity.
Qed.

(** The first slot of a cluster comes first in its listing. *)
Lemma read_slots_front (d : bool) (n : nat) (location : Z) (s : Filesys)
  (l : list FileEntry) (buf : list Z) (a : Z) :
  read_slots d location 0 (S n) s = Val l ->
  ReadValue 8 (mFilesys_ s) 11 (u32 (location + 32 * 0)) 1 = Some buf ->
  read_le 8 (mFilesys_ s) (u32 (u32 (location + 32 * 0) + 11)) 1 = Some a ->
  Z.land a LONG <> LONG -> wanted d (str_at buf 0) ->
  exists e rest, l = e :: rest /\ entryLoc e = u32 (location + 32 * 0).
Proof.
  intros H Eb Ea HL W.
  cbn [read_slots] in H. cbv zeta in H.
  apply res_bind_Val in H as (buf' & Eb' & H). apply of_option_Val in Eb'.
  apply res_bind_Val in H as (a' & Ea' & H). apply of_option_Val in Ea'.
  apply res_bind_Val in H as (h & Eh & H).
  apply res_bind_Val in H as (lw & El & H).
  apply res_bind_Val in H as (sz & Es & H).
  apply res_bind_Val in H as (rest & Er & H).
  rewrite Eb in Eb'. rewrite Ea in Ea'.
  apply (inj Some) in Eb'. apply (inj Some) in Ea'. subst buf' a'.
  destruct (Z.eqb_spec (Z.land a LONG) LONG) as [|_]; [contradiction|].
  apply wanted_test in W. rewrite W in H. injection H as <-.
  eexists. eexists. split; reflexivity.
Qed.

(** A cleared cluster that ends its chain is an empty directory whose
    first free slot is its first slot. *)
Lemma fresh_directory (fuel : nat) (c m : Z) (s : Filesys) :
  wf_volume s -> in_volume (finfo_ s) c ->
  GetNextClus c s = Val m -> FATEND <= m ->
  (forall k, 0 <= k < cluster_len (finfo_ s) ->
     byte_at (mFilesys_ s) (cluster_pos (finfo_ s) c + k) = 0) ->
  (1 <= fuel)%nat ->
  GetFileList fuel c false s = Val [] /\
  exists slot0 rest,
    GetFileList fuel c true s = Val (slot0 :: rest) /\
    entryLoc slot0 = cluster_pos (finfo_ s) c.
Proof.
  intros WV Hc Em Hm Zero Hf. pose proof (wf_geom _ WV) as WF.
  assert (Hch : valid_chain s c [c]).
  { split; [apply (chain_end s c m Em Hm)|].
    constructor; [exact Hc | constructor]. }
  destruct (cluster_pos_wf _ WF c Hc) as (_ & Hlo & Hhi).
  destruct (cluster_len_wf _ WF) as [Elen Hlen].
  pose proof (wf_mapped _ WV) as Mp. pose proof (wf_fits32 _ WF) as H32.
  pose proof (wf_BytesPerSec _ WF) as HB.
  assert (HD : 0 <= FirstDataSec (finfo_ s) * BytesPerSec (finfo_ s)).
  { pose proof (wf_FsInfo _ WF). pose proof (wf_NumFats _ WF).
    pose proof (wf_FATSz _ WF). pose proof (wf_FirstDataSec _ WF). nia. }
  split.
  - destruct (GetFileList_chain_slots false fuel c [c] s WV Hch
                ltac:(cbn; lia)) as (entries & E & Sound & _).
    destruct entries as [|e entries]; [exact E|].
    destruct (Sound e ltac:(constructor))
      as (x & k & _ & Hk0 & Hk & Eloc & [W _] & _).
    exfalso. apply W. rewrite Eloc.
    destruct (Sound e ltac:(constructor))
      as (x' & k' & Hx' & Hk0' & Hk' & Eloc' & _).
    apply list_elem_of_singleton in Hx'. subst x'.
    rewrite Eloc in Eloc'. rewrite Eloc'. apply Zero. lia.
  - destruct (GetFileList_total true fuel c [c] s WV Hch ltac:(cbn; lia))
      as [l E].
    destruct fuel as [|fuel]; [lia|].
    pose proof E as E0.
    cbn [GetFileList] in E. cbv zeta in E.
    apply res_bind_Val in E as (here & Eh & E).
    apply res_bind_Val in E as (next & En & E).
    rewrite Em in En. injection En as <-.
    destruct (Z.ltb_spec m FATEND); [lia|]. injection E as <-.
    fold (cluster_pos (finfo_ s) c) in Eh.
    fold (cluster_len (finfo_ s)) in Eh.
    assert (Hn : exists n, Z.to_nat (u32 (cluster_len (finfo_ s) / 32)) = S n).
    { rewrite u32_small by lia.
      exists (Z.to_nat (cluster_len (finfo_ s) / 32) - 1)%nat. lia. }
    destruct Hn as [n Hn]. rewrite Hn in Eh.
    destruct (slot_reads s (cluster_pos (finfo_ s) c) WV) as (buf & Eb & B0 & Ea);
      try lia.
    destruct (read_slots_front true n (cluster_pos (finfo_ s) c) s here buf
                (byte_at (mFilesys_ s) (cluster_pos (finfo_ s) c + 11)) Eh)
      as (e & rest & -> & Eloc).
    + rewrite Z.mul_0_r, Z.add_0_r. exact Eb.
    + rewrite Z.mul_0_r, Z.add_0_r. exact Ea.
    + rewrite (Zero 11) by lia. vm_compute. discriminate.
    + rewrite B0. pose proof (Zero 0 ltac:(lia)) as Z0.
      rewrite Z.add_0_r in Z0. rewrite Z0. left. reflexivity.
    + exists e, rest. split; [exact E0|].
      rewrite Eloc, Z.mul_0_r, Z.add_0_r. apply u32_small. lia.
Qed.

(** [AllocateCluster 0] on a volume with a free cluster. *)
Lemma AllocateCluster_fresh (fuel : nat) (s : Filesys) :
  wf_volume s -> hint_ok s -> in_volume (finfo_ s) 2 ->
  (exists n, in_volume (finfo_ s) n /\ GetNextClus n s = Val 0) ->
  exists c s1,
    AllocateCluster fuel 0 s = Ret c s1 /\
    in_volume (finfo_ s) c /\ GetNextClus c s = Val 0 /\
    frame (fun j => fat_slots (finfo_ s) c j \/
                    span (nfree_pos (finfo_ s)) (nfree_pos (finfo_ s) + 8) j \/
                    span (cluster_pos (finfo_ s) c)
                      (cluster_pos (finfo_ s) c + cluster_len (finfo_ s)) j)
      s s1 /\
    GetNextClus c s1 = Val 0x0FFFFFFF /\
    (forall k, 0 <= k < cluster_len (finfo_ s) ->
       byte_at (mFilesys_ s1) (cluster_pos (finfo_ s) c + k) = 0) /\
    (forall m, fits (finfo_ s) m -> m <> c ->
       GetNextClus m s1 = GetNextClus m s).
Proof.
  intros WV Hint H2 (n & Hn & Hfree). pose proof (wf_geom _ WV) as WF.
  destruct (AllocateCluster_search fuel 0 s WV Hint H2)
    as (found & q & E & Hf & Hnone).
  destruct found.
  2:{ destruct (Hnone eq_refl n Hn Hfree). }
  destruct (Hf eq_refl) as [Hq Hqfree]. cbn [negb] in E.
  change (0 =? 0) with true in E. cbv iota in E.
  destruct (alloc_tail s q WV Hq) as (s' & E' & F & Q & _ & _ & Zero).
  exists q, s'. split.
  { rewrite E. rewrite (bind_step _ _ s s tt eq_refl). exact E'. }
  split; [exact Hq|]. split; [exact Hqfree|]. split; [exact F|].
  split; [exact Q|]. split; [exact Zero|].
  intros m Fm Hm.
  apply (GetNextClus_off_slots _ (fun y => y = q) m s s' WF Fm Hm F).
  intros j [Hj|[Hj|Hj]].
  - left. exists q. split; [reflexivity|]. split; [|exact Hj].
    apply in_volume_is_fit; assumption.
  - right. apply reserved_not_fat. apply (info_words_reserved s j WV Hj).
  - right. intros Hfat. apply (fat_not_data _ j Hfat).
    apply (cluster_in_data _ q j WF Hq Hj).
Qed.

(** The halves that [SetClus] stores for a cluster below 65536. *)
Lemma SetClus_small (c : Z) (e : FileEntry) :
  0 <= c < 65536 ->
  lo (SetClus c e) = c /\ hi (SetClus c e) = 0.
Proof.
  intros Hc.
  destruct (SetClus_halves c e) as [-> ->];
    [change (2 ^ 32) with 4294967296; lia|].
  split; lia.
Qed.

(** X30.  [mkdir] of a valid name (of bytes other than NUL, the
    first one not 0xE5) that no entry of the current directory has, on
    a well-formed volume whose cluster numbers are below 65536, with a
    free cluster and a next-free hint that is 0xFFFFFFFF or a cluster
    number of the volume ([hint_ok]), when the current directory is a
    chain of the volume with a free slot: the command returns;
    it takes a cluster [c] that was free and makes it a chain of its
    own; the current directory then lists at its first free slot a
    directory entry with the encoded name and the cluster [c]; and the
    new directory lists "." with the cluster [c] and ".." with the
    cluster of the current directory, 0 for the root, and nothing at
    any other slot. *)
Theorem Mkdir_creates (fuel : nat) (now1 now2 now3 : tm)
  (target fixed : list Z) (dl : list Z) (entries others : list FileEntry)
  (slot : FileEntry) (s : Filesys) :
  wf_volume s -> hint_ok s -> GetEndOfFat (finfo_ s) <= 65536 ->
  valid_chain s (cwd_ s) dl -> (length dl <= fuel)%nat ->
  str_length target < npos ->
  0 ∉ target -> Forall is_byte target -> str_at target 0 <> DEALLOC ->
  ValidateFileName (map tolower target) = Some fixed ->
  GetFileList fuel (cwd_ s) false s = Val entries ->
  Forall (fun e => GetShortName e <> map tolower target) entries ->
  GetFileList fuel (cwd_ s) true s = Val (slot :: others) ->
  (exists n, in_volume (finfo_ s) n /\ GetNextClus n s = Val 0) ->
  exists c s',
    Mkdir fuel now1 now2 now3 [target] s = Ret tt s' /\
    in_volume (finfo_ s) c /\ GetNextClus c s = Val 0 /\
    valid_chain s' c [c] /\ valid_chain s' (cwd_ s') dl /\
    (exists entries' e,
       GetFileList fuel (cwd_ s') false s' = Val entries' /\ e ∈ entries' /\
       entryLoc e = entryLoc slot /\ name e = fixed /\ attr e = DIRECT /\
       clus e = c /\ size e = 0) /\
    (exists sub d1 d2,
       GetFileList fuel c false s' = Val sub /\ d1 ∈ sub /\ d2 ∈ sub /\
       name d1 = str ".          " /\ attr d1 = DIRECT /\ clus d1 = c /\
       name d2 = str "..         " /\ attr d2 = DIRECT /\
       clus d2 = (if cwd_ s =? RootClus (finfo_ s) then 0 else cwd_ s) /\
       forall e, e ∈ sub -> entryLoc e = entryLoc d1 \/ entryLoc e = entryLoc d2).
Proof.
  intros WV Hint Hsmall Hch Hf Hlen Hnul Hby H0 HV E Hnew Hfree Hex.
  pose proof (wf_geom _ WV) as WF.
  set (name_ := map tolower target) in *.
  (* the name *)
  assert (Hlen' : str_length name_ < npos).
  { unfold str_length, name_. rewrite length_map. exact Hlen. }
  assert (Hnul' : 0 ∉ name_).
  { intros Hin. apply list_elem_of_fmap in Hin as (c & Ec & Hc).
    rewrite Forall_forall in Hby.
    destruct (tolower_byte' c (Hby c Hc)) as [_ N]; [|congruence].
    intros ->. contradiction. }
  assert (Hno : SLASH ∉ target).
  { intros Hin.
    rewrite (ValidateFileName_invalid name_ Hlen') in HV; [discriminate|].
    exists SLASH. split; [|apply slash_invalid].
    apply list_elem_of_fmap. exists SLASH. split; [reflexivity | exact Hin]. }
  destruct (ValidateFileName_chars name_ fixed Hlen' HV Hnul')
    as (Lf & Cf & Hf0).
  assert (Hne : target <> []).
  { intros ->. subst name_. cbn in HV. discriminate. }
  assert (Bf : Forall is_byte fixed).
  { apply Forall_forall. intros c Hcf. destruct (Cf c Hcf) as [Hin | ->].
    - apply list_elem_of_fmap in Hin as (c0 & -> & Hc0).
      rewrite Forall_forall in Hby.
      apply tolower_byte'; [apply Hby; exact Hc0|].
      intros ->. contradiction.
    - unfold is_byte, SPACE. lia. }
  assert (Nf : 0 ∉ fixed).
  { intros Hin. destruct (Cf 0 Hin) as [Hz | Hz]; [contradiction|].
    discriminate. }
  assert (Df : str_at fixed 0 <> DEALLOC).
  { rewrite Hf0. destruct target as [|t0 target']; [contradiction|].
    subst name_. cbn [map str_at nth] in *.
    apply Forall_cons in Hby as [Hb0 _].
    destruct (tolower_byte t0 Hb0) as (_ & _ & N1); auto.
    intros ->. apply Hnul. constructor. }
  (* the free slot of the current directory *)
  destruct (GetFileList_chain_slots true fuel (cwd_ s) dl s WV Hch Hf)
    as (free & Ef & Sound & _).
  rewrite Hfree in Ef. injection Ef as <-.
  destruct (Sound slot ltac:(constructor))
    as (x & k & Hx & Hk0 & Hk & Eloc & _ & _).
  destruct Hch as [Hc Hv].
  assert (Hxv : in_volume (finfo_ s) x).
  { rewrite Forall_forall in Hv. apply Hv. exact Hx. }
  assert (Hcwd : in_volume (finfo_ s) (cwd_ s)).
  { destruct (chain_head _ _ _ Hc) as [dl' ->].
    apply Forall_cons in Hv as [Hv0 _]. exact Hv0. }
  assert (H2 : in_volume (finfo_ s) 2).
  { destruct Hcwd as [A B]. split; lia. }
  destruct (cluster_len_wf _ WF) as [Elen Hlen32].
  pose proof (wf_mapped _ WV) as Mp. pose proof (wf_fits32 _ WF) as H32.
  pose proof (wf_BytesPerSec _ WF) as HB.
  assert (HD : 0 <= FirstDataSec (finfo_ s) * BytesPerSec (finfo_ s)).
  { pose proof (wf_FsInfo _ WF). pose proof (wf_NumFats _ WF).
    pose proof (wf_FATSz _ WF). pose proof (wf_FirstDataSec _ WF).
    nia. }
  destruct (cluster_pos_wf _ WF x Hxv) as (_ & Hxlo & Hxhi).
  (* the entry of the new directory *)
  set (e0 := FileEntry_copy
               (new_entry slot (fill (map toupper name_) 11) DIRECT)).
  pose proof (AddEntry_free_slot fuel (cwd_ s) name_ DIRECT entries others
                slot s E Hnew Hfree) as A0.
  fold e0 in A0.
  (* the new cluster *)
  destruct (AllocateCluster_fresh fuel s WV Hint H2 Hex)
    as (c & s1 & EA & Hcv & Hcfree & F01 & Q & Zero & Others).
  assert (Hc65 : 0 <= c < 65536) by (destruct Hcv; lia).
  assert (Hcwd65 : 0 <= cwd_ s < 65536) by (destruct Hcwd; lia).
  assert (Hcn0 : (c =? 0) = false) by (apply Z.eqb_neq; destruct Hcv; lia).
  destruct (cluster_pos_wf _ WF c Hcv) as (_ & Hclo & Hchi).
  assert (Hnotin : c ∉ dl).
  { intros Hin. apply (chain_entry_nonzero s _ c dl Hc Hv Hin). exact Hcfree. }
  assert (Hxc : x <> c) by (intros ->; contradiction).
  assert (WV1 : wf_volume s1) by (apply (frame_wf _ _ _ F01 WV)).
  assert (I1 : finfo_ s1 = (finfo_ s)) by (apply (frame_finfo _ _ _ F01)).
  assert (C1 : cwd_ s1 = cwd_ s).
  { destruct (frame_fields _ _ _ F01) as (_ & _ & Hcw & _). exact Hcw. }
  assert (Hch1 : chain s1 (cwd_ s) dl).
  { apply (chain_frame s); [exact Hc|]. intros y Hy. apply Others.
    - apply in_volume_is_fit; [exact WF|].
      rewrite Forall_forall in Hv. apply Hv. exact Hy.
    - intros ->. contradiction. }
  destruct (fresh_directory fuel c 0x0FFFFFFF s1 WV1) as (L0 & slot0 & rest0 & L1 & Eloc0).
  { rewrite I1. exact Hcv. }
  { exact Q. }
  { unfold FATEND. lia. }
  { rewrite I1. exact Zero. }
  { clear - Hf Hc. destruct (chain_head _ _ _ Hc) as [dl' ->].
    cbn [length] in Hf. lia. }
  rewrite I1 in Eloc0.
  set (lv0 := FileEntry_copy
                (new_entry slot0 (fill (map toupper (str ".          ")) 11)
                   DIRECT)).
  set (tp0 := FileEntry_copy
                (new_entry slot0 (fill (map toupper (str "..         ")) 11)
                   DIRECT)).
  pose proof (AddEntry_free_slot fuel c (str ".          ") DIRECT [] rest0
                slot0 s1 L0 ltac:(constructor) L1) as A1.
  pose proof (AddEntry_free_slot fuel c (str "..         ") DIRECT [] rest0
                slot0 s1 L0 ltac:(constructor) L1) as A2.
  fold lv0 in A1. fold tp0 in A2.
  (* the three entries that are saved *)
  set (p := if cwd_ s =? RootClus (finfo_ s) then 0 else cwd_ s).
  assert (Hp65 : 0 <= p < 65536).
  { unfold p. destruct (cwd_ s =? RootClus (finfo_ s)); lia. }
  set (level1 := SetClus c lv0).
  set (top1 := next_slot (SetClus p tp0)).
  set (entry1 := set_name (SetClus c e0) fixed).
  assert (Ll : entryLoc level1 = cluster_pos (finfo_ s) c) by exact Eloc0.
  assert (Lt : entryLoc top1 = cluster_pos (finfo_ s) c + 32).
  { subst top1. cbn [entryLoc next_slot SetClus].
    change (entryLoc tp0) with (entryLoc slot0). rewrite Eloc0.
    apply u32_small. lia. }
  assert (Le : entryLoc entry1 = cluster_pos (finfo_ s) x + 32 * k) by exact Eloc.
  destruct (SetClus_small c lv0 Hc65) as [Llo Lhi]. fold level1 in Llo, Lhi.
  destruct (SetClus_small p tp0 Hp65) as [Tlo Thi].
  destruct (SetClus_small c e0 Hc65) as [Elo Ehi].
  set (s2 := set_image s1 (save_image now1 level1 (mFilesys_ s1))).
  set (s3 := set_image s2 (save_image now2 top1 (mFilesys_ s2))).
  set (s4 := set_image s3 (save_image now3 entry1 (mFilesys_ s3))).
  assert (Sz1 : filesys_size (mFilesys_ s1) = filesys_size (mFilesys_ s)).
  { apply (frame_size _ _ _ F01). }
  assert (F12 : frame (span (cluster_pos (finfo_ s) c) (cluster_pos (finfo_ s) c + 32)) s1 s2).
  { rewrite <- Ll. apply save_frame; rewrite ?Ll; lia. }
  assert (Sz2 : filesys_size (mFilesys_ s2) = filesys_size (mFilesys_ s)).
  { rewrite (frame_size _ _ _ F12). exact Sz1. }
  assert (F23 : frame (span (cluster_pos (finfo_ s) c + 32) (cluster_pos (finfo_ s) c + 32 + 32))
                  s2 s3).
  { rewrite <- Lt. apply save_frame; rewrite ?Lt; lia. }
  assert (Sz3 : filesys_size (mFilesys_ s3) = filesys_size (mFilesys_ s)).
  { rewrite (frame_size _ _ _ F23). exact Sz2. }
  assert (F34 : frame (span (cluster_pos (finfo_ s) x + 32 * k)
                         (cluster_pos (finfo_ s) x + 32 * k + 32)) s3 s4).
  { rewrite <- Le. apply save_frame; rewrite ?Le; lia. }
  assert (R1 : SaveFileEntry now1 level1 s1
               = Ret (SetCurrentTime now1 level1) s2).
  { apply SaveFileEntry_eq; rewrite Ll; lia. }
  assert (R2 : SaveFileEntry now2 top1 s2 = Ret (SetCurrentTime now2 top1) s3).
  { apply SaveFileEntry_eq; rewrite Lt; lia. }
  assert (R3 : SaveFileEntry now3 entry1 s3
               = Ret (SetCurrentTime now3 entry1) s4).
  { apply SaveFileEntry_eq; rewrite Le; lia. }
  exists c, s4.
  split.
  { unfold Mkdir. cbn [size_of length nth]. cbv zeta.
    change (negb (Z.of_nat 1 =? 1)) with false. cbv iota.
    rewrite (ParseAddress_simple target Hne Hno Hlen). fold name_.
    rewrite NavToDir_single.
    replace (back [name_]) with name_ by reflexivity.
    rewrite HV.
    rewrite (bind_step _ _ s s _ A0). cbv iota beta.
    rewrite (bind_step _ _ s s1 _ EA). cbv beta.
    rewrite Hcn0. cbn [negb]. cbv iota zeta.
    change (clus (set_name (SetClus c e0) fixed)) with c.
    rewrite (bind_step _ _ s1 s1 _ A1). cbv beta.
    rewrite (bind_step _ _ s1 s1 _ A2). cbv beta iota.
    fold level1.
    unfold bind at 1. unfold bind at 1. rewrite R1. unfold ret at 1.
    unfold bind at 1. unfold bind at 1. unfold get_finfo at 1.
    change (finfo_ s2) with (finfo_ s1). rewrite I1.
    fold p. fold top1. unfold bind at 1. rewrite R2. unfold ret at 1.
    fold entry1. unfold bind at 1. rewrite R3. reflexivity. }
  (* the states after the saves *)
  assert (I2 : finfo_ s2 = finfo_ s) by exact I1.
  assert (I3 : finfo_ s3 = finfo_ s) by exact I1.
  assert (I4 : finfo_ s4 = finfo_ s) by exact I1.
  assert (WV2 : wf_volume s2) by (apply (frame_wf _ _ _ F12 WV1)).
  assert (WV3 : wf_volume s3) by (apply (frame_wf _ _ _ F23 WV2)).
  assert (WV4 : wf_volume s4) by (apply (frame_wf _ _ _ F34 WV3)).
  assert (InC : forall j, span (cluster_pos (finfo_ s) c)
                            (cluster_pos (finfo_ s) c + 64) j ->
                ~ fat_area (finfo_ s) j).
  { intros j Hj. apply (chain_area_data _ [c] j WF).
    - constructor; [exact Hcv | constructor].
    - exists c. split; [constructor|]. unfold span in *. lia. }
  assert (InX : forall j, span (cluster_pos (finfo_ s) x + 32 * k)
                            (cluster_pos (finfo_ s) x + 32 * k + 32) j ->
                ~ fat_area (finfo_ s) j).
  { intros j Hj. apply (chain_area_data _ [x] j WF).
    - constructor; [exact Hxv | constructor].
    - exists x. split; [constructor|]. unfold span in *. lia. }
  assert (Keep : forall h l, Forall (in_volume (finfo_ s)) l ->
            chain s1 h l -> chain s4 h l).
  { intros h l Hl H1.
    assert (H2' : chain s2 h l).
    { refine (chain_off_fat _ s1 s2 h l _ _ F12 _ H1); rewrite ?I1; auto.
      intros j Hj. apply InC. unfold span in *. lia. }
    assert (H3' : chain s3 h l).
    { refine (chain_off_fat _ s2 s3 h l _ _ F23 _ H2'); rewrite ?I2; auto.
      intros j Hj. apply InC. unfold span in *. lia. }
    refine (chain_off_fat _ s3 s4 h l _ _ F34 _ H3'); rewrite ?I3; auto. }
  assert (Hc4 : valid_chain s4 c [c]).
  { split.
    - apply Keep; [constructor; [exact Hcv | constructor]|].
      apply (chain_end s1 c 0x0FFFFFFF Q). unfold FATEND. lia.
    - rewrite I4. constructor; [exact Hcv | constructor]. }
  assert (Hd4 : valid_chain s4 (cwd_ s) dl).
  { split; [apply Keep; assumption | rewrite I4; exact Hv]. }
  assert (C4 : cwd_ s4 = cwd_ s) by exact C1.
  (* what the three slots hold *)
  assert (Apart : forall j, span (cluster_pos (finfo_ s) x + 32 * k)
                              (cluster_pos (finfo_ s) x + 32 * k + 32) j ->
                  ~ span (cluster_pos (finfo_ s) c)
                      (cluster_pos (finfo_ s) c + cluster_len (finfo_ s)) j).
  { intros j Hj. apply (clusters_apart _ x c j WF Hxv Hcv Hxc).
    unfold span in *. lia. }
  assert (Range16 : forall v, 0 <= v < 65536 -> 0 <= v < 65536) by auto.
  assert (S1 : slot_holds (mFilesys_ s4) (cluster_pos (finfo_ s) c) level1).
  { apply (slot_holds_frame _ s3 s4 _ _ F34); [lia | |].
    { intros j Hj Hx4. apply (Apart j Hx4). unfold span in *. lia. }
    apply (slot_holds_frame _ s2 s3 _ _ F23); [lia | |].
    { unfold span. intros j Hj. lia. }
    rewrite <- Ll. apply save_slot_holds; rewrite ?Ll, ?Llo, ?Lhi; try lia.
    - apply bytes_ok_check. vm_compute. reflexivity.
    - reflexivity.
    - vm_compute. split; [discriminate | reflexivity].
    - vm_compute. split; [discriminate | reflexivity]. }
  assert (S2 : slot_holds (mFilesys_ s4) (cluster_pos (finfo_ s) c + 32) top1).
  { apply (slot_holds_frame _ s3 s4 _ _ F34); [lia | |].
    { intros j Hj Hx4. apply (Apart j Hx4). unfold span in *. lia. }
    rewrite <- Lt. apply save_slot_holds; rewrite ?Lt; try lia.
    - apply bytes_ok_check. vm_compute. reflexivity.
    - reflexivity.
    - vm_compute. split; [discriminate | reflexivity].
    - change (lo top1) with (lo (SetClus p tp0)). rewrite Tlo. lia.
    - change (hi top1) with (hi (SetClus p tp0)). rewrite Thi. lia.
    - vm_compute. split; [discriminate | reflexivity]. }
  assert (S3 : slot_holds (mFilesys_ s4) (cluster_pos (finfo_ s) x + 32 * k)
                 entry1).
  { rewrite <- Le. apply save_slot_holds; rewrite ?Le; try lia.
    - exact Bf.
    - exact Lf.
    - vm_compute. split; [discriminate | reflexivity].
    - change (lo entry1) with (lo (SetClus c e0)). rewrite Elo. lia.
    - change (hi entry1) with (hi (SetClus c e0)). rewrite Ehi. lia.
    - vm_compute. split; [discriminate | reflexivity]. }
  split; [exact Hcv|]. split; [exact Hcfree|]. split; [exact Hc4|].
  split; [rewrite C4; exact Hd4|]. split.
  - (* the entry in the current directory *)
    destruct (slot_listed fuel (cwd_ s) dl s4 x k entry1 WV4 Hd4 Hf Hx Hk0)
      as (entries' & e & E' & He & Hloc & En & Ea & _ & _ & Es & Ec).
    + rewrite I4. exact Hk.
    + rewrite I4. exact S3.
    + exact Lf.
    + exact Nf.
    + exact Df.
    + vm_compute. discriminate.
    + exists entries', e. rewrite C4. split; [exact E'|]. split; [exact He|].
      rewrite I4 in Hloc. split; [rewrite Hloc; symmetry; exact Eloc|].
      split; [exact En|]. split; [exact Ea|]. split; [|exact Es].
      rewrite Ec. change (lo entry1) with (lo (SetClus c e0)).
      change (hi entry1) with (hi (SetClus c e0)). rewrite Elo, Ehi. lia.
  - (* the two entries of the new directory *)
    assert (Hf1 : (length [c] <= fuel)%nat).
    { clear - Hf Hc. destruct (chain_head _ _ _ Hc) as [dl' ->].
      cbn [length] in *. lia. }
    destruct (slot_listed fuel c [c] s4 c 0 level1 WV4 Hc4 Hf1
                ltac:(constructor) ltac:(lia))
      as (sub & d1 & Es1 & Hd1 & Hl1 & En1 & Ea1 & _ & _ & _ & Ec1).
    + rewrite I4. lia.
    + rewrite I4, Z.mul_0_r, Z.add_0_r. exact S1.
    + reflexivity.
    + vm_compute. intros H. apply list_elem_of_In in H. cbn in H.
      intuition discriminate.
    + vm_compute. discriminate.
    + vm_compute. discriminate.
    + destruct (slot_listed fuel c [c] s4 c 1 top1 WV4 Hc4 Hf1
                  ltac:(constructor) ltac:(lia))
        as (sub' & d2 & Es2 & Hd2 & Hl2 & En2 & Ea2 & _ & _ & _ & Ec2).
      * rewrite I4. lia.
      * rewrite I4. exact S2.
      * reflexivity.
      * vm_compute. intros H. apply list_elem_of_In in H. cbn in H.
        intuition discriminate.
      * vm_compute. discriminate.
      * vm_compute. discriminate.
      * rewrite Es1 in Es2. injection Es2 as <-.
        rewrite I4 in Hl1, Hl2.
        exists sub, d1, d2. split; [exact Es1|]. split; [exact Hd1|].
        split; [exact Hd2|]. split; [exact En1|]. split; [exact Ea1|].
        split; [rewrite Ec1, Llo, Lhi; lia|]. split; [exact En2|].
        split; [exact Ea2|]. split.
        { rewrite Ec2. change (lo top1) with (lo (SetClus p tp0)).
          change (hi top1) with (hi (SetClus p tp0)). rewrite Tlo, Thi.
          unfold p. lia. }
        intros e He.
        destruct (GetFileList_chain_slots false fuel c [c] s4 WV4 Hc4 Hf1)
          as (sub2 & Es3 & Sound2 & _).
        rewrite Es1 in Es3. injection Es3 as <-.
        destruct (Sound2 e He) as (y & k' & Hy & Hk0' & Hk' & Eloc' & [W _] & _).
        apply list_elem_of_singleton in Hy. subst y. rewrite I4 in *.
        rewrite Hl1, Hl2, Eloc'.
        destruct (Z.eq_dec k' 0) as [-> | N0]; [left; lia|].
        destruct (Z.eq_dec k' 1) as [-> | N1]; [right; lia|].
        exfalso. apply W. rewrite Eloc'.
        rewrite (frame_byte_at _ s3 s4 _ F34); [|lia|].
        2:{ intros Hx4. apply (Apart _ Hx4). unfold span. lia. }
        rewrite (frame_byte_at _ s2 s3 _ F23); [|lia|unfold span; lia].
        rewrite (frame_byte_at _ s1 s2 _ F12); [|lia|unfold span; lia].
        apply Zero. lia.
Qed.

Lemma Mkdir_creates_witness :
  exists c s',
    Mkdir 5 Sample.noon Sample.noon Sample.noon [str "NewDir"] Sample.mounted
    = Ret tt s' /\
    in_volume (finfo_ Sample.mounted) c /\
    GetNextClus c Sample.mounted = Val 0 /\
    valid_chain s' c [c] /\ valid_chain s' (cwd_ s') [2] /\
    (exists entries' e,
       GetFileList 5 (cwd_ s') false s' = Val entries' /\ e ∈ entries' /\
       entryLoc e = entryLoc (mkFileEntry [] 0 0 0 0 0 0 0 2144 0) /\
       name e = str "newdir     " /\ attr e = DIRECT /\
       clus e = c /\ size e = 0) /\
    (exists sub d1 d2,
       GetFileList 5 c false s' = Val sub /\ d1 ∈ sub /\ d2 ∈ sub /\
       name d1 = str ".          " /\ attr d1 = DIRECT /\ clus d1 = c /\
       name d2 = str "..         " /\ attr d2 = DIRECT /\
       clus d2 = (if cwd_ Sample.mounted =? RootClus (finfo_ Sample.mounted)
                  then 0 else cwd_ Sample.mounted) /\
       forall e, e ∈ sub ->
         entryLoc e = entryLoc d1 \/ entryLoc e = entryLoc d2).
Proof.
  apply (Mkdir_creates 5 Sample.noon Sample.noon Sample.noon (str "NewDir")
           (str "newdir     ") [2] [Sample.hello; Sample.empty; Sample.sub]
           (tl (match GetFileList 5 (cwd_ Sample.mounted) true Sample.mounted
                with Val l => l | _ => [] end))
           (mkFileEntry [] 0 0 0 0 0 0 0 2144 0)
           Sample.mounted mounted_wf mounted_hint).
  - vm_compute. discriminate.
  - exact root_chain.
  - cbn. lia.
  - vm_compute. reflexivity.
  - vm_compute. intros H. apply list_elem_of_In in H. cbn in H.
    intuition discriminate.
  - apply bytes_ok_check. vm_compute. reflexivity.
  - vm_compute. discriminate.
  - vm_compute. reflexivity.
  - exact root_listing.
  - repeat (constructor; [vm_compute; discriminate|]). constructor.
  - vm_compute. reflexivity.
  - exists 7. split.
    + apply in_volume_check. vm_compute. reflexivity.
    + vm_compute. reflexivity.
Defined.
